(* ===== verification/_CoqProject ===== *)
-Q . S2P
Prelude.v
PySort.v
Hex.v
Json.v
Metric.v
RoutingTable.v
Lookup.v
Wire.v
Frames.v
Dispatcher.v
Bootstrap.v
System.v
LocalAddress.v
Protocol.v
Exchanges.v
Threads.v
Scheduler.v
Show.v
