(* ===== verification/Prelude.v ===== *)
(** * A verification development for DecentralizedSocial's Kademlia node

    The repository holds one Python program, [src/Python/DistributedStorageV1.py]:
    a class [Node] that joins a Kademlia-style overlay.  A node keeps

    - its identifier [self.CID], the SHA-1 hex digest of 20 random bytes
      (40 lowercase hex characters, a 160-bit integer);
    - the routing table [self.DHT], a Python list of 160 buckets, each a
      list of one-key dicts [{cid: ip}];
    - a single slot [self.pendingResponse] through which the server thread
      hands a [closestNodesResponse] payload to the lookup that waits for it.

    Two threads run forever: [receiveData] (accept one connection, read
    one [recv(1024)], [json.loads] it and dispatch on four message kinds)
    and [bootstrap] (every second: send [nodeInfoRequest] to the bootstrap
    peers and run the iterative lookup [deepNodeSearch] on one random
    target per bucket).  Messages are written by [sendData] with
    [json.dumps(data, indent=4)] on a fresh TCP connection.

    ** Files, in dependency order (the _CoqProject order)

    - [Prelude] (this file): the Python exception monad [py] (notation
      [x <- c ;; k] in [py_scope]), the state-and-exception monad [pyst]
      (notation [x <~ c ;; k]; mutations made before an exception persist,
      as on a Python object), [pyst_preserves] with the [preserves_tac]
      tactic for invariants, [int.bit_length], Python list indexing with
      negative indices and [IndexError], [mapM], the [dht] hint database.
    - [PySort]: [list.sort(key=...)] with a fallible key: keys first, left
      to right, then a stable insertion sort.  It refines the specification
      of a stable sort ([py_sort_key_refines_stable_sort]), which is what
      CPython's Timsort guarantees.
    - [Hex]: [int(s, 16)] with CPython's syntax on ASCII strings and
      [format(n, '040x')]; the round trip of 40-digit identifiers
      (C36).
    - [Json]: the values [json.loads] produces and the Python operations the
      code applies to them ([in], [d[k]], [l[i]], [==], [next(iter(d))]).
    - [Metric]: [getBucketIndex], [generateTargetCID] (the draw of
      [random.randint] is a parameter within its bounds); the XOR metric
      laws ([xor_metric]), the bucket index range and the bucket of the
      generated targets (C5,
      C40).
    - [RoutingTable]: [addNode] and [getClosestCIDs] on the 160 buckets;
      the table invariant [table_wf] and the inductive [dht_reachable] of
      the tables built by [addNode] (C2,
      C3, C8, C29,
      C33, C39).
    - [Lookup]: the [Network] class (what [sendData] does and which
      [closestNodesResponse], if any, arrives for a request),
      [askForClosestNodes] against it and [deepNodeSearch]'s loop as
      [search_step] iterated by [search_loop] with fuel; termination,
      fuel independence, convergence, results, and the four-node scenarios
      run on [peers_network] (C1,
      C4, C6,
      C7, C34,
      C35, [lookup_scenario_three_nodes]).
    - [Wire]: [json.dumps(v, indent=4)] as CPython's [_make_iterencode]
      with [encode_basestring_ascii], and [json.loads] as the C scanner;
      the round trip for well-formed values (C23), and that
      every value [json.loads] returns is well-formed, its dicts without
      repeated keys (C24).
    - [Frames]: the scanner run on extended inputs, so that no proper
      prefix of an encoded dict or list decodes (C32), and
      the size of a [closestNodesResponse]: with 12 contacts it exceeds
      1024 bytes (C9).
    - [Dispatcher]: the body of [receiveData]'s loop on a decoded frame
      ([receiveData_frame]) over a [Host] (the node and the frames it has
      sent) in [pyst], and the loop [serve]; the table invariant, the
      request handling and the end of the thread on the first exception
      (C25, C26, C27,
      C31).
    - [Bootstrap]: [__init__]'s state, the module-level [myNode] and one
      round of [bootstrap] ([bootstrap_round]) against any [Network]; the
      invariant and what a round sends and adds (C28,
      C30, [bootstrap_round_sent],
      [node_init_bootstrapIPs]).
    - [System]: several nodes and the frames in flight; a step binds a
      server's [listener] (or [bind] raises), delivers one frame (any
      prefix of at most 1024 bytes) to a listening server thread, sends a
      bootstrap thread's request, adds a contact a lookup returned (lines
      43-47), lets a bootstrap thread raise, or ends a busy wait.  Each
      step changes
      one node by a [peer_step], and the section [PeerInvariant] lifts
      properties of one node that [peer_step] keeps to every run.
      Every reachable world keeps every table well-formed
      (C19); one request/response exchange is exactly
      [askForClosestNodes] under [peers_network] of the system's tables
      (C13), which ties the [Network] assumed by [Lookup]
      and [Bootstrap] to the threads; a reply longer than 1024 bytes kills
      the asker's server and its lookup waits forever in every
      interleaving (C10); an answer that arrives when no
      lookup waits ends the next lookup's wait before its own request is
      delivered (C20); a bootstrap thread
      that contacts an address where no server listens ends for good
      (C11); a node that announces itself
      before its own listener is bound stops the peer's server for good,
      since only [time.sleep(1)] orders the two threads
      (C12); the two-node join of the
      description runs as specified from the state [__init__] leaves
      ([two_node_join]).
    - [LocalAddress]: [get_local_ip] against the operating system's
      datagram sockets (a socket table, the kernel's routing decision
      and its free ports) on both of its outcomes, the socket left open
      when [connect] raises included (C38), and
      [__init__] as [node_start]: the self-exclusion, [get_local_ip],
      whose exception ends [__init__] before any thread starts, and the
      two threads; the self-exclusion compares with the public address
      only, so a listed local address is kept (C37).
    - [Protocol]: the four messages as an inductive type with their JSON
      encoding and a decoder that is its left inverse; the typing
      invariant of worlds, kept by every step (C21), and
      its consequence that a delivered frame is decoded as exactly the
      message sent or rejected when cut, so that the model's
      [Unsupported] case never arises (C22).
    - [Exchanges]: the exchanges of one lookup chained in the system:
      any sequence of [askForClosestNodes] calls to running nodes whose
      answers fit is run one exchange after another, changes no table and
      stops no server, and returns exactly the answers of
      [peers_network] of the starting tables (C14).
    - [Threads]: each bootstrap thread as a program counter [bpc] over
      the statements of [bootstrap] and [deepNodeSearch] ([boot_next]:
      draw the 160 targets, announce to the bootstrap addresses, then per
      target the selection, the request, the busy wait and the merge,
      and the bucket fill of lines 43-47), interleaved with the server
      threads by [thread_step].  Every run of it is a run of [System],
      which keeps contacts a thread holds known to its node
      (C16); a lookup run by the threads through the
      peers' servers ends in the bucket fill with exactly the result of
      [Lookup.deepNodeSearch] under [peers_network] of the tables
      (C15), so the [Lookup] theorems hold of the
      running threads.  A thread waiting in [askForClosestNodes] after
      its node's server thread has ended with the slot empty never
      moves again, whatever the other threads do
      (C17).
    - [Scheduler]: one interleaving as a function that runs: deliver
      the oldest frame whole, else bind a listener not yet bound, else
      run the next statement of the first bootstrap thread that can make
      one ([sched_step], with [random.randint] drawing its lower bound),
      repeated by [run_sched] with fuel and a stop condition, and proved
      to produce runs of [Threads] ([run_sched_sound]).  One whole
      bootstrap cycle of X in the two-node join, 160 lookups included,
      is evaluated with it: X's bucket 158 ends up holding Y twice and
      Y's holds X once (C18).
    - [Show]: the text [showDHT] prints, with [str.__repr__] of the
      contacts; one line per non-empty bucket whatever the table holds
      ([showDHT_one_line_per_bucket]).

    ** Fuel and bounds

    [search_loop] gets [search_fuel]: two more than the largest bucket
    index, relative to the target, of the seed's contacts.  The first
    iteration that goes on leaves a [closest_distance] below that index,
    each later one lowers it by at least 2, and nothing is selected below
    [-1], so this fuel is never exhausted (C1) and
    more fuel changes nothing (C35).
    [json_loads] gives its scanner [S (length s)] fuel; each nested
    container consumes a character, so this is enough for every encoded
    value ([jsize_le_length]) and the fuel-stability lemmas of [Frames]
    show that more changes nothing.  [boot_cycle] gives [run_sched] 10
    moves to leave the head of X's loop (two binds and X's first
    statement) and 3000 for the pass; the proved equation of
    [bootstrap_cycle_two_nodes] shows the pass ended within them, since
    it ends with X's thread back at the head of its loop.  Integers are Python's unbounded
    [int]s, as [Z]; CIDs are 160-bit values only where the code makes them
    so, and the theorems that need it say so ([cid160]).

    ** Not modelled

    SHA-1 and [os.urandom] (a CID is any 40-hex-digit string);
    [requests.get] of the public address (a parameter of [node_init]);
    the routing decision of the kernel, which [LocalAddress] takes as
    given; in [System] the address a node binds is identified with the
    address its peers connect to (no NAT, out of the description's
    scope), and every node uses the port 60000 of [myNode]; [time.sleep] (time
    is not modelled: the interleavings include every order the sleeps
    make likely or unlikely); the main thread's sleep loop, which
    changes no state; the
    progress [print]s of [bootstrap] and [receiveData]; floats, NaN,
    non-ASCII bytes and [\u] escapes above 255 in [json.loads] (reported
    as unsupported, never produced by the nodes, as [Protocol] shows);
    TCP beyond "a connection to a listening address succeeds and delivers
    the bytes [send] wrote, of which [recv] returns a prefix" (a partial
    [client.send] of at least one byte is covered, since the receiver
    then reads a prefix).  In [System] the bootstrap thread's requests,
    its [addNode] calls and its own exceptions are free choices;
    [Threads] runs them in the order of the code. *)

From Stdlib Require Import ZArith Lia Ascii String.
From stdpp Require Import base list.

Local Open Scope Z_scope.

(** ** Python exceptions *)

(** The exceptions the modelled code can raise.  Any of them, raised in a
    thread's loop body, ends that thread: the source has no [try]. *)
Inductive exn :=
| ValueError
| TypeError
| IndexError
| KeyError
| StopIteration
| OSError
| JSONDecodeError.

#[export] Instance exn_eq_dec : EqDecision exn.
Proof. solve_decision. Defined.

(** A computation of the program: a value, or a raised exception. *)
Inductive py (A : Type) : Type :=
| Ok (a : A)
| Raise (e : exn).
Arguments Ok {A} a.
Arguments Raise {A} e.

Definition py_bind {A B : Type} (c : py A) (k : A -> py B) : py B :=
  match c with
  | Ok a => k a
  | Raise e => Raise e
  end.

Definition py_map {A B : Type} (f : A -> B) (c : py A) : py B :=
  py_bind c (fun a => Ok (f a)).

Declare Scope py_scope.
Delimit Scope py_scope with py.
Notation "x <- c ;; k" := (py_bind c (fun x => k))
  (at level 100, c at next level, right associativity) : py_scope.
Open Scope py_scope.

Lemma py_bind_Ok {A B} (c : py A) (k : A -> py B) (b : B) :
  py_bind c k = Ok b <-> exists a, c = Ok a /\ k a = Ok b.
Proof.
  destruct c as [a|e]; simpl; split.
  - eauto.
  - intros (a' & [= ->] & H). exact H.
  - discriminate.
  - intros (? & ? & _). discriminate.
Qed.

Lemma py_bind_Raise {A B} (c : py A) (k : A -> py B) (e : exn) :
  py_bind c k = Raise e <-> c = Raise e \/ exists a, c = Ok a /\ k a = Raise e.
Proof.
  destruct c as [a|e']; simpl; split.
  - eauto.
  - intros [H | (a' & [= ->] & H)]; [discriminate | exact H].
  - intros [= ->]. auto.
  - intros [[= ->] | (? & ? & _)]; [reflexivity | discriminate].
Qed.

(** Splits every [py_bind c k = Ok b] hypothesis into its two parts. *)
Ltac py_inv :=
  repeat match goal with
  | H : py_bind _ _ = Ok _ |- _ =>
      apply py_bind_Ok in H; destruct H as (? & ? & H)
  | H : Ok _ = Ok _ |- _ => injection H as H
  | H : Ok _ = Raise _ |- _ => discriminate H
  | H : Raise _ = Ok _ |- _ => discriminate H
  end.

(** [mapM] in the exception monad, left to right: the first element whose
    function raises determines the exception, as a Python loop does. *)
Fixpoint py_mapM {A B : Type} (f : A -> py B) (l : list A) : py (list B) :=
  match l with
  | [] => Ok []
  | x :: l' => y <- f x ;; ys <- py_mapM f l' ;; Ok (y :: ys)
  end.

(** ** Methods that mutate [self] *)

(** A method that updates a state [S] and may raise: what it changed
    before the exception stays changed, as with Python's in-place
    updates. *)
Definition pyst (S A : Type) : Type := S -> S * py A.

Definition pyst_ret {S A : Type} (a : A) : pyst S A := fun s => (s, Ok a).

Definition pyst_bind {S A B : Type} (c : pyst S A) (k : A -> pyst S B) : pyst S B :=
  fun s => match c s with
           | (s', Ok a) => k a s'
           | (s', Raise e) => (s', Raise e)
           end.

(** A pure computation that may raise, inside a method. *)
Definition pyst_lift {S A : Type} (c : py A) : pyst S A := fun s => (s, c).

Definition pyst_get {S : Type} : pyst S S := fun s => (s, Ok s).

Definition pyst_put {S : Type} (s : S) : pyst S unit := fun _ => (s, Ok tt).

(** An assignment to an attribute: [self.x = v]. *)
Definition pyst_modify {S : Type} (f : S -> S) : pyst S unit := fun s => (f s, Ok tt).

Notation "x <~ c ;; k" := (pyst_bind c (fun x => k))
  (at level 100, c at next level, right associativity) : py_scope.

(** [for x in l: f(x)]: the first exception ends the loop. *)
Fixpoint pyst_iter {S A : Type} (f : A -> pyst S unit) (l : list A) : pyst S unit :=
  match l with
  | [] => pyst_ret tt
  | x :: l' => pyst_bind (f x) (fun _ => pyst_iter f l')
  end.

(** A property of the state that a method keeps, whether it returns or
    raises. *)
Definition pyst_preserves {S A : Type} (P : S -> Prop) (c : pyst S A) : Prop :=
  forall s, P s -> P (fst (c s)).

Lemma pyst_preserves_ret {S A} (P : S -> Prop) (a : A) : pyst_preserves P (pyst_ret a).
Proof. intros s Hs. exact Hs. Qed.

Lemma pyst_preserves_lift {S A} (P : S -> Prop) (c : py A) : pyst_preserves P (pyst_lift c).
Proof. intros s Hs. exact Hs. Qed.

Lemma pyst_preserves_get {S} (P : S -> Prop) : pyst_preserves P pyst_get.
Proof. intros s Hs. exact Hs. Qed.

Lemma pyst_preserves_modify {S} (P : S -> Prop) (f : S -> S) :
  (forall s, P s -> P (f s)) -> pyst_preserves P (pyst_modify f).
Proof. intros Hf s Hs. exact (Hf s Hs). Qed.

Lemma pyst_preserves_bind {S A B} (P : S -> Prop) (c : pyst S A) (k : A -> pyst S B) :
  pyst_preserves P c -> (forall a, pyst_preserves P (k a)) -> pyst_preserves P (pyst_bind c k).
Proof.
  intros Hc Hk s Hs. unfold pyst_bind.
  specialize (Hc s Hs). destruct (c s) as [s' [a|e]]; [apply Hk|]; exact Hc.
Qed.

(** ** Python integers *)

(** [int.bit_length()]: the number of bits of [abs(z)], 0 for 0. *)
Definition bit_length (z : Z) : Z :=
  if Z.eqb z 0 then 0 else Z.log2 (Z.abs z) + 1.

(** ** Python lists indexed by an [int] *)

(** The position [lst[i]] refers to in a list of length [n]: negative
    indices count from the end; anything outside [-n, n) is an
    [IndexError], represented by [None]. *)
Definition py_norm_index (i : Z) (n : nat) : option nat :=
  if Z.leb 0 i then
    (if Z.ltb i (Z.of_nat n) then Some (Z.to_nat i) else None)
  else if Z.leb (- Z.of_nat n) i then Some (Z.to_nat (Z.of_nat n + i))
  else None.

(** [lst[i]]. *)
Definition py_getidx {A : Type} (l : list A) (i : Z) : py A :=
  match py_norm_index i (length l) with
  | Some k => match l !! k with Some x => Ok x | None => Raise IndexError end
  | None => Raise IndexError
  end.

(** [lst[i] = f(lst[i])], e.g. [self.DHT[i].append(x)]: the element is
    looked up first, so an index out of range raises before any change. *)
Definition py_modidx {A : Type} (f : A -> A) (l : list A) (i : Z) : py (list A) :=
  match py_norm_index i (length l) with
  | Some k => match l !! k with Some x => Ok (<[k := f x]> l) | None => Raise IndexError end
  | None => Raise IndexError
  end.

(** ** Automation *)

Create HintDb dht discriminated.
Create Rewrite HintDb dht_rw.

#[export] Hint Resolve pyst_preserves_ret pyst_preserves_lift pyst_preserves_get : dht.

Lemma pyst_preserves_iter {S A} (P : S -> Prop) (f : A -> pyst S unit) (l : list A) :
  (forall x, pyst_preserves P (f x)) -> pyst_preserves P (pyst_iter f l).
Proof.
  intros Hf. induction l as [|x l IH]; simpl; [apply pyst_preserves_ret|].
  apply pyst_preserves_bind; [apply Hf | intros _; exact IH].
Qed.

(** Splits a [pyst_preserves] goal along the method's binds and
    conditionals, leaving the steps that change the state. *)
Ltac preserves_tac :=
  repeat first
    [ apply pyst_preserves_bind; [|intros ?]
    | apply pyst_preserves_ret | apply pyst_preserves_lift | apply pyst_preserves_get
    | match goal with |- pyst_preserves _ (if ?b then _ else _) => destruct b end ].

(** ** Generic lemmas *)

Lemma py_mapM_Ok {A B} (f : A -> py B) (l : list A) (l' : list B) :
  py_mapM f l = Ok l' <-> Forall2 (fun x y => f x = Ok y) l l'.
Proof.
  revert l'; induction l as [|x l IH]; intros l'; simpl.
  - split; [intros [= <-]; constructor | intros H; inversion H; reflexivity].
  - split.
    + intros H. py_inv. subst. constructor; [assumption | apply IH; assumption].
    + intros H. inversion H as [|? y ? ys Hx Hrest]; subst.
      rewrite Hx. simpl. apply IH in Hrest. rewrite Hrest. reflexivity.
Qed.

Lemma py_mapM_total {A B} (f : A -> py B) (g : A -> B) (l : list A) :
  (forall x, f x = Ok (g x)) -> py_mapM f l = Ok (map g l).
Proof. intros Hf. induction l as [|x l IH]; simpl; [reflexivity|]. rewrite Hf, IH. reflexivity. Qed.

Lemma py_mapM_length {A B} (f : A -> py B) (l : list A) (l' : list B) :
  py_mapM f l = Ok l' -> length l' = length l.
Proof. intros H. apply py_mapM_Ok in H. symmetry. eapply Forall2_length. exact H. Qed.

Lemma bit_length_nonneg z : 0 <= bit_length z.
Proof.
  unfold bit_length. destruct (Z.eqb_spec z 0); [lia|].
  pose proof (Z.log2_nonneg (Z.abs z)). lia.
Qed.

Lemma bit_length_0_iff z : bit_length z = 0 <-> z = 0.
Proof.
  unfold bit_length. destruct (Z.eqb_spec z 0); [tauto|].
  pose proof (Z.log2_nonneg (Z.abs z)). split; lia.
Qed.

Lemma bit_length_opp z : bit_length (- z) = bit_length z.
Proof.
  unfold bit_length. rewrite Z.abs_opp.
  destruct (Z.eqb_spec (- z) 0), (Z.eqb_spec z 0); lia.
Qed.

(** For a non-negative [z]: [bit_length z = i + 1] exactly when
    [2^i <= z < 2^(i+1)]; this is the bucket-index arithmetic. *)
Lemma bit_length_pos_iff z i :
  0 <= z -> 0 <= i -> bit_length z = i + 1 <-> 2 ^ i <= z < 2 ^ (i + 1).
Proof.
  intros Hz Hi. unfold bit_length. rewrite Z.abs_eq by lia.
  destruct (Z.eqb_spec z 0) as [->|Hz0].
  - split; [lia|]. intros [H _]. pose proof (Z.pow_pos_nonneg 2 i). lia.
  - split.
    + intros Hl. assert (Z.log2 z = i) as <- by lia.
      pose proof (Z.log2_spec z). rewrite <- Z.add_1_r in H. apply H. lia.
    + intros Hb. rewrite (Z.log2_unique z i); [lia | lia |].
      rewrite <- Z.add_1_r. exact Hb.
Qed.

Lemma bit_length_le z n : 0 <= z < 2 ^ n -> 0 <= n -> bit_length z <= n.
Proof.
  intros [Hz Hlt] Hn. unfold bit_length. rewrite Z.abs_eq by lia.
  destruct (Z.eqb_spec z 0); [lia|].
  assert (Z.log2 z < n) by (apply Z.log2_lt_pow2; lia). lia.
Qed.

Lemma bit_length_lt_pow z : 0 <= z -> z < 2 ^ bit_length z.
Proof.
  intros Hz. unfold bit_length. rewrite Z.abs_eq by lia.
  destruct (Z.eqb_spec z 0) as [->|]; [reflexivity|].
  rewrite Z.add_1_r. apply Z.log2_spec. lia.
Qed.

Lemma py_norm_index_lt i n k : py_norm_index i n = Some k -> (k < n)%nat.
Proof.
  unfold py_norm_index.
  destruct (Z.leb_spec 0 i); [destruct (Z.ltb_spec i (Z.of_nat n)) |
    destruct (Z.leb_spec (- Z.of_nat n) i)]; intros; simplify_eq; lia.
Qed.

Lemma py_norm_index_nonneg i n :
  0 <= i < Z.of_nat n -> py_norm_index i n = Some (Z.to_nat i).
Proof.
  intros H. unfold py_norm_index.
  destruct (Z.leb_spec 0 i); [destruct (Z.ltb_spec i (Z.of_nat n))|]; first [reflexivity | lia].
Qed.

Lemma py_norm_index_negative i n :
  - Z.of_nat n <= i < 0 -> py_norm_index i n = Some (Z.to_nat (Z.of_nat n + i)).
Proof.
  intros H. unfold py_norm_index.
  destruct (Z.leb_spec 0 i); [lia|]. destruct (Z.leb_spec (- Z.of_nat n) i); [reflexivity | lia].
Qed.

Lemma py_norm_index_None i n :
  py_norm_index i n = None <-> i < - Z.of_nat n \/ Z.of_nat n <= i.
Proof.
  unfold py_norm_index.
  destruct (Z.leb_spec 0 i); [destruct (Z.ltb_spec i (Z.of_nat n)) |
    destruct (Z.leb_spec (- Z.of_nat n) i)]; split; intros; first [discriminate | lia | reflexivity].
Qed.

Lemma py_modidx_Ok {A} (f : A -> A) (l l' : list A) i :
  py_modidx f l i = Ok l' <->
  exists k x, py_norm_index i (length l) = Some k /\ l !! k = Some x /\ l' = <[k := f x]> l.
Proof.
  unfold py_modidx. split.
  - destruct (py_norm_index i (length l)) as [k|]; [|discriminate].
    destruct (l !! k) as [x|] eqn:E; [|discriminate]. intros [= <-]. eauto.
  - intros (k & x & -> & -> & ->). reflexivity.
Qed.

Lemma py_modidx_length {A} (f : A -> A) (l l' : list A) i :
  py_modidx f l i = Ok l' -> length l' = length l.
Proof. intros (k & x & _ & _ & ->)%py_modidx_Ok. apply length_insert. Qed.

Lemma elem_of_concat {A} (x : A) (ls : list (list A)) :
  x ∈ concat ls <-> exists l, l ∈ ls /\ x ∈ l.
Proof.
  rewrite list_elem_of_In, in_concat. setoid_rewrite list_elem_of_In. reflexivity.
Qed.

(** Replacing one inner list changes the total length by the difference. *)
Lemma length_concat_insert {A} (l : list (list A)) i x y :
  l !! i = Some x -> (length (concat (<[i := y]> l)) + length x = length (concat l) + length y)%nat.
Proof.
  revert i. induction l as [|z l IH]; intros [|i] Hi; simpl in *; try discriminate.
  - injection Hi as ->. rewrite !length_app. lia.
  - rewrite !length_app. specialize (IH i Hi). lia.
Qed.

#[export] Hint Resolve bit_length_nonneg py_norm_index_lt : dht.
#[export] Hint Rewrite py_norm_index_nonneg py_norm_index_negative using lia : dht_rw.
