(* ===== verification/PySort.v ===== *)
(** Python's [list.sort(key=f)] and its specification.

    CPython first calls the key function on every element, left to right
    (an exception from it propagates and leaves the list unsorted), then
    sorts stably by the computed keys (Timsort).  [py_sort_key] computes
    the keys with [py_mapM] and sorts the decorated list with the stable
    insertion sort [sort_by].  The theorems show that [sort_by] returns the
    only list that is sorted by key and keeps, for every key, the elements
    with that key in their original order: any stable sort, Timsort
    included, returns the same list, so the choice of algorithm in the
    model is not observable. *)

From Stdlib Require Import ZArith Lia Sorted.
From stdpp Require Import base list.
From S2P Require Import Prelude.

Local Open Scope Z_scope.

Section StableSort.
Context {A : Type}.
Implicit Types (kf : A -> Z) (x y : A) (l : list A).

(** Inserts [x] before the first element whose key is not smaller:
    [x] comes before the equal keys that follow it in the input. *)
Fixpoint insert_by kf x l : list A :=
  match l with
  | [] => [x]
  | y :: l' => if Z.leb (kf x) (kf y) then x :: l else y :: insert_by kf x l'
  end.

Fixpoint sort_by kf l : list A :=
  match l with
  | [] => []
  | x :: l' => insert_by kf x (sort_by kf l')
  end.

(** The specification of a stable sort by key: sorted, and for every key
    the subsequence of elements with that key is the input's. *)
Definition key_sorted kf l : Prop := Sorted (fun x y => kf x <= kf y) l.

Definition key_stable kf l l' : Prop :=
  forall k, filter (fun x => kf x = k) l' = filter (fun x => kf x = k) l.

Lemma insert_by_perm kf x l : insert_by kf x l ≡ₚ x :: l.
Proof.
  induction l as [|y l IH]; simpl; [reflexivity|].
  destruct (Z.leb_spec (kf x) (kf y)); [reflexivity|].
  rewrite IH. apply Permutation_swap.
Qed.

Lemma sort_by_perm kf l : sort_by kf l ≡ₚ l.
Proof.
  induction l as [|x l IH]; simpl; [reflexivity|].
  rewrite insert_by_perm, IH. reflexivity.
Qed.

Lemma length_sort_by kf l : length (sort_by kf l) = length l.
Proof. apply Permutation_length, sort_by_perm. Qed.

Lemma insert_by_sorted kf x l : key_sorted kf l -> key_sorted kf (insert_by kf x l).
Proof.
  unfold key_sorted. induction 1 as [|y l Hl IH Hhd]; simpl.
  - repeat constructor.
  - destruct (Z.leb_spec (kf x) (kf y)).
    + repeat constructor; assumption.
    + constructor; [exact IH|].
      destruct l as [|z l]; simpl; [constructor; lia|].
      inversion Hhd; subst.
      destruct (Z.leb_spec (kf x) (kf z)); constructor; lia.
Qed.

Lemma sort_by_sorted kf l : key_sorted kf (sort_by kf l).
Proof.
  induction l as [|x l IH]; simpl; [constructor|]. apply insert_by_sorted, IH.
Qed.

(** In a key-sorted list, every element after the head has a key at least
    the head's. *)
Lemma key_sorted_head_le kf x l y :
  key_sorted kf (x :: l) -> y ∈ l -> kf x <= kf y.
Proof.
  intros Hs Hy. apply Sorted_StronglySorted in Hs; [|intros ???; lia].
  inversion Hs as [|? ? _ Hall]; subst.
  rewrite Forall_forall in Hall. apply Hall. exact Hy.
Qed.

Lemma filter_insert_by kf x l k :
  key_sorted kf l ->
  filter (fun z => kf z = k) (insert_by kf x l) = filter (fun z => kf z = k) (x :: l).
Proof.
  induction l as [|y l IH]; intros Hs; simpl; [reflexivity|].
  destruct (Z.leb_spec (kf x) (kf y)); [reflexivity|].
  rewrite filter_cons, IH by (eapply Sorted_inv; exact Hs).
  rewrite !filter_cons.
  destruct (decide (kf y = k)), (decide (kf x = k)); try reflexivity.
  (* both keys equal k, but kf y < kf x *)
  lia.
Qed.

Lemma sort_by_stable kf l : key_stable kf l (sort_by kf l).
Proof.
  intros k. induction l as [|x l IH]; simpl; [reflexivity|].
  rewrite filter_insert_by by apply sort_by_sorted.
  rewrite !filter_cons. destruct (decide (kf x = k)); [f_equal|]; exact IH.
Qed.

(** Two key-sorted lists with the same subsequence for every key are
    equal. *)
Lemma key_sorted_stable_unique kf l1 l2 :
  key_sorted kf l1 -> key_sorted kf l2 -> key_stable kf l1 l2 -> l1 = l2.
Proof.
  revert l2. induction l1 as [|x l1 IH]; intros l2 H1 H2 Hst.
  - destruct l2 as [|y l2]; [reflexivity|].
    specialize (Hst (kf y)). rewrite filter_cons_True in Hst by reflexivity.
    discriminate.
  - destruct l2 as [|y l2].
    + specialize (Hst (kf x)). rewrite filter_cons_True in Hst by reflexivity.
      discriminate.
    + (* the heads have the same key: the smallest key of both lists *)
      assert (Hin : forall k z l, z ∈ filter (fun w => kf w = k) l -> z ∈ l /\ kf z = k).
      { intros k z l Hz. apply list_elem_of_filter in Hz. tauto. }
      assert (kf x = kf y) as Hxy.
      { pose proof (Hst (kf y)) as Hy. pose proof (Hst (kf x)) as Hx.
        rewrite filter_cons_True in Hy by reflexivity.
        rewrite (filter_cons_True _ x) in Hx by reflexivity.
        assert (y ∈ filter (fun w => kf w = kf y) (x :: l1)) as Hy'
          by (rewrite <- Hy; left).
        assert (x ∈ filter (fun w => kf w = kf x) (y :: l2)) as Hx'
          by (rewrite Hx; left).
        apply Hin in Hy' as [Hy1 _], Hx' as [Hx1 _].
        apply elem_of_cons in Hy1 as [->|Hy1]; [reflexivity|].
        apply elem_of_cons in Hx1 as [->|Hx1]; [reflexivity|].
        pose proof (key_sorted_head_le kf x l1 y H1 Hy1).
        pose proof (key_sorted_head_le kf y l2 x H2 Hx1). lia. }
      pose proof (Hst (kf x)) as Hk.
      rewrite !filter_cons_True in Hk by (simpl; congruence).
      injection Hk as -> _.
      f_equal. apply IH; [eapply Sorted_inv; eauto | eapply Sorted_inv; eauto |].
      intros k. specialize (Hst k). rewrite !filter_cons in Hst.
      match type of Hst with context [decide ?P] => destruct (decide P) end;
        [injection Hst as Hst|]; exact Hst.
Qed.
End StableSort.

(** [lst.sort(key=key)] as the model runs it: keys first, then the stable
    sort of the decorated list by its first component. *)
Definition py_sort_key {A : Type} (key : A -> py Z) (l : list A) : py (list A) :=
  kl <- py_mapM (fun x => k <- key x ;; Ok (k, x)) l ;;
  Ok (map snd (sort_by fst kl)).

Section SortByKey.
Context {A B : Type}.

Lemma insert_by_map (f : B -> A) (kf : A -> Z) x l :
  map f (insert_by (fun y => kf (f y)) x l) = insert_by kf (f x) (map f l).
Proof.
  induction l as [|y l IH]; simpl; [reflexivity|].
  destruct (Z.leb _ _); simpl; [reflexivity|]. rewrite IH. reflexivity.
Qed.

Lemma sort_by_map (f : B -> A) (kf : A -> Z) l :
  map f (sort_by (fun y => kf (f y)) l) = sort_by kf (map f l).
Proof.
  induction l as [|x l IH]; simpl; [reflexivity|]. rewrite insert_by_map, IH. reflexivity.
Qed.

Lemma insert_by_ext (kf1 kf2 : A -> Z) x l :
  kf1 x = kf2 x -> Forall (fun y => kf1 y = kf2 y) l ->
  insert_by kf1 x l = insert_by kf2 x l.
Proof.
  intros Hx. induction 1 as [|y l Hy Hl IH]; simpl; [reflexivity|].
  rewrite Hx, Hy. destruct (Z.leb _ _); [reflexivity|]. rewrite IH. reflexivity.
Qed.

Lemma sort_by_ext (kf1 kf2 : A -> Z) l :
  Forall (fun y => kf1 y = kf2 y) l -> sort_by kf1 l = sort_by kf2 l.
Proof.
  induction 1 as [|x l Hx Hl IH]; simpl; [reflexivity|].
  rewrite IH. apply insert_by_ext; [exact Hx|].
  eapply Permutation_Forall; [symmetry; apply sort_by_perm | exact Hl].
Qed.
End SortByKey.

(** When every key succeeds, [py_sort_key] is the stable sort by the key
    values. *)
Lemma py_sort_key_total {A} (key : A -> py Z) (kf : A -> Z) (l : list A) :
  Forall (fun x => key x = Ok (kf x)) l -> py_sort_key key l = Ok (sort_by kf l).
Proof.
  intros Hk. unfold py_sort_key.
  assert (py_mapM (fun x => k <- key x ;; Ok (k, x)) l = Ok (map (fun x => (kf x, x)) l)) as ->.
  { apply py_mapM_Ok. apply Forall2_fmap_r, Forall_Forall2_diag.
    eapply Forall_impl; [exact Hk|]. intros x ->. reflexivity. }
  simpl. f_equal.
  rewrite (sort_by_ext fst (fun q => kf (snd q))).
  - rewrite sort_by_map, map_map. simpl. rewrite map_id. reflexivity.
  - apply Forall_fmap, Forall_true. reflexivity.
Qed.

(** [py_sort_key] succeeds exactly when every key does, and its result is
    then [sort_by] of the key values. *)
Lemma py_sort_key_Ok {A} (key : A -> py Z) (l l' : list A) :
  py_sort_key key l = Ok l' <->
  exists kf, Forall (fun x => key x = Ok (kf x)) l /\ l' = sort_by kf l.
Proof.
  split.
  - intros H. exists (fun x => match key x with Ok k => k | Raise _ => 0 end).
    assert (Forall (fun x => key x = Ok (match key x with Ok k => k | Raise _ => 0 end)) l) as Hk.
    { unfold py_sort_key in H. apply py_bind_Ok in H as (kl & Hm & _).
      apply py_mapM_Ok in Hm. clear -Hm.
      induction Hm as [|x q l m Hx _ IH]; constructor; [|exact IH].
      apply py_bind_Ok in Hx as (k & Hk & _). rewrite Hk. reflexivity. }
    split; [exact Hk|]. rewrite py_sort_key_total with (kf := fun x => _) in H by exact Hk.
    injection H as <-. reflexivity.
  - intros (kf & Hk & ->). apply py_sort_key_total, Hk.
Qed.

Lemma py_sort_key_Raise {A} (key : A -> py Z) (l : list A) e :
  py_sort_key key l = Raise e -> exists x, x ∈ l /\ key x = Raise e.
Proof.
  unfold py_sort_key. intros H.
  destruct (py_mapM _ l) as [kl|e'] eqn:Hm; simpl in H; [discriminate|injection H as ->].
  induction l as [|x l IH]; simpl in Hm; [discriminate|].
  destruct (key x) as [k|e''] eqn:Hx; simpl in Hm.
  - destruct (py_mapM _ l) eqn:Hl; simpl in Hm; [discriminate|].
    injection Hm as ->. destruct (IH eq_refl) as (y & Hy & Hky).
    exists y. split; [right; exact Hy | exact Hky].
  - injection Hm as ->. exists x. split; [left | exact Hx].
Qed.

(** Refinement: with keys that all succeed, the model's sort returns
    exactly the lists that satisfy the specification of a stable sort. *)
Theorem py_sort_key_refines_stable_sort {A} (key : A -> py Z) (kf : A -> Z) (l l' : list A) :
  Forall (fun x => key x = Ok (kf x)) l ->
  (py_sort_key key l = Ok l' <-> key_sorted kf l' /\ key_stable kf l l').
Proof.
  intros Hk. rewrite py_sort_key_total with (kf := kf) by exact Hk. split.
  - intros [= <-]. split; [apply sort_by_sorted | apply sort_by_stable].
  - intros [Hs Hst]. f_equal. apply key_sorted_stable_unique with kf.
    + apply sort_by_sorted.
    + exact Hs.
    + intros k. rewrite Hst. symmetry. apply sort_by_stable.
Qed.

(** Cutting a key-sorted list: every element of the prefix is at most
    every element of the rest. *)
Lemma key_sorted_app_le {A} (kf : A -> Z) (l1 l2 : list A) x y :
  key_sorted kf (l1 ++ l2) -> x ∈ l1 -> y ∈ l2 -> kf x <= kf y.
Proof.
  unfold key_sorted. intros Hs. apply Sorted_StronglySorted in Hs; [|intros ???; lia].
  revert Hs. induction l1 as [|z l1 IH]; intros Hs Hx Hy; [inversion Hx|].
  inversion Hs as [|? ? Hs' Hall]; subst.
  apply elem_of_cons in Hx as [->|Hx].
  - rewrite Forall_forall in Hall. apply Hall, elem_of_app. right. exact Hy.
  - apply IH; [apply StronglySorted_Sorted in Hs'; apply Sorted_StronglySorted;
      [intros ???; lia | exact Hs'] | exact Hx | exact Hy].
Qed.

Lemma key_sorted_firstn {A} (kf : A -> Z) n (l : list A) :
  key_sorted kf l -> key_sorted kf (firstn n l).
Proof.
  unfold key_sorted. intros Hs. apply StronglySorted_Sorted.
  apply Sorted_StronglySorted in Hs; [|intros ???; lia].
  revert l Hs. induction n as [|n IH]; intros l Hs; [constructor|].
  destruct l as [|x l]; simpl; [constructor|].
  inversion Hs as [|? ? Hs' Hall]; subst. constructor; [apply IH, Hs'|].
  rewrite Forall_forall in *. intros y Hy. apply Hall. apply (subseteq_take n l), Hy.
Qed.

(** ** Witnesses *)

Lemma py_sort_key_refines_stable_sort_witness :
  Forall (fun x => Ok x = Ok (id x)) [3; 1; 2; 1] /\
  (py_sort_key (fun x => Ok x) [3; 1; 2; 1] = Ok [1; 1; 2; 3] <->
   key_sorted id [1; 1; 2; 3] /\ key_stable id [3; 1; 2; 1] [1; 1; 2; 3]).
Proof.
  split; [repeat constructor|].
  apply (py_sort_key_refines_stable_sort (fun x => Ok x) id). repeat constructor.
Defined.
