(* ===== verification/Hex.v ===== *)
(** Hexadecimal identifiers: [int(s, 16)] and [format(n, '040x')].

    Every CID of the program is a string: [hashlib.sha1(...).hexdigest()]
    (40 lowercase hex digits), [format(targetInt, '040x')] in
    [generateTargetCID], or whatever string a peer sent.  The code turns
    them into integers with [int(s, base=16)] each time it needs a
    distance.  This file models, on ASCII strings, the syntax CPython's
    [PyLong_FromString] accepts in base 16 (surrounding whitespace, one
    sign, an optional [0x]/[0X] prefix followed by at most one underscore,
    hex digits of either case with single underscores between them) and
    the formatting [format(n, '040x')] (lowercase digits, zero padded to
    40 characters after the sign).  The theorems are the round trips and
    the width of the formatted 160-bit values. *)

From Stdlib Require Import ZArith Lia Ascii String.
From stdpp Require Import base list.
From S2P Require Import Prelude.

Local Open Scope Z_scope.

(** ** Characters *)

(** [Py_ISSPACE] on ASCII: space, [\t], [\n], [\v], [\f], [\r]. *)
Definition py_isspace (c : ascii) : bool :=
  match nat_of_ascii c with
  | 9 | 10 | 11 | 12 | 13 | 32 => true
  | _ => false
  end%nat.

(** [_PyLong_DigitValue] restricted to the digits valid in base 16. *)
Definition hex_digit_value (c : ascii) : option Z :=
  let n := nat_of_ascii c in
  if Nat.leb 48 n && Nat.leb n 57 then Some (Z.of_nat n - 48)
  else if Nat.leb 97 n && Nat.leb n 102 then Some (Z.of_nat n - 87)
  else if Nat.leb 65 n && Nat.leb n 70 then Some (Z.of_nat n - 55)
  else None.

(** The digit [format] writes for a value in [0, 16): lowercase. *)
Definition hex_char (d : Z) : ascii :=
  ascii_of_nat (if d <? 10 then Z.to_nat (48 + d) else Z.to_nat (87 + d)).

Definition is_lower_hex (c : ascii) : bool :=
  let n := nat_of_ascii c in (Nat.leb 48 n && Nat.leb n 57) || (Nat.leb 97 n && Nat.leb n 102).

(** ** [int(s, 16)] *)

Fixpoint skip_spaces (l : list ascii) : list ascii :=
  match l with
  | c :: l' => if py_isspace c then skip_spaces l' else l
  | [] => []
  end.

(** After the sign: a [0x] or [0X] prefix is dropped, and one underscore
    right after it. *)
Definition strip_prefix16 (l : list ascii) : list ascii :=
  match l with
  | c0 :: cx :: rest =>
      if Ascii.eqb c0 "0"%char && (Ascii.eqb cx "x"%char || Ascii.eqb cx "X"%char) then
        match rest with
        | cu :: rest' => if Ascii.eqb cu "_"%char then rest' else rest
        | [] => rest
        end
      else l
  | _ => l
  end.

(** The digits after the first one: a digit, or an underscore followed by
    a digit, or else only trailing whitespace.  [acc] is the value read so
    far. *)
Fixpoint hex_body (acc : Z) (l : list ascii) : option Z :=
  match l with
  | [] => Some acc
  | c :: l' =>
      match hex_digit_value c with
      | Some d => hex_body (acc * 16 + d) l'
      | None =>
          if Ascii.eqb c "_"%char then
            match l' with
            | c' :: l'' =>
                match hex_digit_value c' with
                | Some d => hex_body (acc * 16 + d) l''
                | None => None
                end
            | [] => None
            end
          else if forallb py_isspace l then Some acc else None
      end
  end.

(** At least one digit, and no leading underscore. *)
Definition hex_digits_value (l : list ascii) : option Z :=
  match l with
  | c :: l' => match hex_digit_value c with Some d => hex_body d l' | None => None end
  | [] => None
  end.

Definition int16_chars (l : list ascii) : option Z :=
  match skip_spaces l with
  | c :: rest =>
      if Ascii.eqb c "+"%char then hex_digits_value (strip_prefix16 rest)
      else if Ascii.eqb c "-"%char then option_map Z.opp (hex_digits_value (strip_prefix16 rest))
      else hex_digits_value (strip_prefix16 (c :: rest))
  | [] => None
  end.

(** [int(s, base=16)] for a Python [str]: a [ValueError] when the string is
    not a base-16 literal. *)
Definition int16 (s : string) : py Z :=
  match int16_chars (list_ascii_of_string s) with
  | Some z => Ok z
  | None => Raise ValueError
  end.

(** ** [format(n, '040x')] *)

(** The [n] low hexadecimal digits of [z], most significant first: digit
    [i] is [(z >> 4i) & 15]. *)
Fixpoint hex_fixed (n : nat) (z : Z) : list ascii :=
  match n with
  | O => []
  | S n' => hex_char ((z / 16 ^ Z.of_nat n') mod 16) :: hex_fixed n' z
  end.

(** How many digits [format(z, 'x')] writes for [z >= 0]: at least one. *)
Definition hex_ndigits (z : Z) : nat := Z.to_nat (Z.max 1 ((bit_length z + 3) / 4)).

Definition zero_pad (w : nat) (l : list ascii) : list ascii :=
  replicate (w - length l) "0"%char ++ l.

(** [format(z, '040x')]: sign-aware zero padding to a width of 40. *)
Definition format040x_chars (z : Z) : list ascii :=
  if z <? 0 then "-"%char :: zero_pad 39 (hex_fixed (hex_ndigits (- z)) (- z))
  else zero_pad 40 (hex_fixed (hex_ndigits z) z).

Definition format040x (z : Z) : string := string_of_list_ascii (format040x_chars z).

(** The shape of [hashlib.sha1(...).hexdigest()]: 40 lowercase hex digits. *)
Definition is_hexdigest (s : string) : bool :=
  Nat.eqb (String.length s) 40 && forallb is_lower_hex (list_ascii_of_string s).

(** ** Digits *)

(** The value of a list of hex digits, most significant first. *)
Fixpoint hex_value (l : list ascii) : Z :=
  match l with
  | [] => 0
  | c :: l' => default 0 (hex_digit_value c) * 16 ^ Z.of_nat (length l') + hex_value l'
  end.

Definition is_hex_digit (c : ascii) : bool := bool_decide (is_Some (hex_digit_value c)).

Lemma Z_cases16 (P : Z -> Prop) :
  (forall n : nat, (n < 16)%nat -> P (Z.of_nat n)) -> forall d, 0 <= d < 16 -> P d.
Proof. intros H d Hd. rewrite <- (Z2Nat.id d) by lia. apply H. lia. Qed.

(** What parsing needs to know of a formatted digit. *)
Lemma hex_char_props d :
  0 <= d < 16 ->
  hex_digit_value (hex_char d) = Some d /\ is_lower_hex (hex_char d) = true /\
  py_isspace (hex_char d) = false /\ Ascii.eqb (hex_char d) "+" = false /\
  Ascii.eqb (hex_char d) "-" = false /\ Ascii.eqb (hex_char d) "x" = false /\
  Ascii.eqb (hex_char d) "X" = false /\ Ascii.eqb (hex_char d) "_" = false.
Proof.
  revert d. apply Z_cases16. intros n Hn.
  do 16 (destruct n as [|n]; [vm_compute; repeat split|]). lia.
Qed.

Lemma hex_digit_value_range c d : hex_digit_value c = Some d -> 0 <= d < 16.
Proof.
  unfold hex_digit_value.
  destruct (Nat.leb_spec 48 (nat_of_ascii c)), (Nat.leb_spec (nat_of_ascii c) 57),
    (Nat.leb_spec 97 (nat_of_ascii c)), (Nat.leb_spec (nat_of_ascii c) 102),
    (Nat.leb_spec 65 (nat_of_ascii c)), (Nat.leb_spec (nat_of_ascii c) 70);
    simpl; intros; simplify_eq; lia.
Qed.

(** A lowercase digit is printed back as itself. *)
Lemma hex_char_digit c :
  is_lower_hex c = true -> exists d, hex_digit_value c = Some d /\ hex_char d = c.
Proof.
  intros H. rewrite <- (ascii_nat_embedding c) in *.
  pose proof (nat_ascii_bounded c) as Hb. revert H Hb.
  generalize (nat_of_ascii c) as n. intros n H Hb.
  unfold is_lower_hex in H. rewrite nat_ascii_embedding in H by exact Hb.
  assert (Hr : (48 <= n <= 57 \/ 97 <= n <= 102)%nat).
  { apply orb_true_iff in H as [H|H]; apply andb_true_iff in H as [H1 H2];
      apply Nat.leb_le in H1, H2; lia. }
  assert (n = 48 \/ n = 49 \/ n = 50 \/ n = 51 \/ n = 52 \/ n = 53 \/ n = 54 \/ n = 55 \/
          n = 56 \/ n = 57 \/ n = 97 \/ n = 98 \/ n = 99 \/ n = 100 \/ n = 101 \/ n = 102)%nat
    as Hn by lia.
  repeat destruct Hn as [-> | Hn]; subst; eexists; split; reflexivity.
Qed.

Lemma length_hex_fixed n z : length (hex_fixed n z) = n.
Proof. induction n; simpl; congruence. Qed.

Lemma Forall_hex_fixed (P : ascii -> Prop) n z :
  (forall d, 0 <= d < 16 -> P (hex_char d)) -> Forall P (hex_fixed n z).
Proof.
  intros HP. induction n as [|n IH]; simpl; constructor; [|exact IH].
  apply HP. apply Z.mod_pos_bound. lia.
Qed.

Lemma mod_mul_div_mod a b c :
  0 < b -> 0 < c -> ((a mod (b * c)) / b) mod c = (a / b) mod c.
Proof.
  intros Hb Hc. rewrite Z.rem_mul_r by lia.
  rewrite (Z.mul_comm b), Z.div_add by lia.
  rewrite (Z.div_small (a mod b)) by (apply Z.mod_pos_bound; lia).
  rewrite Z.add_0_l. apply Z.mod_mod. lia.
Qed.

Lemma mod_mul_mod a b c : 0 < b -> 0 < c -> (a mod (b * c)) mod b = a mod b.
Proof.
  intros Hb Hc. rewrite Z.rem_mul_r by lia.
  rewrite (Z.mul_comm b), Z_mod_plus_full. apply Z.mod_mod. lia.
Qed.

Lemma pow16_succ n : 16 ^ Z.of_nat (S n) = 16 ^ Z.of_nat n * 16.
Proof. rewrite Nat2Z.inj_succ, Z.pow_succ_r by lia. apply Z.mul_comm. Qed.

Lemma pow16_pos n : 0 < 16 ^ Z.of_nat n.
Proof. apply Z.pow_pos_nonneg; lia. Qed.

#[export] Hint Resolve pow16_pos : dht.

(** Only the low [n] digits matter. *)
Lemma hex_fixed_mod n z : hex_fixed n (z mod 16 ^ Z.of_nat n) = hex_fixed n z.
Proof.
  revert z. induction n as [|n IH]; intros z; [reflexivity|]. simpl hex_fixed.
  pose proof (pow16_pos n). rewrite pow16_succ. f_equal.
  - f_equal. apply mod_mul_div_mod; lia.
  - rewrite <- (IH (z mod _)), mod_mul_mod by lia. apply IH.
Qed.

(** A lowercase digit is none of the characters the parser treats
    specially. *)
Lemma lower_hex_props c :
  is_lower_hex c = true ->
  is_Some (hex_digit_value c) /\ py_isspace c = false /\ Ascii.eqb c "+" = false /\
  Ascii.eqb c "-" = false /\ Ascii.eqb c "x" = false /\ Ascii.eqb c "X" = false.
Proof.
  intros (d & Hd & <-)%hex_char_digit.
  pose proof (hex_digit_value_range _ _ Hd) as Hr.
  destruct (hex_char_props d Hr) as (H1 & _ & H3 & H4 & H5 & H6 & H7 & _).
  rewrite H1. repeat split; auto.
Qed.

Lemma hex_body_digits acc l :
  Forall (fun c => is_Some (hex_digit_value c)) l ->
  hex_body acc l = Some (acc * 16 ^ Z.of_nat (length l) + hex_value l).
Proof.
  intros H. revert acc. induction H as [|c l [d Hd] Hl IH]; intros acc; simpl.
  - f_equal. lia.
  - rewrite Hd, IH. simpl. f_equal. rewrite Nat2Z.inj_succ, Z.pow_succ_r by lia. ring.
Qed.

Lemma hex_value_bound l :
  Forall (fun c => is_Some (hex_digit_value c)) l -> 0 <= hex_value l < 16 ^ Z.of_nat (length l).
Proof.
  induction 1 as [|c l [d Hd] Hl IH]; simpl; [lia|].
  rewrite Hd. simpl. pose proof (hex_digit_value_range c d Hd).
  rewrite Nat2Z.inj_succ, Z.pow_succ_r by lia. nia.
Qed.

Lemma lower_hex_digits l :
  Forall (fun c => is_lower_hex c = true) l -> Forall (fun c => is_Some (hex_digit_value c)) l.
Proof. intros H. eapply Forall_impl; [exact H|]. intros c Hc. apply lower_hex_props, Hc. Qed.

Lemma lower_hex_fixed n z : Forall (fun c => is_lower_hex c = true) (hex_fixed n z).
Proof. apply Forall_hex_fixed. intros d Hd. apply hex_char_props, Hd. Qed.

Lemma hex_value_hex_fixed n z : hex_value (hex_fixed n z) = z mod 16 ^ Z.of_nat n.
Proof.
  revert z. induction n as [|n IH]; intros z; simpl.
  - rewrite Z.mod_1_r. reflexivity.
  - pose proof (pow16_pos n) as Hp.
    rewrite (proj1 (hex_char_props _ (Z.mod_pos_bound _ 16 ltac:(lia)))).
    simpl. rewrite length_hex_fixed, IH, Nat2Z.inj_succ, Z.pow_succ_r by lia.
    rewrite (Z.mul_comm 16), Z.rem_mul_r by lia. ring.
Qed.

(** Printing back a list of lowercase digits gives the list. *)
Lemma hex_fixed_hex_value l :
  Forall (fun c => is_lower_hex c = true) l -> hex_fixed (length l) (hex_value l) = l.
Proof.
  induction 1 as [|c l Hc Hl IH]; [reflexivity|]. simpl.
  destruct (hex_char_digit c Hc) as (d & Hd & Hcd). rewrite Hd. simpl.
  pose proof (hex_digit_value_range _ _ Hd).
  pose proof (hex_value_bound l (lower_hex_digits l Hl)).
  pose proof (pow16_pos (length l)).
  f_equal.
  - rewrite Z.div_add_l, Z.div_small, Z.add_0_r, Z.mod_small by lia. exact Hcd.
  - rewrite <- hex_fixed_mod, Z.add_comm, Z_mod_plus_full, Z.mod_small by lia. exact IH.
Qed.

Lemma strip_prefix16_lower l :
  Forall (fun c => is_lower_hex c = true) l -> strip_prefix16 l = l.
Proof.
  intros Hl. destruct l as [|c [|c' l]]; [reflexivity | reflexivity |].
  apply Forall_inv_tail, Forall_inv in Hl.
  destruct (lower_hex_props c' Hl) as (_ & _ & _ & _ & Hx & HX).
  simpl. rewrite Hx, HX, andb_false_r. reflexivity.
Qed.

Lemma hex_digits_value_lower l :
  l <> [] -> Forall (fun c => is_lower_hex c = true) l -> hex_digits_value l = Some (hex_value l).
Proof.
  intros Hne Hl. destruct l as [|c l]; [congruence|].
  destruct (lower_hex_props c (Forall_inv Hl)) as ([d Hd] & _).
  simpl. rewrite Hd, hex_body_digits by (apply lower_hex_digits, (Forall_inv_tail Hl)).
  reflexivity.
Qed.

(** The parser reads a non-empty list of lowercase digits as its value. *)
Lemma int16_chars_digits l :
  l <> [] -> Forall (fun c => is_lower_hex c = true) l -> int16_chars l = Some (hex_value l).
Proof.
  intros Hne Hl. destruct l as [|c l]; [congruence|].
  destruct (lower_hex_props c (Forall_inv Hl)) as (_ & Hs & Hp & Hm & _).
  unfold int16_chars. cbn [skip_spaces]. rewrite Hs. cbv iota beta. rewrite Hp, Hm.
  rewrite strip_prefix16_lower by exact Hl. apply hex_digits_value_lower; assumption.
Qed.

Lemma int16_chars_minus_digits l :
  l <> [] -> Forall (fun c => is_lower_hex c = true) l ->
  int16_chars ("-"%char :: l) = Some (- hex_value l).
Proof.
  intros Hne Hl. unfold int16_chars. simpl skip_spaces. cbv iota beta.
  change (Ascii.eqb "-" "+") with false. change (Ascii.eqb "-" "-") with true. cbv iota beta.
  rewrite strip_prefix16_lower, hex_digits_value_lower by assumption. reflexivity.
Qed.

(** ** Formatting *)

Lemma pow16_pow2 n : 16 ^ Z.of_nat n = 2 ^ (4 * Z.of_nat n).
Proof. rewrite Z.pow_mul_r by lia. reflexivity. Qed.

(** Digits above the value's length are zeros. *)
Lemma hex_fixed_pad k n z :
  0 <= z < 16 ^ Z.of_nat n -> hex_fixed (k + n) z = replicate k "0"%char ++ hex_fixed n z.
Proof.
  intros Hz. induction k as [|k IH]; [reflexivity|]. simpl. rewrite IH. f_equal.
  assert (16 ^ Z.of_nat n <= 16 ^ Z.of_nat (k + n)) by (apply Z.pow_le_mono_r; lia).
  rewrite Z.div_small by lia. reflexivity.
Qed.

Lemma hex_ndigits_pos z : (1 <= hex_ndigits z)%nat.
Proof. unfold hex_ndigits. lia. Qed.

Lemma hex_ndigits_bound z : 0 <= z -> z < 16 ^ Z.of_nat (hex_ndigits z).
Proof.
  intros Hz. pose proof (bit_length_lt_pow z Hz). pose proof (bit_length_nonneg z).
  rewrite pow16_pow2. unfold hex_ndigits. rewrite Z2Nat.id by lia.
  eapply Z.lt_le_trans; [eassumption|]. apply Z.pow_le_mono_r; [lia|].
  pose proof (Z.div_mod (bit_length z + 3) 4 ltac:(lia)).
  pose proof (Z.mod_pos_bound (bit_length z + 3) 4 ltac:(lia)). lia.
Qed.

Lemma hex_ndigits_le z m : 0 <= z < 2 ^ (4 * Z.of_nat m) -> (hex_ndigits z <= Nat.max 1 m)%nat.
Proof.
  intros Hz. pose proof (bit_length_le z (4 * Z.of_nat m) Hz ltac:(lia)).
  unfold hex_ndigits.
  assert ((bit_length z + 3) / 4 < Z.of_nat m + 1) by (apply Z.div_lt_upper_bound; lia). lia.
Qed.

Lemma zero_pad_hex_fixed w z :
  0 <= z -> zero_pad w (hex_fixed (hex_ndigits z) z) = hex_fixed (Nat.max w (hex_ndigits z)) z.
Proof.
  intros Hz. unfold zero_pad. rewrite length_hex_fixed.
  replace (Nat.max w (hex_ndigits z)) with ((w - hex_ndigits z) + hex_ndigits z)%nat by lia.
  symmetry. apply hex_fixed_pad. split; [exact Hz | apply hex_ndigits_bound, Hz].
Qed.

Lemma format040x_chars_nonneg z :
  0 <= z -> format040x_chars z = hex_fixed (Nat.max 40 (hex_ndigits z)) z.
Proof.
  intros Hz. unfold format040x_chars. destruct (Z.ltb_spec z 0); [lia|].
  apply zero_pad_hex_fixed, Hz.
Qed.

Lemma format040x_chars_neg z :
  z < 0 -> format040x_chars z = "-"%char :: hex_fixed (Nat.max 39 (hex_ndigits (- z))) (- z).
Proof.
  intros Hz. unfold format040x_chars. destruct (Z.ltb_spec z 0); [|lia].
  rewrite zero_pad_hex_fixed by lia. reflexivity.
Qed.

Lemma hex_value_hex_fixed_wide n z :
  0 <= z -> (hex_ndigits z <= n)%nat -> hex_value (hex_fixed n z) = z.
Proof.
  intros Hz Hn. rewrite hex_value_hex_fixed. apply Z.mod_small.
  pose proof (hex_ndigits_bound z Hz).
  assert (16 ^ Z.of_nat (hex_ndigits z) <= 16 ^ Z.of_nat n) by (apply Z.pow_le_mono_r; lia).
  lia.
Qed.

Lemma hex_fixed_nonempty n z : (1 <= n)%nat -> hex_fixed n z <> [].
Proof. destruct n; [lia|]. discriminate. Qed.

Lemma length_string_of_list_ascii l : String.length (string_of_list_ascii l) = length l.
Proof. induction l as [|c l IH]; simpl; congruence. Qed.

Lemma length_list_ascii_of_string s : length (list_ascii_of_string s) = String.length s.
Proof. induction s as [|c s IH]; simpl; congruence. Qed.

(** Formatting a value of at most 160 bits yields exactly its 40 low
    digits. *)
Lemma format040x_chars_160 z :
  0 <= z < 2 ^ 160 -> format040x_chars z = hex_fixed 40 z.
Proof.
  intros Hz. rewrite format040x_chars_nonneg by lia.
  pose proof (hex_ndigits_le z 40 Hz). f_equal. lia.
Qed.

(** ** The round trip between identifiers and integers *)

Lemma int16_format040x_eq z : int16 (format040x z) = Ok z.
Proof.
  unfold int16, format040x. rewrite list_ascii_of_string_of_list_ascii.
  destruct (Z.ltb_spec z 0).
  - rewrite format040x_chars_neg, int16_chars_minus_digits by
      first [lia | apply hex_fixed_nonempty; lia | apply lower_hex_fixed].
    rewrite hex_value_hex_fixed_wide by lia. f_equal. lia.
  - rewrite format040x_chars_nonneg, int16_chars_digits by
      first [lia | apply hex_fixed_nonempty; lia | apply lower_hex_fixed].
    rewrite hex_value_hex_fixed_wide by lia. reflexivity.
Qed.

Lemma format040x_is_hexdigest z : 0 <= z < 2 ^ 160 -> is_hexdigest (format040x z) = true.
Proof.
  intros Hz. unfold is_hexdigest, format040x.
  rewrite list_ascii_of_string_of_list_ascii, length_string_of_list_ascii,
    format040x_chars_160, length_hex_fixed by exact Hz.
  rewrite Nat.eqb_refl, andb_true_l. apply forallb_forall. intros c Hc.
  pose proof (lower_hex_fixed 40 z) as Hl. rewrite Forall_forall in Hl.
  apply Hl, list_elem_of_In, Hc.
Qed.

Lemma hexdigest_int16 s :
  is_hexdigest s = true -> exists z, int16 s = Ok z /\ 0 <= z < 2 ^ 160 /\ format040x z = s.
Proof.
  unfold is_hexdigest. intros [Hlen Hall]%andb_true_iff.
  apply Nat.eqb_eq in Hlen. rewrite forallb_forall in Hall.
  set (l := list_ascii_of_string s) in *.
  assert (Hl : Forall (fun c => is_lower_hex c = true) l).
  { apply Forall_forall. intros c Hc. apply Hall, list_elem_of_In, Hc. }
  assert (Hlen' : length l = 40%nat) by (subst l; rewrite length_list_ascii_of_string; exact Hlen).
  pose proof (hex_value_bound l (lower_hex_digits l Hl)) as Hb.
  rewrite Hlen', pow16_pow2 in Hb.
  exists (hex_value l). split; [|split; [exact Hb|]].
  - unfold int16. change (list_ascii_of_string s) with l.
    rewrite int16_chars_digits; [reflexivity | | exact Hl].
    intros E. rewrite E in Hlen'. discriminate.
  - unfold format040x. rewrite format040x_chars_160 by exact Hb.
    rewrite <- Hlen', hex_fixed_hex_value by exact Hl.
    subst l. apply string_of_list_ascii_of_string.
Qed.

(** ** Theorems *)

(** [int(format(z, '040x'), 16) == z] for every integer [z], negative
    ones included: the identifiers [generateTargetCID] prints are read back
    as the integers it computed. *)
Theorem int16_format040x z : int16 (format040x z) = Ok z.
Proof. exact (int16_format040x_eq z). Qed.

(** every 160-bit value is formatted as a string of the shape of a
    SHA-1 hex digest: 40 lowercase hex digits. *)
Theorem format040x_hexdigest z : 0 <= z < 2 ^ 160 -> is_hexdigest (format040x z) = true.
Proof. exact (format040x_is_hexdigest z). Qed.

(** C36: a hex digest is read as a 160-bit value that formats back to the
    same string: for well-formed CIDs, the string and the integer views
    agree. *)
Theorem hexdigest_int16_roundtrip s :
  is_hexdigest s = true -> exists z, int16 s = Ok z /\ 0 <= z < 2 ^ 160 /\ format040x z = s.
Proof. exact (hexdigest_int16 s). Qed.

(** ** Witnesses *)

Lemma format040x_hexdigest_witness :
  0 <= 255 < 2 ^ 160 /\ is_hexdigest (format040x 255) = true.
Proof. split; [lia | apply format040x_hexdigest; lia]. Defined.

Lemma hexdigest_int16_roundtrip_witness :
  is_hexdigest "da39a3ee5e6b4b0d3255bfef95601890afd80709"%string = true /\
  exists z, int16 "da39a3ee5e6b4b0d3255bfef95601890afd80709"%string = Ok z /\ 0 <= z < 2 ^ 160 /\
    format040x z = "da39a3ee5e6b4b0d3255bfef95601890afd80709"%string.
Proof.
  split; [vm_compute; reflexivity|].
  apply hexdigest_int16_roundtrip. vm_compute. reflexivity.
Defined.

(** CPython's accepted syntax: whitespace, sign, prefix, single
    underscores, both cases; and what it rejects. *)
Example int16_syntax :
  int16 " -0x_1F "%string = Ok (-31) /\ int16 "1_2"%string = Ok 18 /\ int16 "0x"%string = Raise ValueError /\
  int16 "1__2"%string = Raise ValueError /\ int16 "_12"%string = Raise ValueError /\
  int16 "12_"%string = Raise ValueError /\ int16 "0x__1"%string = Raise ValueError /\ int16 ""%string = Raise ValueError.
Proof. vm_compute. repeat split. Qed.
