(* ===== verification/Json.v ===== *)
(** JSON values and the Python operations the node applies to them.

    [json.loads] turns every frame into Python objects: [None], [bool],
    [int], [str], [list] and [dict] with string keys.  The code then uses
    them without checking their types: [key in data], [data[key]],
    [payload[0]], [dict(node)], [next(iter(d))], [node in asked_nodes]
    (Python [==]), [closest_nodes + new_nodes] and [not next_to_ask].  Each
    operation is modelled with the exception CPython raises on the types
    it does not accept.  JSON numbers with a fraction or exponent (Python
    floats) are not modelled. *)

From Stdlib Require Import ZArith Lia Ascii String.
From stdpp Require Import base list.
From S2P Require Import Prelude Hex.

Local Open Scope Z_scope.

Local Set Warnings "-register-all".

(** A value produced by [json.loads]; [JObj] keeps the keys in insertion
    order, as a Python [dict] does. *)
Inductive json : Type :=
| JNull
| JBool (b : bool)
| JInt (z : Z)
| JStr (s : string)
| JArr (l : list json)
| JObj (kvs : list (string * json)).

(** Key lookup in a dict, first match (keys are unique in a decoded
    object). *)
Fixpoint assoc {A : Type} (k : string) (kvs : list (string * A)) : option A :=
  match kvs with
  | [] => None
  | (k', v) :: kvs' => if String.eqb k k' then Some v else assoc k kvs'
  end.

(** Python [==] on decoded values: [True == 1] and [False == 0]; lists
    elementwise; dicts with the same keys mapped to equal values, in any
    order. *)
Fixpoint py_eq (a b : json) {struct a} : bool :=
  match a, b with
  | JNull, JNull => true
  | JBool x, JBool y => Bool.eqb x y
  | JBool x, JInt z => Z.eqb z (Z.b2z x)
  | JInt z, JBool x => Z.eqb z (Z.b2z x)
  | JInt x, JInt y => Z.eqb x y
  | JStr x, JStr y => String.eqb x y
  | JArr xs, JArr ys =>
      (fix go (xs ys : list json) : bool :=
         match xs, ys with
         | [], [] => true
         | x :: xs', y :: ys' => py_eq x y && go xs' ys'
         | _, _ => false
         end) xs ys
  | JObj kvs, JObj kvs' =>
      Nat.eqb (length kvs) (length kvs') &&
      (fix go (kvs : list (string * json)) : bool :=
         match kvs with
         | [] => true
         | (k, v) :: r =>
             match assoc k kvs' with
             | Some v' => py_eq v v' && go r
             | None => false
             end
         end) kvs
  | _, _ => false
  end.

(** [x in lst] for a Python list of decoded values. *)
Definition py_in_list (x : json) (l : list json) : bool := existsb (py_eq x) l.

(** [bool(x)]. *)
Definition py_truthy (j : json) : bool :=
  match j with
  | JNull => false
  | JBool b => b
  | JInt z => negb (Z.eqb z 0)
  | JStr s => negb (String.eqb s "")
  | JArr l => negb (Nat.eqb (length l) 0)
  | JObj kvs => negb (Nat.eqb (length kvs) 0)
  end.

(** Whether [s] occurs in [t] as a substring (Python [s in t]). *)
Fixpoint is_substring (s t : string) : bool :=
  String.prefix s t ||
  match t with
  | EmptyString => false
  | String _ t' => is_substring s t'
  end.

(** [key in data] for a string [key]: dict keys, list elements, or a
    substring test; a [TypeError] on [None], numbers and booleans. *)
Definition py_contains (data : json) (key : string) : py bool :=
  match data with
  | JObj kvs => Ok (bool_decide (is_Some (assoc key kvs)))
  | JArr l => Ok (py_in_list (JStr key) l)
  | JStr s => Ok (is_substring key s)
  | _ => Raise TypeError
  end.

(** [str(s)[i]] as a one-character string. *)
Definition py_str_getidx (s : string) (i : Z) : py json :=
  c <- py_getidx (list_ascii_of_string s) i ;; Ok (JStr (String c EmptyString)).

(** Whether a value can be a dict key ([list] and [dict] are unhashable). *)
Definition py_hashable (j : json) : bool :=
  match j with JArr _ | JObj _ => false | _ => true end.

(** [container[key]]: dict lookup by a string key, list and string
    indexing by an [int] (a [bool] indexes as 0 or 1). *)
Definition py_getitem (container key : json) : py json :=
  match container, key with
  | JObj kvs, JStr k => match assoc k kvs with Some v => Ok v | None => Raise KeyError end
  | JObj _, (JArr _ | JObj _) => Raise TypeError
  | JObj _, _ => Raise KeyError
  | JArr l, JInt i => py_getidx l i
  | JArr l, JBool b => py_getidx l (Z.b2z b)
  | JStr s, JInt i => py_str_getidx s i
  | JStr s, JBool b => py_str_getidx s (Z.b2z b)
  | _, _ => Raise TypeError
  end.

(** [lst + other] where [lst] is a Python list: [other] must be a list. *)
Definition py_list_add (l : list json) (other : json) : py (list json) :=
  match other with
  | JArr l' => Ok (l ++ l')
  | _ => Raise TypeError
  end.

(** One element of [dict(seq)] for a sequence [seq]: an iterable of length
    two, whose first item becomes a key and must be hashable. *)
Definition dict_item (j : json) : py (json * json) :=
  match j with
  | JArr [k; v] => if py_hashable k then Ok (k, v) else Raise TypeError
  | JArr _ => Raise ValueError
  | JStr s =>
      match list_ascii_of_string s with
      | [c1; c2] => Ok (JStr (String c1 EmptyString), JStr (String c2 EmptyString))
      | _ => Raise ValueError
      end
  | JObj [(k1, _); (k2, _)] => Ok (JStr k1, JStr k2)
  | JObj _ => Raise ValueError
  | _ => Raise TypeError
  end.

(** [next(iter(dict(node)))]: the first key of [dict(node)], or
    [StopIteration] when that dict is empty.  For a list, [dict] first
    converts every element (raising on the first bad one); the first key
    is the first element's key. *)
Definition first_key (node : json) : py json :=
  match node with
  | JObj ((k, _) :: _) => Ok (JStr k)
  | JObj [] => Raise StopIteration
  | JArr l =>
      items <- py_mapM dict_item l ;;
      match items with
      | (k, _) :: _ => Ok k
      | [] => Raise StopIteration
      end
  | JStr s =>
      items <- py_mapM dict_item (map (fun c => JStr (String c EmptyString)) (list_ascii_of_string s)) ;;
      match items with
      | (k, _) :: _ => Ok k
      | [] => Raise StopIteration
      end
  | _ => Raise TypeError
  end.

(** [int(x, base=16)] for any decoded value: only a [str] is accepted. *)
Definition py_int16 (x : json) : py Z :=
  match x with
  | JStr s => int16 s
  | _ => Raise TypeError
  end.

(** Induction on values, with a hypothesis for every element of a list
    or a dict. *)
Fixpoint json_ind' (P : json -> Prop) (HN : P JNull) (HB : forall b, P (JBool b))
    (HI : forall z, P (JInt z)) (HS : forall s, P (JStr s))
    (HA : forall l, Forall P l -> P (JArr l))
    (HO : forall kvs, Forall (fun kv => P kv.2) kvs -> P (JObj kvs)) (v : json) : P v :=
  match v with
  | JNull => HN
  | JBool b => HB b
  | JInt z => HI z
  | JStr s => HS s
  | JArr l =>
      HA l ((fix go (l : list json) : Forall P l :=
               match l with
               | [] => List.Forall_nil P
               | x :: l' => List.Forall_cons P x l' (json_ind' P HN HB HI HS HA HO x) (go l')
               end) l)
  | JObj kvs =>
      HO kvs ((fix go (kvs : list (string * json)) : Forall (fun kv => P kv.2) kvs :=
                 match kvs with
                 | [] => List.Forall_nil _
                 | (k, x) :: r =>
                     List.Forall_cons (fun kv => P kv.2) (k, x) r (json_ind' P HN HB HI HS HA HO x) (go r)
                 end) kvs)
  end.
