(* ===== verification/Metric.v ===== *)
(** The XOR metric: [getBucketIndex] and [generateTargetCID].

    [getBucketIndex(otherCid)] reads both identifiers with [int(., 16)],
    XORs them and returns [bit_length - 1]: the position of the highest
    bit in which they differ, or [-1] when they are equal.
    [generateTargetCID(i)] draws [random.randint(2**i, 2**(i+1) - 1)],
    XORs it into the node's own identifier and formats the result with
    [format(., '040x')].  The random draw is a parameter [randint] of the
    model: the theorems hold for every function that, like
    [random.randint], returns a value between its two bounds. *)

From Stdlib Require Import ZArith Lia String.
From stdpp Require Import base list.
From S2P Require Import Prelude Hex Json.

Local Open Scope Z_scope.

(** [distance = hash_0 ^ hash_1]. *)
Definition distance (hash_0 hash_1 : Z) : Z := Z.lxor hash_0 hash_1.

(** [distance.bit_length() - 1]. *)
Definition bucket_index (hash_0 hash_1 : Z) : Z := bit_length (distance hash_0 hash_1) - 1.

(** [Node.getBucketIndex]: the node's own [CID] is parsed first. *)
Definition getBucketIndex (CID : string) (otherCid : json) : py Z :=
  hash_0 <- int16 CID ;;
  hash_1 <- py_int16 otherCid ;;
  Ok (bucket_index hash_0 hash_1).

(** What the model assumes of [random.randint(a, b)]. *)
Definition randint_spec (randint : Z -> Z -> Z) : Prop :=
  forall a b, a <= b -> a <= randint a b <= b.

(** [Node.generateTargetCID]. *)
Definition generateTargetCID (randint : Z -> Z -> Z) (CID : string) (bucketDistance : Z)
    : py string :=
  myCidInt <- int16 CID ;;
  let lowerBound := 2 ^ bucketDistance in
  let upperBound := 2 ^ (bucketDistance + 1) - 1 in
  let distance := randint lowerBound upperBound in
  let targetInt := Z.lxor myCidInt distance in
  Ok (format040x targetInt).

(** A 160-bit identifier. *)
Definition cid160 (z : Z) : Prop := 0 <= z < 2 ^ 160.

(** ** Lemmas on XOR *)

Lemma lxor_nonneg a b : 0 <= a -> 0 <= b -> 0 <= Z.lxor a b.
Proof. intros. apply Z.lxor_nonneg. tauto. Qed.

(** XOR of two values below [2^n] stays below [2^n]. *)
Lemma lxor_lt_pow2 a b n : 0 <= n -> 0 <= a < 2 ^ n -> 0 <= b < 2 ^ n -> Z.lxor a b < 2 ^ n.
Proof.
  intros Hn Ha Hb. destruct (Z.eq_dec (Z.lxor a b) 0) as [->|H0].
  - apply Z.pow_pos_nonneg; lia.
  - pose proof (lxor_nonneg a b ltac:(lia) ltac:(lia)).
    apply Z.log2_lt_pow2; [lia|].
    pose proof (Z.log2_lxor a b ltac:(lia) ltac:(lia)).
    destruct (Z.eq_dec a 0) as [->|]; destruct (Z.eq_dec b 0) as [->|];
      try (rewrite ?Z.lxor_0_l, ?Z.lxor_0_r in *; apply Z.log2_lt_pow2; lia).
    pose proof (proj1 (Z.log2_lt_pow2 a n ltac:(lia)) ltac:(lia)).
    pose proof (proj1 (Z.log2_lt_pow2 b n ltac:(lia)) ltac:(lia)). lia.
Qed.

(** XOR is addition without carries. *)
Lemma lxor_le_add a b : 0 <= a -> 0 <= b -> Z.lxor a b <= a + b.
Proof.
  intros Ha Hb. rewrite <- Z.add_lxor_2land.
  assert (0 <= Z.land a b) by (apply Z.land_nonneg; lia). lia.
Qed.

#[export] Hint Resolve lxor_nonneg : dht.

(** ** Theorems *)

(** The bucket index of two 160-bit identifiers. *)
Lemma bucket_index_bounds a b :
  cid160 a -> cid160 b -> (a = b <-> bucket_index a b = -1) /\ (a <> b -> 0 <= bucket_index a b <= 159).
Proof.
  unfold cid160, bucket_index, distance. intros Ha Hb.
  pose proof (lxor_lt_pow2 a b 160 ltac:(lia) Ha Hb).
  pose proof (lxor_nonneg a b ltac:(lia) ltac:(lia)).
  pose proof (bit_length_le (Z.lxor a b) 160 ltac:(lia) ltac:(lia)).
  pose proof (bit_length_0_iff (Z.lxor a b)). pose proof (bit_length_nonneg (Z.lxor a b)).
  pose proof (Z.lxor_eq_0_iff a b). split; [split|]; intros; lia.
Qed.

(** C40: the bucket index of two distinct 160-bit identifiers lies in
    [0, 159]; it is [-1] exactly for equal identifiers. *)
Theorem bucket_index_range a b :
  cid160 a -> cid160 b -> (a = b <-> bucket_index a b = -1) /\ (a <> b -> 0 <= bucket_index a b <= 159).
Proof. exact (bucket_index_bounds a b). Qed.

(** the bucket index is symmetric. *)
Theorem bucket_index_sym a b : bucket_index a b = bucket_index b a.
Proof. unfold bucket_index, distance. rewrite Z.lxor_comm. reflexivity. Qed.

(** The bucket index is the position of the highest differing bit. *)
Lemma bucket_index_iff a b i :
  0 <= a -> 0 <= b -> 0 <= i ->
  bucket_index a b = i <-> 2 ^ i <= Z.lxor a b < 2 ^ (i + 1).
Proof.
  intros Ha Hb Hi. unfold bucket_index, distance.
  rewrite <- (bit_length_pos_iff (Z.lxor a b) i); [lia | | exact Hi].
  apply lxor_nonneg; assumption.
Qed.

(** A smaller bucket index means a strictly smaller XOR distance. *)
Lemma bucket_index_lt_dist t a b :
  0 <= t -> 0 <= a -> 0 <= b ->
  bucket_index t a < bucket_index t b -> Z.lxor t a < Z.lxor t b.
Proof.
  intros Ht Ha Hb. unfold bucket_index, distance. intros Hlt.
  pose proof (lxor_nonneg t a Ht Ha) as Hxa. pose proof (lxor_nonneg t b Ht Hb) as Hxb.
  pose proof (bit_length_lt_pow _ Hxa).
  pose proof (bit_length_nonneg (Z.lxor t b)).
  destruct (Z.eq_dec (Z.lxor t b) 0) as [E|E].
  - apply bit_length_0_iff in E. pose proof (bit_length_nonneg (Z.lxor t a)). lia.
  - assert (2 ^ (bit_length (Z.lxor t b) - 1) <= Z.lxor t b).
    { apply (bit_length_pos_iff _ (bit_length (Z.lxor t b) - 1)); [lia | |].
      - pose proof (proj1 (bit_length_0_iff (Z.lxor t b))). lia.
      - lia. }
    assert (2 ^ bit_length (Z.lxor t a) <= 2 ^ (bit_length (Z.lxor t b) - 1))
      by (apply Z.pow_le_mono_r; lia || (pose proof (bit_length_nonneg (Z.lxor t a)); lia)).
    lia.
Qed.

(** C5: [generateTargetCID(i)] returns an identifier in bucket [i] of the
    node: whatever [random.randint] draws between its bounds, the bucket
    index of the target is [i], for every [i >= 0]. *)
Theorem generateTargetCID_in_bucket randint CID i target :
  randint_spec randint -> is_hexdigest CID = true -> 0 <= i ->
  generateTargetCID randint CID i = Ok target ->
  getBucketIndex CID (JStr target) = Ok i.
Proof.
  intros Hr Hcid Hi Hgen.
  destruct (hexdigest_int16 CID Hcid) as (me & Hme & Hb & _).
  unfold generateTargetCID in Hgen. rewrite Hme in Hgen. simpl in Hgen.
  injection Hgen as <-.
  pose proof (Z.pow_pos_nonneg 2 i ltac:(lia)).
  rewrite Z.pow_add_r in * by lia.
  pose proof (Hr (2 ^ i) (2 ^ i * 2 ^ 1 - 1) ltac:(lia)) as Hd.
  set (d := randint _ _) in *.
  unfold getBucketIndex. rewrite Hme. simpl. rewrite int16_format040x_eq. simpl.
  f_equal. apply bucket_index_iff; [lia | apply lxor_nonneg; lia | lia |].
  rewrite <- Z.lxor_assoc, Z.lxor_nilpotent, Z.lxor_0_l, Z.pow_add_r by lia. lia.
Qed.

(** the identifiers [generateTargetCID] produces for buckets
    [0..159] have the shape of a CID: 40 lowercase hex digits. *)
Theorem generateTargetCID_hexdigest randint CID i target :
  randint_spec randint -> is_hexdigest CID = true -> 0 <= i <= 159 ->
  generateTargetCID randint CID i = Ok target -> is_hexdigest target = true.
Proof.
  intros Hr Hcid Hi Hgen.
  destruct (hexdigest_int16 CID Hcid) as (me & Hme & Hb & _).
  unfold generateTargetCID in Hgen. rewrite Hme in Hgen. simpl in Hgen.
  injection Hgen as <-. apply format040x_is_hexdigest.
  pose proof (Z.pow_pos_nonneg 2 i ltac:(lia)).
  pose proof (Hr (2 ^ i) (2 ^ (i + 1) - 1)) as Hd.
  assert (2 ^ (i + 1) <= 2 ^ 160) by (apply Z.pow_le_mono_r; lia).
  assert (2 ^ i <= 2 ^ (i + 1) - 1) by (rewrite Z.pow_add_r by lia; lia).
  specialize (Hd H1).
  split; [apply lxor_nonneg; lia|]. apply lxor_lt_pow2; lia.
Qed.

(** the XOR distance is a metric on identifiers: zero exactly on
    equal identifiers, symmetric, unique (a target's distance identifies
    the node), and bounded by the sum of the distances through a third
    identifier. *)
Theorem xor_metric a b c :
  0 <= a -> 0 <= b -> 0 <= c ->
  (distance a b = 0 <-> a = b) /\ distance a b = distance b a /\
  (distance a b = distance a c -> b = c) /\ distance a c <= distance a b + distance b c.
Proof.
  unfold distance. intros Ha Hb Hc. split; [apply Z.lxor_eq_0_iff|]. split; [apply Z.lxor_comm|].
  split.
  - intros H. apply (f_equal (Z.lxor a)) in H.
    rewrite <- !Z.lxor_assoc, Z.lxor_nilpotent, !Z.lxor_0_l in H. exact H.
  - replace (Z.lxor a c) with (Z.lxor (Z.lxor a b) (Z.lxor b c)).
    + apply lxor_le_add; apply lxor_nonneg; assumption.
    + rewrite Z.lxor_assoc, <- (Z.lxor_assoc b b), Z.lxor_nilpotent, Z.lxor_0_l. reflexivity.
Qed.

(** ** Witnesses *)

(** A draw that always returns the lower bound satisfies [randint_spec]. *)
Definition randint_low (a _ : Z) : Z := a.

Lemma bucket_index_range_witness :
  cid160 0 /\ cid160 1 /\
  ((0 = 1 <-> bucket_index 0 1 = -1) /\ (0 <> 1 -> 0 <= bucket_index 0 1 <= 159)).
Proof.
  unfold cid160. split; [lia|]. split; [lia|].
  apply bucket_index_range; unfold cid160; lia.
Defined.

Lemma generateTargetCID_in_bucket_witness :
  randint_spec randint_low /\ is_hexdigest (format040x 0) = true /\ 0 <= 5 /\
  generateTargetCID randint_low (format040x 0) 5 = Ok (format040x 32) /\
  getBucketIndex (format040x 0) (JStr (format040x 32)) = Ok 5.
Proof.
  assert (Hr : randint_spec randint_low) by (unfold randint_spec, randint_low; intros; lia).
  assert (Hc : is_hexdigest (format040x 0) = true) by (vm_compute; reflexivity).
  assert (Hg : generateTargetCID randint_low (format040x 0) 5 = Ok (format040x 32))
    by (vm_compute; reflexivity).
  split; [exact Hr|]. split; [exact Hc|]. split; [lia|]. split; [exact Hg|].
  apply (generateTargetCID_in_bucket randint_low (format040x 0) 5 (format040x 32) Hr Hc); [lia | exact Hg].
Defined.

Lemma generateTargetCID_hexdigest_witness :
  randint_spec randint_low /\ is_hexdigest (format040x 0) = true /\ 0 <= 159 <= 159 /\
  generateTargetCID randint_low (format040x 0) 159 = Ok (format040x (2 ^ 159)) /\
  is_hexdigest (format040x (2 ^ 159)) = true.
Proof.
  assert (Hr : randint_spec randint_low) by (unfold randint_spec, randint_low; intros; lia).
  assert (Hc : is_hexdigest (format040x 0) = true) by (vm_compute; reflexivity).
  assert (Hg : generateTargetCID randint_low (format040x 0) 159 = Ok (format040x (2 ^ 159)))
    by (vm_compute; reflexivity).
  split; [exact Hr|]. split; [exact Hc|]. split; [lia|]. split; [exact Hg|].
  apply (generateTargetCID_hexdigest randint_low (format040x 0) 159 _ Hr Hc); [lia | exact Hg].
Defined.

Lemma xor_metric_witness :
  0 <= 1 /\ 0 <= 2 /\ 0 <= 4 /\
  ((distance 1 2 = 0 <-> 1 = 2) /\ distance 1 2 = distance 2 1 /\
   (distance 1 2 = distance 1 4 -> 2 = 4) /\ distance 1 4 <= distance 1 2 + distance 2 4).
Proof. split; [lia|]. split; [lia|]. split; [lia|]. apply xor_metric; lia. Defined.

(** The spec's scenario "Bucket index": local [0x00..00], other
    [0x00..01] is in bucket 0, other [0x80..00] in bucket 159. *)
Example bucket_index_scenario :
  getBucketIndex (format040x 0) (JStr (format040x 1)) = Ok 0 /\
  getBucketIndex (format040x 0) (JStr (format040x (2 ^ 159))) = Ok 159.
Proof. vm_compute. split; reflexivity. Qed.
