(* ===== verification/RoutingTable.v ===== *)
(** The routing table [self.DHT]: [addNode] and [getClosestCIDs].

    [self.DHT] is a Python list of 160 lists.  [addNode(ip, cid)] computes
    [getBucketIndex(cid)] and appends the one-key dict [{cid: ip}] to
    [self.DHT[index]]: there is no duplicate check, no bucket capacity, and
    no test against the node's own identifier, whose index [-1] selects the
    last bucket by Python's negative indexing.  [getClosestCIDs(cid,
    amount)] concatenates the buckets in order, sorts the contacts by XOR
    distance to [cid] (the key parses both identifiers again) and returns
    the first [amount].

    The table is modelled as [list (list json)]; [addNode] returns the new
    table or the exception that leaves [self.DHT] unchanged (the index is
    computed, and [self.DHT[index]] looked up, before the append).  The
    invariant [table_wf] says where every stored contact lies. *)

From Stdlib Require Import ZArith Lia String.
From stdpp Require Import base list.
From S2P Require Import Prelude PySort Hex Json Metric.

Local Open Scope Z_scope.

(** [[[] for bucket in range(160)]]. *)
Definition empty_DHT : list (list json) := replicate 160 [].

(** [Node.addNode(ip, cid)]: [self.DHT[dht_index].append({cid: ip})]. *)
Definition addNode (CID : string) (DHT : list (list json)) (ip cid : json)
    : py (list (list json)) :=
  dht_index <- getBucketIndex CID cid ;;
  match cid with
  | JStr k => py_modidx (fun bucket => bucket ++ [JObj [(k, ip)]]) DHT dht_index
  | _ => Raise TypeError (* not reached: [getBucketIndex] rejects non-strings *)
  end.

(** The sort key of [getClosestCIDs]:
    [int(next(iter(dict(node))), base=16) ^ int(cid, base=16)]. *)
Definition node_key (cid node : json) : py Z :=
  key <- first_key node ;;
  a <- py_int16 key ;;
  b <- py_int16 cid ;;
  Ok (Z.lxor a b).

(** [Node.getClosestCIDs(cid, amount)]. *)
Definition getClosestCIDs (DHT : list (list json)) (cid : json) (amount : nat) : py (list json) :=
  let all_nodes := concat DHT in
  sorted_nodes <- py_sort_key (node_key cid) all_nodes ;;
  Ok (take amount sorted_nodes).

(** The number of contacts in the table. *)
Definition table_size (DHT : list (list json)) : nat := length (concat DHT).

(** A contact as [addNode] stores it: [{k: ip}] where [int(k, 16) = z]. *)
Definition stored_contact (node : json) (z : Z) : Prop :=
  exists k ip, node = JObj [(k, ip)] /\ int16 k = Ok z.

(** The invariant of [self.DHT] for a node whose identifier reads as [me]:
    160 buckets, and every contact sits in the bucket that Python's
    [self.DHT[bucket_index]] selects. *)
Definition table_wf (me : Z) (DHT : list (list json)) : Prop :=
  length DHT = 160%nat /\
  forall i bucket node, DHT !! i = Some bucket -> node ∈ bucket ->
    exists z, stored_contact node z /\ py_norm_index (bucket_index me z) 160 = Some i.

(** The XOR distance of a stored contact to a target [tz]. *)
Definition cid_dist (tz : Z) (node : json) : Z :=
  match node with
  | JObj ((k, _) :: _) => match int16 k with Ok z => Z.lxor z tz | Raise _ => 0 end
  | _ => 0
  end.

Section Table.
Variable CID : string.
Variable me : Z.
Hypothesis Hme : int16 CID = Ok me.

Lemma empty_DHT_wf : table_wf me empty_DHT.
Proof.
  split; [reflexivity|]. intros i bucket node Hi Hn.
  apply lookup_replicate in Hi as [-> _]. inversion Hn.
Qed.

(** What a successful [addNode] did. *)
Lemma addNode_Ok DHT ip cid DHT' :
  addNode CID DHT ip cid = Ok DHT' <->
  exists k z i bucket,
    cid = JStr k /\ int16 k = Ok z /\ py_norm_index (bucket_index me z) (length DHT) = Some i /\
    DHT !! i = Some bucket /\ DHT' = <[i := bucket ++ [JObj [(k, ip)]]]> DHT.
Proof.
  unfold addNode, getBucketIndex. rewrite Hme. simpl. split.
  - destruct cid as [| | |k| |]; simpl; try discriminate.
    destruct (int16 k) as [z|e] eqn:Hk; simpl; [|discriminate].
    intros (i & bucket & Hi & Hb & ->)%py_modidx_Ok. eauto 10.
  - intros (k & z & i & bucket & -> & Hk & Hi & Hb & ->). simpl. rewrite Hk. simpl.
    apply py_modidx_Ok. eauto.
Qed.

Lemma lookup_append_bucket (DHT : list (list json)) i j bucket x b :
  DHT !! i = Some bucket ->
  <[i := bucket ++ [x]]> DHT !! j = Some b ->
  (i = j /\ b = bucket ++ [x]) \/ (i <> j /\ DHT !! j = Some b).
Proof.
  intros Hi Hj. destruct (decide (i = j)) as [<-|Hne].
  - rewrite list_lookup_insert_eq in Hj by (eapply lookup_lt_Some; eauto).
    left. split; congruence.
  - rewrite list_lookup_insert_ne in Hj by exact Hne. right. split; assumption.
Qed.

(** [addNode] preserves the table invariant. *)
Lemma addNode_wf DHT ip cid DHT' :
  table_wf me DHT -> addNode CID DHT ip cid = Ok DHT' -> table_wf me DHT'.
Proof.
  intros [Hlen Hwf] (k & z & i & bucket & -> & Hk & Hi & Hb & ->)%addNode_Ok.
  split; [rewrite length_insert; exact Hlen|].
  intros j b node Hj Hn.
  destruct (lookup_append_bucket DHT i j bucket _ b Hb Hj) as [[<- ->] | [_ Hj']].
  - apply elem_of_app in Hn as [Hn | ->%list_elem_of_singleton].
    + eapply Hwf; eauto.
    + exists z. split; [exists k, ip; split; [reflexivity | exact Hk]|].
      rewrite <- Hlen. exact Hi.
  - eapply Hwf; eauto.
Qed.

(** The tables [self.DHT] goes through: the empty table, then any
    sequence of successful [addNode] calls (from [receiveData] or
    [bootstrap], in any interleaving). *)
Inductive dht_reachable : list (list json) -> Prop :=
| dht_init : dht_reachable empty_DHT
| dht_add DHT ip cid DHT' :
    dht_reachable DHT -> addNode CID DHT ip cid = Ok DHT' -> dht_reachable DHT'.

Lemma dht_reachable_wf DHT : dht_reachable DHT -> table_wf me DHT.
Proof.
  induction 1 as [|DHT ip cid DHT' _ IH Hadd].
  - apply empty_DHT_wf.
  - eapply addNode_wf; eauto.
Qed.

(** Every successful [addNode] adds exactly one contact. *)
Lemma addNode_table_size DHT ip cid DHT' :
  addNode CID DHT ip cid = Ok DHT' -> table_size DHT' = S (table_size DHT).
Proof.
  intros (k & z & i & bucket & -> & Hk & Hi & Hb & ->)%addNode_Ok.
  unfold table_size. pose proof (length_concat_insert DHT i bucket (bucket ++ [JObj [(k, ip)]]) Hb).
  rewrite length_app in H. simpl in H. lia.
Qed.

Lemma wf_elem_of_concat DHT node :
  table_wf me DHT -> node ∈ concat DHT ->
  exists i bucket z, DHT !! i = Some bucket /\ node ∈ bucket /\ stored_contact node z /\
    py_norm_index (bucket_index me z) 160 = Some i.
Proof.
  intros [_ Hwf] (bucket & Hb & Hn)%elem_of_concat.
  apply list_elem_of_lookup in Hb as [i Hi].
  destruct (Hwf i bucket node Hi Hn) as (z & Hz & Hidx). eauto 10.
Qed.

Lemma wf_node_key DHT node t tz :
  table_wf me DHT -> node ∈ concat DHT -> int16 t = Ok tz ->
  node_key (JStr t) node = Ok (cid_dist tz node).
Proof.
  intros Hwf Hn Ht.
  destruct (wf_elem_of_concat DHT node Hwf Hn) as (_ & _ & z & _ & _ & (k & ip & -> & Hk) & _).
  unfold node_key. simpl. rewrite Hk. simpl. rewrite Ht. reflexivity.
Qed.

(** On a well-formed table and a parsable target, [getClosestCIDs] is
    the stable sort by XOR distance, cut to [amount]. *)
Lemma getClosestCIDs_wf DHT t tz amount :
  table_wf me DHT -> int16 t = Ok tz ->
  getClosestCIDs DHT (JStr t) amount = Ok (take amount (sort_by (cid_dist tz) (concat DHT))).
Proof.
  intros Hwf Ht. unfold getClosestCIDs.
  rewrite (py_sort_key_total _ (cid_dist tz)); [reflexivity|].
  apply Forall_forall. intros node Hn. eapply wf_node_key; eauto.
Qed.

(** C3: every table the node reaches keeps each contact in the bucket
    of its identifier: a 160-bit contact other than the node itself sits
    in bucket [bucket_index me z]; the node's own identifier can only sit
    in bucket 159. *)
Theorem reachable_bucket_index DHT i bucket node :
  cid160 me -> dht_reachable DHT -> DHT !! i = Some bucket -> node ∈ bucket ->
  exists z, stored_contact node z /\
    (cid160 z -> z <> me -> bucket_index me z = Z.of_nat i) /\ (z = me -> i = 159%nat).
Proof.
  intros Hme160 Hr Hi Hn. destruct (dht_reachable_wf DHT Hr) as [_ Hwf].
  destruct (Hwf i bucket node Hi Hn) as (z & Hz & Hidx).
  exists z. split; [exact Hz|]. split.
  - intros Hz160 Hne. destruct (bucket_index_bounds me z Hme160 Hz160) as [_ Hr'].
    specialize (Hr' (not_eq_sym Hne)).
    rewrite py_norm_index_nonneg in Hidx by lia. injection Hidx as <-. lia.
  - intros ->. destruct (bucket_index_bounds me me Hme160 Hme160) as [[Hm _] _].
    rewrite (Hm eq_refl) in Hidx. vm_compute in Hidx. congruence.
Qed.

(** C8: [addNode] with the node's own identifier does not reject it:
    the index [-1] selects [self.DHT[-1]], and the node is appended to
    bucket 159. *)
Theorem addNode_self_bucket159 DHT ip :
  length DHT = 160%nat ->
  exists bucket, DHT !! 159%nat = Some bucket /\
    addNode CID DHT ip (JStr CID) = Ok (<[159%nat := bucket ++ [JObj [(CID, ip)]]]> DHT).
Proof.
  intros Hlen. destruct (DHT !! 159%nat) as [bucket|] eqn:Hb.
  - exists bucket. split; [reflexivity|]. apply addNode_Ok.
    exists CID, me, 159%nat, bucket. repeat split; try assumption.
    unfold bucket_index, distance. rewrite Z.lxor_nilpotent, Hlen. reflexivity.
  - apply lookup_ge_None in Hb. lia.
Qed.

(** C29: [addNode] neither suppresses duplicates nor bounds a bucket:
    every successful call grows the table by exactly one contact, also
    when the same contact is already stored. *)
Theorem addNode_grows DHT ip cid DHT' :
  addNode CID DHT ip cid = Ok DHT' ->
  table_size DHT' = S (table_size DHT) /\ exists k, cid = JStr k /\ JObj [(k, ip)] ∈ concat DHT'.
Proof.
  intros Hadd. split; [eapply addNode_table_size; exact Hadd|].
  apply addNode_Ok in Hadd as (k & z & i & bucket & -> & Hk & Hi & Hb & ->).
  exists k. split; [reflexivity|]. apply elem_of_concat.
  exists (bucket ++ [JObj [(k, ip)]]). split.
  - apply list_elem_of_lookup. exists i. apply list_lookup_insert_eq. eapply lookup_lt_Some; eauto.
  - apply elem_of_app. right. left.
Qed.

(** C33: an identifier whose distance to the node has more than 160
    bits (for example one of 41 hex digits) makes [addNode] raise
    [IndexError]: [self.DHT[160]] is out of range. *)
Theorem addNode_IndexError DHT ip k z :
  length DHT = 160%nat -> int16 k = Ok z -> 160 <= bucket_index me z ->
  addNode CID DHT ip (JStr k) = Raise IndexError.
Proof.
  intros Hlen Hk Hbi. unfold addNode, getBucketIndex. rewrite Hme. simpl. rewrite Hk. simpl.
  unfold py_modidx. rewrite Hlen.
  assert (py_norm_index (bucket_index me z) 160 = None) as -> by (apply py_norm_index_None; lia).
  reflexivity.
Qed.

(** C2: on every reachable table and a parsable target, [getClosestCIDs]
    returns the [amount] contacts closest to the target: sorted by XOR
    distance, [min amount size] of them, and no contact left out is
    closer than a contact returned. *)
Theorem getClosestCIDs_closest DHT t tz amount :
  dht_reachable DHT -> int16 t = Ok tz ->
  exists res rest, getClosestCIDs DHT (JStr t) amount = Ok res /\
    res ++ rest ≡ₚ concat DHT /\ key_sorted (cid_dist tz) res /\
    length res = Nat.min amount (table_size DHT) /\
    (forall x y, x ∈ res -> y ∈ rest -> cid_dist tz x <= cid_dist tz y).
Proof.
  intros Hr Ht. pose proof (dht_reachable_wf DHT Hr) as Hwf.
  set (sorted := sort_by (cid_dist tz) (concat DHT)).
  exists (take amount sorted), (drop amount sorted).
  split; [apply getClosestCIDs_wf; assumption|].
  split; [rewrite take_drop; apply sort_by_perm|].
  split; [apply key_sorted_firstn, sort_by_sorted|].
  split; [rewrite length_take; unfold table_size, sorted; rewrite length_sort_by; reflexivity|].
  intros x y Hx Hy. apply (key_sorted_app_le _ (take amount sorted) (drop amount sorted));
    [rewrite take_drop; apply sort_by_sorted | exact Hx | exact Hy].
Qed.

(** a target that [int(., 16)] rejects makes [getClosestCIDs] raise
    on a non-empty table, and goes unnoticed on an empty one (the key
    function is never called). *)
Theorem getClosestCIDs_bad_target DHT t e amount :
  dht_reachable DHT -> int16 t = Raise e ->
  getClosestCIDs DHT (JStr t) amount = if decide (table_size DHT = 0%nat) then Ok [] else Raise e.
Proof.
  intros Hr Ht. pose proof (dht_reachable_wf DHT Hr) as Hwf.
  unfold getClosestCIDs, table_size, py_sort_key.
  destruct (concat DHT) as [|node rest] eqn:Hc; [destruct amount; reflexivity|]. simpl.
  assert (node ∈ concat DHT) as Hn by (rewrite Hc; left).
  destruct (wf_elem_of_concat DHT node Hwf Hn) as (_ & _ & z & _ & _ & (k & ip & -> & Hk) & _).
  unfold node_key. simpl. rewrite Hk. simpl. rewrite Ht. reflexivity.
Qed.
End Table.

(** ** Concrete tables and witnesses *)

(** A sequence of [addNode] calls, in order. *)
Fixpoint addNodes (CID : string) (DHT : list (list json)) (contacts : list (json * json))
    : py (list (list json)) :=
  match contacts with
  | [] => Ok DHT
  | (ip, cid) :: rest => DHT' <- addNode CID DHT ip cid ;; addNodes CID DHT' rest
  end.

Lemma addNodes_reachable CID DHT contacts DHT' :
  dht_reachable CID DHT -> addNodes CID DHT contacts = Ok DHT' -> dht_reachable CID DHT'.
Proof.
  revert DHT. induction contacts as [|[ip cid] rest IH]; simpl; intros DHT Hr H.
  - injection H as <-. exact Hr.
  - destruct (addNode CID DHT ip cid) as [D|e] eqn:Hadd; simpl in H; [|discriminate].
    eapply IH; [eapply dht_add; eauto | exact H].
Qed.

(** The spec's scenario "Closest sort": local identifier [0x00..00] and
    contacts A = [0x..01], B = [0x..02], C = [0x..04]. *)
Definition cid_zero : string := format040x 0.
Definition contact_A : json := JObj [(format040x 1, JStr "10.0.0.1"%string)].
Definition contact_B : json := JObj [(format040x 2, JStr "10.0.0.2"%string)].
Definition contact_C : json := JObj [(format040x 4, JStr "10.0.0.4"%string)].
Definition contacts_ABC : list (json * json) :=
  [(JStr "10.0.0.1"%string, JStr (format040x 1)); (JStr "10.0.0.2"%string, JStr (format040x 2));
   (JStr "10.0.0.4"%string, JStr (format040x 4))].
Definition table_ABC : list (list json) :=
  match addNodes cid_zero empty_DHT contacts_ABC with Ok d => d | Raise _ => empty_DHT end.

Lemma table_ABC_reachable : dht_reachable cid_zero table_ABC.
Proof. apply (addNodes_reachable _ empty_DHT contacts_ABC); [constructor | vm_compute; reflexivity]. Qed.

(** [closest(0x..03, 2)] is [B, A]: [2 xor 3 = 1 < 1 xor 3 = 2 < 4 xor 3 = 7]. *)
Example getClosestCIDs_scenario :
  getClosestCIDs table_ABC (JStr (format040x 3)) 2 = Ok [contact_B; contact_A].
Proof. vm_compute. reflexivity. Qed.


Lemma reachable_bucket_index_witness :
  int16 cid_zero = Ok 0 /\ cid160 0 /\ dht_reachable cid_zero table_ABC /\
  table_ABC !! 1%nat = Some [contact_B] /\ contact_B ∈ [contact_B] /\
  exists z, stored_contact contact_B z /\
    (cid160 z -> z <> 0 -> bucket_index 0 z = Z.of_nat 1) /\ (z = 0 -> 1%nat = 159%nat).
Proof.
  assert (Hme : int16 cid_zero = Ok 0) by (vm_compute; reflexivity).
  assert (Hb : table_ABC !! 1%nat = Some [contact_B]) by (vm_compute; reflexivity).
  assert (Hn : contact_B ∈ [contact_B]) by (apply list_elem_of_singleton; reflexivity).
  split; [exact Hme|]. split; [unfold cid160; lia|]. split; [exact table_ABC_reachable|].
  split; [exact Hb|]. split; [exact Hn|].
  apply (reachable_bucket_index cid_zero 0 Hme table_ABC 1 [contact_B] contact_B);
    [unfold cid160; lia | exact table_ABC_reachable | exact Hb | exact Hn].
Defined.

Lemma addNode_self_bucket159_witness :
  int16 cid_zero = Ok 0 /\ length empty_DHT = 160%nat /\
  exists bucket, empty_DHT !! 159%nat = Some bucket /\
    addNode cid_zero empty_DHT (JStr "10.0.0.9"%string) (JStr cid_zero) =
      Ok (<[159%nat := bucket ++ [JObj [(cid_zero, JStr "10.0.0.9"%string)]]]> empty_DHT).
Proof.
  assert (Hme : int16 cid_zero = Ok 0) by (vm_compute; reflexivity).
  split; [exact Hme|]. split; [reflexivity|].
  apply (addNode_self_bucket159 cid_zero 0 Hme). reflexivity.
Defined.

Lemma addNode_grows_witness :
  int16 cid_zero = Ok 0 /\
  addNode cid_zero table_ABC (JStr "10.0.0.1"%string) (JStr (format040x 1)) =
    Ok (<[0%nat := [contact_A; contact_A]]> table_ABC) /\
  (table_size (<[0%nat := [contact_A; contact_A]]> table_ABC) = S (table_size table_ABC) /\
   exists k, JStr (format040x 1) = JStr k /\ JObj [(k, JStr "10.0.0.1"%string)] ∈
     concat (<[0%nat := [contact_A; contact_A]]> table_ABC)).
Proof.
  assert (Hme : int16 cid_zero = Ok 0) by (vm_compute; reflexivity).
  assert (Hadd : addNode cid_zero table_ABC (JStr "10.0.0.1"%string) (JStr (format040x 1)) =
    Ok (<[0%nat := [contact_A; contact_A]]> table_ABC)) by (vm_compute; reflexivity).
  split; [exact Hme|]. split; [exact Hadd|].
  exact (addNode_grows cid_zero 0 Hme _ _ _ _ Hadd).
Defined.

Lemma addNode_IndexError_witness :
  int16 cid_zero = Ok 0 /\ length empty_DHT = 160%nat /\
  int16 (format040x (2 ^ 160)) = Ok (2 ^ 160) /\ 160 <= bucket_index 0 (2 ^ 160) /\
  addNode cid_zero empty_DHT (JStr "10.0.0.9"%string) (JStr (format040x (2 ^ 160))) = Raise IndexError.
Proof.
  assert (Hme : int16 cid_zero = Ok 0) by (vm_compute; reflexivity).
  assert (Hk : int16 (format040x (2 ^ 160)) = Ok (2 ^ 160)) by (vm_compute; reflexivity).
  assert (Hb : 160 <= bucket_index 0 (2 ^ 160)) by (vm_compute; discriminate).
  split; [exact Hme|]. split; [reflexivity|]. split; [exact Hk|]. split; [exact Hb|].
  apply (addNode_IndexError cid_zero 0 Hme empty_DHT _ _ (2 ^ 160)); [reflexivity | exact Hk | exact Hb].
Defined.

Lemma getClosestCIDs_closest_witness :
  int16 cid_zero = Ok 0 /\ dht_reachable cid_zero table_ABC /\ int16 (format040x 3) = Ok 3 /\
  exists res rest, getClosestCIDs table_ABC (JStr (format040x 3)) 2 = Ok res /\
    res ++ rest ≡ₚ concat table_ABC /\ key_sorted (cid_dist 3) res /\
    length res = Nat.min 2 (table_size table_ABC) /\
    (forall x y, x ∈ res -> y ∈ rest -> cid_dist 3 x <= cid_dist 3 y).
Proof.
  assert (Hme : int16 cid_zero = Ok 0) by (vm_compute; reflexivity).
  assert (Ht : int16 (format040x 3) = Ok 3) by (vm_compute; reflexivity).
  split; [exact Hme|]. split; [exact table_ABC_reachable|]. split; [exact Ht|].
  exact (getClosestCIDs_closest cid_zero 0 Hme table_ABC _ 3 2 table_ABC_reachable Ht).
Defined.

Lemma getClosestCIDs_bad_target_witness :
  int16 cid_zero = Ok 0 /\ dht_reachable cid_zero table_ABC /\ int16 "zz"%string = Raise ValueError /\
  getClosestCIDs table_ABC (JStr "zz"%string) 2 =
    (if decide (table_size table_ABC = 0%nat) then Ok [] else Raise ValueError).
Proof.
  assert (Hme : int16 cid_zero = Ok 0) by (vm_compute; reflexivity).
  assert (Ht : int16 "zz"%string = Raise ValueError) by (vm_compute; reflexivity).
  split; [exact Hme|]. split; [exact table_ABC_reachable|]. split; [exact Ht|].
  exact (getClosestCIDs_bad_target cid_zero 0 Hme table_ABC _ ValueError 2 table_ABC_reachable Ht).
Defined.
