(* ===== verification/Lookup.v ===== *)
(** The iterative lookup [deepNodeSearch] and [askForClosestNodes].

    [deepNodeSearch(cid, amount)] seeds [closest_nodes] with
    [getClosestCIDs(cid, 20)], sets [closest_distance = float('inf')] and
    loops:
    - selection: over [closest_nodes], every node not in [asked_nodes]
      whose [bit_length(int(node_cid) ^ int(cid)) - 1] (its bucket index
      relative to the target) is below [closest_distance] becomes
      [next_to_ask] and lowers [closest_distance] to that bucket index;
    - with no [next_to_ask], the loop ends;
    - otherwise the node is appended to [asked_nodes] and asked with
      [askForClosestNodes]; the reply is concatenated to [closest_nodes],
      sorted by full XOR distance and cut to [amount];
    - the full XOR distance [new_closest] of the first node is compared
      with [closest_distance], which now holds a bucket index: the loop ends
      when [new_closest >= closest_distance], and otherwise continues with
      [closest_distance = new_closest].

    [askForClosestNodes] sends the request with [sendData] and busy-waits
    until the server thread stores a [closestNodesResponse] payload in
    [self.pendingResponse].  Here it is modelled against the interface
    [Network]: [sendData] may raise, and [response_to] is the payload that
    arrives for the request, or [None] when none ever does (the wait has no
    timeout).  This is the sequential reading of the shared slot: one lookup
    at a time and no stray responses; [deepNodeSearch]'s reset
    [self.pendingResponse = None] has no other effect under it.

    The [while True] loop is [search_loop] with fuel; [deepNodeSearch]
    computes enough fuel from its seed, and the theorems show that it never
    runs out and that more fuel changes nothing. *)

From Stdlib Require Import ZArith Lia String.
From stdpp Require Import base list.
From S2P Require Import Prelude PySort Hex Json Metric RoutingTable.

Local Open Scope Z_scope.

(** What the lookup uses of the transport and of the peers. *)
Class Network := {
  (** [sendData(ip, data)]: [OSError] when the connection fails, [TypeError]
      when [ip] is not a string. *)
  sendData : json -> json -> py unit;
  (** The payload of the first [closestNodesResponse] the server thread
      receives after the request [data] was sent to [ip], if one ever
      arrives. *)
  response_to : json -> json -> option json
}.

Section Lookup.
Context `{N : Network}.

(** [{'closestNodesRequest': (self.publicIP, cid)}] as the peer decodes it. *)
Definition closest_request (publicIP cid : string) : json :=
  JObj [("closestNodesRequest"%string, JArr [JStr publicIP; JStr cid])].

(** [Node.askForClosestNodes(cid, targetNodeIP)]: [None] when the busy wait
    never ends.  A [null] payload leaves [self.pendingResponse == None]
    true, so the wait goes on past it. *)
Definition askForClosestNodes (publicIP cid : string) (targetNodeIP : json) : py (option json) :=
  let data := closest_request publicIP cid in
  _ <- sendData targetNodeIP data ;;
  Ok (match response_to targetNodeIP data with
      | Some JNull | None => None
      | Some payload => Some payload
      end).

(** [distance < closest_distance] with [None] for [float('inf')]. *)
Definition lt_inf (d : Z) (cd : option Z) : bool :=
  match cd with None => true | Some c => Z.ltb d c end.

(** The selection loop of one iteration (lines 79-85). *)
Fixpoint select_next (cid : string) (asked_nodes nodes : list json)
    (next_to_ask : option json) (closest_distance : option Z) : py (option json * option Z) :=
  match nodes with
  | [] => Ok (next_to_ask, closest_distance)
  | node :: rest =>
      if py_in_list node asked_nodes then select_next cid asked_nodes rest next_to_ask closest_distance
      else
        d <- node_key (JStr cid) node ;;
        let distance := bit_length d - 1 in
        if lt_inf distance closest_distance
        then select_next cid asked_nodes rest (Some node) (Some distance)
        else select_next cid asked_nodes rest next_to_ask closest_distance
  end.

(** The loop variables of [deepNodeSearch]. *)
Record search_state := mkSearch {
  closest_nodes : list json;
  asked_nodes : list json;
  closest_distance : option Z
}.

(** How an iteration ends: [break], back to the top of the loop, or stuck
    in [askForClosestNodes]' busy wait. *)
Inductive step_result :=
| Stop (st : search_state)
| Continue (st : search_state)
| Hang.

(** One iteration of [while True] (lines 79-105). *)
Definition search_step (publicIP cid : string) (amount : nat) (st : search_state) : py step_result :=
  sel <- select_next cid (asked_nodes st) (closest_nodes st) None (closest_distance st) ;;
  let (next_to_ask, cd) := sel in
  match next_to_ask with
  | None => Ok (Stop (mkSearch (closest_nodes st) (asked_nodes st) cd))
  | Some node =>
      if negb (py_truthy node) then Ok (Stop (mkSearch (closest_nodes st) (asked_nodes st) cd)) else
      let asked := asked_nodes st ++ [node] in
      key <- first_key node ;;
      ip <- py_getitem node key ;;
      reply <- askForClosestNodes publicIP cid ip ;;
      match reply with
      | None => Ok Hang
      | Some new_nodes =>
          all_nodes <- py_list_add (closest_nodes st) new_nodes ;;
          sorted_nodes <- py_sort_key (node_key (JStr cid)) all_nodes ;;
          let closest := take amount sorted_nodes in
          first <- py_getidx closest 0 ;;
          new_closest <- node_key (JStr cid) first ;;
          match cd with
          | Some c =>
              if Z.leb c new_closest then Ok (Stop (mkSearch closest asked cd))
              else Ok (Continue (mkSearch closest asked (Some new_closest)))
          | None => Ok (Continue (mkSearch closest asked (Some new_closest)))
          end
      end
  end.

(** The iteration cut at its call to [askForClosestNodes], as the
    bootstrap thread runs it: the selection and the choice of the address
    (lines 79-93), then, with the answer, the merge and the convergence
    test (lines 94-105). *)
Inductive select_result :=
| SelStop (st : search_state)
| SelAsk (ip : json) (st : search_state).

Definition search_select (cid : string) (st : search_state) : py select_result :=
  sel <- select_next cid (asked_nodes st) (closest_nodes st) None (closest_distance st) ;;
  let (next_to_ask, cd) := sel in
  match next_to_ask with
  | None => Ok (SelStop (mkSearch (closest_nodes st) (asked_nodes st) cd))
  | Some node =>
      if negb (py_truthy node) then Ok (SelStop (mkSearch (closest_nodes st) (asked_nodes st) cd)) else
      let asked := asked_nodes st ++ [node] in
      key <- first_key node ;;
      ip <- py_getitem node key ;;
      Ok (SelAsk ip (mkSearch (closest_nodes st) asked cd))
  end.

Definition search_merge (cid : string) (amount : nat) (st : search_state) (new_nodes : json) : py step_result :=
  all_nodes <- py_list_add (closest_nodes st) new_nodes ;;
  sorted_nodes <- py_sort_key (node_key (JStr cid)) all_nodes ;;
  let closest := take amount sorted_nodes in
  first <- py_getidx closest 0 ;;
  new_closest <- node_key (JStr cid) first ;;
  match closest_distance st with
  | Some c =>
      if Z.leb c new_closest then Ok (Stop (mkSearch closest (asked_nodes st) (closest_distance st)))
      else Ok (Continue (mkSearch closest (asked_nodes st) (Some new_closest)))
  | None => Ok (Continue (mkSearch closest (asked_nodes st) (Some new_closest)))
  end.

(** The two halves make up the iteration. *)
Lemma search_step_split publicIP cid amount st :
  search_step publicIP cid amount st =
    (s <- search_select cid st ;;
     match s with
     | SelStop st' => Ok (Stop st')
     | SelAsk ip st' =>
         reply <- askForClosestNodes publicIP cid ip ;;
         match reply with None => Ok Hang | Some nn => search_merge cid amount st' nn end
     end).
Proof.
  unfold search_step, search_select, search_merge.
  destruct (select_next _ _ _ _ _) as [[[node|] cd]|e]; cbn [py_bind]; [|reflexivity..].
  destruct (negb (py_truthy node)); [reflexivity|].
  destruct (first_key node) as [key|e]; cbn [py_bind]; [|reflexivity].
  destruct (py_getitem node key) as [ip|e]; cbn [py_bind]; [|reflexivity].
  destruct (askForClosestNodes _ _ _) as [[nn|]|e]; reflexivity.
Qed.

(** How the lookup ends: [return closest_nodes[:amount]] (with the nodes
    asked, for the theorems), blocked forever in a wait, or out of fuel. *)
Inductive search_outcome :=
| Converged (result asked : list json)
| Waiting
| OutOfFuel.

Fixpoint search_loop (fuel : nat) (publicIP cid : string) (amount : nat) (st : search_state)
    : py search_outcome :=
  match fuel with
  | O => Ok OutOfFuel
  | S fuel' =>
      r <- search_step publicIP cid amount st ;;
      match r with
      | Stop st' => Ok (Converged (take amount (closest_nodes st')) (asked_nodes st'))
      | Continue st' => search_loop fuel' publicIP cid amount st'
      | Hang => Ok Waiting
      end
  end.

(** The bucket index, relative to the target, that the selection computes
    for a node (0 when its identifier does not parse). *)
Definition target_bucket (cid : string) (node : json) : Z :=
  match node_key (JStr cid) node with Ok d => bit_length d - 1 | Raise _ => 0 end.

(** Enough iterations for a seed: the first selected node's bucket index
    bounds the number of later iterations. *)
Definition search_fuel (cid : string) (seed : list json) : nat :=
  S (S (foldr Nat.max 0%nat (map (fun n => Z.to_nat (target_bucket cid n)) seed))).

(** [Node.deepNodeSearch(cid, amount)] on the table [DHT]. *)
Definition deepNodeSearch (DHT : list (list json)) (publicIP cid : string) (amount : nat)
    : py search_outcome :=
  closest_nodes <- getClosestCIDs DHT (JStr cid) 20 ;;
  search_loop (search_fuel cid closest_nodes) publicIP cid amount (mkSearch closest_nodes [] None).

(** ** The selection loop *)

(** The selection either keeps what it started from, or picks an unasked
    node of the list whose bucket index relative to the target is below
    the starting [closest_distance], and returns that index. *)
Lemma select_next_inv cid asked nodes next cd next' cd' :
  select_next cid asked nodes next cd = Ok (next', cd') ->
  (next' = next /\ cd' = cd) \/
  (exists node d, next' = Some node /\ node ∈ nodes /\ py_in_list node asked = false /\
     node_key (JStr cid) node = Ok d /\ cd' = Some (bit_length d - 1) /\
     lt_inf (bit_length d - 1) cd = true).
Proof.
  revert next cd. induction nodes as [|n rest IH]; simpl; intros next cd H.
  - injection H as -> ->. left. split; reflexivity.
  - destruct (py_in_list n asked) eqn:Hin.
    + destruct (IH _ _ H) as [Hs | (node & d & -> & Hn & Ha & Hk & -> & Hlt)]; [left; exact Hs|].
      right. exists node, d. repeat split; try assumption. right. exact Hn.
    + destruct (node_key (JStr cid) n) as [dn|e] eqn:Hkn; simpl in H; [|discriminate].
      destruct (lt_inf (bit_length dn - 1) cd) eqn:Hlt.
      * right. destruct (IH _ _ H) as [[-> ->] | (node & d & -> & Hn & Ha & Hk & -> & Hlt')].
        -- exists n, dn. repeat split; try assumption. left.
        -- exists node, d. repeat split; try assumption; [right; exact Hn|].
           destruct cd as [c|]; simpl in *; [|reflexivity].
           apply Z.ltb_lt in Hlt, Hlt'. apply Z.ltb_lt. lia.
      * destruct (IH _ _ H) as [Hs | (node & d & -> & Hn & Ha & Hk & -> & Hlt')]; [left; exact Hs|].
        right. exists node, d. repeat split; try assumption. right. exact Hn.
Qed.

(** What an iteration that goes back to the top of the loop did: it asked
    an unasked node of [closest_nodes], whose bucket index [b] relative to
    the target is below the previous [closest_distance], and the new
    [closest_distance] is the full XOR distance of the best candidate,
    which is below [b]. *)
Lemma search_step_Continue publicIP cid amount st st' :
  search_step publicIP cid amount st = Ok (Continue st') ->
  exists node d nc,
    node ∈ closest_nodes st /\ py_in_list node (asked_nodes st) = false /\
    node_key (JStr cid) node = Ok d /\ lt_inf (bit_length d - 1) (closest_distance st) = true /\
    asked_nodes st' = asked_nodes st ++ [node] /\
    closest_distance st' = Some nc /\ nc < bit_length d - 1.
Proof.
  unfold search_step. intros H.
  destruct (select_next _ _ _ _ _) as [[next cd]|e] eqn:Hsel; simpl in H; [|discriminate].
  destruct (select_next_inv _ _ _ _ _ _ _ Hsel) as [[-> ->] | (node & d & -> & Hn & Ha & Hk & -> & Hlt)];
    [discriminate|].
  destruct (py_truthy node); simpl in H; [|discriminate].
  destruct (first_key node) as [key|]; simpl in H; [|discriminate].
  destruct (py_getitem node key) as [ip|]; simpl in H; [|discriminate].
  destruct (askForClosestNodes publicIP cid ip) as [[new_nodes|]|]; simpl in H; try discriminate.
  destruct (py_list_add _ new_nodes) as [all|]; simpl in H; [|discriminate].
  destruct (py_sort_key _ all) as [sorted|]; simpl in H; [|discriminate].
  destruct (py_getidx _ 0) as [first|]; simpl in H; [|discriminate].
  destruct (node_key (JStr cid) first) as [nc|]; simpl in H; [|discriminate].
  destruct (Z.leb_spec (bit_length d - 1) nc); [discriminate|].
  injection H as <-. exists node, d, nc. repeat split; assumption.
Qed.

(** ** Termination *)

Lemma search_loop_S fuel publicIP cid amount st :
  search_loop (S fuel) publicIP cid amount st =
  (r <- search_step publicIP cid amount st ;;
   match r with
   | Stop st' => Ok (Converged (take amount (closest_nodes st')) (asked_nodes st'))
   | Continue st' => search_loop fuel publicIP cid amount st'
   | Hang => Ok Waiting
   end).
Proof. reflexivity. Qed.

Lemma search_loop_Continue fuel publicIP cid amount st st' :
  search_step publicIP cid amount st = Ok (Continue st') ->
  search_loop (S fuel) publicIP cid amount st = search_loop fuel publicIP cid amount st'.
Proof. intros Hs. rewrite search_loop_S, Hs. reflexivity. Qed.

Lemma search_loop_more_fuel publicIP cid amount n m st r :
  search_loop n publicIP cid amount st = r -> r <> Ok OutOfFuel -> (n <= m)%nat ->
  search_loop m publicIP cid amount st = r.
Proof.
  revert m st. induction n as [|n IH]; intros m st Hr Hne Hle; [simpl in Hr; subst; congruence|].
  destruct m as [|m]; [lia|]. simpl in *.
  destruct (search_step publicIP cid amount st) as [[st'|st'|]|e]; simpl in *; try exact Hr.
  apply IH; [exact Hr | exact Hne | lia].
Qed.

(** From a state whose [closest_distance] is [c], [c + 2] iterations are
    enough: each iteration that goes on lowers it by at least 2, and
    nothing can be selected below [-1]. *)
Lemma search_loop_enough publicIP cid amount fuel st c :
  closest_distance st = Some c -> (Z.to_nat (c + 1) < fuel)%nat ->
  search_loop fuel publicIP cid amount st <> Ok OutOfFuel.
Proof.
  revert st c. induction fuel as [|fuel IH]; intros st c Hc Hf; [lia|].
  destruct (search_step publicIP cid amount st) as [[st'|st'|]|e] eqn:Hs;
    try (rewrite search_loop_S, Hs; discriminate).
  rewrite (search_loop_Continue _ _ _ _ _ _ Hs).
  destruct (search_step_Continue _ _ _ _ _ Hs) as (node & d & nc & _ & _ & _ & Hlt & _ & Hnc & Hlt').
  rewrite Hc in Hlt. simpl in Hlt. apply Z.ltb_lt in Hlt.
  pose proof (bit_length_nonneg d).
  apply (IH st' nc Hnc). lia.
Qed.

Lemma foldr_max_ge {A} (f : A -> nat) (l : list A) x :
  x ∈ l -> (f x <= foldr Nat.max 0 (map f l))%nat.
Proof.
  induction l as [|y l IH]; intros Hx; [inversion Hx|]. simpl.
  apply elem_of_cons in Hx as [->|Hx]; [lia|]. specialize (IH Hx). lia.
Qed.

(** The search loop never runs out of the fuel [search_fuel] gives it. *)
Lemma deepNodeSearch_total DHT publicIP cid amount :
  deepNodeSearch DHT publicIP cid amount <> Ok OutOfFuel.
Proof.
  unfold deepNodeSearch.
  destruct (getClosestCIDs DHT (JStr cid) 20) as [seed|e]; [|discriminate].
  cbn [py_bind]. unfold search_fuel. set (M := foldr _ _ _).
  destruct (search_step publicIP cid amount (mkSearch seed [] None)) as [[st'|st'|]|e] eqn:Hs;
    try (rewrite search_loop_S, Hs; discriminate).
  rewrite (search_loop_Continue _ _ _ _ _ _ Hs).
  destruct (search_step_Continue _ _ _ _ _ Hs) as (node & d & nc & Hn & _ & Hk & _ & _ & Hnc & Hlt).
  simpl in Hn. refine (search_loop_enough _ _ _ (S M) st' nc Hnc _).
  pose proof (foldr_max_ge (fun n => Z.to_nat (target_bucket cid n)) seed node Hn) as Hm.
  fold M in Hm. cbv beta in Hm. assert (target_bucket cid node = bit_length d - 1) as Ht
    by (unfold target_bucket; rewrite Hk; reflexivity).
  rewrite Ht in Hm. lia.
Qed.

(** C1: [deepNodeSearch] terminates: its [while True] loop always ends, by
    a [break], an exception, or a wait that never returns, within the fuel
    computed from the seed; for every table, target, amount and
    network. *)
Theorem deepNodeSearch_terminates DHT publicIP cid amount :
  deepNodeSearch DHT publicIP cid amount <> Ok OutOfFuel.
Proof. exact (deepNodeSearch_total DHT publicIP cid amount). Qed.


(** A node's identifier as the code reads it:
    [int(next(iter(dict(node))), base=16)]. *)
Definition node_cid (node : json) : py Z :=
  key <- first_key node ;; py_int16 key.

Lemma node_key_cid cid node d :
  node_key (JStr cid) node = Ok d ->
  exists a tz, node_cid node = Ok a /\ int16 cid = Ok tz /\ d = Z.lxor a tz.
Proof.
  unfold node_key, node_cid. intros H.
  destruct (first_key node) as [k|]; simpl in *; [|discriminate].
  destruct (py_int16 k) as [a|]; simpl in *; [|discriminate].
  destruct (int16 cid) as [tz|]; simpl in *; [|discriminate].
  injection H as <-. eauto.
Qed.


(** ** The returned list *)

(** The XOR distance to the target that the sort key computes (0 when it
    raises). *)
Definition target_dist (cid : string) (node : json) : Z :=
  match node_key (JStr cid) node with Ok d => d | Raise _ => 0 end.

(** A candidate list as the lookup keeps it: every key parses, and the
    list is sorted by XOR distance to the target. *)
Definition sorted_by_target (cid : string) (l : list json) : Prop :=
  Forall (fun n => node_key (JStr cid) n = Ok (target_dist cid n)) l /\
  key_sorted (target_dist cid) l.

Lemma key_sorted_ext {A} (f g : A -> Z) (l : list A) :
  Forall (fun x => f x = g x) l -> key_sorted f l -> key_sorted g l.
Proof.
  unfold key_sorted. intros Hfg Hs. induction Hs as [|x l Hl IH Hhd]; constructor.
  - apply IH. inversion Hfg; assumption.
  - inversion Hhd as [|y l' Hxy]; subst; constructor.
    inversion Hfg as [|? ? Hx Hrest]; subst. inversion Hrest; subst. lia.
Qed.

(** What [py_sort_key (node_key (JStr cid))] returns is sorted by target,
    and so is any prefix of it. *)
Lemma sort_key_sorted_by_target cid l sorted n :
  py_sort_key (node_key (JStr cid)) l = Ok sorted -> sorted_by_target cid (take n sorted).
Proof.
  intros (kf & Hk & ->)%py_sort_key_Ok.
  assert (Hagree : Forall (fun x => node_key (JStr cid) x = Ok (target_dist cid x) /\
                                   kf x = target_dist cid x) (sort_by kf l)).
  { eapply Permutation_Forall; [symmetry; apply sort_by_perm|].
    eapply Forall_impl; [exact Hk|]. intros x Hx. unfold target_dist. rewrite Hx. auto. }
  split.
  - apply Forall_take. eapply Forall_impl; [exact Hagree|]. intros x [Hx _]. exact Hx.
  - apply key_sorted_firstn. eapply key_sorted_ext; [| apply sort_by_sorted].
    eapply Forall_impl; [exact Hagree|]. intros x [_ Hx]. exact Hx.
Qed.

Lemma search_step_sorted publicIP cid amount st r :
  sorted_by_target cid (closest_nodes st) -> search_step publicIP cid amount st = Ok r ->
  match r with Stop st' | Continue st' => sorted_by_target cid (closest_nodes st') | Hang => True end.
Proof.
  intros Hst. unfold search_step.
  destruct (select_next _ _ _ _ _) as [[next cd]|e]; simpl; [|discriminate].
  destruct next as [node|]; [|intros [= <-]; exact Hst].
  destruct (py_truthy node); simpl; [|intros [= <-]; exact Hst].
  destruct (first_key node) as [key|]; simpl; [|discriminate].
  destruct (py_getitem node key) as [ip|]; simpl; [|discriminate].
  destruct (askForClosestNodes publicIP cid ip) as [[new_nodes|]|]; simpl; try discriminate;
    [|intros [= <-]; exact I].
  destruct (py_list_add _ new_nodes) as [all|]; simpl; [|discriminate].
  destruct (py_sort_key _ all) as [sorted|] eqn:Hsort; simpl; [|discriminate].
  pose proof (sort_key_sorted_by_target cid all sorted amount Hsort) as Hs.
  destruct (py_getidx _ 0) as [first|]; simpl; [|discriminate].
  destruct (node_key (JStr cid) first) as [nc|]; simpl; [|discriminate].
  destruct cd as [c|]; [destruct (Z.leb c nc)|]; intros [= <-]; exact Hs.
Qed.

Lemma search_loop_sorted fuel publicIP cid amount st res asked :
  sorted_by_target cid (closest_nodes st) ->
  search_loop fuel publicIP cid amount st = Ok (Converged res asked) ->
  sorted_by_target cid res.
Proof.
  revert st. induction fuel as [|fuel IH]; intros st Hst H; [discriminate|].
  rewrite search_loop_S in H.
  destruct (search_step publicIP cid amount st) as [r|e] eqn:Hs; simpl in H; [|discriminate].
  pose proof (search_step_sorted _ _ _ _ _ Hst Hs) as Hr.
  destruct r as [st'|st'|]; [| apply (IH st' Hr H) | discriminate].
  injection H as <- _. destruct Hr as [Hk Hsorted].
  split; [apply Forall_take, Hk | apply key_sorted_firstn, Hsorted].
Qed.

(** C7: what a converged lookup returns is at most [amount] candidates,
    every one with a parsable identifier, sorted by XOR distance to the
    target. *)
Theorem deepNodeSearch_result_sorted DHT publicIP cid amount res asked :
  deepNodeSearch DHT publicIP cid amount = Ok (Converged res asked) ->
  sorted_by_target cid res /\ (length res <= amount)%nat.
Proof.
  unfold deepNodeSearch. intros H.
  destruct (getClosestCIDs DHT (JStr cid) 20) as [seed|e] eqn:Hseed; cbn [py_bind] in H; [|discriminate].
  split.
  - eapply search_loop_sorted; [| exact H]. simpl.
    unfold getClosestCIDs in Hseed.
    destruct (py_sort_key _ _) as [sorted|] eqn:Hsort; simpl in Hseed; [|discriminate].
    injection Hseed as <-. eapply sort_key_sorted_by_target; exact Hsort.
  - clear Hseed. revert H. generalize (search_fuel cid seed) as fuel.
    generalize (mkSearch seed [] None) as st.
    intros st fuel. revert st. induction fuel as [|fuel IH]; intros st H; [discriminate|].
    rewrite search_loop_S in H.
    destruct (search_step publicIP cid amount st) as [[st'|st'|]|e]; simpl in H; try discriminate.
    + injection H as <- _. rewrite length_take. lia.
    + exact (IH st' H).
Qed.

(** ** Blocking *)

Lemma select_next_total cid asked nodes next cd :
  Forall (fun n => exists d, node_key (JStr cid) n = Ok d) nodes ->
  exists r, select_next cid asked nodes next cd = Ok r.
Proof.
  revert next cd. induction nodes as [|n rest IH]; intros next cd Hk; simpl; [eauto|].
  apply Forall_cons in Hk as [[dn Hn] Hk].
  destruct (py_in_list n asked); [apply IH, Hk|].
  rewrite Hn. simpl. destruct (lt_inf _ cd); apply IH, Hk.
Qed.

(** Starting from [float('inf')], the selection picks something as soon as
    the list has an unasked node. *)
Lemma select_next_some cid asked nodes next next' cd' :
  select_next cid asked nodes next None = Ok (next', cd') ->
  (exists n, n ∈ nodes /\ py_in_list n asked = false) ->
  exists node, next' = Some node /\ node ∈ nodes.
Proof.
  revert next. induction nodes as [|n rest IH]; simpl; intros next H [m [Hm Ha]];
    [inversion Hm|].
  destruct (py_in_list n asked) eqn:Hin.
  - apply elem_of_cons in Hm as [->|Hm]; [congruence|].
    destruct (IH next H (ex_intro _ m (conj Hm Ha))) as (node & -> & Hn).
    exists node. split; [reflexivity | right; exact Hn].
  - destruct (node_key (JStr cid) n) as [dn|e]; simpl in H; [|discriminate].
    destruct (select_next_inv _ _ _ _ _ _ _ H) as [[-> _] | (node & d & -> & Hn & _)].
    + exists n. split; [reflexivity | left].
    + exists node. split; [reflexivity | right; exact Hn].
Qed.

(** The seed of a lookup on a table the node built: every candidate is a
    stored contact whose key parses. *)
Lemma seed_contacts CID me DHT cid tz :
  int16 CID = Ok me -> dht_reachable CID DHT -> int16 cid = Ok tz ->
  Forall (fun n => n ∈ concat DHT /\ node_key (JStr cid) n = Ok (cid_dist tz n))
    (take 20 (sort_by (cid_dist tz) (concat DHT))).
Proof.
  intros Hme Hr Ht. pose proof (dht_reachable_wf CID me Hme DHT Hr) as Hwf.
  apply Forall_forall. intros n Hn.
  apply subseteq_take in Hn. rewrite sort_by_perm in Hn.
  split; [exact Hn | eapply wf_node_key; eauto].
Qed.

(** C6: the busy wait of [askForClosestNodes] has no timeout: when no peer
    ever answers, a lookup on a non-empty table the node built, for a
    parsable target, blocks forever (it neither returns nor raises). *)
Theorem deepNodeSearch_blocks_without_reply CID me DHT publicIP cid tz amount :
  int16 CID = Ok me -> dht_reachable CID DHT -> table_size DHT <> 0%nat -> int16 cid = Ok tz ->
  (forall ip data, sendData ip data = Ok tt) -> (forall ip data, response_to ip data = None) ->
  deepNodeSearch DHT publicIP cid amount = Ok Waiting.
Proof.
  intros Hme Hr Hsize Ht Hsend Hresp.
  pose proof (seed_contacts CID me DHT cid tz Hme Hr Ht) as Hseed.
  pose proof (dht_reachable_wf CID me Hme DHT Hr) as Hwf.
  unfold deepNodeSearch. rewrite (getClosestCIDs_wf me DHT cid tz 20 Hwf Ht). cbn [py_bind].
  set (seed := take 20 (sort_by (cid_dist tz) (concat DHT))) in *.
  unfold search_fuel. rewrite search_loop_S. unfold search_step. cbn [closest_nodes asked_nodes closest_distance].
  destruct (select_next_total cid [] seed None None) as [[next cd] Hsel].
  { eapply Forall_impl; [exact Hseed|]. intros n [_ Hn]. eauto. }
  rewrite Hsel. cbn [py_bind].
  destruct (select_next_some _ _ _ _ _ _ Hsel) as (node & -> & Hn).
  { unfold table_size in Hsize. destruct seed as [|n0 rest] eqn:Hs.
    - exfalso. unfold seed in Hs. destruct (sort_by (cid_dist tz) (concat DHT)) eqn:Hsort.
      + apply Hsize. rewrite <- (length_sort_by (cid_dist tz)), Hsort. reflexivity.
      + discriminate.
    - exists n0. split; [left | reflexivity]. }
  rewrite Forall_forall in Hseed. destruct (Hseed node Hn) as [Hc _].
  destruct (wf_elem_of_concat me DHT node Hwf Hc) as (_ & _ & z & _ & _ & (k & ip & -> & _) & _).
  cbn -[askForClosestNodes]. rewrite String.eqb_refl. cbn -[askForClosestNodes]. unfold askForClosestNodes. rewrite Hsend. cbn [py_bind]. rewrite Hresp. reflexivity.
Qed.

End Lookup.

(** ** A network of peers

    Each peer is an address with the routing table it holds.  [sendData]
    connects when the address is a peer's, and raises [OSError] otherwise.
    A peer answers [closestNodesRequest] as [receiveData] does (lines
    145-147): [getClosestCIDs(data['closestNodesRequest'][1], 20)], and
    sends nothing when that raises (its server thread dies). *)
Definition peer_table (peers : list (string * list (list json))) (ip : json)
    : option (list (list json)) :=
  match ip with JStr s => assoc s peers | _ => None end.

Definition peer_reply (DHT : list (list json)) (data : json) : py json :=
  req <- py_getitem data (JStr "closestNodesRequest"%string) ;;
  t <- py_getitem req (JInt 1) ;;
  res <- getClosestCIDs DHT t 20 ;;
  Ok (JArr res).

Definition peers_network (peers : list (string * list (list json))) : Network := {|
  sendData ip _ :=
    match ip with
    | JStr s => match assoc s peers with Some _ => Ok tt | None => Raise OSError end
    | _ => Raise TypeError
    end;
  response_to ip data :=
    match peer_table peers ip with
    | Some DHT => match peer_reply DHT data with Ok r => Some r | Raise _ => None end
    | None => None
    end
|}.

(** Peers that accept connections and never answer. *)
Definition silent_network : Network := {|
  sendData _ _ := Ok tt;
  response_to _ _ := None
|}.

(** The table a node with identifier [CID] holds after the given
    [addNode] calls. *)
Definition table_of (CID : string) (contacts : list (json * json)) : list (list json) :=
  match addNodes CID empty_DHT contacts with Ok d => d | Raise _ => empty_DHT end.

Definition contact (cid ip : string) : json := JObj [(cid, JStr ip)].

(** Four nodes: X = [0xc0..00] knows Y = [0x80..00]; Y knows Z =
    [2^100]; Z knows W = [0x..01]. *)
Definition cid_X : string := format040x (3 * 2 ^ 158).
Definition cid_Y : string := format040x (2 ^ 159).
Definition cid_Z : string := format040x (2 ^ 100).
Definition cid_W : string := format040x 1.
Definition ip_X : string := "10.0.0.10".
Definition ip_Y : string := "10.0.0.11".
Definition ip_Z : string := "10.0.0.12".
Definition ip_W : string := "10.0.0.13".
Definition table_X := table_of cid_X [(JStr ip_Y, JStr cid_Y)].
Definition table_Y := table_of cid_Y [(JStr ip_Z, JStr cid_Z)].
Definition table_Z := table_of cid_Z [(JStr ip_W, JStr cid_W)].
Definition peers_XYZW : list (string * list (list json)) :=
  [(ip_Y, table_Y); (ip_Z, table_Z); (ip_W, empty_DHT)].

(** The spec's scenario "Three-node lookup": X knows Y, Y knows Z, and
    [lookup(Z.CID, 1)] returns Z.  The code asks Y, then Z itself. *)
Example lookup_scenario_three_nodes :
  @deepNodeSearch (peers_network peers_XYZW) table_X ip_X cid_Z 1 =
    Ok (Converged [contact cid_Z ip_Z] [contact cid_Y ip_Y; contact cid_Z ip_Z]).
Proof. vm_compute. reflexivity. Qed.


Lemma table_of_reachable CID contacts D :
  addNodes CID empty_DHT contacts = Ok D -> dht_reachable CID (table_of CID contacts).
Proof.
  intros H. unfold table_of. rewrite H.
  eapply addNodes_reachable; [constructor | exact H].
Qed.



Lemma deepNodeSearch_result_sorted_witness :
  @deepNodeSearch (peers_network peers_XYZW) table_X ip_X cid_W 5 =
    Ok (Converged [contact cid_Z ip_Z; contact cid_Y ip_Y] [contact cid_Y ip_Y]) /\
  sorted_by_target cid_W [contact cid_Z ip_Z; contact cid_Y ip_Y] /\
  (length [contact cid_Z ip_Z; contact cid_Y ip_Y] <= 5)%nat.
Proof.
  assert (H : @deepNodeSearch (peers_network peers_XYZW) table_X ip_X cid_W 5 =
    Ok (Converged [contact cid_Z ip_Z; contact cid_Y ip_Y] [contact cid_Y ip_Y]))
    by (vm_compute; reflexivity).
  split; [exact H | apply (@deepNodeSearch_result_sorted (peers_network peers_XYZW) _ _ _ _ _ _ H)].
Defined.

Lemma deepNodeSearch_blocks_without_reply_witness :
  int16 cid_X = Ok (3 * 2 ^ 158) /\ dht_reachable cid_X table_X /\
  table_size table_X <> 0%nat /\ int16 cid_Z = Ok (2 ^ 100) /\
  @deepNodeSearch silent_network table_X ip_X cid_Z 5 = Ok Waiting.
Proof.
  assert (Hr : dht_reachable cid_X table_X)
    by (eapply table_of_reachable; vm_compute; reflexivity).
  split; [vm_compute; reflexivity|]. split; [exact Hr|].
  split; [vm_compute; lia|]. split; [vm_compute; reflexivity|].
  apply (@deepNodeSearch_blocks_without_reply silent_network cid_X (3 * 2 ^ 158) table_X ip_X cid_Z
           (2 ^ 100) 5); [vm_compute; reflexivity | exact Hr | vm_compute; lia |
                          vm_compute; reflexivity | intros; reflexivity | intros; reflexivity].
Defined.
