(* ===== verification/Wire.v ===== *)
(** The bytes on the wire: [json.dumps(data, indent=4)] in [sendData]
    (line 156) and [json.loads(clientSocket.recv(1024).decode("utf-8"))]
    in [receiveData] (line 135).

    The encoder is CPython's pure-Python [_make_iterencode] with
    [indent=4] and its default separators [(',', ': ')], and
    [encode_basestring_ascii] for strings.  The decoder is the C scanner
    of [json.decoder]: whitespace is [ \t\n\r], objects keep the position
    of a key's first occurrence and the value of its last, strings reject
    raw control characters.  What the [json] values of [Json] cannot hold
    is reported as [Unsupported] rather than decoded: numbers with a
    fraction or an exponent, [NaN], [Infinity], [\u] escapes of a
    code point above 255, and bytes above 127 (UTF-8 decoding is not modelled).  The
    encoder never produces any of these. *)

From Stdlib Require Import ZArith Lia Ascii String.
From stdpp Require Import base list.
From S2P Require Import Prelude Hex Json.

Local Open Scope Z_scope.

(** ** Encoding *)

(** The character with a given code. *)
Definition chr (n : Z) : ascii := ascii_of_nat (Z.to_nat n).

(** The double quote. *)
Definition qchar : ascii := chr 34.

(** One character as [encode_basestring_ascii] writes it. *)
Definition esc_char (c : ascii) : list ascii :=
  let n := Z.of_nat (nat_of_ascii c) in
  if Ascii.eqb c qchar then ["\"%char; qchar]
  else if Ascii.eqb c "\" then ["\"; "\"]%char
  else if Z.eqb n 10 then ["\"; "n"]%char
  else if Z.eqb n 13 then ["\"; "r"]%char
  else if Z.eqb n 9 then ["\"; "t"]%char
  else if Z.eqb n 8 then ["\"; "b"]%char
  else if Z.eqb n 12 then ["\"; "f"]%char
  else if (Z.leb 32 n && Z.leb n 126)%bool then [c]
  else ["\"; "u"]%char ++ hex_fixed 4 n.

Definition enc_string (s : string) : list ascii :=
  qchar :: concat (map esc_char (list_ascii_of_string s)) ++ [qchar].

(** The decimal digits of a non-negative integer, most significant
    first, in front of [acc]. *)
Fixpoint dec_aux (fuel : nat) (z : Z) (acc : list ascii) : list ascii :=
  match fuel with
  | O => acc
  | S f =>
      if Z.ltb z 10 then chr (48 + z) :: acc
      else dec_aux f (z / 10) (chr (48 + z mod 10) :: acc)
  end.

Definition dec_digits (z : Z) : list ascii := dec_aux (S (Z.to_nat (Z.log2 z))) z [].

(** [int.__repr__]. *)
Definition enc_int (z : Z) : list ascii :=
  if Z.ltb z 0 then "-"%char :: dec_digits (- z) else dec_digits z.

(** A newline and the indentation of a nesting level. *)
Definition newline_indent (lvl : nat) : list ascii :=
  "010"%char :: repeat " "%char (4 * lvl).

(** [_iterencode] at nesting level [lvl]. *)
Fixpoint enc (lvl : nat) (v : json) : list ascii :=
  match v with
  | JNull => list_ascii_of_string "null"
  | JBool true => list_ascii_of_string "true"
  | JBool false => list_ascii_of_string "false"
  | JInt z => enc_int z
  | JStr s => enc_string s
  | JArr [] => list_ascii_of_string "[]"
  | JArr (x :: xs) =>
      "["%char :: newline_indent (S lvl) ++ enc (S lvl) x ++
      (fix items (xs : list json) : list ascii :=
         match xs with
         | [] => []
         | y :: ys => ","%char :: newline_indent (S lvl) ++ enc (S lvl) y ++ items ys
         end) xs ++
      newline_indent lvl ++ ["]"%char]
  | JObj [] => list_ascii_of_string "{}"
  | JObj ((k, x) :: kvs) =>
      "{"%char :: newline_indent (S lvl) ++ enc_string k ++ [":"; " "]%char ++ enc (S lvl) x ++
      (fix items (kvs : list (string * json)) : list ascii :=
         match kvs with
         | [] => []
         | (k', y) :: r =>
             ","%char :: newline_indent (S lvl) ++ enc_string k' ++ [":"; " "]%char ++
             enc (S lvl) y ++ items r
         end) kvs ++
      newline_indent lvl ++ ["}"%char]
  end.

(** [json.dumps(v, indent=4)]. *)
Definition dumps (v : json) : list ascii := enc 0 v.

(** ** Decoding *)

Definition is_ws (c : ascii) : bool :=
  let n := nat_of_ascii c in (Nat.eqb n 32 || Nat.eqb n 9 || Nat.eqb n 10 || Nat.eqb n 13)%bool.

Fixpoint skip_ws (l : list ascii) : list ascii :=
  match l with
  | c :: l' => if is_ws c then skip_ws l' else l
  | [] => []
  end.

Definition is_digit (c : ascii) : bool :=
  let n := nat_of_ascii c in (Nat.leb 48 n && Nat.leb n 57)%bool.

Definition digit_value (c : ascii) : Z := Z.of_nat (nat_of_ascii c) - 48.

(** The longest run of digits at the front, as a value, and the rest. *)
Fixpoint take_digits (l : list ascii) (acc : Z) : Z * list ascii :=
  match l with
  | c :: l' => if is_digit c then take_digits l' (10 * acc + digit_value c) else (acc, l)
  | [] => (acc, [])
  end.

(** The outcome of scanning a value, a string, or the whole text. *)
Inductive presult (A : Type) :=
| POk (a : A) (rest : list ascii)
| PErr
| PUnsup.
Arguments POk {A}. Arguments PErr {A}. Arguments PUnsup {A}.

(** A [\uXXXX] escape: four hex digits of either case. *)
Definition hex4 (a b c d : ascii) : option Z :=
  match hex_digit_value a, hex_digit_value b, hex_digit_value c, hex_digit_value d with
  | Some x, Some y, Some z, Some w => Some (((x * 16 + y) * 16 + z) * 16 + w)
  | _, _, _, _ => None
  end.

(** [scanstring] after the opening quote: the characters up to the
    closing quote. *)
Fixpoint scan_chars (l : list ascii) : presult (list ascii) :=
  match l with
  | [] => PErr
  | c :: l' =>
      if Ascii.eqb c qchar then POk [] l'
      else if Ascii.eqb c "\" then
        match l' with
        | [] => PErr
        | e :: l'' =>
            let simple x := match scan_chars l'' with
                            | POk s r => POk (x :: s) r | PErr => PErr | PUnsup => PUnsup end in
            if Ascii.eqb e qchar then simple qchar
            else if Ascii.eqb e "\" then simple "\"%char
            else if Ascii.eqb e "/" then simple "/"%char
            else if Ascii.eqb e "b" then simple (chr 8)
            else if Ascii.eqb e "f" then simple (chr 12)
            else if Ascii.eqb e "n" then simple (chr 10)
            else if Ascii.eqb e "r" then simple (chr 13)
            else if Ascii.eqb e "t" then simple (chr 9)
            else if Ascii.eqb e "u" then
              match l'' with
              | a :: b :: c' :: d :: r =>
                  match hex4 a b c' d with
                  | Some n =>
                      if Z.ltb n 256 then
                        match scan_chars r with
                        | POk s r' => POk (chr n :: s) r' | PErr => PErr | PUnsup => PUnsup end
                      else PUnsup
                  | None => PErr
                  end
              | _ => PErr
              end
            else PErr
        end
      else if Nat.ltb (nat_of_ascii c) 32 then PErr
      else match scan_chars l' with
           | POk s r => POk (c :: s) r | PErr => PErr | PUnsup => PUnsup end
  end.

(** The integer part of a number: [0] or a digit run without a leading
    zero. *)
Definition scan_int_part (l : list ascii) : option (Z * list ascii) :=
  match l with
  | c :: l2 =>
      if Ascii.eqb c "0" then Some (0, l2)
      else if is_digit c then Some (take_digits l2 (digit_value c))
      else None
  | [] => None
  end.

(** Whether a fraction [.d] or an exponent [e[+-]d] follows, which makes
    the number a float. *)
Definition float_follows (rest : list ascii) : bool :=
  match rest with
  | c :: d :: r =>
      (Ascii.eqb c "." && is_digit d) ||
      ((Ascii.eqb c "e" || Ascii.eqb c "E") &&
       (is_digit d || ((Ascii.eqb d "+" || Ascii.eqb d "-") &&
                       match r with x :: _ => is_digit x | [] => false end)))
  | _ => false
  end.

(** [_match_number]: an [int], or a float, which is not modelled. *)
Definition scan_number (l : list ascii) : presult json :=
  let '(neg, l1) := match l with
                    | c :: l' => if Ascii.eqb c "-" then (true, l') else (false, l)
                    | [] => (false, l)
                    end in
  match scan_int_part l1 with
  | None => PErr
  | Some (n, rest) => if float_follows rest then PUnsup else POk (JInt (if neg then - n else n)) rest
  end.

(** A dict built from its pairs in order: a repeated key keeps its first
    position and takes the last value. *)
Fixpoint dict_set (kvs : list (string * json)) (k : string) (v : json) : list (string * json) :=
  match kvs with
  | [] => [(k, v)]
  | (k', v') :: r => if String.eqb k k' then (k', v) :: r else (k', v') :: dict_set r k v
  end.

Fixpoint starts_with (p l : list ascii) : bool :=
  match p, l with
  | [], _ => true
  | a :: p', b :: l' => Ascii.eqb a b && starts_with p' l'
  | _ :: _, [] => false
  end.

(** [scan_once] with its object and array parsers: a switch on the first
    character, the named constants, and a number otherwise.  Every call
    consumes input, so [fuel] larger than the input is enough. *)
Fixpoint scan_value (fuel : nat) (l : list ascii) : presult json :=
  match fuel with
  | O => PErr
  | S f =>
      match l with
      | [] => PErr
      | c :: l' =>
          if Ascii.eqb c qchar then
            match scan_chars l' with
            | POk s r => POk (JStr (string_of_list_ascii s)) r
            | PErr => PErr
            | PUnsup => PUnsup
            end
          else if Ascii.eqb c "{" then
            match skip_ws l' with
            | c' :: r => if Ascii.eqb c' "}" then POk (JObj []) r else scan_members f [] (skip_ws l')
            | [] => PErr
            end
          else if Ascii.eqb c "[" then
            match skip_ws l' with
            | c' :: r => if Ascii.eqb c' "]" then POk (JArr []) r else scan_elements f [] (skip_ws l')
            | [] => PErr
            end
          else if Ascii.eqb c "n" then
            if starts_with (list_ascii_of_string "ull") l' then POk JNull (skipn 3 l') else scan_number l
          else if Ascii.eqb c "t" then
            if starts_with (list_ascii_of_string "rue") l' then POk (JBool true) (skipn 3 l')
            else scan_number l
          else if Ascii.eqb c "f" then
            if starts_with (list_ascii_of_string "alse") l' then POk (JBool false) (skipn 4 l')
            else scan_number l
          else if Ascii.eqb c "N" then
            if starts_with (list_ascii_of_string "aN") l' then PUnsup else scan_number l
          else if Ascii.eqb c "I" then
            if starts_with (list_ascii_of_string "nfinity") l' then PUnsup else scan_number l
          else if Ascii.eqb c "-" then
            if starts_with (list_ascii_of_string "Infinity") l' then PUnsup else scan_number l
          else scan_number l
      end
  end
(** [_parse_object] from a key: [acc] holds the pairs read so far. *)
with scan_members (fuel : nat) (acc : list (string * json)) (l : list ascii) : presult json :=
  match fuel with
  | O => PErr
  | S f =>
      match l with
      | c :: l' =>
          if Ascii.eqb c qchar then
            match scan_chars l' with
            | POk k r =>
                match skip_ws r with
                | c1 :: r1 =>
                    if Ascii.eqb c1 ":" then
                      match scan_value f (skip_ws r1) with
                      | POk v r2 =>
                          let acc' := dict_set acc (string_of_list_ascii k) v in
                          match skip_ws r2 with
                          | c2 :: r3 =>
                              if Ascii.eqb c2 "}" then POk (JObj acc') r3
                              else if Ascii.eqb c2 "," then scan_members f acc' (skip_ws r3)
                              else PErr
                          | [] => PErr
                          end
                      | PErr => PErr
                      | PUnsup => PUnsup
                      end
                    else PErr
                | [] => PErr
                end
            | PErr => PErr
            | PUnsup => PUnsup
            end
          else PErr
      | [] => PErr
      end
  end
(** [_parse_array] from an element: [acc] holds the elements read so far. *)
with scan_elements (fuel : nat) (acc : list json) (l : list ascii) : presult json :=
  match fuel with
  | O => PErr
  | S f =>
      match scan_value f l with
      | POk v r =>
          match skip_ws r with
          | c :: r1 =>
              if Ascii.eqb c "]" then POk (JArr (acc ++ [v])) r1
              else if Ascii.eqb c "," then scan_elements f (acc ++ [v]) (skip_ws r1)
              else PErr
          | [] => PErr
          end
      | PErr => PErr
      | PUnsup => PUnsup
      end
  end.

(** What [json.loads] does with a text. *)
Inductive decoded :=
| Decoded (v : json)
| DecodeError
| Unsupported.

(** [json.loads(s)]: the value and nothing after it but whitespace. *)
Definition json_loads (s : list ascii) : decoded :=
  if existsb (fun c => Nat.leb 128 (nat_of_ascii c)) s then Unsupported else
  match scan_value (S (length s)) (skip_ws s) with
  | POk v r => match skip_ws r with [] => Decoded v | _ => DecodeError end
  | PErr => DecodeError
  | PUnsup => Unsupported
  end.

(** ** Strings round trip *)

Lemma scan_chars_esc c rest :
  scan_chars (esc_char c ++ rest) =
  match scan_chars rest with POk s r => POk (c :: s) r | PErr => PErr | PUnsup => PUnsup end.
Proof. destruct c as [[] [] [] [] [] [] [] []]; reflexivity. Qed.

Lemma scan_chars_enc s rest :
  scan_chars (concat (map esc_char s) ++ qchar :: rest) = POk s rest.
Proof.
  induction s as [|c s IH]; [reflexivity|].
  simpl. rewrite <- app_assoc, scan_chars_esc, IH. reflexivity.
Qed.

(** ** Numbers round trip *)

(** The value of a run of decimal digits, read after [acc]. *)
Definition digits_val (l : list ascii) (acc : Z) : Z :=
  fold_left (fun a c => 10 * a + digit_value c) l acc.

(** The rest after a number does not extend it. *)
Definition number_end (rest : list ascii) : Prop :=
  match rest with
  | c :: _ => is_digit c = false /\ c <> "."%char /\ c <> "e"%char /\ c <> "E"%char
  | [] => True
  end.

Lemma take_digits_app l rest acc :
  Forall (fun c => is_digit c = true) l -> number_end rest ->
  take_digits (l ++ rest) acc = (digits_val l acc, rest).
Proof.
  revert acc. induction l as [|c l IH]; intros acc Hl Hr; cbn [app take_digits].
  - destruct rest as [|c rest]; [reflexivity|]. cbn [take_digits]. destruct Hr as [-> _]. reflexivity.
  - apply Forall_cons in Hl as [-> Hl]. apply IH; assumption.
Qed.

Lemma chr_digit d :
  0 <= d < 10 -> is_digit (chr (48 + d)) = true /\ digit_value (chr (48 + d)) = d.
Proof.
  intros Hd. assert (d = 0 \/ d = 1 \/ d = 2 \/ d = 3 \/ d = 4 \/ d = 5 \/ d = 6 \/ d = 7 \/
                     d = 8 \/ d = 9) as Hc by lia.
  repeat destruct Hc as [-> | Hc]; [..|subst d]; split; reflexivity.
Qed.

Lemma digits_val_snoc l c acc :
  digits_val (l ++ [c]) acc = 10 * digits_val l acc + digit_value c.
Proof. unfold digits_val. rewrite fold_left_app. reflexivity. Qed.

Lemma dec_aux_S f z acc :
  dec_aux (S f) z acc =
  if Z.ltb z 10 then chr (48 + z) :: acc else dec_aux f (z / 10) (chr (48 + z mod 10) :: acc).
Proof. reflexivity. Qed.

Lemma dec_aux_spec f z acc :
  0 <= z < 10 ^ Z.of_nat (S f) ->
  exists d D, dec_aux (S f) z acc = d :: D ++ acc /\ is_digit d = true /\
    Forall (fun c => is_digit c = true) D /\ digits_val D (digit_value d) = z /\
    (z = 0 -> D = [] /\ d = "0"%char) /\ (0 < z -> d <> "0"%char).
Proof.
  revert z acc. induction f as [|f IH]; intros z acc Hz; rewrite dec_aux_S.
  - destruct (Z.ltb_spec z 10); [|simpl in Hz; lia].
    destruct (chr_digit z ltac:(lia)) as [Hd Hv].
    exists (chr (48 + z)), []. split; [reflexivity|]. split; [exact Hd|].
    split; [constructor|]. split; [exact Hv|]. split.
    + intros ->. split; reflexivity.
    + intros Hpos E. rewrite E in Hv. cbv in Hv. lia.
  - destruct (Z.ltb_spec z 10) as [Hlt|Hge].
    + destruct (chr_digit z ltac:(lia)) as [Hd Hv].
      exists (chr (48 + z)), []. split; [reflexivity|]. split; [exact Hd|].
      split; [constructor|]. split; [exact Hv|]. split.
      * intros ->. split; reflexivity.
      * intros Hpos E. rewrite E in Hv. cbv in Hv. lia.
    + assert (Hz' : 0 <= z / 10 < 10 ^ Z.of_nat (S f)).
      { split; [apply Z.div_pos; lia|]. apply Z.div_lt_upper_bound; [lia|].
        rewrite <- Z.pow_succ_r by lia. rewrite Nat2Z.inj_succ in Hz. lia. }
      destruct (IH (z / 10) (chr (48 + z mod 10) :: acc) Hz')
        as (d & D & Heq & Hd & HD & Hv & _ & Hpos).
      destruct (chr_digit (z mod 10) ltac:(apply Z.mod_pos_bound; lia)) as [Hc Hcv].
      exists d, (D ++ [chr (48 + z mod 10)]). rewrite Heq, <- app_assoc. split; [reflexivity|].
      split; [exact Hd|]. split.
      { apply Forall_app; split; [exact HD | constructor; [exact Hc | constructor]]. }
      split; [rewrite digits_val_snoc, Hv, Hcv; pose proof (Z.div_mod z 10); lia|].
      split; [lia|]. intros _. apply Hpos. apply Z.div_str_pos. lia.
Qed.

Lemma dec_digits_spec z :
  0 <= z ->
  exists d D, dec_digits z = d :: D /\ is_digit d = true /\
    Forall (fun c => is_digit c = true) D /\ digits_val D (digit_value d) = z /\
    (z = 0 -> D = [] /\ d = "0"%char) /\ (0 < z -> d <> "0"%char).
Proof.
  intros Hz. unfold dec_digits.
  destruct (dec_aux_spec (Z.to_nat (Z.log2 z)) z []) as (d & D & Heq & Hrest).
  - split; [exact Hz|]. rewrite Nat2Z.inj_succ, Z2Nat.id by apply Z.log2_nonneg.
    destruct (Z.eq_dec z 0) as [->|Hz0]; [simpl; lia|].
    apply Z.lt_le_trans with (2 ^ Z.succ (Z.log2 z)); [apply Z.log2_spec; lia|].
    apply Z.pow_le_mono_l. pose proof (Z.log2_nonneg z). lia.
  - exists d, D. rewrite app_nil_r in Heq. split; [exact Heq | exact Hrest].
Qed.

Lemma float_follows_end rest : number_end rest -> float_follows rest = false.
Proof.
  destruct rest as [|c [|d r]]; [reflexivity..|]. intros (_ & Hdot & He & HE).
  unfold float_follows.
  rewrite (proj2 (Ascii.eqb_neq c "."%char) Hdot), (proj2 (Ascii.eqb_neq c "e"%char) He),
    (proj2 (Ascii.eqb_neq c "E"%char) HE).
  reflexivity.
Qed.

Lemma scan_int_part_digits d D rest :
  is_digit d = true -> Forall (fun c => is_digit c = true) D -> number_end rest ->
  (d = "0"%char -> D = []) ->
  scan_int_part (d :: D ++ rest) = Some (digits_val D (digit_value d), rest).
Proof.
  intros Hd HD Hr H0. unfold scan_int_part.
  destruct (Ascii.eqb_spec d "0") as [->|Hne].
  - rewrite (H0 eq_refl). reflexivity.
  - rewrite Hd, take_digits_app by assumption. reflexivity.
Qed.

Lemma scan_number_neg l :
  scan_number ("-"%char :: l) =
  match scan_int_part l with
  | None => PErr
  | Some (n, rest) => if float_follows rest then PUnsup else POk (JInt (- n)) rest
  end.
Proof. reflexivity. Qed.

Lemma scan_number_nonneg c l :
  Ascii.eqb c "-" = false ->
  scan_number (c :: l) =
  match scan_int_part (c :: l) with
  | None => PErr
  | Some (n, rest) => if float_follows rest then PUnsup else POk (JInt n) rest
  end.
Proof. intros H. unfold scan_number. rewrite H. reflexivity. Qed.

Lemma scan_number_enc_int z rest :
  number_end rest -> scan_number (enc_int z ++ rest) = POk (JInt z) rest.
Proof.
  intros Hr. unfold enc_int. destruct (Z.ltb_spec z 0) as [Hneg|Hnn].
  - destruct (dec_digits_spec (- z)) as (d & D & -> & Hd & HD & Hv & _ & Hpos); [lia|].
    cbn [app]. rewrite scan_number_neg.
    assert (Hz0 : d = "0"%char -> D = []) by (intros ->; exfalso; apply (Hpos ltac:(lia)); reflexivity).
    rewrite scan_int_part_digits by assumption.
    rewrite float_follows_end by exact Hr. rewrite Hv. f_equal. f_equal. lia.
  - destruct (dec_digits_spec z) as (d & D & -> & Hd & HD & Hv & H0 & Hpos); [lia|].
    cbn [app].
    assert (Hm : Ascii.eqb d "-" = false)
      by (apply Ascii.eqb_neq; intros ->; discriminate Hd).
    assert (Hz0 : d = "0"%char -> D = []).
    { intros ->. destruct (Z.eq_dec z 0) as [Hz|Hz]; [apply (H0 Hz)|].
      exfalso. apply (Hpos ltac:(lia)). reflexivity. }
    rewrite (scan_number_nonneg _ _ Hm), scan_int_part_digits by assumption.
    rewrite float_follows_end by exact Hr. rewrite Hv. reflexivity.
Qed.

(** ** Values round trip *)

(** Nodes and members of a value: fuel enough to scan it. *)
Fixpoint jsize (v : json) : nat :=
  match v with
  | JArr l => S (list_sum (map (fun x => S (jsize x)) l))
  | JObj kvs => S (list_sum (map (fun kv => S (jsize kv.2)) kvs))
  | _ => 1%nat
  end.

Fixpoint keys_nodup (ks : list string) : bool :=
  match ks with
  | [] => true
  | k :: r => negb (existsb (String.eqb k) r) && keys_nodup r
  end.

(** Values a Python program can build: no dict repeats a key. *)
Fixpoint json_wfb (v : json) : bool :=
  match v with
  | JArr l => forallb json_wfb l
  | JObj kvs => keys_nodup (map fst kvs) && forallb (fun kv => json_wfb kv.2) kvs
  | _ => true
  end.

(** What the encoder writes after a value: a separator, a newline, or
    nothing. *)
Definition follows (rest : list ascii) : Prop :=
  match rest with
  | c :: _ => c = ","%char \/ c = "010"%char
  | [] => True
  end.

Lemma follows_number_end rest : follows rest -> number_end rest.
Proof. destruct rest as [|c r]; [trivial|]. intros [-> | ->]; repeat split; discriminate. Qed.

Definition enc_item (lvl : nat) (y : json) : list ascii :=
  ","%char :: newline_indent (S lvl) ++ enc (S lvl) y.

Definition enc_member (lvl : nat) (kv : string * json) : list ascii :=
  enc_string kv.1 ++ [":"; " "]%char ++ enc (S lvl) kv.2.

Lemma enc_arr lvl x xs :
  enc lvl (JArr (x :: xs)) =
  "["%char :: newline_indent (S lvl) ++ enc (S lvl) x ++ concat (map (enc_item lvl) xs) ++
  newline_indent lvl ++ ["]"%char].
Proof.
  cbn [enc]. do 3 f_equal. f_equal. induction xs as [|y ys IH]; [reflexivity|].
  cbn [map concat]. rewrite <- IH. unfold enc_item. cbn [app]. rewrite <- app_assoc. reflexivity.
Qed.

Lemma enc_members_fix lvl kvs :
  (fix items (kvs : list (string * json)) : list ascii :=
     match kvs with
     | [] => []
     | (k', y) :: r =>
         ","%char :: newline_indent (S lvl) ++ enc_string k' ++ [":"; " "]%char ++
         enc (S lvl) y ++ items r
     end) kvs =
  concat (map (fun kv' => ","%char :: newline_indent (S lvl) ++ enc_member lvl kv') kvs).
Proof.
  induction kvs as [|[k y] r IH]; [reflexivity|].
  cbn [map concat]. rewrite IH. unfold enc_member. cbn [app fst snd]. rewrite <- !app_assoc.
  reflexivity.
Qed.

Lemma enc_obj lvl kv kvs :
  enc lvl (JObj (kv :: kvs)) =
  "{"%char :: newline_indent (S lvl) ++ enc_member lvl kv ++
  concat (map (fun kv' => ","%char :: newline_indent (S lvl) ++ enc_member lvl kv') kvs) ++
  newline_indent lvl ++ ["}"%char].
Proof.
  destruct kv as [k x]. cbn [enc]. rewrite enc_members_fix. unfold enc_member.
  cbn [fst snd]. rewrite <- ?app_assoc. reflexivity.
Qed.

Lemma skip_ws_newline_indent lvl l : skip_ws (newline_indent lvl ++ l) = skip_ws l.
Proof.
  unfold newline_indent. cbn [app skip_ws is_ws]. generalize (4 * lvl)%nat as n.
  induction n as [|n IH]; [reflexivity|]. exact IH.
Qed.

(** Every encoding starts with a character that is not whitespace and
    not a closing bracket. *)
Lemma enc_head lvl v :
  exists c l, enc lvl v = c :: l /\ is_ws c = false /\ c <> "]"%char /\ c <> "}"%char.
Proof.
  destruct v as [| [] | z | s | [|x xs] | [|[k x] kvs]]; try (eexists _, _; split; [reflexivity | split; [reflexivity | split; discriminate]]).
  unfold enc, enc_int. destruct (Z.ltb_spec z 0).
  - eexists _, _. split; [reflexivity | split; [reflexivity | split; discriminate]].
  - destruct (dec_digits_spec z) as (d & D & -> & Hd & _); [lia|].
    exists d, D. split; [reflexivity|].
    destruct d as [[] [] [] [] [] [] [] []]; try discriminate Hd; repeat split; first [reflexivity | discriminate].
Qed.

Lemma skip_ws_nonws c l : is_ws c = false -> skip_ws (c :: l) = c :: l.
Proof. intros H. cbn [skip_ws]. rewrite H. reflexivity. Qed.

Lemma skip_ws_ws c l : is_ws c = true -> skip_ws (c :: l) = skip_ws l.
Proof. intros H. cbn [skip_ws]. rewrite H. reflexivity. Qed.

Lemma scan_value_str f l :
  scan_value (S f) (qchar :: l) =
  match scan_chars l with
  | POk s r => POk (JStr (string_of_list_ascii s)) r
  | PErr => PErr
  | PUnsup => PUnsup
  end.
Proof. reflexivity. Qed.

Lemma scan_value_arr f l :
  scan_value (S f) ("["%char :: l) =
  match skip_ws l with
  | c' :: r => if Ascii.eqb c' "]" then POk (JArr []) r else scan_elements f [] (skip_ws l)
  | [] => PErr
  end.
Proof. reflexivity. Qed.

Lemma scan_value_obj f l :
  scan_value (S f) ("{"%char :: l) =
  match skip_ws l with
  | c' :: r => if Ascii.eqb c' "}" then POk (JObj []) r else scan_members f [] (skip_ws l)
  | [] => PErr
  end.
Proof. reflexivity. Qed.

Lemma scan_value_digit f c l : is_digit c = true -> scan_value (S f) (c :: l) = scan_number (c :: l).
Proof. intros H. destruct c as [[] [] [] [] [] [] [] []]; try discriminate H; reflexivity. Qed.

Lemma scan_value_minus f d l :
  is_digit d = true -> scan_value (S f) ("-"%char :: d :: l) = scan_number ("-"%char :: d :: l).
Proof. intros H. destruct d as [[] [] [] [] [] [] [] []]; try discriminate H; reflexivity. Qed.

Lemma scan_value_enc_int f z rest :
  number_end rest -> scan_value (S f) (enc_int z ++ rest) = POk (JInt z) rest.
Proof.
  intros Hr. rewrite <- (scan_number_enc_int z rest Hr). unfold enc_int.
  destruct (Z.ltb_spec z 0).
  - destruct (dec_digits_spec (- z)) as (d & D & -> & Hd & _); [lia|].
    apply scan_value_minus, Hd.
  - destruct (dec_digits_spec z) as (d & D & -> & Hd & _); [lia|].
    apply scan_value_digit, Hd.
Qed.

Lemma scan_elements_S f acc l :
  scan_elements (S f) acc l =
  match scan_value f l with
  | POk v r =>
      match skip_ws r with
      | c :: r1 =>
          if Ascii.eqb c "]" then POk (JArr (acc ++ [v])) r1
          else if Ascii.eqb c "," then scan_elements f (acc ++ [v]) (skip_ws r1)
          else PErr
      | [] => PErr
      end
  | PErr => PErr
  | PUnsup => PUnsup
  end.
Proof. reflexivity. Qed.

Lemma scan_members_S f acc l :
  scan_members (S f) acc (qchar :: l) =
  match scan_chars l with
  | POk k r =>
      match skip_ws r with
      | c1 :: r1 =>
          if Ascii.eqb c1 ":" then
            match scan_value f (skip_ws r1) with
            | POk v r2 =>
                let acc' := dict_set acc (string_of_list_ascii k) v in
                match skip_ws r2 with
                | c2 :: r3 =>
                    if Ascii.eqb c2 "}" then POk (JObj acc') r3
                    else if Ascii.eqb c2 "," then scan_members f acc' (skip_ws r3)
                    else PErr
                | [] => PErr
                end
            | PErr => PErr
            | PUnsup => PUnsup
            end
          else PErr
      | [] => PErr
      end
  | PErr => PErr
  | PUnsup => PUnsup
  end.
Proof. reflexivity. Qed.

(** A fresh key goes at the end of the dict. *)
Lemma dict_set_fresh acc k v :
  existsb (String.eqb k) (map fst acc) = false -> dict_set acc k v = acc ++ [(k, v)].
Proof.
  induction acc as [|[k' v'] r IH]; simpl; [reflexivity|].
  intros [Hk Hr]%orb_false_iff. rewrite Hk, IH by exact Hr. reflexivity.
Qed.

Lemma keys_nodup_app_cons l1 k l2 :
  keys_nodup (l1 ++ k :: l2) = true -> existsb (String.eqb k) l1 = false.
Proof.
  induction l1 as [|k' l1 IH]; simpl; [reflexivity|].
  intros [Hk' Hr]%andb_true_iff. apply orb_false_iff. split; [|exact (IH Hr)].
  apply negb_true_iff in Hk'. rewrite existsb_app in Hk'. apply orb_false_iff in Hk' as [_ Hk'].
  simpl in Hk'. apply orb_false_iff in Hk' as [Hk' _].
  rewrite String.eqb_sym. exact Hk'.
Qed.

(** Scanning the encoding of [x] at level [lvl] gives [x] back. *)
Definition scans_back (lvl : nat) (x : json) : Prop :=
  forall f rest, (jsize x <= f)%nat -> follows rest -> scan_value f (enc lvl x ++ rest) = POk x rest.

Lemma skip_ws_enc lvl v rest : skip_ws (enc lvl v ++ rest) = enc lvl v ++ rest.
Proof.
  destruct (enc_head lvl v) as (c & l & -> & Hc & _). apply skip_ws_nonws, Hc.
Qed.

Lemma follows_newline_indent lvl l : follows (newline_indent lvl ++ l).
Proof. right. reflexivity. Qed.

Lemma scan_elements_enc lvl x xs acc f rest :
  Forall (scans_back (S lvl)) (x :: xs) ->
  (list_sum (map (fun y => S (jsize y)) (x :: xs)) <= f)%nat ->
  scan_elements f acc (enc (S lvl) x ++ concat (map (enc_item lvl) xs) ++
                       newline_indent lvl ++ "]"%char :: rest) =
  POk (JArr (acc ++ x :: xs)) rest.
Proof.
  revert x acc f. induction xs as [|y ys IH]; intros x acc f Hall Hf;
    (destruct f as [|f]; [simpl in Hf; lia|]); rewrite scan_elements_S;
    apply Forall_cons in Hall as [Hx Hall]; cbn [map concat] in *; simpl list_sum in Hf.
  - cbn [app]. rewrite (Hx f) by (lia || apply follows_newline_indent).
    rewrite skip_ws_newline_indent. reflexivity.
  - unfold enc_item at 1. cbn [app]. rewrite <- !app_assoc.
    rewrite (Hx f) by (lia || left; reflexivity).
    rewrite skip_ws_nonws by reflexivity. cbn -[scan_elements skip_ws enc newline_indent].
    rewrite skip_ws_newline_indent, skip_ws_enc.
    replace (acc ++ x :: y :: ys) with ((acc ++ [x]) ++ y :: ys) by (rewrite <- app_assoc; reflexivity).
    apply IH; [exact Hall | simpl list_sum; simpl list_sum in Hf; lia].
Qed.

Lemma enc_member_head lvl kv rest :
  enc_member lvl kv ++ rest =
  qchar :: concat (map esc_char (list_ascii_of_string kv.1)) ++
  qchar :: ":"%char :: " "%char :: enc (S lvl) kv.2 ++ rest.
Proof. unfold enc_member, enc_string. cbn [app]. rewrite <- !app_assoc. reflexivity. Qed.

Lemma scan_members_enc lvl kv kvs acc f rest :
  Forall (fun kv => scans_back (S lvl) kv.2) (kv :: kvs) ->
  keys_nodup (map fst (acc ++ kv :: kvs)) = true ->
  (list_sum (map (fun kv => S (jsize kv.2)) (kv :: kvs)) <= f)%nat ->
  scan_members f acc
    (enc_member lvl kv ++
     concat (map (fun kv' => ","%char :: newline_indent (S lvl) ++ enc_member lvl kv') kvs) ++
     newline_indent lvl ++ "}"%char :: rest) =
  POk (JObj (acc ++ kv :: kvs)) rest.
Proof.
  revert kv acc f. induction kvs as [|kv' kvs IH]; intros [k x] acc f Hall Hnd Hf;
    (destruct f as [|f]; [simpl in Hf; lia|]);
    apply Forall_cons in Hall as [Hx Hall]; cbn [map concat fst snd] in *; simpl list_sum in Hf;
    rewrite enc_member_head, scan_members_S, scan_chars_enc; cbn [fst snd];
    rewrite (skip_ws_nonws ":"%char) by reflexivity; cbn -[scan_value scan_members skip_ws enc newline_indent enc_member];
    rewrite (skip_ws_ws " "%char), skip_ws_enc, string_of_list_ascii_of_string by reflexivity;
    cbn [app].
  - rewrite (Hx f) by (lia || apply follows_newline_indent).
    cbv beta iota zeta.
    rewrite dict_set_fresh by (rewrite map_app in Hnd; exact (keys_nodup_app_cons _ _ _ Hnd)).
    rewrite skip_ws_newline_indent. reflexivity.
  - rewrite (Hx f) by (lia || left; reflexivity).
    cbv beta iota zeta.
    rewrite dict_set_fresh by (rewrite map_app in Hnd; exact (keys_nodup_app_cons _ _ _ Hnd)).
    rewrite skip_ws_nonws by reflexivity. cbn -[scan_members skip_ws enc newline_indent enc_member].
    rewrite <- ?app_assoc, skip_ws_newline_indent, enc_member_head, skip_ws_nonws, <- enc_member_head by reflexivity.
    replace (acc ++ (k, x) :: kv' :: kvs) with ((acc ++ [(k, x)]) ++ kv' :: kvs)
      by (rewrite <- app_assoc; reflexivity).
    apply IH; [exact Hall | rewrite <- app_assoc; exact Hnd | simpl list_sum; lia].
Qed.

Lemma scan_value_arr_items f lvl x l R :
  skip_ws l = enc lvl x ++ R -> scan_value (S f) ("["%char :: l) = scan_elements f [] (enc lvl x ++ R).
Proof.
  intros H. rewrite scan_value_arr, H.
  destruct (enc_head lvl x) as (c & l' & He & _ & Hb & _). rewrite He. cbn [app].
  rewrite (proj2 (Ascii.eqb_neq c "]") Hb). reflexivity.
Qed.

Lemma scan_value_obj_members f lvl kv l R :
  skip_ws l = enc_member lvl kv ++ R ->
  scan_value (S f) ("{"%char :: l) = scan_members f [] (enc_member lvl kv ++ R).
Proof. intros H. rewrite scan_value_obj, H, enc_member_head. reflexivity. Qed.

(** Every well-formed value scans back from its encoding, at any level,
    followed by what the encoder writes after a value. *)
Lemma scan_value_enc v : json_wfb v = true -> forall lvl, scans_back lvl v.
Proof.
  induction v as [| b | z | s | l IH | kvs IH] using json_ind'; intros Hwf lvl f rest Hf Hr;
    (destruct f as [|f]; [simpl in Hf; lia|]).
  - reflexivity.
  - destruct b; reflexivity.
  - apply scan_value_enc_int, follows_number_end, Hr.
  - change (enc lvl (JStr s)) with (enc_string s). unfold enc_string. cbn [app].
    rewrite <- app_assoc. cbn [app].
    rewrite scan_value_str, scan_chars_enc, string_of_list_ascii_of_string. reflexivity.
  - destruct l as [|x xs]; [reflexivity|].
    change (forallb json_wfb (x :: xs) = true) in Hwf. rewrite forallb_forall in Hwf.
    rewrite enc_arr. cbn [app]. rewrite <- !app_assoc. cbn [app].
    rewrite (scan_value_arr_items f (S lvl) x _ (concat (map (enc_item lvl) xs) ++
               newline_indent lvl ++ "]"%char :: rest))
      by (rewrite skip_ws_newline_indent; apply skip_ws_enc).
    apply scan_elements_enc; [|exact (le_S_n _ _ Hf)].
    rewrite Forall_forall in IH |- *. intros y Hy.
    apply IH; [exact Hy | apply Hwf, list_elem_of_In, Hy].
  - destruct kvs as [|kv kvs]; [reflexivity|].
    change (keys_nodup (map fst (kv :: kvs)) && forallb (fun kv => json_wfb kv.2) (kv :: kvs) = true)
      in Hwf.
    apply andb_true_iff in Hwf as [Hnd Hwf]. rewrite forallb_forall in Hwf.
    rewrite enc_obj. cbn [app]. rewrite <- !app_assoc. cbn [app].
    rewrite (scan_value_obj_members f lvl kv _ (concat (map (fun kv' => ","%char ::
               newline_indent (S lvl) ++ enc_member lvl kv') kvs) ++
               newline_indent lvl ++ "}"%char :: rest))
      by (rewrite skip_ws_newline_indent, enc_member_head; reflexivity).
    apply scan_members_enc; [| exact Hnd | exact (le_S_n _ _ Hf)].
    rewrite Forall_forall in IH |- *. intros y Hy.
    apply IH; [exact Hy | apply Hwf, list_elem_of_In, Hy].
Qed.

(** ** The encoding is 7-bit and long enough for its fuel *)

Definition ascii7 (l : list ascii) : bool := forallb (fun c => Nat.ltb (nat_of_ascii c) 128) l.

Lemma ascii7_app l1 l2 : ascii7 (l1 ++ l2) = ascii7 l1 && ascii7 l2.
Proof. apply forallb_app. Qed.

Lemma ascii7_concat_map {A} (g : A -> list ascii) (l : list A) :
  Forall (fun y => ascii7 (g y) = true) l -> ascii7 (concat (map g l)) = true.
Proof.
  induction 1 as [|y l Hy _ IH]; [reflexivity|]. cbn [map concat]. rewrite ascii7_app, Hy, IH. reflexivity.
Qed.

Lemma esc_char_ascii7 c : ascii7 (esc_char c) = true.
Proof. destruct c as [[] [] [] [] [] [] [] []]; reflexivity. Qed.

Lemma newline_indent_ascii7 lvl : ascii7 (newline_indent lvl) = true.
Proof. unfold newline_indent. generalize (4 * lvl)%nat as n. induction n as [|n IH]; [reflexivity|]. exact IH. Qed.

Lemma enc_string_ascii7 s : ascii7 (enc_string s) = true.
Proof.
  unfold enc_string.
  change (ascii7 ([qchar] ++ concat (map esc_char (list_ascii_of_string s)) ++ [qchar]) = true).
  rewrite !ascii7_app, ascii7_concat_map; [reflexivity|]. apply Forall_forall. intros c _. apply esc_char_ascii7.
Qed.

Lemma digits_ascii7 l : Forall (fun c => is_digit c = true) l -> ascii7 l = true.
Proof.
  induction 1 as [|c l Hc _ IH]; [reflexivity|]. cbn [ascii7 forallb]. fold (ascii7 l). rewrite IH.
  unfold is_digit in Hc. apply andb_true_iff in Hc as [_ Hc]. apply Nat.leb_le in Hc.
  rewrite andb_true_r. apply Nat.ltb_lt. lia.
Qed.

Lemma enc_int_ascii7 z : ascii7 (enc_int z) = true.
Proof.
  unfold enc_int. destruct (Z.ltb_spec z 0).
  - destruct (dec_digits_spec (- z)) as (d & D & -> & Hd & HD & _); [lia|].
    apply (digits_ascii7 (d :: D)). constructor; assumption.
  - destruct (dec_digits_spec z) as (d & D & -> & Hd & HD & _); [lia|].
    apply (digits_ascii7 (d :: D)). constructor; assumption.
Qed.

Lemma enc_ascii7 lvl v : ascii7 (enc lvl v) = true.
Proof.
  revert lvl. induction v as [| b | z | s | l IH | kvs IH] using json_ind'; intros lvl.
  - reflexivity.
  - destruct b; reflexivity.
  - apply enc_int_ascii7.
  - apply enc_string_ascii7.
  - destruct l as [|x xs]; [reflexivity|]. apply Forall_cons in IH as [Hx IH].
    rewrite enc_arr. cbn [ascii7 forallb]. fold (ascii7 (newline_indent (S lvl) ++ enc (S lvl) x ++
      concat (map (enc_item lvl) xs) ++ newline_indent lvl ++ ["]"%char])).
    rewrite !ascii7_app, !newline_indent_ascii7, Hx, ascii7_concat_map; [reflexivity|].
    eapply Forall_impl; [exact IH|]. intros y Hy. unfold enc_item. cbn [ascii7 forallb].
    fold (ascii7 (newline_indent (S lvl) ++ enc (S lvl) y)).
    rewrite ascii7_app, newline_indent_ascii7, Hy. reflexivity.
  - destruct kvs as [|[k x] kvs]; [reflexivity|]. apply Forall_cons in IH as [Hx IH].
    rewrite enc_obj. cbn [ascii7 forallb].
    fold (ascii7 (newline_indent (S lvl) ++ enc_member lvl (k, x) ++
      concat (map (fun kv' => ","%char :: newline_indent (S lvl) ++ enc_member lvl kv') kvs) ++
      newline_indent lvl ++ ["}"%char])).
    unfold enc_member at 1. cbn [fst snd] in *.
    rewrite !ascii7_app, !newline_indent_ascii7, enc_string_ascii7, Hx, ascii7_concat_map; [reflexivity|].
    eapply Forall_impl; [exact IH|]. intros [k' y] Hy. unfold enc_member. cbn [ascii7 forallb fst snd].
    fold (ascii7 (newline_indent (S lvl) ++ enc_string k' ++ [":"%char; " "%char] ++ enc (S lvl) y)).
    rewrite !ascii7_app, newline_indent_ascii7, enc_string_ascii7, Hy. reflexivity.
Qed.

Lemma list_sum_map_le {A} (f g : A -> nat) (l : list A) :
  Forall (fun y => (f y <= g y)%nat) l -> (list_sum (map f l) <= list_sum (map g l))%nat.
Proof. induction 1; simpl; lia. Qed.

Lemma length_concat_map {A} (g : A -> list ascii) (l : list A) :
  length (concat (map g l)) = list_sum (map (fun y => length (g y)) l).
Proof. induction l as [|y l IH]; [reflexivity|]. cbn [map concat list_sum]. rewrite length_app, IH. reflexivity. Qed.

Lemma jsize_le_length lvl v : (jsize v <= length (enc lvl v))%nat.
Proof.
  revert lvl. induction v as [| b | z | s | l IH | kvs IH] using json_ind'; intros lvl.
  - simpl. lia.
  - destruct b; simpl; lia.
  - destruct (enc_head lvl (JInt z)) as (c & l & -> & _). simpl. lia.
  - destruct (enc_head lvl (JStr s)) as (c & l & -> & _). simpl. lia.
  - destruct l as [|x xs]; [simpl; lia|]. apply Forall_cons in IH as [Hx IH].
    rewrite enc_arr. cbn [length]. rewrite !length_app, length_concat_map.
    specialize (Hx (S lvl)).
    assert (Hs : (list_sum (map (fun y => S (jsize y)) xs) <=
                  list_sum (map (fun y => length (enc_item lvl y)) xs))%nat).
    { apply list_sum_map_le. eapply Forall_impl; [exact IH|]. intros y Hy. specialize (Hy (S lvl)).
      unfold enc_item, newline_indent. cbn [length]. rewrite length_app. simpl. lia. }
    cbn [jsize map list_sum]. unfold newline_indent. cbn [length]. simpl in Hs |- *. lia.
  - destruct kvs as [|[k x] kvs]; [simpl; lia|]. apply Forall_cons in IH as [Hx IH].
    rewrite enc_obj. cbn [length]. rewrite !length_app, length_concat_map.
    specialize (Hx (S lvl)). cbn [snd] in Hx.
    assert (Hs : (list_sum (map (fun kv => S (jsize kv.2)) kvs) <=
                  list_sum (map (fun kv' => length (","%char :: newline_indent (S lvl) ++
                                                     enc_member lvl kv')) kvs))%nat).
    { apply list_sum_map_le. eapply Forall_impl; [exact IH|]. intros [k' y] Hy. specialize (Hy (S lvl)).
      unfold enc_member, newline_indent. cbn [length fst snd] in *. rewrite !length_app. simpl. lia. }
    cbn [jsize map list_sum snd]. unfold enc_member at 1, newline_indent. cbn [length fst snd].
    rewrite !length_app. simpl in Hs |- *. lia.
Qed.

(** Decoding the encoder output of a well-formed value gives it back. *)
Lemma loads_dumps_decoded v : json_wfb v = true -> json_loads (dumps v) = Decoded v.
Proof.
  intros Hwf. unfold json_loads, dumps.
  assert (Ha : existsb (fun c => Nat.leb 128 (nat_of_ascii c)) (enc 0 v) = false).
  { pose proof (enc_ascii7 0 v) as H. unfold ascii7 in H. rewrite forallb_forall in H.
    apply not_true_iff_false. intros (c & Hc & Hle)%existsb_exists.
    specialize (H c Hc). apply Nat.ltb_lt in H. apply Nat.leb_le in Hle. lia. }
  rewrite Ha. pose proof (skip_ws_enc 0 v []) as Hs. rewrite app_nil_r in Hs. rewrite Hs.
  pose proof (scan_value_enc v Hwf 0 (S (length (enc 0 v))) [] ltac:(pose proof (jsize_le_length 0 v); lia) I)
    as Hv.
  rewrite app_nil_r in Hv. rewrite Hv. reflexivity.
Qed.

(** C23: [json.loads(json.dumps(v, indent=4)) == v] for every value whose
    dicts have distinct keys: every message a node sends is decoded as the
    value it sent, when the whole text is read. *)
Theorem dumps_loads v : json_wfb v = true -> json_loads (dumps v) = Decoded v.
Proof. exact (loads_dumps_decoded v). Qed.

(** ** What [json.loads] returns is a Python value

    A dict read by [_parse_object] has each key once: a repeated key keeps
    its first position and takes the last value ([dict_set]). *)

Ltac scan_cases H :=
  repeat match type of H with
  | context [match ?x with _ => _ end] => let E := fresh "E" in destruct x eqn:E
  end; try discriminate.

Lemma scan_number_wf l v r : scan_number l = POk v r -> json_wfb v = true.
Proof. intros H. unfold scan_number in H. scan_cases H; injection H as <- _; reflexivity. Qed.

Lemma keys_nodup_snoc ks k :
  keys_nodup ks = true -> existsb (String.eqb k) ks = false -> keys_nodup (ks ++ [k]) = true.
Proof.
  induction ks as [|k0 ks IH]; [reflexivity|]. cbn [app keys_nodup existsb].
  intros (Hk0 & Hks)%andb_prop (Hkk0 & Hk)%orb_false_iff. rewrite (IH Hks Hk), andb_true_r.
  rewrite existsb_app, negb_orb, Hk0. cbn. rewrite String.eqb_sym, Hkk0. reflexivity.
Qed.

Lemma dict_set_keys acc k v :
  map fst (dict_set acc k v) = if existsb (String.eqb k) (map fst acc) then map fst acc else map fst acc ++ [k].
Proof.
  induction acc as [|[k' v'] acc IH]; [reflexivity|]. cbn [dict_set map fst existsb].
  destruct (String.eqb_spec k k') as [->|]; cbn [map fst]; [reflexivity|].
  rewrite IH. destruct (existsb _ _); reflexivity.
Qed.

Lemma dict_set_vals acc k v :
  forallb (fun kv => json_wfb kv.2) acc = true -> json_wfb v = true ->
  forallb (fun kv => json_wfb kv.2) (dict_set acc k v) = true.
Proof.
  induction acc as [|[k' v'] acc IH]; cbn [dict_set forallb fst snd]; intros Hacc Hv; [rewrite Hv; reflexivity|].
  apply andb_prop in Hacc as [Hv' Hacc]. destruct (String.eqb k k'); cbn [forallb fst snd] in *.
  - rewrite Hv, Hacc. reflexivity.
  - rewrite Hv', (IH Hacc Hv). reflexivity.
Qed.

Lemma dict_set_wf acc k v :
  json_wfb (JObj acc) = true -> json_wfb v = true -> json_wfb (JObj (dict_set acc k v)) = true.
Proof.
  intros (Hk & Hv)%andb_prop Hvv. change (keys_nodup (map fst (dict_set acc k v)) &&
    forallb (fun kv => json_wfb kv.2) (dict_set acc k v) = true).
  rewrite dict_set_keys, (dict_set_vals acc k v Hv Hvv), andb_true_r.
  destruct (existsb _ _) eqn:E; [exact Hk | exact (keys_nodup_snoc _ _ Hk E)].
Qed.

Lemma scan_wf f :
  (forall l v r, scan_value f l = POk v r -> json_wfb v = true) /\
  (forall acc l v r, json_wfb (JObj acc) = true -> scan_members f acc l = POk v r -> json_wfb v = true) /\
  (forall acc l v r, forallb json_wfb acc = true -> scan_elements f acc l = POk v r -> json_wfb v = true).
Proof.
  induction f as [|f (IHv & IHm & IHe)]; [repeat split; discriminate|]. split; [|split].
  - intros [|c l] v r H; [discriminate|]. cbn [scan_value] in H. scan_cases H;
      first [ injection H as <- _; reflexivity
            | exact (IHm [] _ _ _ eq_refl H) | exact (IHe [] _ _ _ eq_refl H)
            | exact (scan_number_wf _ _ _ H) ].
  - intros acc [|c l] v r Hacc H; [discriminate|]. cbn [scan_members] in H. scan_cases H.
    all: match goal with Ev : scan_value _ _ = POk _ _ |- _ => pose proof (IHv _ _ _ Ev) as Hw end.
    + injection H as <- _. exact (dict_set_wf _ _ _ Hacc Hw).
    + exact (IHm _ _ _ _ (dict_set_wf _ _ _ Hacc Hw) H).
  - intros acc l v r Hacc H. cbn [scan_elements] in H. scan_cases H.
    all: match goal with Ev : scan_value _ _ = POk _ _ |- _ => pose proof (IHv _ _ _ Ev) as Hw end.
    + injection H as <- _. cbn [json_wfb]. fold json_wfb.
      rewrite forallb_app, Hacc. cbn [forallb]. rewrite Hw. reflexivity.
    + refine (IHe _ _ _ _ _ H). rewrite forallb_app, Hacc. cbn [forallb]. rewrite Hw. reflexivity.
Qed.

Lemma loads_wf_aux s v : json_loads s = Decoded v -> json_wfb v = true.
Proof.
  unfold json_loads. destruct (existsb _ s); [discriminate|].
  destruct (scan_value _ _) as [v' r| |] eqn:E; try discriminate.
  destruct (skip_ws r); [|discriminate]. intros [= <-]. exact (proj1 (scan_wf _) _ _ _ E).
Qed.


(** ** Witnesses *)

Lemma dumps_loads_witness :
  json_wfb (JObj [("nodeInfoRequest"%string, JArr [JStr "10.0.0.1"; JStr (format040x 1)]);
                  ("x"%string, JArr [JInt (-12); JNull; JBool true; JStr (String (chr 10) EmptyString)])])
    = true /\
  json_loads (dumps (JObj [("nodeInfoRequest"%string, JArr [JStr "10.0.0.1"; JStr (format040x 1)]);
                           ("x"%string, JArr [JInt (-12); JNull; JBool true;
                                              JStr (String (chr 10) EmptyString)])])) =
    Decoded (JObj [("nodeInfoRequest"%string, JArr [JStr "10.0.0.1"; JStr (format040x 1)]);
                   ("x"%string, JArr [JInt (-12); JNull; JBool true; JStr (String (chr 10) EmptyString)])]).
Proof.
  assert (H : json_wfb (JObj [("nodeInfoRequest"%string, JArr [JStr "10.0.0.1"; JStr (format040x 1)]);
                  ("x"%string, JArr [JInt (-12); JNull; JBool true; JStr (String (chr 10) EmptyString)])])
              = true) by reflexivity.
  split; [exact H | apply dumps_loads, H].
Defined.

(** [{"a": 1, "a": 2}] decodes as [{'a': 2}]. *)
Definition dup_key_text : list ascii :=
  ["{"%char; qchar; "a"%char; qchar; ":"%char; " "%char; "1"%char; ","%char; " "%char;
   qchar; "a"%char; qchar; ":"%char; " "%char; "2"%char; "}"%char].

