(* ===== verification/Frames.v ===== *)
(** Frames cut by [recv(1024)].

    [receiveData] reads one frame with a single [clientSocket.recv(1024)]
    and decodes it (line 135).  [recv] returns at most 1024 bytes, and may
    return fewer.  This file shows that the scanner of [Wire] reads its
    input from left to right without taking back a decision when more
    text follows (extension lemmas), concludes that no proper prefix of an
    encoded dict or list decodes, and computes the size of the frames the
    node sends: a [closestNodesResponse] with 12 or more IPv4 contacts is
    longer than 1024 bytes, so the receiving server thread raises
    [JSONDecodeError] and ends. *)

From Stdlib Require Import ZArith Lia Ascii String.
From stdpp Require Import base list.
From S2P Require Import Prelude Hex Json Wire.

Local Open Scope Z_scope.

(** What a successful or unsupported scan becomes when text is appended. *)
Definition ext {A : Type} (res : presult A) (t : list ascii) : presult A :=
  match res with
  | POk a r => POk a (r ++ t)
  | PErr => PErr
  | PUnsup => PUnsup
  end.

(** ** Extension lemmas *)

Lemma skip_ws_app s t c r : skip_ws s = c :: r -> skip_ws (s ++ t) = c :: r ++ t.
Proof.
  induction s as [|c' s IH]; [discriminate|]. cbn [skip_ws app].
  destruct (is_ws c'); [exact IH | intros [= <- <-]; reflexivity].
Qed.

Lemma skip_ws_app_nonnil s t : skip_ws s <> [] -> skip_ws (s ++ t) = skip_ws s ++ t.
Proof.
  destruct (skip_ws s) as [|c r] eqn:Hs; [congruence|]. intros _. apply skip_ws_app, Hs.
Qed.

(** [pcons x r]: the character [x] in front of a string scan. *)
Definition pcons (x : ascii) (res : presult (list ascii)) : presult (list ascii) :=
  match res with POk s r => POk (x :: s) r | PErr => PErr | PUnsup => PUnsup end.

Lemma ext_pcons x res t : ext (pcons x res) t = pcons x (ext res t).
Proof. destruct res; reflexivity. Qed.

Lemma pcons_err x res : pcons x res <> PErr -> res <> PErr.
Proof. destruct res; simpl; congruence. Qed.

Lemma scan_chars_app_aux n s t :
  (length s <= n)%nat -> scan_chars s <> PErr -> scan_chars (s ++ t) = ext (scan_chars s) t.
Proof.
  revert s. induction n as [|n IH]; intros [|c s] Hlen Hs; try (simpl in Hlen; lia); try (simpl in Hs; congruence).
  cbn [app scan_chars] in *. fold (pcons c (scan_chars s)) in *. fold (pcons c (scan_chars (s ++ t))).
  destruct (Ascii.eqb c qchar); [reflexivity|].
  destruct (Ascii.eqb c "\"); [|destruct (Nat.ltb (nat_of_ascii c) 32); [congruence|];
    rewrite ext_pcons, IH by (simpl in Hlen; lia || exact (pcons_err _ _ Hs)); reflexivity].
  destruct s as [|e s]; [congruence|]. cbn [app] in *. simpl in Hlen.
  repeat match goal with
         | |- context [if Ascii.eqb e ?x then _ else _] => destruct (Ascii.eqb e x)
         end; try congruence;
    try (fold (pcons qchar (scan_chars s)) (pcons "\"%char (scan_chars s)) (pcons "/"%char (scan_chars s))
           (pcons (chr 8) (scan_chars s)) (pcons (chr 12) (scan_chars s)) (pcons (chr 10) (scan_chars s))
           (pcons (chr 13) (scan_chars s)) (pcons (chr 9) (scan_chars s)) in *;
         fold (pcons qchar (scan_chars (s ++ t))) (pcons "\"%char (scan_chars (s ++ t)))
           (pcons "/"%char (scan_chars (s ++ t))) (pcons (chr 8) (scan_chars (s ++ t)))
           (pcons (chr 12) (scan_chars (s ++ t))) (pcons (chr 10) (scan_chars (s ++ t)))
           (pcons (chr 13) (scan_chars (s ++ t))) (pcons (chr 9) (scan_chars (s ++ t)));
         rewrite ext_pcons, IH by (lia || exact (pcons_err _ _ Hs)); reflexivity).
  destruct s as [|a [|b [|c' [|d r]]]]; try congruence. cbn [app] in *.
  destruct (hex4 a b c' d) as [m|]; [|congruence].
  destruct (Z.ltb m 256); [|reflexivity].
  fold (pcons (chr m) (scan_chars r)) in *. fold (pcons (chr m) (scan_chars (r ++ t))).
  rewrite ext_pcons, IH by (simpl in Hlen; lia || exact (pcons_err _ _ Hs)). reflexivity.
Qed.

Lemma scan_chars_app s t : scan_chars s <> PErr -> scan_chars (s ++ t) = ext (scan_chars s) t.
Proof. apply (scan_chars_app_aux (length s)). lia. Qed.

Lemma take_digits_app2 l acc t n r :
  take_digits l acc = (n, r) -> r <> [] -> take_digits (l ++ t) acc = (n, r ++ t).
Proof.
  revert acc. induction l as [|c l IH]; intros acc H Hr; cbn [take_digits app] in *.
  - injection H as <- <-. congruence.
  - destruct (is_digit c); [apply IH; assumption|]. injection H as <- <-. reflexivity.
Qed.

(** A rest after a number that no appended text can turn into a
    fraction or an exponent. *)
Definition safe_end (r : list ascii) : bool :=
  match r with
  | c :: _ => negb (Ascii.eqb c ".") && negb (Ascii.eqb c "e") && negb (Ascii.eqb c "E")
  | [] => false
  end.

Lemma float_follows_app_true r t : float_follows r = true -> float_follows (r ++ t) = true.
Proof.
  destruct r as [|c [|d r]]; try discriminate. cbn [app float_follows].
  destruct r as [|x r]; [|exact id]. cbn [app].
  destruct (Ascii.eqb c "."), (is_digit d), (Ascii.eqb c "e"), (Ascii.eqb c "E"),
    (Ascii.eqb d "+"), (Ascii.eqb d "-"); cbn; congruence.
Qed.

Lemma float_follows_safe r t : safe_end r = true -> float_follows (r ++ t) = false.
Proof.
  destruct r as [|c r]; [discriminate|]. unfold safe_end.
  intros [[Hd He]%andb_true_iff HE]%andb_true_iff. apply negb_true_iff in Hd, He, HE.
  cbn [app]. destruct (r ++ t) as [|d r']; [reflexivity|]. unfold float_follows. rewrite Hd, He, HE. reflexivity.
Qed.

Lemma scan_int_part_app l t n r :
  scan_int_part l = Some (n, r) -> r <> [] -> scan_int_part (l ++ t) = Some (n, r ++ t).
Proof.
  destruct l as [|c l]; [discriminate|]. unfold scan_int_part. cbn [app].
  destruct (Ascii.eqb c "0"); [intros [= <- <-] _; reflexivity|].
  destruct (is_digit c); [|discriminate]. intros [= H] Hr. rewrite (take_digits_app2 _ _ _ _ _ H Hr). reflexivity.
Qed.

Lemma scan_number_shape l :
  scan_number l =
  let '(neg, l1) := match l with
                    | c :: l' => if Ascii.eqb c "-" then (true, l') else (false, l)
                    | [] => (false, l)
                    end in
  match scan_int_part l1 with
  | None => PErr
  | Some (n, rest) => if float_follows rest then PUnsup else POk (JInt (if neg then - n else n)) rest
  end.
Proof. reflexivity. Qed.

Lemma scan_number_app s t :
  scan_number s <> PErr ->
  match scan_number s with POk _ r => safe_end r = true | _ => True end ->
  scan_number (s ++ t) = ext (scan_number s) t.
Proof.
  rewrite !scan_number_shape. destruct s as [|c s]; [simpl; congruence|]. cbn [app].
  destruct (Ascii.eqb c "-");
    [destruct (scan_int_part s) as [[n r]|] eqn:Hi | destruct (scan_int_part (c :: s)) as [[n r]|] eqn:Hi];
    try (simpl; congruence);
    (destruct (float_follows r) eqn:Hf; intros _ Hsafe;
     [ assert (r <> []) by (intros ->; discriminate Hf) | assert (r <> []) by (intros ->; discriminate Hsafe) ]);
    [ rewrite (scan_int_part_app _ _ _ _ Hi), float_follows_app_true by assumption; reflexivity
    | rewrite (scan_int_part_app _ _ _ _ Hi), float_follows_safe by assumption; reflexivity
    | pose proof (scan_int_part_app (c :: s) t _ _ Hi ltac:(assumption)) as E; cbn [app] in E;
      rewrite E, float_follows_app_true by assumption; reflexivity
    | pose proof (scan_int_part_app (c :: s) t _ _ Hi ltac:(assumption)) as E; cbn [app] in E;
      rewrite E, float_follows_safe by assumption; reflexivity ].
Qed.

Lemma starts_with_app p l t : starts_with p l = true -> starts_with p (l ++ t) = true.
Proof.
  revert l. induction p as [|a p IH]; intros [|b l] H; try reflexivity; try discriminate.
  cbn [starts_with app] in *. apply andb_true_iff in H as [-> H]. exact (IH l H).
Qed.

Lemma starts_with_length p l : starts_with p l = true -> (length p <= length l)%nat.
Proof.
  revert l. induction p as [|a p IH]; intros [|b l] H; cbn [length] in *; try lia; try discriminate.
  cbn [starts_with] in H. apply andb_true_iff in H as [_ H]. specialize (IH l H). lia.
Qed.

Lemma starts_with_skip p l t n :
  starts_with p l = true -> length p = n -> skipn n (l ++ t) = skipn n l ++ t.
Proof. intros H <-. apply drop_app_le, starts_with_length, H. Qed.

Lemma scan_number_err c l :
  Ascii.eqb c "-" = false -> is_digit c = false -> scan_number (c :: l) = PErr.
Proof.
  intros Hm Hd. rewrite scan_number_nonneg by exact Hm. unfold scan_int_part. rewrite Hd.
  destruct (Ascii.eqb_spec c "0") as [->|]; [discriminate Hd | reflexivity].
Qed.

Lemma scan_number_minus l :
  scan_number ("-"%char :: l) <> PErr -> exists d l', l = d :: l' /\ is_digit d = true.
Proof.
  rewrite scan_number_neg. destruct l as [|d l']; [simpl; congruence|].
  unfold scan_int_part. destruct (Ascii.eqb_spec d "0") as [->|]; [eauto|].
  destruct (is_digit d) eqn:Hd; [eauto | simpl; congruence].
Qed.

Lemma skip_ws_safe r c r' :
  skip_ws r = c :: r' -> c = "}"%char \/ c = ","%char \/ c = "]"%char -> safe_end r = true.
Proof.
  induction r as [|h r IH]; [discriminate|]. cbn [skip_ws]. destruct (is_ws h) eqn:W.
  - intros _ _. unfold safe_end.
    destruct (Ascii.eqb_spec h ".") as [->|]; [discriminate W|].
    destruct (Ascii.eqb_spec h "e") as [->|]; [discriminate W|].
    destruct (Ascii.eqb_spec h "E") as [->|]; [discriminate W|]. reflexivity.
  - intros [= -> ->] [-> | [-> | ->]]; reflexivity.
Qed.

(** The scans of [Wire] that do not need the end of the text: a number
    must be followed by a character that cannot continue it. *)
Definition ok_end (res : presult json) : bool :=
  match res with POk (JInt _) r => safe_end r | _ => true end.

(** The result of the string branch, on an extended scan. *)
Lemma str_result_ext (res : presult (list ascii)) t :
  match ext res t with
  | POk s r => POk (JStr (string_of_list_ascii s)) r | PErr => PErr | PUnsup => PUnsup
  end =
  ext (match res with
       | POk s r => POk (JStr (string_of_list_ascii s)) r | PErr => PErr | PUnsup => PUnsup
       end) t.
Proof. destruct res; reflexivity. Qed.

Lemma scan_number_ok_end l :
  ok_end (scan_number l) = true -> match scan_number l with POk _ r => safe_end r = true | _ => True end.
Proof.
  rewrite scan_number_shape. destruct l as [|c l]; [simpl; trivial|].
  destruct (Ascii.eqb c "-");
    [destruct (scan_int_part l) as [[n r]|] | destruct (scan_int_part (c :: l)) as [[n r]|]];
    try trivial; destruct (float_follows r); trivial.
Qed.

Lemma digit_not_I d : is_digit d = true -> Ascii.eqb "I" d = false.
Proof. intros H. apply Ascii.eqb_neq. intros <-. discriminate H. Qed.

Definition ext_value (f : nat) : Prop :=
  forall s t, scan_value f s <> PErr -> ok_end (scan_value f s) = true ->
  scan_value f (s ++ t) = ext (scan_value f s) t.

Definition ext_members (f : nat) : Prop :=
  forall acc s t, scan_members f acc s <> PErr -> scan_members f acc (s ++ t) = ext (scan_members f acc s) t.

Definition ext_elements (f : nat) : Prop :=
  forall acc s t, scan_elements f acc s <> PErr -> scan_elements f acc (s ++ t) = ext (scan_elements f acc s) t.

(** A named constant whose tail matched stays matched. *)
Ltac const_branch c :=
  let Es := fresh "Es" in
  match goal with
  | |- context [if starts_with ?p ?l then _ else _] =>
      destruct (starts_with p l) eqn:Es;
      [ rewrite (starts_with_app _ _ _ Es);
        try rewrite (starts_with_skip _ _ _ _ Es eq_refl); reflexivity
      | exfalso; match goal with H : _ <> PErr |- _ => apply H, scan_number_err; reflexivity end ]
  end.

Lemma ext_value_step f : ext_members f -> ext_elements f -> ext_value (S f).
Proof.
  intros Hm He [|c s] t Hne Hok; [cbn in Hne; congruence|]. cbn [scan_value app] in *.
  destruct (Ascii.eqb c qchar) eqn:E1.
  { destruct (scan_chars s) eqn:Ec; [| congruence |];
      rewrite (scan_chars_app s t) by (rewrite Ec; discriminate); rewrite Ec; reflexivity. }
  destruct (Ascii.eqb c "{") eqn:E2.
  { destruct (skip_ws s) as [|c' r] eqn:Ew; [congruence|]. rewrite (skip_ws_app _ _ _ _ Ew).
    destruct (Ascii.eqb c' "}"); [reflexivity|]. exact (Hm [] (c' :: r) t Hne). }
  destruct (Ascii.eqb c "[") eqn:E3.
  { destruct (skip_ws s) as [|c' r] eqn:Ew; [congruence|]. rewrite (skip_ws_app _ _ _ _ Ew).
    destruct (Ascii.eqb c' "]"); [reflexivity|]. exact (He [] (c' :: r) t Hne). }
  destruct (Ascii.eqb_spec c "n") as [->|]; [const_branch "n"%char|].
  destruct (Ascii.eqb_spec c "t") as [->|]; [const_branch "t"%char|].
  destruct (Ascii.eqb_spec c "f") as [->|]; [const_branch "f"%char|].
  destruct (Ascii.eqb_spec c "N") as [->|]; [const_branch "N"%char|].
  destruct (Ascii.eqb_spec c "I") as [->|]; [const_branch "I"%char|].
  destruct (Ascii.eqb_spec c "-") as [->|Hc].
  - destruct (starts_with (list_ascii_of_string "Infinity") s) eqn:Es.
    + rewrite (starts_with_app _ _ _ Es). reflexivity.
    + destruct (scan_number_minus s Hne) as (d & l' & -> & Hd). cbn [app].
      cbn [list_ascii_of_string starts_with]. rewrite (digit_not_I d Hd). cbn [andb].
      change (scan_number ("-"%char :: d :: l' ++ t)) with (scan_number (("-"%char :: d :: l') ++ t)).
      apply scan_number_app; [exact Hne | apply scan_number_ok_end, Hok].
  - change (scan_number (c :: s ++ t)) with (scan_number ((c :: s) ++ t)).
    apply scan_number_app; [exact Hne | apply scan_number_ok_end, Hok].
Qed.

Lemma scan_value_nil f : scan_value f [] = PErr.
Proof. destruct f; reflexivity. Qed.

Lemma scan_elements_nil f acc : scan_elements f acc [] = PErr.
Proof. destruct f as [|f]; [reflexivity|]. cbn [scan_elements]. rewrite scan_value_nil. reflexivity. Qed.

Lemma scan_members_nil f acc : scan_members f acc [] = PErr.
Proof. destruct f; reflexivity. Qed.

Lemma ext_elements_step f : ext_value f -> ext_elements f -> ext_elements (S f).
Proof.
  intros Hv He acc s t Hne. cbn [scan_elements] in *.
  destruct (scan_value f s) as [v r| |] eqn:Es; [| congruence |].
  2: { rewrite (Hv s t) by (rewrite Es; (discriminate || reflexivity)). rewrite Es. reflexivity. }
  destruct (skip_ws r) as [|c r1] eqn:Ew; [congruence|].
  assert (Hc : Ascii.eqb c "]" = true \/ Ascii.eqb c "," = true)
    by (destruct (Ascii.eqb c "]"), (Ascii.eqb c ","); auto).
  rewrite (Hv s t) by (rewrite Es; first [discriminate | destruct v; try reflexivity;
    apply (skip_ws_safe r c r1 Ew); destruct Hc as [Hc|Hc]; apply Ascii.eqb_eq in Hc; auto]).
  rewrite Es. cbn [ext]. rewrite (skip_ws_app _ _ _ _ Ew).
  destruct (Ascii.eqb c "]"); [reflexivity|]. destruct (Ascii.eqb c ","); [|congruence].
  destruct (skip_ws r1) as [|c' r2] eqn:Ew'.
  - rewrite scan_elements_nil in Hne. congruence.
  - rewrite (skip_ws_app _ _ _ _ Ew'). exact (He (acc ++ [v]) (c' :: r2) t Hne).
Qed.

Lemma ext_members_step f : ext_value f -> ext_members f -> ext_members (S f).
Proof.
  intros Hv Hm acc [|c s] t Hne; [cbn in Hne; congruence|]. cbn [scan_members app] in *.
  destruct (Ascii.eqb c qchar); [|congruence].
  destruct (scan_chars s) as [k r| |] eqn:Ec; [| congruence |];
    rewrite (scan_chars_app s t) by (rewrite Ec; discriminate); rewrite Ec; [|reflexivity].
  cbn [ext]. destruct (skip_ws r) as [|c1 r1] eqn:Ew; [congruence|]. rewrite (skip_ws_app _ _ _ _ Ew).
  destruct (Ascii.eqb c1 ":"); [|congruence].
  destruct (skip_ws r1) as [|c2 r1'] eqn:Ew1; [rewrite scan_value_nil in Hne; congruence|].
  rewrite (skip_ws_app _ _ _ _ Ew1).
  destruct (scan_value f (c2 :: r1')) as [v r2| |] eqn:Es; [| congruence |].
  2: { change (c2 :: r1' ++ t) with ((c2 :: r1') ++ t).
       rewrite (Hv (c2 :: r1') t) by (rewrite Es; (discriminate || reflexivity)). rewrite Es. reflexivity. }
  destruct (skip_ws r2) as [|c3 r3] eqn:Ew2; [congruence|].
  assert (Hc : Ascii.eqb c3 "}" = true \/ Ascii.eqb c3 "," = true)
    by (destruct (Ascii.eqb c3 "}"), (Ascii.eqb c3 ","); auto).
  change (c2 :: r1' ++ t) with ((c2 :: r1') ++ t).
  rewrite (Hv (c2 :: r1') t) by (rewrite Es; first [discriminate | destruct v; try reflexivity;
    apply (skip_ws_safe r2 c3 r3 Ew2); destruct Hc as [Hc|Hc]; apply Ascii.eqb_eq in Hc; auto]).
  rewrite Es. cbn [ext]. rewrite (skip_ws_app _ _ _ _ Ew2).
  destruct (Ascii.eqb c3 "}"); [reflexivity|]. destruct (Ascii.eqb c3 ","); [|congruence].
  destruct (skip_ws r3) as [|c4 r4] eqn:Ew3.
  - rewrite scan_members_nil in Hne. congruence.
  - rewrite (skip_ws_app _ _ _ _ Ew3). exact (Hm _ (c4 :: r4) t Hne).
Qed.

(** The scanner reads from left to right: a scan that succeeds (with a
    number followed by a character that cannot continue it) or stops on
    an unsupported token gives the same result when text is appended. *)
Lemma scan_ext f : ext_value f /\ ext_members f /\ ext_elements f.
Proof.
  induction f as [|f (Hv & Hm & He)].
  - unfold ext_value, ext_members, ext_elements. split; [|split]; intros; cbn in *; congruence.
  - split; [|split]; [apply ext_value_step | apply ext_members_step | apply ext_elements_step]; assumption.
Qed.

(** ** More fuel changes nothing *)

Definition fuel_stable (f : nat) : Prop :=
  forall f', (f <= f')%nat ->
  (forall s, scan_value f s <> PErr -> scan_value f' s = scan_value f s) /\
  (forall acc s, scan_members f acc s <> PErr -> scan_members f' acc s = scan_members f acc s) /\
  (forall acc s, scan_elements f acc s <> PErr -> scan_elements f' acc s = scan_elements f acc s).

Lemma scan_fuel_stable f : fuel_stable f.
Proof.
  induction f as [|f IH]; intros f' Hle.
  - split; [|split]; intros; cbn in *; congruence.
  - destruct f' as [|f']; [lia|]. destruct (IH f' ltac:(lia)) as (Hv & Hm & He).
    split; [|split].
    + intros [|c s] Hne; cbn [scan_value] in *; [congruence|].
      destruct (Ascii.eqb c qchar); [reflexivity|].
      destruct (Ascii.eqb c "{").
      { destruct (skip_ws s) as [|c' r]; [reflexivity|]. destruct (Ascii.eqb c' "}"); [reflexivity|].
        apply Hm, Hne. }
      destruct (Ascii.eqb c "[").
      { destruct (skip_ws s) as [|c' r]; [reflexivity|]. destruct (Ascii.eqb c' "]"); [reflexivity|].
        apply He, Hne. }
      reflexivity.
    + intros acc [|c s] Hne; cbn [scan_members] in *; [congruence|].
      destruct (Ascii.eqb c qchar); [|reflexivity].
      destruct (scan_chars s) as [k r| |]; [|reflexivity..].
      destruct (skip_ws r) as [|c1 r1]; [reflexivity|]. destruct (Ascii.eqb c1 ":"); [|reflexivity].
      destruct (scan_value f (skip_ws r1)) as [v r2| |] eqn:Es; [| congruence |];
        rewrite (Hv _ ltac:(rewrite Es; discriminate)), Es; [|reflexivity].
      destruct (skip_ws r2) as [|c2 r3]; [reflexivity|].
      destruct (Ascii.eqb c2 "}"); [reflexivity|]. destruct (Ascii.eqb c2 ","); [|reflexivity].
      apply Hm, Hne.
    + intros acc s Hne; cbn [scan_elements] in *.
      destruct (scan_value f s) as [v r| |] eqn:Es; [| congruence |];
        rewrite (Hv _ ltac:(rewrite Es; discriminate)), Es; [|reflexivity].
      destruct (skip_ws r) as [|c r1]; [reflexivity|].
      destruct (Ascii.eqb c "]"); [reflexivity|]. destruct (Ascii.eqb c ","); [|reflexivity].
      apply He, Hne.
Qed.

(** ** No proper prefix of an encoded dict or list decodes *)

Lemma scan_members_obj f acc l v r : scan_members f acc l = POk v r -> exists kvs, v = JObj kvs.
Proof.
  revert acc l. induction f as [|f IH]; intros acc l H; [discriminate|]. cbn [scan_members] in H.
  repeat match type of H with
         | context [match ?x with _ => _ end] => destruct x; try discriminate
         end; try (injection H as <- _; eauto); eapply IH; exact H.
Qed.

Lemma scan_elements_arr f acc l v r : scan_elements f acc l = POk v r -> exists xs, v = JArr xs.
Proof.
  revert acc l. induction f as [|f IH]; intros acc l H; [discriminate|]. cbn [scan_elements] in H.
  repeat match type of H with
         | context [match ?x with _ => _ end] => destruct x; try discriminate
         end; try (injection H as <- _; eauto); eapply IH; exact H.
Qed.

Lemma scan_value_container f c l v r :
  c = "{"%char \/ c = "["%char -> scan_value f (c :: l) = POk v r -> ok_end (POk v r) = true.
Proof.
  intros [-> | ->] H; destruct f as [|f]; try discriminate; cbn [scan_value] in H; simpl in H;
    destruct (skip_ws l) as [|c' r']; try discriminate.
  - destruct (Ascii.eqb c' "}"); [injection H as <- _; reflexivity|].
    destruct (scan_members_obj _ _ _ _ _ H) as [kvs ->]. reflexivity.
  - destruct (Ascii.eqb c' "]"); [injection H as <- _; reflexivity|].
    destruct (scan_elements_arr _ _ _ _ _ H) as [xs ->]. reflexivity.
Qed.

Definition is_container (v : json) : bool :=
  match v with JArr _ | JObj _ => true | _ => false end.

Lemma enc_container_head lvl v :
  is_container v = true -> exists c l, enc lvl v = c :: l /\ (c = "{"%char \/ c = "["%char).
Proof.
  destruct v as [| | | | [|x xs] | [|[k x] kvs]]; try discriminate; intros _;
    eexists _, _; (split; [reflexivity | auto]).
Qed.

Lemma ascii7_no_high l :
  ascii7 l = true -> existsb (fun c => Nat.leb 128 (nat_of_ascii c)) l = false.
Proof.
  unfold ascii7. intros H. rewrite forallb_forall in H.
  apply not_true_iff_false. intros (c & Hc & Hle)%existsb_exists.
  specialize (H c Hc). apply Nat.ltb_lt in H. apply Nat.leb_le in Hle. lia.
Qed.

Lemma ascii7_take n l : ascii7 l = true -> ascii7 (take n l) = true.
Proof.
  unfold ascii7. rewrite !forallb_forall. intros H c Hc. apply H.
  apply list_elem_of_In, (subseteq_take n l), list_elem_of_In, Hc.
Qed.

(** A proper prefix of an encoded container does not decode. *)
Lemma prefix_decode_error v n :
  is_container v = true -> json_wfb v = true -> (n < length (dumps v))%nat ->
  json_loads (take n (dumps v)) = DecodeError.
Proof.
  intros Hc Hwf Hn. unfold dumps in *. set (d := enc 0 v) in *.
  set (p := take n d). set (t := drop n d).
  assert (Hd : d = p ++ t) by (symmetry; apply take_drop).
  assert (Ht : t <> []) by (intros E; apply (f_equal length) in E; unfold t in E;
                            rewrite length_drop in E; simpl in E; lia).
  unfold json_loads. rewrite ascii7_no_high by (apply ascii7_take, enc_ascii7).
  destruct (enc_container_head 0 v Hc) as (c & l & Henc & Hcc).
  destruct p as [|c' p'] eqn:Hp.
  - rewrite scan_value_nil. reflexivity.
  - assert (c' = c) as ->.
    { assert (Hd' : d = c' :: p' ++ t) by (rewrite Hd; reflexivity). unfold d in Hd'.
      rewrite Henc in Hd'. congruence. }
    rewrite skip_ws_nonws by (destruct Hcc as [-> | ->]; reflexivity).
    pose proof (scan_value_enc v Hwf 0 (S (length d)) []
                  ltac:(pose proof (jsize_le_length 0 v); unfold d; lia) I) as Hfull.
    rewrite app_nil_r in Hfull. fold d in Hfull.
    assert (Hfull2 : scan_value (S (length d)) ((c :: p') ++ t) = POk v []) by (rewrite <- Hd; exact Hfull).
    clear Hfull. rename Hfull2 into Hfull.
    destruct (scan_ext (S (length (c :: p')))) as (Hext & _).
    destruct (scan_value (S (length (c :: p'))) (c :: p')) as [v' r| |] eqn:Es; [| reflexivity |];
      (assert (Hstable : scan_value (S (length d)) ((c :: p') ++ t) =
                         scan_value (S (length (c :: p'))) ((c :: p') ++ t))
         by (apply (scan_fuel_stable (S (length (c :: p'))));
             [rewrite Hd, length_app; simpl; lia |
              rewrite (Hext (c :: p') t) by (rewrite Es; first [discriminate | reflexivity |
                eapply scan_value_container; [exact Hcc | exact Es]]); rewrite Es; discriminate]));
      rewrite Hstable, (Hext (c :: p') t) in Hfull by (rewrite Es; first [discriminate | reflexivity |
                eapply scan_value_container; [exact Hcc | exact Es]]);
      rewrite Es in Hfull; cbn [ext] in Hfull; [|discriminate].
    injection Hfull as _ Hr. destruct r; discriminate || (simpl in Hr; congruence).
Qed.

(** C32: no proper prefix of [json.dumps(v, indent=4)], for a dict or a
    list [v], is decoded by [json.loads]: it raises [JSONDecodeError]. *)
Theorem loads_prefix_fails v n :
  is_container v = true -> json_wfb v = true -> (n < length (dumps v))%nat ->
  json_loads (take n (dumps v)) = DecodeError.
Proof. exact (prefix_decode_error v n). Qed.

(** ** The size of a [closestNodesResponse] frame *)

(** A stored contact [{cid: ip}] with a string address. *)
Definition contact_of (kv : string * string) : json := JObj [(kv.1, JStr kv.2)].

(** [{'closestNodesResponse': nodes}] as [receiveData] sends it (line 147). *)
Definition closest_response (nodes : list json) : json :=
  JObj [("closestNodesResponse"%string, JArr nodes)].

Lemma esc_char_length c : (1 <= length (esc_char c))%nat.
Proof. destruct c as [[] [] [] [] [] [] [] []]; simpl; lia. Qed.

Lemma enc_string_length s : (2 + String.length s <= length (enc_string s))%nat.
Proof.
  unfold enc_string. cbn [length]. rewrite length_app. cbn [length].
  rewrite <- (length_list_ascii_of_string s).
  induction (list_ascii_of_string s) as [|c l IH]; simpl; [lia|].
  rewrite length_app. pose proof (esc_char_length c). lia.
Qed.

Lemma newline_indent_length lvl : length (newline_indent lvl) = S (4 * lvl).
Proof. unfold newline_indent. cbn [length]. rewrite repeat_length. reflexivity. Qed.

Lemma contact_length lvl kv :
  (14 + 8 * lvl + String.length kv.1 + String.length kv.2 <= length (enc lvl (contact_of kv)))%nat.
Proof.
  unfold contact_of. rewrite enc_obj. cbn [map concat length]. unfold enc_member. cbn [fst snd].
  rewrite !length_app, !newline_indent_length.
  change (enc (S lvl) (JStr kv.2)) with (enc_string kv.2).
  pose proof (enc_string_length kv.1). pose proof (enc_string_length kv.2). cbn [length]. lia.
Qed.




Lemma list_sum_cons x l : list_sum (x :: l) = (x + list_sum l)%nat.
Proof. reflexivity. Qed.

Lemma closest_response_length contacts :
  contacts <> [] ->
  (38 + list_sum (map (fun kv => 40 + String.length kv.1 + String.length kv.2) contacts)
   <= length (dumps (closest_response (map contact_of contacts))))%nat.
Proof.
  destruct contacts as [|kv kvs]; [congruence|]. intros _.
  unfold dumps, closest_response. rewrite enc_obj. cbn [map concat length]. unfold enc_member.
  cbn [fst snd]. rewrite enc_arr, !length_app. cbn [length].
  rewrite !length_app, length_concat_map, !newline_indent_length. cbn [length].
  change (length (enc_string "closestNodesResponse")) with 22%nat.
  pose proof (contact_length 2 kv) as Hkv.
  assert (Hs : (list_sum (map (fun kv => 40 + String.length kv.1 + String.length kv.2) kvs) <=
                list_sum (map (fun y => length (enc_item 1 y)) (map contact_of kvs)))%nat).
  { rewrite map_map. apply list_sum_map_le. apply Forall_forall. intros kv' _.
    unfold enc_item. cbn [length]. rewrite length_app, newline_indent_length.
    pose proof (contact_length 2 kv'). lia. }
  rewrite list_sum_cons.
  lia.
Qed.

Lemma closest_response_wf contacts : json_wfb (closest_response (map contact_of contacts)) = true.
Proof.
  assert (H : forallb json_wfb (map contact_of contacts) = true)
    by (induction contacts as [|kv kvs IH]; [reflexivity | exact IH]).
  unfold closest_response. simpl. rewrite H. reflexivity.
Qed.

Lemma contacts_sum_ge contacts :
  Forall (fun kv => String.length kv.1 = 40%nat /\ (7 <= String.length kv.2)%nat) contacts ->
  (87 * length contacts <= list_sum (map (fun kv => 40 + String.length kv.1 + String.length kv.2) contacts))%nat.
Proof.
  induction 1 as [|kv kvs [H1 H2] _ IH]; [simpl; lia|].
  cbn [map length]. rewrite list_sum_cons. lia.
Qed.

(** Every prefix of at most 1024 bytes of a long reply fails to decode. *)
Lemma closest_response_prefix_error contacts m :
  (12 <= length contacts)%nat ->
  Forall (fun kv => String.length kv.1 = 40%nat /\ (7 <= String.length kv.2)%nat) contacts ->
  (m <= 1024)%nat ->
  json_loads (take m (dumps (closest_response (map contact_of contacts)))) = DecodeError.
Proof.
  intros Hn Hall Hm. apply prefix_decode_error; [reflexivity | apply closest_response_wf |].
  assert (contacts <> []) by (intros ->; simpl in Hn; lia).
  pose proof (closest_response_length contacts ltac:(assumption)).
  pose proof (contacts_sum_ge contacts Hall). lia.
Qed.

(** C9: a [closestNodesResponse] listing 12 or more contacts with
    40-digit identifiers and addresses of at least 7 characters (any IPv4
    address) is longer than 1024 bytes: whatever prefix [recv(1024)]
    returns, [json.loads] raises [JSONDecodeError] on the receiving server
    thread. *)
Theorem closest_response_truncated contacts m :
  (12 <= length contacts)%nat ->
  Forall (fun kv => String.length kv.1 = 40%nat /\ (7 <= String.length kv.2)%nat) contacts ->
  (m <= 1024)%nat ->
  json_loads (take m (dumps (closest_response (map contact_of contacts)))) = DecodeError.
Proof. exact (closest_response_prefix_error contacts m). Qed.

(** A frame that fits is decoded whole when [recv] returns all of it. *)
Lemma loads_small_frame v m :
  json_wfb v = true -> (length (dumps v) <= m)%nat -> json_loads (take m (dumps v)) = Decoded v.
Proof. intros Hwf Hm. rewrite take_ge by exact Hm. apply loads_dumps_decoded, Hwf. Qed.

(** ** Witnesses *)

Definition twelve_contacts : list (string * string) := repeat (format040x 5, "1.2.3.4"%string) 12.

Lemma closest_response_truncated_witness :
  (12 <= length twelve_contacts)%nat /\
  Forall (fun kv => String.length kv.1 = 40%nat /\ (7 <= String.length kv.2)%nat) twelve_contacts /\
  json_loads (take 1024 (dumps (closest_response (map contact_of twelve_contacts)))) = DecodeError.
Proof.
  assert (H1 : (12 <= length twelve_contacts)%nat) by (vm_compute; lia).
  assert (H2 : Forall (fun kv => String.length kv.1 = 40%nat /\ (7 <= String.length kv.2)%nat)
                 twelve_contacts) by (vm_compute; repeat constructor; lia).
  split; [exact H1|]. split; [exact H2|].
  apply closest_response_truncated; [exact H1 | exact H2 | lia].
Defined.

Lemma loads_prefix_fails_witness :
  is_container (closest_response []) = true /\ json_wfb (closest_response []) = true /\
  (10 < length (dumps (closest_response [])))%nat /\
  json_loads (take 10 (dumps (closest_response []))) = DecodeError.
Proof.
  split; [reflexivity|]. split; [reflexivity|]. split; [vm_compute; lia|].
  apply loads_prefix_fails; [reflexivity | reflexivity | vm_compute; lia].
Defined.
