(* ===== verification/Dispatcher.v ===== *)
(** The server side of a node: the fields of [Node] that [receiveData]
    reads and writes, [sendData], and the handling of one decoded frame.

    [receiveData] (lines 127-150) accepts a connection, decodes one frame
    and tests it, in this order, for the keys [nodeInfoRequest],
    [nodeInfoResponse], [closestNodesRequest] and [closestNodesResponse].
    Every step runs on the server thread without a [try]: the first
    exception ends the thread, and what was changed before it stays
    changed.  The handler is written in the state-and-exception monad
    [pyst] of the prelude over the node and the messages it has sent.  The
    decoding of the frame ([recv(1024)] and [json.loads]) is in [Wire]. *)

From Stdlib Require Import ZArith Lia String.
From stdpp Require Import base list.
From S2P Require Import Prelude PySort Hex Json Metric RoutingTable Lookup.

Local Open Scope Z_scope.

(** The attributes of a [Node] object (lines 13-22); [None] is [JNull]. *)
Record Node := mkNode {
  publicIP : string;
  CID : string;
  DHT : list (list json);
  pendingResponse : json;
  bootstrapIPs : list string
}.

Definition set_DHT (n : Node) (D : list (list json)) : Node :=
  mkNode (publicIP n) (CID n) D (pendingResponse n) (bootstrapIPs n).

Definition set_pendingResponse (n : Node) (p : json) : Node :=
  mkNode (publicIP n) (CID n) (DHT n) p (bootstrapIPs n).

(** A node together with the frames it has sent, in order: the address and
    the value the peer decodes ([json.dumps] turns tuples into lists). *)
Record Host := mkHost {
  self : Node;
  sent : list (string * json)
}.

Section Dispatcher.
(** Whether a TCP connection to an address on the node's port succeeds. *)
Variable reachable : string -> bool.

(** [Node.sendData(ip, data)] (lines 153-158): [connect] needs a [str]
    host ([TypeError] otherwise) and raises [OSError] when the peer does
    not accept. *)
Definition sendData (ip data : json) : pyst Host unit :=
  fun h =>
    match ip with
    | JStr a => if reachable a then (mkHost (self h) (sent h ++ [(a, data)]), Ok tt)
                else (h, Raise OSError)
    | _ => (h, Raise TypeError)
    end.

(** [self.addNode(ip, cid)] on the node's table. *)
Definition addNode_st (ip cid : json) : pyst Host unit :=
  fun h =>
    match addNode (CID (self h)) (DHT (self h)) ip cid with
    | Ok D => (mkHost (set_DHT (self h) D) (sent h), Ok tt)
    | Raise e => (h, Raise e)
    end.

(** [data[key][i]]. *)
Definition item (data : json) (key : string) (i : Z) : py json :=
  v <- py_getitem data (JStr key) ;; py_getitem v (JInt i).

(** [{'nodeInfoResponse': (self.publicIP, self.CID)}]. *)
Definition info_response (n : Node) : json :=
  JObj [("nodeInfoResponse"%string, JArr [JStr (publicIP n); JStr (CID n)])].

(** The body of [receiveData]'s loop after [json.loads] (lines 138-150). *)
Definition receiveData_frame (data : json) : pyst Host unit :=
  b1 <~ pyst_lift (py_contains data "nodeInfoRequest") ;;
  if b1 then
    ip <~ pyst_lift (item data "nodeInfoRequest" 0) ;;
    cid <~ pyst_lift (item data "nodeInfoRequest" 1) ;;
    _ <~ addNode_st ip cid ;;
    ip' <~ pyst_lift (item data "nodeInfoRequest" 0) ;;
    h <~ pyst_get ;;
    sendData ip' (info_response (self h))
  else
  b2 <~ pyst_lift (py_contains data "nodeInfoResponse") ;;
  if b2 then
    ip <~ pyst_lift (item data "nodeInfoResponse" 0) ;;
    cid <~ pyst_lift (item data "nodeInfoResponse" 1) ;;
    addNode_st ip cid
  else
  b3 <~ pyst_lift (py_contains data "closestNodesRequest") ;;
  if b3 then
    ip <~ pyst_lift (item data "closestNodesRequest" 0) ;;
    h <~ pyst_get ;;
    cid <~ pyst_lift (item data "closestNodesRequest" 1) ;;
    res <~ pyst_lift (getClosestCIDs (DHT (self h)) cid 20) ;;
    sendData ip (JObj [("closestNodesResponse"%string, JArr res)])
  else
  b4 <~ pyst_lift (py_contains data "closestNodesResponse") ;;
  if b4 then
    p <~ pyst_lift (py_getitem data (JStr "closestNodesResponse")) ;;
    pyst_modify (fun h => mkHost (set_pendingResponse (self h) p) (sent h))
  else pyst_ret tt.

(** The [while True] loop of [receiveData] over the decoded frames that
    arrive, one per accepted connection; the first exception ends it. *)
Fixpoint serve (frames : list json) : pyst Host unit :=
  match frames with
  | [] => pyst_ret tt
  | f :: fs => _ <~ receiveData_frame f ;; serve fs
  end.

(** ** The table stays well-formed *)

Section Invariant.
Variable CID0 : string.

(** The node keeps its identifier, and its table is one that [addNode]
    calls can build from [__init__]'s 160 empty buckets. *)
Definition host_wf (h : Host) : Prop :=
  CID (self h) = CID0 /\ dht_reachable CID0 (DHT (self h)).

Lemma sendData_preserves ip data : pyst_preserves host_wf (sendData ip data).
Proof.
  intros h Hh. unfold sendData. destruct ip; try exact Hh. destruct (reachable s); exact Hh.
Qed.

Lemma addNode_st_preserves ip cid : pyst_preserves host_wf (addNode_st ip cid).
Proof.
  intros h [HC Hr]. unfold addNode_st.
  destruct (addNode (CID (self h)) (DHT (self h)) ip cid) as [D|e] eqn:Hadd; [|split; assumption].
  split; [exact HC|]. simpl. rewrite HC in Hadd. eapply dht_add; eassumption.
Qed.

Lemma receiveData_frame_preserves data : pyst_preserves host_wf (receiveData_frame data).
Proof.
  unfold receiveData_frame. preserves_tac;
    auto using sendData_preserves, addNode_st_preserves.
Qed.

Lemma serve_preserves frames : pyst_preserves host_wf (serve frames).
Proof.
  induction frames as [|f fs IH]; simpl; [apply pyst_preserves_ret|].
  apply pyst_preserves_bind; [apply receiveData_frame_preserves | intros _; exact IH].
Qed.

(** C25: whatever frames arrive, and also when one of them raises and ends
    the server thread, the node keeps its identifier and its table stays
    well-formed: 160 buckets, each contact in the bucket of its index. *)
Theorem serve_table_wf me frames h :
  int16 CID0 = Ok me -> host_wf h ->
  CID (self (fst (serve frames h))) = CID0 /\ table_wf me (DHT (self (fst (serve frames h)))).
Proof.
  intros Hme Hh. destruct (serve_preserves frames h Hh) as [HC Hr].
  split; [exact HC | eapply dht_reachable_wf; eassumption].
Qed.

End Invariant.

(** ** Each kind of frame *)

(** [{'nodeInfoRequest': (ip, cid)}] as the receiver decodes it. *)
Definition node_info_request (ip cid : string) : json :=
  JObj [("nodeInfoRequest"%string, JArr [JStr ip; JStr cid])].

(** How a [nodeInfoRequest] frame is handled. *)
Lemma info_request_handled h ip cid :
  receiveData_frame (node_info_request ip cid) h =
  match addNode (CID (self h)) (DHT (self h)) (JStr ip) (JStr cid) with
  | Ok D =>
      if reachable ip
      then (mkHost (set_DHT (self h) D) (sent h ++ [(ip, info_response (self h))]), Ok tt)
      else (mkHost (set_DHT (self h) D) (sent h), Raise OSError)
  | Raise e => (h, Raise e)
  end.
Proof.
  unfold receiveData_frame, addNode_st. cbv -[addNode].
  destruct (addNode _ _ _ _); reflexivity.
Qed.

(** C27: a [nodeInfoRequest] adds the sender before replying: when
    [addNode] raises, nothing changes; otherwise the contact is in the
    table, and then the [nodeInfoResponse] is sent, or, when the sender
    cannot be reached, [OSError] ends the thread with the contact added. *)
Theorem nodeInfoRequest_frame h ip cid :
  receiveData_frame (node_info_request ip cid) h =
  match addNode (CID (self h)) (DHT (self h)) (JStr ip) (JStr cid) with
  | Ok D =>
      if reachable ip
      then (mkHost (set_DHT (self h) D) (sent h ++ [(ip, info_response (self h))]), Ok tt)
      else (mkHost (set_DHT (self h) D) (sent h), Raise OSError)
  | Raise e => (h, Raise e)
  end.
Proof. exact (info_request_handled h ip cid). Qed.

(** How a [closestNodesRequest] frame is handled. *)
Lemma closest_request_handled h publicIP cid :
  receiveData_frame (closest_request publicIP cid) h =
  match peer_reply (DHT (self h)) (closest_request publicIP cid) with
  | Ok r =>
      if reachable publicIP
      then (mkHost (self h) (sent h ++ [(publicIP, JObj [("closestNodesResponse"%string, r)])]), Ok tt)
      else (h, Raise OSError)
  | Raise e => (h, Raise e)
  end.
Proof.
  unfold receiveData_frame, peer_reply. cbv -[getClosestCIDs].
  destruct (getClosestCIDs _ _ _); reflexivity.
Qed.

(** C26: a [closestNodesRequest] from [publicIP] for [cid] is answered as
    the peers of [Lookup.peers_network] answer: the payload is
    [peer_reply] of the table, sent back to [publicIP]; the table and the
    pending response do not change. *)
Theorem closestNodesRequest_frame h publicIP cid :
  receiveData_frame (closest_request publicIP cid) h =
  match peer_reply (DHT (self h)) (closest_request publicIP cid) with
  | Ok r =>
      if reachable publicIP
      then (mkHost (self h) (sent h ++ [(publicIP, JObj [("closestNodesResponse"%string, r)])]), Ok tt)
      else (h, Raise OSError)
  | Raise e => (h, Raise e)
  end.
Proof. exact (closest_request_handled h publicIP cid). Qed.

(** A [closestNodesResponse] fills the pending slot and does nothing else. *)
Lemma closestNodesResponse_frame h p :
  receiveData_frame (JObj [("closestNodesResponse"%string, p)]) h =
  (mkHost (set_pendingResponse (self h) p) (sent h), Ok tt).
Proof. reflexivity. Qed.


End Dispatcher.

(** ** Witnesses *)

(** Node X of [Lookup] just started: empty table, nothing pending. *)
Definition host_X0 : Host := mkHost (mkNode ip_X cid_X empty_DHT JNull []) [].

Definition all_reachable (_ : string) : bool := true.

(** X after handling Y's [nodeInfoRequest]. *)
Definition host_X1 : Host :=
  fst (serve all_reachable [node_info_request ip_Y cid_Y] host_X0).

(** A request whose identifier is not hexadecimal. *)
Definition bad_request : json := node_info_request ip_W "zz".

Lemma serve_table_wf_witness :
  int16 cid_X = Ok (3 * 2 ^ 158) /\ host_wf cid_X host_X0 /\
  CID (self (fst (serve all_reachable [node_info_request ip_Y cid_Y; bad_request] host_X0))) = cid_X /\
  table_wf (3 * 2 ^ 158)
    (DHT (self (fst (serve all_reachable [node_info_request ip_Y cid_Y; bad_request] host_X0)))).
Proof.
  assert (Hh : host_wf cid_X host_X0) by (split; [reflexivity | constructor]).
  split; [vm_compute; reflexivity|]. split; [exact Hh|].
  apply serve_table_wf; [vm_compute; reflexivity | exact Hh].
Defined.

