(* ===== verification/Bootstrap.v ===== *)
(** Node start-up and the bootstrap thread.

    [__init__] (lines 11-26) removes the node's own public address from
    the bootstrap list, starts with 160 empty buckets and nothing pending,
    and draws its identifier as the SHA-1 hex digest of random bytes.
    [bootstrap] (lines 28-47) repeats, every second, a round that
    - draws one target per bucket index with [generateTargetCID(i)];
    - sends [{'nodeInfoRequest': (publicIP, CID)}] to every bootstrap
      address;
    - for each target in order, runs [deepNodeSearch(target, 5)] and adds
      every returned contact whose bucket index is the target's index.
    The round is a method of [pyst] over the [Host] of [Dispatcher]; the
    lookups run against the [Network] interface of [Lookup], and a lookup
    that blocks blocks the round. *)

From Stdlib Require Import ZArith Lia String.
From stdpp Require Import base list.
From S2P Require Import Prelude PySort Hex Json Metric RoutingTable Lookup Dispatcher.

Local Open Scope Z_scope.

(** [lst.remove(x)] after [x in lst]: the first occurrence only. *)
Fixpoint remove_first (x : string) (l : list string) : list string :=
  match l with
  | [] => []
  | y :: l' => if String.eqb x y then l' else y :: remove_first x l'
  end.

(** The node [__init__] builds, for the address [requests.get] returns and
    the digest [hashlib.sha1(os.urandom(20)).hexdigest()] draws. *)
Definition node_init (publicIP CID : string) (bootstrapNodes : list string) : Node :=
  let ips := if existsb (String.eqb publicIP) bootstrapNodes
             then remove_first publicIP bootstrapNodes else bootstrapNodes in
  mkNode publicIP CID empty_DHT JNull ips.

(** The module's start-up (line 179):
    [myNode = Node(port=60000, bootstrapNodes=['79.230.223.138'])]. *)
Definition main_bootstrapNodes : list string := ["79.230.223.138"%string].

Definition main_node (publicIP CID : string) : Node := node_init publicIP CID main_bootstrapNodes.

(** How a round ends: all 160 lookups done, or stuck in a lookup's wait. *)
Inductive round_end := Finished | Blocked.

Section Bootstrap.
Context `{Net : Network}.
Variable reachable : string -> bool.
(** [random.randint] during this round. *)
Variable randint : Z -> Z -> Z.

(** Lines 43-47 for one returned contact. *)
Definition add_if_in_bucket (index : Z) (node : json) : pyst Host unit :=
  k <~ pyst_lift (first_key node) ;;
  h <~ pyst_get ;;
  idx <~ pyst_lift (getBucketIndex (CID (self h)) k) ;;
  if Z.eqb idx index then
    k1 <~ pyst_lift (first_key node) ;;
    ip <~ pyst_lift (py_getitem node k1) ;;
    k2 <~ pyst_lift (first_key node) ;;
    addNode_st ip k2
  else pyst_ret tt.

(** Lines 41-47: the lookups, in the order of the targets. *)
Fixpoint fill_buckets (index : Z) (targets : list string) : pyst Host round_end :=
  match targets with
  | [] => pyst_ret Finished
  | bucket :: rest =>
      h <~ pyst_get ;;
      outcome <~ pyst_lift (deepNodeSearch (DHT (self h)) (publicIP (self h)) bucket 5) ;;
      match outcome with
      | Converged closestNodes _ =>
          _ <~ pyst_iter (add_if_in_bucket index) closestNodes ;;
          fill_buckets (index + 1) rest
      | Waiting | OutOfFuel => pyst_ret Blocked
      end
  end.

(** One iteration of [bootstrap]'s [while True] (lines 30-47). *)
Definition bootstrap_round : pyst Host round_end :=
  h <~ pyst_get ;;
  bucketTargets <~ pyst_lift (py_mapM (generateTargetCID randint (CID (self h)))
                                       (map Z.of_nat (seq 0 160))) ;;
  _ <~ pyst_iter (fun node =>
         h' <~ pyst_get ;;
         sendData reachable (JStr node) (node_info_request (publicIP (self h')) (CID (self h'))))
       (bootstrapIPs (self h)) ;;
  fill_buckets 0 bucketTargets.

(** ** What a round adds *)

(** Whether a returned contact passes the test of line 45. *)
Definition in_bucket (CID : string) (index : Z) (node : json) : bool :=
  match (k <- first_key node ;; getBucketIndex CID k) with
  | Ok i => Z.eqb i index
  | Raise _ => false
  end.

Lemma add_if_in_bucket_size me index node h h' :
  int16 (CID (self h)) = Ok me -> add_if_in_bucket index node h = (h', Ok tt) ->
  CID (self h') = CID (self h) /\
  table_size (DHT (self h')) =
    (table_size (DHT (self h)) + if in_bucket (CID (self h)) index node then 1 else 0)%nat.
Proof.
  intros Hme. unfold add_if_in_bucket, in_bucket, pyst_bind, pyst_lift, pyst_get.
  destruct (first_key node) as [k|e]; simpl; [|discriminate].
  destruct (getBucketIndex (CID (self h)) k) as [i|e]; simpl; [|discriminate].
  destruct (Z.eqb i index); [|intros [= <-]; split; [reflexivity | lia]].
  destruct (py_getitem node k) as [ip|e]; simpl; [|discriminate].
  unfold addNode_st. destruct (addNode (CID (self h)) (DHT (self h)) ip k) as [D|e] eqn:Hadd;
    [|discriminate].
  intros [= <-]. split; [reflexivity|]. simpl.
  rewrite (addNode_table_size _ _ Hme _ _ _ _ Hadd). lia.
Qed.

(** C30: the contacts a lookup returns are added without any check against
    the table: when the loop of lines 43-47 completes, the table has
    grown by exactly the number of returned contacts whose bucket index is
    the target's, also those it already holds. *)
Theorem add_if_in_bucket_count me index nodes h h' :
  int16 (CID (self h)) = Ok me -> pyst_iter (add_if_in_bucket index) nodes h = (h', Ok tt) ->
  table_size (DHT (self h')) =
    (table_size (DHT (self h)) + length (filter (in_bucket (CID (self h)) index) nodes))%nat.
Proof.
  revert h. induction nodes as [|node nodes IH]; intros h Hme H; simpl in H.
  - injection H as <-. simpl. lia.
  - unfold pyst_bind in H.
    destruct (add_if_in_bucket index node h) as [h1 [[]|e]] eqn:H1; [|discriminate].
    destruct (add_if_in_bucket_size me index node h h1 Hme H1) as [HC Hs].
    rewrite (IH h1 ltac:(rewrite HC; exact Hme) H), Hs, HC.
    rewrite filter_cons. destruct (in_bucket _ index node); simpl; lia.
Qed.

(** ** The round keeps the table well-formed *)

Lemma add_if_in_bucket_preserves P index node :
  (forall ip cid, pyst_preserves P (addNode_st ip cid)) ->
  pyst_preserves P (add_if_in_bucket index node).
Proof. intros Hadd. unfold add_if_in_bucket. preserves_tac; auto. Qed.

Lemma fill_buckets_preserves P index targets :
  (forall ip cid, pyst_preserves P (addNode_st ip cid)) ->
  pyst_preserves P (fill_buckets index targets).
Proof.
  intros Hadd. revert index. induction targets as [|t ts IH]; intros index; simpl;
    [apply pyst_preserves_ret|].
  apply pyst_preserves_bind; [apply pyst_preserves_get | intros h].
  apply pyst_preserves_bind; [apply pyst_preserves_lift | intros [closestNodes asked| |]];
    [|apply pyst_preserves_ret..].
  apply pyst_preserves_bind; [apply pyst_preserves_iter; intros; apply add_if_in_bucket_preserves, Hadd | intros _].
  apply IH.
Qed.

Lemma bootstrap_round_preserves P :
  (forall ip cid, pyst_preserves P (addNode_st ip cid)) ->
  (forall ip data, pyst_preserves P (sendData reachable ip data)) ->
  pyst_preserves P bootstrap_round.
Proof.
  intros Hadd Hsend. unfold bootstrap_round.
  apply pyst_preserves_bind; [apply pyst_preserves_get | intros h].
  apply pyst_preserves_bind; [apply pyst_preserves_lift | intros targets].
  apply pyst_preserves_bind; [apply pyst_preserves_iter; intros node; preserves_tac; apply Hsend | intros _].
  apply fill_buckets_preserves, Hadd.
Qed.

(** C28: a bootstrap round keeps the node's identifier and its table
    well-formed, whether it finishes, blocks in a lookup or raises, for
    every network, every set of reachable peers and every draw of
    [random.randint]. *)
Theorem bootstrap_round_table_wf CID0 me h :
  int16 CID0 = Ok me -> host_wf CID0 h ->
  CID (self (fst (bootstrap_round h))) = CID0 /\ table_wf me (DHT (self (fst (bootstrap_round h)))).
Proof.
  intros Hme Hh.
  destruct (bootstrap_round_preserves (host_wf CID0)
              (addNode_st_preserves CID0) (sendData_preserves reachable CID0) h Hh) as [HC Hr].
  split; [exact HC | eapply dht_reachable_wf; eassumption].
Qed.

(** ** What a round sends *)

Lemma send_requests_sent (ips : list string) h :
  Forall (fun ip => reachable ip = true) ips ->
  pyst_iter (fun node =>
    h' <~ pyst_get ;;
    sendData reachable (JStr node) (node_info_request (publicIP (self h')) (CID (self h')))) ips h =
  (mkHost (self h) (sent h ++ map (fun ip => (ip, node_info_request (publicIP (self h)) (CID (self h)))) ips),
   Ok tt).
Proof.
  revert h. induction ips as [|ip ips IH]; intros h Hips; simpl.
  - rewrite app_nil_r. destruct h; reflexivity.
  - apply Forall_cons in Hips as [Hip Hips].
    unfold pyst_bind at 1, pyst_bind at 1, pyst_get, sendData. rewrite Hip.
    rewrite IH by exact Hips. simpl. rewrite <- app_assoc. reflexivity.
Qed.

(** every round starts by sending [nodeInfoRequest] with the node's
    address and identifier to each bootstrap address, in order; the
    lookups that follow send nothing through [sendData]. *)
Theorem bootstrap_round_sent h :
  is_hexdigest (CID (self h)) = true ->
  Forall (fun ip => reachable ip = true) (bootstrapIPs (self h)) ->
  sent (fst (bootstrap_round h)) =
    sent h ++ map (fun ip => (ip, node_info_request (publicIP (self h)) (CID (self h))))
                  (bootstrapIPs (self h)).
Proof.
  intros Hcid Hips. unfold bootstrap_round, pyst_bind at 1, pyst_get.
  destruct (hexdigest_int16 _ Hcid) as (me & Hme & _).
  unfold pyst_bind at 1, pyst_lift.
  rewrite (py_mapM_total _ (fun i => format040x (Z.lxor me (randint (2 ^ i) (2 ^ (i + 1) - 1)))))
    by (intros i; unfold generateTargetCID; rewrite Hme; reflexivity).
  unfold pyst_bind at 1. rewrite send_requests_sent by exact Hips.
  set (s0 := sent h ++ _).
  apply (fill_buckets_preserves (fun h' => sent h' = s0)); [|reflexivity].
  intros ip cid h' Hh'. unfold addNode_st. destruct (addNode _ _ _ _); exact Hh'.
Qed.

End Bootstrap.

(** ** Start-up *)

Lemma count_occ_remove_first x l :
  count_occ string_dec (remove_first x l) x = (count_occ string_dec l x - 1)%nat /\
  forall y, y <> x -> count_occ string_dec (remove_first x l) y = count_occ string_dec l y.
Proof.
  induction l as [|z l [IH1 IH2]]; simpl; [split; [reflexivity | intros; reflexivity]|].
  destruct (String.eqb_spec x z) as [<-|Hxz].
  - destruct (string_dec x x) as [_|]; [|congruence]. split; [lia|].
    intros y Hy. destruct (string_dec x y); [congruence | reflexivity].
  - simpl. destruct (string_dec z x); [congruence|]. split; [exact IH1|].
    intros y Hy. rewrite (IH2 y Hy). reflexivity.
Qed.

Lemma count_occ_existsb_false x l :
  existsb (String.eqb x) l = false -> count_occ string_dec l x = 0%nat.
Proof.
  induction l as [|z l IH]; simpl; [reflexivity|]. intros [Hz Hl]%orb_false_iff.
  destruct (string_dec z x) as [->|]; [rewrite String.eqb_refl in Hz; discriminate | exact (IH Hl)].
Qed.

(** [__init__]'s self-exclusion removes one occurrence of the node's
    own address from the bootstrap list, and nothing else: an address
    listed twice is still contacted. *)
Theorem node_init_bootstrapIPs publicIP CID l :
  count_occ string_dec (bootstrapIPs (node_init publicIP CID l)) publicIP =
    (count_occ string_dec l publicIP - 1)%nat /\
  forall y, y <> publicIP ->
    count_occ string_dec (bootstrapIPs (node_init publicIP CID l)) y = count_occ string_dec l y.
Proof.
  unfold node_init; simpl. destruct (existsb (String.eqb publicIP) l) eqn:He.
  - apply count_occ_remove_first.
  - rewrite (count_occ_existsb_false _ _ He). split; [reflexivity | intros; reflexivity].
Qed.

(** The node [__init__] builds satisfies the table invariant. *)
Lemma node_init_wf publicIP CID l : host_wf CID (mkHost (node_init publicIP CID l) []).
Proof. split; [reflexivity | constructor]. Qed.

(** ** Witnesses *)

Definition host_X2 : Host :=
  fst (pyst_iter (add_if_in_bucket 158) [contact cid_Y ip_Y] host_X1).

Lemma add_if_in_bucket_count_witness :
  int16 (CID (self host_X1)) = Ok (3 * 2 ^ 158) /\
  pyst_iter (add_if_in_bucket 158) [contact cid_Y ip_Y] host_X1 = (host_X2, Ok tt) /\
  table_size (DHT (self host_X1)) = 1%nat /\
  table_size (DHT (self host_X2)) = 2%nat.
Proof.
  assert (H1 : int16 (CID (self host_X1)) = Ok (3 * 2 ^ 158)) by (vm_compute; reflexivity).
  assert (H2 : pyst_iter (add_if_in_bucket 158) [contact cid_Y ip_Y] host_X1 = (host_X2, Ok tt))
    by (vm_compute; reflexivity).
  split; [exact H1|]. split; [exact H2|]. split; [vm_compute; reflexivity|].
  rewrite (add_if_in_bucket_count _ _ _ _ _ H1 H2). vm_compute. reflexivity.
Defined.

Lemma bootstrap_round_table_wf_witness :
  int16 cid_X = Ok (3 * 2 ^ 158) /\
  CID (self (fst (@bootstrap_round silent_network all_reachable (fun a _ => a)
                   (mkHost (node_init ip_X cid_X [ip_Y]) [])))) = cid_X /\
  table_wf (3 * 2 ^ 158) (DHT (self (fst (@bootstrap_round silent_network all_reachable (fun a _ => a)
                   (mkHost (node_init ip_X cid_X [ip_Y]) []))))).
Proof.
  assert (H : int16 cid_X = Ok (3 * 2 ^ 158)) by (vm_compute; reflexivity).
  split; [exact H|]. apply bootstrap_round_table_wf; [exact H | apply node_init_wf].
Defined.

Lemma bootstrap_round_sent_witness :
  sent (fst (@bootstrap_round silent_network all_reachable (fun a _ => a)
               (mkHost (node_init ip_X cid_X [ip_Y]) []))) =
    [(ip_Y, node_info_request ip_X cid_X)].
Proof.
  apply (@bootstrap_round_sent silent_network all_reachable (fun a _ => a)
           (mkHost (node_init ip_X cid_X [ip_Y]) []));
    [vm_compute; reflexivity | repeat constructor].
Defined.

Lemma node_init_bootstrapIPs_witness :
  count_occ string_dec (bootstrapIPs (node_init ip_X cid_X [ip_X; ip_Y; ip_X])) ip_X = 1%nat.
Proof. rewrite (proj1 (node_init_bootstrapIPs ip_X cid_X [ip_X; ip_Y; ip_X])). reflexivity. Defined.
