(* ===== verification/System.v ===== *)
(** Several nodes, their threads and the frames between them.

    Each node has the state of [Dispatcher] (its [Node] object and the
    frames its [sendData] calls produced), whether its server thread has
    bound its [listener] and is still running, whether its bootstrap
    thread is still running and whether it is waiting in
    [askForClosestNodes].  The wire holds the encoded frames in flight, as
    [json.dumps] wrote them; TCP connections are independent, so any frame
    may be delivered next.  The steps are the interleavings of the
    threads:
    - [listen]: the server thread binds its [listener] and listens
      (lines 129-131), or [bind] raises and the thread ends;
    - [deliver]: a listening server thread accepts a frame, reads a prefix
      of at most 1024 bytes, decodes it and handles it; an exception ends
      the thread;
    - [announce]: the bootstrap thread sends [nodeInfoRequest] (line 38);
    - [ask]: the bootstrap thread sends [closestNodesRequest] in
      [askForClosestNodes] and starts waiting (lines 61-62);
      in both, a connection to an address where no server listens (none
      was started, its [listener] is not bound yet, or its thread has
      raised and the socket is closed) is refused, and the [OSError] ends
      the bootstrap thread;
    - [take]: the waiting thread sees [self.pendingResponse] set, returns
      it and resets the slot (lines 63-66 and 94).
    The theorems relate one request/response exchange to the [Network]
    model of [Lookup], show that a reply too long for [recv(1024)] makes
    the asking node wait forever, that every reachable world keeps every
    table well-formed, that an answer no lookup waits for is returned to
    the next lookup, that a refused connection ends the bootstrap
    thread for good, and that a node announcing itself before its
    listener is bound stops the peer's server for good; they run the
    two-node join of the description from the state [Node.__init__]
    leaves.  Each step changes at most one node, by a [peer_step]; the
    properties of one node that [peer_step] keeps are proved once, in
    the section [PeerInvariant]. *)

From Stdlib Require Import ZArith Lia Ascii String.
From stdpp Require Import base list.
From S2P Require Import Prelude Hex Json Metric RoutingTable Lookup Wire Frames Dispatcher Bootstrap.

Local Open Scope Z_scope.

(** One node and its threads. *)
Record peer := mkPeer {
  host : Host;
  (** The server thread ([receiveData]) has not raised. *)
  alive : bool;
  (** The bootstrap thread is in [askForClosestNodes]'s busy wait. *)
  waiting : bool;
  (** The payloads [askForClosestNodes] returned so far. *)
  got : list json;
  (** The bootstrap thread has not raised. *)
  boot : bool;
  (** The server thread has bound its [listener] socket and listens. *)
  bound : bool
}.

Record world := mkWorld {
  peers : list (string * peer);
  (** Frames in flight: destination address and bytes. *)
  wire : list (string * list ascii)
}.

(** The same association list with the entry for [k] replaced. *)
Fixpoint assoc_set {A : Type} (k : string) (v : A) (kvs : list (string * A)) : list (string * A) :=
  match kvs with
  | [] => []
  | (k', v') :: r => if String.eqb k k' then (k', v) :: r else (k', v') :: assoc_set k v r
  end.

(** A server accepts connections once its thread has run [bind] and
    [listen] (lines 129-130) and until it raises: the [listener] socket
    is then closed. *)
Definition serving (p : peer) : bool := bound p && alive p.

(** A connection to an address succeeds when a node's server accepts
    there; before the [listener] is bound, and after its thread has
    raised, [connect] is refused. *)
Definition listening (W : world) (a : string) : bool :=
  match assoc a (peers W) with Some p => serving p | None => false end.

(** The frames a handler sent after the first [n], as bytes on the wire. *)
Definition frames_after (n : nat) (h : Host) : list (string * list ascii) :=
  map (fun '(a, d) => (a, dumps d)) (drop n (sent h)).

Definition is_ok {A : Type} (r : py A) : bool := match r with Ok _ => true | Raise _ => false end.

Fixpoint remove_nth {A : Type} (k : nat) (l : list A) : list A :=
  match l, k with
  | [], _ => []
  | _ :: l', O => l'
  | x :: l', S k' => x :: remove_nth k' l'
  end.

(** The server thread of the destination of the [k]-th frame accepts it
    and [recv(1024)] returns its first [m] bytes. *)
Definition deliver (W : world) (k m : nat) : option world :=
  match nth_error (wire W) k with
  | None => None
  | Some (dst, bytes) =>
      match assoc dst (peers W) with
      | None => None
      | Some p =>
          if negb (serving p) then None else
          let rest := remove_nth k (wire W) in
          match json_loads (take m bytes) with
          | Decoded v =>
              let '(h', r) := receiveData_frame (listening W) v (host p) in
              Some (mkWorld (assoc_set dst (mkPeer h' (is_ok r) (waiting p) (got p) (boot p) (bound p)) (peers W))
                            (rest ++ frames_after (length (sent (host p))) h'))
          | DecodeError =>
              Some (mkWorld (assoc_set dst (mkPeer (host p) false (waiting p) (got p) (boot p) (bound p)) (peers W)) rest)
          | Unsupported => None
          end
      end
  end.

(** The bootstrap thread of [x] sends [data] to [a] with [sendData];
    the [OSError] of a refused connection is not caught in [bootstrap]
    and ends the thread. *)
Definition send_from (W : world) (x : string) (a : string) (data : json) (wait : bool) : option world :=
  match assoc x (peers W) with
  | None => None
  | Some p =>
      if waiting p || negb (boot p) then None else
      match sendData (listening W) (JStr a) data (host p) with
      | (h', Ok _) =>
          Some (mkWorld (assoc_set x (mkPeer h' (alive p) wait (got p) (boot p) (bound p)) (peers W))
                        (wire W ++ frames_after (length (sent (host p))) h'))
      | (h', Raise _) =>
          Some (mkWorld (assoc_set x (mkPeer h' (alive p) false (got p) false (bound p)) (peers W)) (wire W))
      end
  end.

(** Line 38: [{'nodeInfoRequest': (self.publicIP, self.CID)}]. *)
Definition announce (W : world) (x a : string) : option world :=
  match assoc x (peers W) with
  | None => None
  | Some p => send_from W x a (node_info_request (publicIP (self (host p))) (CID (self (host p)))) false
  end.

(** Lines 61-62: the request of [askForClosestNodes(cid, a)]. *)
Definition ask (W : world) (x a cid : string) : option world :=
  match assoc x (peers W) with
  | None => None
  | Some p => send_from W x a (closest_request (publicIP (self (host p))) cid) true
  end.

(** Lines 63-66 and 94: the wait ends on a stored response, which is
    returned, and the slot is reset. *)
Definition take_response (W : world) (x : string) : option world :=
  match assoc x (peers W) with
  | None => None
  | Some p =>
      if negb (waiting p) then None else
      match pendingResponse (self (host p)) with
      | JNull => None
      | payload =>
          Some (mkWorld (assoc_set x (mkPeer (mkHost (set_pendingResponse (self (host p)) JNull)
                                                      (sent (host p)))
                                             (alive p) false (got p ++ [payload]) (boot p) (bound p))
                                     (peers W))
                        (wire W))
      end
  end.

(** Lines 129-131, the start of [receiveData]: the server thread creates
    its [listener], binds it to [(self.localIP, self.port)] and listens,
    once, before its first [accept].  [ok] is whether [bind] succeeds: it
    raises [OSError] when the port is taken, and the exception ends the
    thread before it ever listens.  The [print] changes no state. *)
Definition listen (W : world) (x : string) (ok : bool) : option world :=
  match assoc x (peers W) with
  | None => None
  | Some p =>
      if bound p || negb (alive p) then None else
      Some (mkWorld (assoc_set x (mkPeer (host p) ok (waiting p) (got p) (boot p) ok) (peers W)) (wire W))
  end.

(** The elements of an answer [askForClosestNodes] returned. *)
Definition payload_items (j : json) : list json := match j with JArr l => l | _ => [] end.

(** The contacts a node's lookups can return: those of its table and of
    the answers it received ([deepNodeSearch] starts from
    [getClosestCIDs] of the table and merges the answers). *)
Definition known_nodes (p : peer) : list json :=
  concat (DHT (self (host p))) ++ concat (map payload_items (got p)).

Definition known (W : world) (x : string) (node : json) : Prop :=
  match assoc x (peers W) with Some p => In node (known_nodes p) | None => False end.

(** Lines 43-47 for one contact a lookup returned: the bootstrap thread
    adds it when it lies in the bucket [index]; an exception (the test
    or [addNode] raising) ends the thread. *)
Definition fill_one (W : world) (x : string) (index : Z) (node : json) : option world :=
  match assoc x (peers W) with
  | None => None
  | Some p =>
      if waiting p || negb (boot p) then None else
      match add_if_in_bucket index node (host p) with
      | (h', Ok _) => Some (mkWorld (assoc_set x (mkPeer h' (alive p) false (got p) true (bound p)) (peers W)) (wire W))
      | (h', Raise _) =>
          Some (mkWorld (assoc_set x (mkPeer h' (alive p) false (got p) false (bound p)) (peers W)) (wire W))
      end
  end.

(** An exception raised by the bootstrap thread's own code
    ([generateTargetCID], [deepNodeSearch]) ends it. *)
Definition boot_raise (W : world) (x : string) : option world :=
  match assoc x (peers W) with
  | None => None
  | Some p =>
      if waiting p || negb (boot p) then None else
      Some (mkWorld (assoc_set x (mkPeer (host p) (alive p) false (got p) false (bound p)) (peers W)) (wire W))
  end.

(** The interleaving semantics. *)
Inductive sys_step : world -> world -> Prop :=
| step_deliver W W' k m : (1 <= m <= 1024)%nat -> deliver W k m = Some W' -> sys_step W W'
| step_announce W W' x a : announce W x a = Some W' -> sys_step W W'
| step_ask W W' x a cid : ask W x a cid = Some W' -> sys_step W W'
| step_take W W' x : take_response W x = Some W' -> sys_step W W'
| step_listen W W' x ok : listen W x ok = Some W' -> sys_step W W'
| step_fill W W' x index node : known W x node -> fill_one W x index node = Some W' -> sys_step W W'
| step_raise W W' x : boot_raise W x = Some W' -> sys_step W W'.

Inductive sys_steps : world -> world -> Prop :=
| steps_refl W : sys_steps W W
| steps_trans W1 W2 W3 : sys_step W1 W2 -> sys_steps W2 W3 -> sys_steps W1 W3.

(** The routing tables of the nodes, as [Lookup.peers_network] takes
    them. *)
Definition tables (W : world) : list (string * list (list json)) :=
  map (fun '(a, p) => (a, DHT (self (host p)))) (peers W).

(** ** Association lists *)

Lemma assoc_set_eq {A : Type} k (v : A) kvs p :
  assoc k kvs = Some p -> assoc k (assoc_set k v kvs) = Some v.
Proof.
  induction kvs as [|[k' v'] r IH]; [discriminate|]. cbn [assoc assoc_set].
  destruct (String.eqb_spec k k') as [<-|Hne]; cbn [assoc].
  - rewrite String.eqb_refl. reflexivity.
  - apply String.eqb_neq in Hne. rewrite Hne. exact IH.
Qed.

Lemma assoc_set_ne {A : Type} k k' (v : A) kvs :
  k <> k' -> assoc k (assoc_set k' v kvs) = assoc k kvs.
Proof.
  intros Hne. induction kvs as [|[k'' v'] r IH]; [reflexivity|]. cbn [assoc_set].
  destruct (String.eqb_spec k' k'') as [<-|]; cbn [assoc].
  - apply String.eqb_neq in Hne. rewrite Hne. reflexivity.
  - rewrite IH. reflexivity.
Qed.

Lemma assoc_set_keys {A : Type} k (v : A) kvs : map fst (assoc_set k v kvs) = map fst kvs.
Proof.
  induction kvs as [|[k' v'] r IH]; [reflexivity|]. cbn [assoc_set].
  destruct (String.eqb k k'); cbn [map fst]; [reflexivity | rewrite IH; reflexivity].
Qed.

Lemma assoc_keys_none {A B : Type} k (l1 : list (string * A)) (l2 : list (string * B)) :
  map fst l1 = map fst l2 -> (assoc k l1 = None <-> assoc k l2 = None).
Proof.
  revert l2. induction l1 as [|[k1 v1] r IH]; intros [|[k2 v2] r2] H; cbn in H; try discriminate.
  - tauto.
  - injection H as -> H. cbn [assoc]. destruct (String.eqb k k2); [split; discriminate|]. exact (IH _ H).
Qed.

Lemma listening_assoc_set W k v ws a q :
  assoc k (peers W) = Some q -> serving v = serving q ->
  listening (mkWorld (assoc_set k v (peers W)) ws) a = listening W a.
Proof.
  intros Hq Hv. unfold listening. cbn [peers]. destruct (String.eqb_spec a k) as [->|Hne].
  - rewrite (assoc_set_eq _ _ _ _ Hq), Hq. exact Hv.
  - rewrite assoc_set_ne by exact Hne. reflexivity.
Qed.

Lemma serving_alive p : serving p = true -> alive p = true.
Proof. unfold serving. intros H. apply andb_prop in H. apply H. Qed.

(** A node whose server runs still runs after a step that changed only
    its other fields. *)
Lemma serving_set p h w g b : serving p = true -> serving (mkPeer h true w g b (bound p)) = true.
Proof. unfold serving. cbn [bound alive]. intros H. apply andb_prop in H as [-> _]. reflexivity. Qed.

Lemma dead_not_serving p : alive p = false -> serving p = false.
Proof. unfold serving. intros ->. apply andb_false_r. Qed.

(** What [listen] does when it is enabled. *)
Lemma listen_inv W x ok W' : listen W x ok = Some W' ->
  exists p, assoc x (peers W) = Some p /\ bound p = false /\ alive p = true /\
    W' = mkWorld (assoc_set x (mkPeer (host p) ok (waiting p) (got p) (boot p) ok) (peers W)) (wire W).
Proof.
  unfold listen. destruct (assoc x (peers W)) as [p|] eqn:Hp; [|discriminate].
  destruct (bound p) eqn:Hb, (alive p) eqn:Ha; cbn [orb negb]; try discriminate.
  intros [= <-]. eauto 6.
Qed.

(** ** How a step changes one node

    A step changes at most one node, in one of four ways: its server
    handles a frame, its bootstrap thread sends, its busy wait takes the
    stored answer, or its server binds.  Properties of one node that
    survive these four changes hold in every later world. *)

Inductive peer_step : peer -> peer -> Prop :=
| ps_serve p h a :
    serving p = true -> peer_step p (mkPeer h a (waiting p) (got p) (boot p) (bound p))
| ps_send p h w b :
    waiting p = false -> boot p = true -> peer_step p (mkPeer h (alive p) w (got p) b (bound p))
| ps_take p h :
    waiting p = true -> pendingResponse (self (host p)) <> JNull ->
    peer_step p (mkPeer h (alive p) false (got p ++ [pendingResponse (self (host p))]) (boot p) (bound p))
| ps_listen p ok :
    bound p = false -> alive p = true -> peer_step p (mkPeer (host p) ok (waiting p) (got p) (boot p) ok).

(** The entry of [x] is unchanged, or changed by one [peer_step]. *)
Definition peer_changed (x : string) (W W' : world) : Prop :=
  assoc x (peers W') = assoc x (peers W) \/
  exists p p', assoc x (peers W) = Some p /\ assoc x (peers W') = Some p' /\ peer_step p p'.

Lemma peer_changed_set x W y q v ws :
  assoc y (peers W) = Some q -> peer_step q v -> peer_changed x W (mkWorld (assoc_set y v (peers W)) ws).
Proof.
  intros Hq Hv. unfold peer_changed. cbn [peers]. destruct (String.eqb_spec x y) as [->|Hne].
  - right. exists q, v. rewrite (assoc_set_eq _ _ _ _ Hq). auto.
  - left. apply assoc_set_ne, Hne.
Qed.

Lemma send_from_changed x W y a d w W' : send_from W y a d w = Some W' -> peer_changed x W W'.
Proof.
  unfold send_from. destruct (assoc y (peers W)) as [q|] eqn:Hq; [|discriminate].
  destruct (waiting q) eqn:Hw; [discriminate|]. destruct (boot q) eqn:Hb; [|discriminate]. cbn [orb negb].
  destruct (sendData _ _ _ _) as [h' [u|e]]; intros [= <-]; apply (peer_changed_set _ _ _ _ _ _ Hq);
    constructor; assumption.
Qed.

Lemma fill_one_changed x W y index node W' : fill_one W y index node = Some W' -> peer_changed x W W'.
Proof.
  unfold fill_one. destruct (assoc y (peers W)) as [q|] eqn:Hq; [|discriminate].
  destruct (waiting q) eqn:Hw; [discriminate|]. destruct (boot q) eqn:Hb; [|discriminate]. cbn [orb negb].
  destruct (add_if_in_bucket _ _ _) as [h' [u|e]]; intros [= <-]; apply (peer_changed_set _ _ _ _ _ _ Hq);
    constructor; assumption.
Qed.

Lemma boot_raise_changed x W y W' : boot_raise W y = Some W' -> peer_changed x W W'.
Proof.
  unfold boot_raise. destruct (assoc y (peers W)) as [q|] eqn:Hq; [|discriminate].
  destruct (waiting q) eqn:Hw; [discriminate|]. destruct (boot q) eqn:Hb; [|discriminate]. cbn [orb negb].
  intros [= <-]. apply (peer_changed_set _ _ _ _ _ _ Hq). constructor; assumption.
Qed.

Lemma sys_step_changed x W W' : sys_step W W' -> peer_changed x W W'.
Proof.
  intros [W0 W1 k m _ H | W0 W1 y a H | W0 W1 y a cid H | W0 W1 y H | W0 W1 y ok H | W0 W1 y index node _ H
         | W0 W1 y H].
  - unfold deliver in H.
    destruct (nth_error (wire W0) k) as [[dst bytes]|]; [|discriminate].
    destruct (assoc dst (peers W0)) as [q|] eqn:Hq; [|discriminate].
    destruct (serving q) eqn:Hs; [|discriminate]. cbn [negb] in H.
    destruct (json_loads _); [destruct (receiveData_frame _ _ _) as [h' r]| |discriminate];
      injection H as <-; apply (peer_changed_set _ _ _ _ _ _ Hq); constructor; exact Hs.
  - unfold announce in H. destruct (assoc y (peers W0)); [|discriminate]. exact (send_from_changed _ _ _ _ _ _ _ H).
  - unfold ask in H. destruct (assoc y (peers W0)); [|discriminate]. exact (send_from_changed _ _ _ _ _ _ _ H).
  - unfold take_response in H. destruct (assoc y (peers W0)) as [q|] eqn:Hq; [|discriminate].
    destruct (waiting q) eqn:Hw; [|discriminate]. cbn [negb] in H.
    destruct (pendingResponse (self (host q))) eqn:Hpend; try discriminate; injection H as <-;
      rewrite <- Hpend; apply (peer_changed_set _ _ _ _ _ _ Hq); (apply ps_take; [exact Hw | rewrite Hpend; discriminate]).
  - destruct (listen_inv _ _ _ _ H) as (q & Hq & Hb & Ha & ->).
    apply (peer_changed_set _ _ _ _ _ _ Hq). constructor; assumption.
  - exact (fill_one_changed _ _ _ _ _ _ H).
  - exact (boot_raise_changed _ _ _ _ H).
Qed.

Section PeerInvariant.
(** A property of one node that every [peer_step] keeps. *)
Variable P : peer -> Prop.
Hypothesis P_step : forall p p', P p -> peer_step p p' -> P p'.

Definition holds_at (x : string) (W : world) : Prop := exists p, assoc x (peers W) = Some p /\ P p.

Lemma holds_at_step x W W' : holds_at x W -> sys_step W W' -> holds_at x W'.
Proof.
  intros (p & Hp & HPp) Hst. destruct (sys_step_changed x _ _ Hst) as [E | (q & q' & Hq & Hq' & Hs)].
  - exists p. rewrite E. auto.
  - rewrite Hp in Hq. injection Hq as <-. exists q'. eauto.
Qed.

Lemma holds_at_steps x W W' : holds_at x W -> sys_steps W W' -> holds_at x W'.
Proof. intros H Hs. induction Hs; eauto using holds_at_step. Qed.
End PeerInvariant.

(** ** A node that waits on a dead server

    [askForClosestNodes] busy-waits on [self.pendingResponse], which only
    the node's own server thread sets.  Once that thread has ended and
    the slot is empty, nothing can end the wait. *)

Definition stuck (x : string) (g : list json) (W : world) : Prop :=
  exists p, assoc x (peers W) = Some p /\ alive p = false /\ waiting p = true /\
            pendingResponse (self (host p)) = JNull /\ got p = g.

Lemma stuck_peer_step g p p' :
  alive p = false /\ waiting p = true /\ pendingResponse (self (host p)) = JNull /\ got p = g ->
  peer_step p p' ->
  alive p' = false /\ waiting p' = true /\ pendingResponse (self (host p')) = JNull /\ got p' = g.
Proof.
  intros (Ha & Hw & Hpend & Hg) Hs. destruct Hs as [p h a Hs | p h w b Hw' _ | p h _ Hn | p ok _ Ha'].
  - rewrite dead_not_serving in Hs by exact Ha. discriminate.
  - congruence.
  - contradiction.
  - congruence.
Qed.

Lemma stuck_steps x g W W' : stuck x g W -> sys_steps W W' -> stuck x g W'.
Proof. exact (holds_at_steps _ (stuck_peer_step g) x W W'). Qed.

Lemma stuck_take x g W : stuck x g W -> take_response W x = None.
Proof.
  intros (p & Hp & _ & _ & Hpend & _). unfold take_response. rewrite Hp, Hpend.
  destruct (waiting p); reflexivity.
Qed.

(** A frame the destination cannot decode ends its server thread and
    changes nothing else of it. *)
Lemma deliver_decode_error W k m x bytes p :
  nth_error (wire W) k = Some (x, bytes) -> assoc x (peers W) = Some p -> serving p = true ->
  json_loads (take m bytes) = DecodeError ->
  deliver W k m = Some (mkWorld (assoc_set x (mkPeer (host p) false (waiting p) (got p) (boot p) (bound p)) (peers W))
                                (remove_nth k (wire W))).
Proof. intros Hk Hp Ha Hd. unfold deliver. rewrite Hk, Hp, Ha, Hd. reflexivity. Qed.

(** C10: a node waiting in [askForClosestNodes] whose answer lists twelve
    or more contacts (40-character identifiers, addresses of at least 7
    characters) never returns: its server thread reads at most 1024 bytes
    of the answer, [json.loads] raises, the thread ends, and in every
    continuation of the system the node is still waiting, its slot is
    empty, and [askForClosestNodes] has returned nothing more. *)
Theorem long_reply_hangs W x p k m contacts :
  assoc x (peers W) = Some p -> serving p = true -> waiting p = true ->
  pendingResponse (self (host p)) = JNull ->
  nth_error (wire W) k = Some (x, dumps (closest_response (map contact_of contacts))) ->
  (12 <= length contacts)%nat ->
  Forall (fun kv => String.length kv.1 = 40%nat /\ (7 <= String.length kv.2)%nat) contacts ->
  (m <= 1024)%nat ->
  exists W', deliver W k m = Some W' /\
    forall W'', sys_steps W' W'' ->
      take_response W'' x = None /\
      exists p'', assoc x (peers W'') = Some p'' /\ alive p'' = false /\ waiting p'' = true /\
                  got p'' = got p.
Proof.
  intros Hp Ha Hw Hpend Hk Hn Hall Hm.
  eexists. split.
  { apply (deliver_decode_error _ _ _ _ _ _ Hk Hp Ha).
    exact (closest_response_prefix_error contacts m Hn Hall Hm). }
  intros W'' Hs. assert (Hst : stuck x (got p) W'').
  { refine (stuck_steps _ _ _ _ _ Hs). exists (mkPeer (host p) false (waiting p) (got p) (boot p) (bound p)).
    cbn [peers]. rewrite (assoc_set_eq _ _ _ _ Hp). cbn. auto. }
  split; [exact (stuck_take _ _ _ Hst)|].
  destruct Hst as (p'' & ? & ? & ? & _ & ?). exists p''. auto.
Qed.

(** ** Every step keeps every routing table well-formed *)

Lemma assoc_set_inv {A : Type} k k' (v p : A) kvs :
  assoc k (assoc_set k' v kvs) = Some p -> (k = k' /\ p = v) \/ (k <> k' /\ assoc k kvs = Some p).
Proof.
  destruct (String.eqb_spec k k') as [->|Hne].
  - intros H. left. split; [reflexivity|].
    induction kvs as [|[k'' v'] r IH]; [discriminate|]. cbn [assoc_set] in H.
    destruct (String.eqb_spec k' k'') as [<-|Hne]; cbn [assoc] in H.
    + rewrite String.eqb_refl in H. congruence.
    + apply String.eqb_neq in Hne. rewrite Hne in H. exact (IH H).
  - rewrite assoc_set_ne by exact Hne. auto.
Qed.

(** A host is changed by an operation that keeps [host_wf] for every
    identifier. *)
Definition host_evolves (h h' : Host) : Prop := forall c, host_wf c h -> host_wf c h'.

(** Each node of the new world is a node of the old one, changed in a way
    that keeps the invariant. *)
Definition world_evolves (W W' : world) : Prop :=
  forall a p', assoc a (peers W') = Some p' ->
  exists p, assoc a (peers W) = Some p /\ host_evolves (host p) (host p').

Lemma world_evolves_set W a p v ws :
  assoc a (peers W) = Some p -> host_evolves (host p) (host v) ->
  world_evolves W (mkWorld (assoc_set a v (peers W)) ws).
Proof.
  intros Hp Hv b p' Hb. cbn [peers] in Hb.
  destruct (assoc_set_inv _ _ _ _ _ Hb) as [[-> ->]|[_ Hb']]; [eauto|].
  exists p'. split; [exact Hb' | intros c Hc; exact Hc].
Qed.

Lemma world_evolves_trans W1 W2 W3 :
  world_evolves W1 W2 -> world_evolves W2 W3 -> world_evolves W1 W3.
Proof.
  intros H12 H23 a p3 H3. destruct (H23 a p3 H3) as (p2 & H2 & E23).
  destruct (H12 a p2 H2) as (p1 & H1 & E12). exists p1. split; [exact H1|].
  intros c Hc. exact (E23 c (E12 c Hc)).
Qed.

Lemma send_from_evolves W x a d w W' : send_from W x a d w = Some W' -> world_evolves W W'.
Proof.
  unfold send_from. destruct (assoc x (peers W)) as [p|] eqn:Hp; [|discriminate].
  destruct (waiting p); [discriminate|]. destruct (boot p); [|discriminate]. cbn [orb negb].
  destruct (sendData _ _ _ _) as [h' r] eqn:Hs. intros H.
  assert (E : host_evolves (host p) h').
  { intros c Hc. pose proof (sendData_preserves (listening W) c (JStr a) d (host p) Hc) as Hp'.
    rewrite Hs in Hp'. exact Hp'. }
  destruct r; injection H as <-; apply (world_evolves_set _ _ _ _ _ Hp); exact E.
Qed.

Lemma sys_step_evolves W W' : sys_step W W' -> world_evolves W W'.
Proof.
  intros [W0 W1 k m _ H | W0 W1 y a H | W0 W1 y a cid H | W0 W1 y H | W0 W1 y ok H | W0 W1 y index node _ H
         | W0 W1 y H].
  - unfold deliver in H.
    destruct (nth_error (wire W0) k) as [[dst bytes]|]; [|discriminate].
    destruct (assoc dst (peers W0)) as [q|] eqn:Hq; [|discriminate].
    destruct (serving q); [|discriminate]. cbn [negb] in H.
    destruct (json_loads _) as [v| |]; [|injection H as <-|discriminate].
    + destruct (receiveData_frame _ _ _) as [h' r] eqn:Hr. injection H as <-.
      apply (world_evolves_set _ _ _ _ _ Hq). intros c Hc. cbn [host].
      pose proof (receiveData_frame_preserves (listening W0) c v (host q) Hc) as H.
      rewrite Hr in H. exact H.
    + apply (world_evolves_set _ _ _ _ _ Hq). intros c Hc. exact Hc.
  - unfold announce in H. destruct (assoc y (peers W0)); [|discriminate].
    exact (send_from_evolves _ _ _ _ _ _ H).
  - unfold ask in H. destruct (assoc y (peers W0)); [|discriminate].
    exact (send_from_evolves _ _ _ _ _ _ H).
  - unfold take_response in H.
    destruct (assoc y (peers W0)) as [q|] eqn:Hq; [|discriminate].
    destruct (waiting q); [|discriminate]. cbn [negb] in H.
    destruct (pendingResponse _); try discriminate; injection H as <-;
      apply (world_evolves_set _ _ _ _ _ Hq); intros c Hc; exact Hc.
  - destruct (listen_inv _ _ _ _ H) as (q & Hq & _ & _ & ->).
    apply (world_evolves_set _ _ _ _ _ Hq). intros c Hc. exact Hc.
  - unfold fill_one in H. destruct (assoc y (peers W0)) as [q|] eqn:Hq; [|discriminate].
    destruct (waiting q || negb (boot q)); [discriminate|].
    destruct (add_if_in_bucket index node (host q)) as [h' r] eqn:Ha.
    assert (E : host_evolves (host q) h').
    { intros c Hc. pose proof (add_if_in_bucket_preserves (host_wf c) index node
                                 ltac:(intros; apply addNode_st_preserves) (host q) Hc) as Hp.
      rewrite Ha in Hp. exact Hp. }
    destruct r; injection H as <-; apply (world_evolves_set _ _ _ _ _ Hq); exact E.
  - unfold boot_raise in H. destruct (assoc y (peers W0)) as [q|] eqn:Hq; [|discriminate].
    destruct (waiting q || negb (boot q)); [discriminate|]. injection H as <-.
    apply (world_evolves_set _ _ _ _ _ Hq). intros c Hc. exact Hc.
Qed.

Lemma sys_steps_evolves W W' : sys_steps W W' -> world_evolves W W'.
Proof.
  induction 1 as [W|W1 W2 W3 H12 _ IH].
  - intros a p Hp. exists p. split; [exact Hp | intros c Hc; exact Hc].
  - exact (world_evolves_trans _ _ _ (sys_step_evolves _ _ H12) IH).
Qed.

(** C19: in every world reachable from one whose nodes hold well-formed
    tables, every node keeps the identifier it started with, and its
    table has 160 buckets, each holding only contacts whose bucket index
    relative to that identifier is the bucket's position, whatever frames
    were delivered, truncated or lost and in whatever order. *)
Theorem sys_tables_wf W0 W :
  (forall a p, assoc a (peers W0) = Some p -> dht_reachable (CID (self (host p))) (DHT (self (host p)))) ->
  sys_steps W0 W ->
  forall a p me, assoc a (peers W) = Some p ->
  exists p0, assoc a (peers W0) = Some p0 /\ CID (self (host p)) = CID (self (host p0)) /\
             (int16 (CID (self (host p))) = Ok me -> table_wf me (DHT (self (host p)))).
Proof.
  intros H0 Hs a p me Hp. destruct (sys_steps_evolves _ _ Hs a p Hp) as (p0 & Hp0 & E).
  destruct (E (CID (self (host p0))) (conj eq_refl (H0 a p0 Hp0))) as [HC Hr].
  exists p0. split; [exact Hp0|]. split; [exact HC|].
  intros Hme. rewrite HC in Hme. eapply dht_reachable_wf; eassumption.
Qed.

(** ** One request and its answer *)

Lemma nth_error_last {A : Type} (l : list A) (x : A) : nth_error (l ++ [x]) (length l) = Some x.
Proof. rewrite nth_error_app2, Nat.sub_diag by lia. reflexivity. Qed.

Lemma remove_nth_last {A : Type} (l : list A) (x : A) : remove_nth (length l) (l ++ [x]) = l.
Proof. induction l as [|y l IH]; [reflexivity|]. cbn. rewrite IH. reflexivity. Qed.

Lemma frames_after_new n s l :
  frames_after (length s) (mkHost n (s ++ l)) = map (fun '(a, d) => (a, dumps d)) l.
Proof. unfold frames_after. cbn [sent]. rewrite drop_app_length. reflexivity. Qed.

Lemma assoc_tables a W :
  assoc a (tables W) = option_map (fun p => DHT (self (host p))) (assoc a (peers W)).
Proof.
  unfold tables. induction (peers W) as [|[k p] r IH]; [reflexivity|].
  cbn [map assoc]. destruct (String.eqb a k); [reflexivity | exact IH].
Qed.

Lemma listening_some W a p : assoc a (peers W) = Some p -> serving p = true -> listening W a = true.
Proof. unfold listening. intros -> Ha. exact Ha. Qed.

(** A frame the destination decodes is handled by [receiveData_frame]. *)
Lemma deliver_decoded W k m x bytes p v :
  nth_error (wire W) k = Some (x, bytes) -> assoc x (peers W) = Some p -> serving p = true ->
  json_loads (take m bytes) = Decoded v ->
  deliver W k m =
    let '(h', r) := receiveData_frame (listening W) v (host p) in
    Some (mkWorld (assoc_set x (mkPeer h' (is_ok r) (waiting p) (got p) (boot p) (bound p)) (peers W))
                  (remove_nth k (wire W) ++ frames_after (length (sent (host p))) h')).
Proof. intros Hk Hp Ha Hd. unfold deliver. rewrite Hk, Hp, Ha, Hd. reflexivity. Qed.

(** A request of the bootstrap thread leaves on the wire when the target
    listens. *)
Lemma send_from_ok W x a d w p :
  assoc x (peers W) = Some p -> waiting p = false -> boot p = true -> listening W a = true ->
  send_from W x a d w =
    Some (mkWorld (assoc_set x (mkPeer (mkHost (self (host p)) (sent (host p) ++ [(a, d)]))
                                      (alive p) w (got p) true (bound p)) (peers W))
                  (wire W ++ [(a, dumps d)])).
Proof.
  intros Hp Hw Hb Hl. unfold send_from. rewrite Hp, Hw, Hb. cbn [orb negb]. unfold sendData. rewrite Hl.
  rewrite frames_after_new. reflexivity.
Qed.

(** [askForClosestNodes]'s request leaves on the wire when the target
    listens. *)
Lemma ask_sends W x y cid p :
  assoc x (peers W) = Some p -> waiting p = false -> boot p = true -> listening W y = true ->
  ask W x y cid =
    Some (mkWorld (assoc_set x (mkPeer (mkHost (self (host p))
                     (sent (host p) ++ [(y, closest_request (publicIP (self (host p))) cid)]))
                     (alive p) true (got p) true (bound p)) (peers W))
                  (wire W ++ [(y, dumps (closest_request (publicIP (self (host p))) cid))])).
Proof.
  intros Hp Hw Hb Hl. unfold ask. rewrite Hp. exact (send_from_ok _ _ _ _ _ _ Hp Hw Hb Hl).
Qed.


Lemma frames_after_none h : frames_after (length (sent h)) h = [].
Proof. unfold frames_after. rewrite drop_all. reflexivity. Qed.

Lemma loads_whole v m : json_wfb v = true -> (length (dumps v) <= m)%nat ->
  json_loads (take m (dumps v)) = Decoded v.
Proof. intros Hwf Hm. rewrite take_ge by exact Hm. exact (loads_dumps_decoded v Hwf). Qed.

Lemma peer_reply_request D ip cid res :
  getClosestCIDs D (JStr cid) 20 = Ok res -> peer_reply D (closest_request ip cid) = Ok (JArr res).
Proof. intros H. unfold peer_reply, closest_request. cbv -[getClosestCIDs]. rewrite H. reflexivity. Qed.

(** The peer [y] answers a request that fits in [m] bytes. *)
Lemma serve_request_step W1 k m x y cid py res :
  nth_error (wire W1) k = Some (y, dumps (closest_request x cid)) ->
  assoc y (peers W1) = Some py -> serving py = true -> listening W1 x = true ->
  getClosestCIDs (DHT (self (host py))) (JStr cid) 20 = Ok res ->
  (length (dumps (closest_request x cid)) <= m)%nat ->
  exists W2, deliver W1 k m = Some W2 /\
    wire W2 = remove_nth k (wire W1) ++ [(x, dumps (closest_response res))] /\
    assoc y (peers W2) = Some (mkPeer (mkHost (self (host py)) (sent (host py) ++ [(x, closest_response res)]))
                                      true (waiting py) (got py) (boot py) (bound py)) /\
    forall a, a <> y -> assoc a (peers W2) = assoc a (peers W1).
Proof.
  intros Hk Hy Ha Hl Hres Hm.
  rewrite (deliver_decoded _ _ _ _ _ _ _ Hk Hy Ha (loads_whole (closest_request x cid) _ eq_refl Hm)).
  rewrite closest_request_handled, (peer_reply_request _ _ _ _ Hres), Hl.
  eexists. split; [reflexivity|]. cbn [wire peers]. split; [|split].
  - rewrite frames_after_new. reflexivity.
  - exact (assoc_set_eq _ _ _ _ Hy).
  - intros a Hne. apply assoc_set_ne, Hne.
Qed.

(** The asking node's server stores an answer that fits in [m] bytes. *)
Lemma store_response_step W2 k m x p res :
  nth_error (wire W2) k = Some (x, dumps (closest_response res)) ->
  assoc x (peers W2) = Some p -> serving p = true -> json_wfb (JArr res) = true ->
  (length (dumps (closest_response res)) <= m)%nat ->
  exists W3, deliver W2 k m = Some W3 /\ wire W3 = remove_nth k (wire W2) /\
    assoc x (peers W3) = Some (mkPeer (mkHost (set_pendingResponse (self (host p)) (JArr res))
                                              (sent (host p))) true (waiting p) (got p) (boot p) (bound p)) /\
    forall a, a <> x -> assoc a (peers W3) = assoc a (peers W2).
Proof.
  intros Hk Hx Ha Hwf Hm.
  assert (Hwf' : json_wfb (closest_response res) = true) by (change (keys_nodup ["closestNodesResponse"%string] && (json_wfb (JArr res) && true) = true);
        rewrite Hwf; reflexivity).
  rewrite (deliver_decoded _ _ _ _ _ _ _ Hk Hx Ha (loads_whole _ _ Hwf' Hm)).
  unfold closest_response. rewrite closestNodesResponse_frame.
  eexists. split; [reflexivity|]. cbn [wire peers]. split.
  - rewrite (frames_after_none (mkHost _ (sent (host p)))), app_nil_r. reflexivity.
  - split; [exact (assoc_set_eq _ _ _ _ Hx)|]. intros a Hne. apply assoc_set_ne, Hne.
Qed.

(** The busy wait ends on a stored answer. *)
Lemma take_step W3 x p r :
  assoc x (peers W3) = Some p -> waiting p = true -> pendingResponse (self (host p)) = r -> r <> JNull ->
  exists W4, take_response W3 x = Some W4 /\ wire W4 = wire W3 /\
    assoc x (peers W4) = Some (mkPeer (mkHost (set_pendingResponse (self (host p)) JNull) (sent (host p)))
                                      (alive p) false (got p ++ [r]) (boot p) (bound p)) /\
    forall a, a <> x -> assoc a (peers W4) = assoc a (peers W3).
Proof.
  intros Hx Hw Hr Hnn. unfold take_response. rewrite Hx, Hw. cbn [negb].
  destruct (pendingResponse (self (host p))) eqn:E; subst r; [congruence|..];
    (eexists; split; [reflexivity|]; split; [reflexivity|]; split;
     [exact (assoc_set_eq _ _ _ _ Hx) | intros a Hne; apply assoc_set_ne, Hne]).
Qed.

Lemma peers_network_ask tbls x y cid D res :
  assoc y tbls = Some D -> getClosestCIDs D (JStr cid) 20 = Ok res ->
  @askForClosestNodes (peers_network tbls) x cid (JStr y) = Ok (Some (JArr res)).
Proof.
  intros Hy Hres. unfold askForClosestNodes. cbn [Lookup.sendData Lookup.response_to peers_network peer_table].
  rewrite Hy, (peer_reply_request _ _ _ _ Hres). reflexivity.
Qed.

(** The four steps of one exchange and what they leave: [x] idle again
    with the answer appended to what it received, [y] running with the
    answer sent, every other node and frame as before. *)
Lemma exchange_run W x y cid px py res :
  x <> y -> assoc x (peers W) = Some px -> assoc y (peers W) = Some py ->
  publicIP (self (host px)) = x -> serving px = true -> serving py = true -> waiting px = false ->
  boot px = true ->
  getClosestCIDs (DHT (self (host py))) (JStr cid) 20 = Ok res -> json_wfb (JArr res) = true ->
  (length (dumps (closest_request x cid)) <= 1024)%nat ->
  (length (dumps (closest_response res)) <= 1024)%nat ->
  exists W1 W2 W3 W4,
    ask W x y cid = Some W1 /\ deliver W1 (length (wire W)) 1024 = Some W2 /\
    deliver W2 (length (wire W)) 1024 = Some W3 /\ take_response W3 x = Some W4 /\
    wire W4 = wire W /\
    assoc x (peers W4) =
      Some (mkPeer (mkHost (set_pendingResponse (set_pendingResponse (self (host px)) (JArr res)) JNull)
                           (sent (host px) ++ [(y, closest_request x cid)])) true false (got px ++ [JArr res]) true (bound px)) /\
    assoc y (peers W4) =
      Some (mkPeer (mkHost (self (host py)) (sent (host py) ++ [(x, closest_response res)])) true (waiting py) (got py) (boot py) (bound py)) /\
    forall a, a <> x -> a <> y -> assoc a (peers W4) = assoc a (peers W).
Proof.
  intros Hxy Hx Hy Hip Hax Hay Hwx Hbx Hres Hwf Hlq Hlr.
  pose proof (ask_sends W x y cid px Hx Hwx Hbx (listening_some _ _ _ Hy Hay)) as E1. rewrite Hip in E1.
  set (W1 := mkWorld _ _) in E1.
  assert (Hy1 : assoc y (peers W1) = Some py) by (unfold W1; cbn [peers]; rewrite assoc_set_ne by congruence; exact Hy).
  assert (Hl1 : listening W1 x = true)
    by (unfold W1; erewrite listening_assoc_set; [exact (listening_some _ _ _ Hx Hax) | exact Hx | reflexivity]).
  destruct (serve_request_step W1 (length (wire W)) 1024 x y cid py res (nth_error_last _ _)
              Hy1 Hay Hl1 Hres Hlq) as (W2 & E2 & Hw2 & Hy2 & Hp2).
  unfold W1 in Hw2; cbn [wire] in Hw2. rewrite remove_nth_last in Hw2.
  assert (Hx2 : assoc x (peers W2) = Some (mkPeer (mkHost (self (host px))
                  (sent (host px) ++ [(y, closest_request x cid)])) (alive px) true (got px) true (bound px))).
  { rewrite Hp2 by exact Hxy. unfold W1; cbn [peers]. exact (assoc_set_eq _ _ _ _ Hx). }
  assert (Hk2 : nth_error (wire W2) (length (wire W)) = Some (x, dumps (closest_response res)))
    by (rewrite Hw2; apply nth_error_last).
  destruct (store_response_step W2 _ 1024 x _ res Hk2 Hx2 Hax Hwf Hlr) as (W3 & E3 & Hw3 & Hx3 & Hp3).
  rewrite Hw2, remove_nth_last in Hw3.
  destruct (take_step W3 x _ (JArr res) Hx3 eq_refl eq_refl ltac:(discriminate)) as (W4 & E4 & Hw4 & Hx4 & Hp4).
  exists W1, W2, W3, W4. do 4 (split; [assumption|]). split; [congruence|]. split; [exact Hx4|]. split.
  - rewrite Hp4, Hp3 by congruence. exact Hy2.
  - intros a Hax' Hay'. rewrite Hp4, Hp3, Hp2 by assumption. unfold W1; cbn [peers].
    apply assoc_set_ne, Hax'.
Qed.

(** C13: one [askForClosestNodes] exchange between two running nodes [x]
    and [y] of the system: the request leaves [x], [y]'s server answers
    with [getClosestCIDs] of its table, [x]'s server stores the answer
    and the busy wait returns it.  When both frames fit in [recv(1024)],
    the four steps exist, leave the other frames in flight as they were,
    and [x] receives exactly what [Lookup.askForClosestNodes] returns
    under [Lookup.peers_network] of the tables of the system: the
    [Network] model the lookup theorems assume is the one the threads
    implement. *)
Theorem exchange_refines W x y cid px py res :
  x <> y -> assoc x (peers W) = Some px -> assoc y (peers W) = Some py ->
  publicIP (self (host px)) = x -> serving px = true -> serving py = true -> waiting px = false ->
  boot px = true ->
  getClosestCIDs (DHT (self (host py))) (JStr cid) 20 = Ok res -> json_wfb (JArr res) = true ->
  (length (dumps (closest_request x cid)) <= 1024)%nat ->
  (length (dumps (closest_response res)) <= 1024)%nat ->
  exists W1 W2 W3 W4 r p4,
    ask W x y cid = Some W1 /\ deliver W1 (length (wire W)) 1024 = Some W2 /\
    deliver W2 (length (wire W)) 1024 = Some W3 /\ take_response W3 x = Some W4 /\
    sys_steps W W4 /\
    @askForClosestNodes (peers_network (tables W)) x cid (JStr y) = Ok (Some r) /\
    wire W4 = wire W /\ assoc x (peers W4) = Some p4 /\
    got p4 = got px ++ [r] /\ waiting p4 = false /\ pendingResponse (self (host p4)) = JNull.
Proof.
  intros Hxy Hx Hy Hip Hax Hay Hwx Hbx Hres Hwf Hlq Hlr.
  destruct (exchange_run W x y cid px py res Hxy Hx Hy Hip Hax Hay Hwx Hbx Hres Hwf Hlq Hlr)
    as (W1 & W2 & W3 & W4 & E1 & E2 & E3 & E4 & Hw4 & Hx4 & _).
  do 6 eexists. split; [exact E1|]. split; [exact E2|]. split; [exact E3|]. split; [exact E4|].
  split.
  { eapply steps_trans; [eapply step_ask; exact E1|].
    eapply steps_trans; [eapply step_deliver; [|exact E2]; lia|].
    eapply steps_trans; [eapply step_deliver; [|exact E3]; lia|].
    eapply steps_trans; [eapply step_take; exact E4 | apply steps_refl]. }
  split.
  { refine (peers_network_ask _ _ _ _ (DHT (self (host py))) _ _ Hres).
    rewrite assoc_tables, Hy. reflexivity. }
  split; [exact Hw4|]. split; [exact Hx4|]. cbn. auto.
Qed.


(** C20: [self.pendingResponse] is not tied to a request.  When a
    [closestNodesResponse] reaches a node that is not waiting (a late
    answer to an earlier lookup, or any node's unsolicited frame), the
    server stores it; the next [askForClosestNodes] sends its request and
    its wait ends at once with that stored payload, while the request is
    still in flight and the asked node has not seen it. *)
Theorem stale_response_answers_next_ask W x y cid p k res :
  assoc x (peers W) = Some p -> serving p = true -> waiting p = false -> boot p = true ->
  listening W y = true ->
  nth_error (wire W) k = Some (x, dumps (closest_response res)) ->
  json_wfb (JArr res) = true -> (length (dumps (closest_response res)) <= 1024)%nat ->
  exists W1 W2 W3 p3,
    deliver W k 1024 = Some W1 /\ ask W1 x y cid = Some W2 /\ take_response W2 x = Some W3 /\
    assoc x (peers W3) = Some p3 /\ got p3 = got p ++ [JArr res] /\ waiting p3 = false /\
    In (y, dumps (closest_request (publicIP (self (host p))) cid)) (wire W3).
Proof.
  intros Hx Ha Hw Hb Hl Hk Hwf Hlr.
  destruct (store_response_step W k 1024 x p res Hk Hx Ha Hwf Hlr) as (W1 & E1 & Hw1 & Hx1 & Hp1).
  assert (Hl1 : listening W1 y = true).
  { unfold listening in *. destruct (String.eqb_spec y x) as [->|Hne].
    { rewrite Hx1. unfold serving in *. apply andb_prop in Ha as [-> _]. reflexivity. }
    rewrite Hp1 by exact Hne. exact Hl. }
  pose proof (ask_sends W1 x y cid _ Hx1 Hw Hb Hl1) as E2. cbn [host self] in E2.
  set (W2 := mkWorld _ _) in E2.
  assert (Hx2 : assoc x (peers W2) = Some (mkPeer (mkHost (set_pendingResponse (self (host p)) (JArr res))
      (sent (host p) ++ [(y, closest_request (publicIP (self (host p))) cid)])) true true (got p) true (bound p)))
    by (unfold W2; cbn [peers]; exact (assoc_set_eq _ _ _ _ Hx1)).
  destruct (take_step W2 x _ (JArr res) Hx2 eq_refl eq_refl ltac:(discriminate)) as (W3 & E3 & Hw3 & Hx3 & _).
  do 4 eexists. split; [exact E1|]. split; [exact E2|]. split; [exact E3|].
  split; [exact Hx3|]. cbn [got waiting]. split; [reflexivity|]. split; [reflexivity|].
  rewrite Hw3. unfold W2. cbn [wire]. apply in_or_app. right. left. reflexivity.
Qed.

(** ** A refused connection ends the bootstrap thread *)

(** The bootstrap thread of [x] has ended: it never sends or waits again,
    and its lookups return nothing more. *)
Definition boot_dead (x : string) (g : list json) (W : world) : Prop :=
  exists p, assoc x (peers W) = Some p /\ boot p = false /\ waiting p = false /\ got p = g.

Lemma boot_dead_peer_step g p p' :
  boot p = false /\ waiting p = false /\ got p = g -> peer_step p p' ->
  boot p' = false /\ waiting p' = false /\ got p' = g.
Proof.
  intros (Hb & Hw & Hg) Hs. destruct Hs as [p h a _ | p h w b _ Hb' | p h Hw' _ | p ok _ _]; cbn; auto; congruence.
Qed.

Lemma boot_dead_steps x g W W' : boot_dead x g W -> sys_steps W W' -> boot_dead x g W'.
Proof. exact (holds_at_steps _ (boot_dead_peer_step g) x W W'). Qed.

(** C11: [bootstrap] catches nothing: when a node's bootstrap thread
    sends its [nodeInfoRequest] to an address where no server listens
    (a bootstrap peer not started yet, or one whose server thread has
    raised), [connect] raises [OSError], the frame is not sent and the
    thread ends.  In every later interleaving the node never sends a
    request or ends a lookup again: it stops refreshing its table. *)
Theorem refused_connect_ends_bootstrap W x a p :
  assoc x (peers W) = Some p -> waiting p = false -> boot p = true -> listening W a = false ->
  exists W', announce W x a = Some W' /\ wire W' = wire W /\
    forall W'', sys_steps W' W'' ->
      boot_dead x (got p) W'' /\ forall b cid, ask W'' x b cid = None /\ announce W'' x b = None.
Proof.
  intros Hp Hw Hb Hl. eexists. split.
  { unfold announce, send_from. rewrite Hp, Hw, Hb. cbn [orb negb]. unfold sendData. rewrite Hl.
    reflexivity. }
  split; [reflexivity|]. intros W'' Hs.
  assert (Hd : boot_dead x (got p) W'').
  { refine (boot_dead_steps _ _ _ _ _ Hs). eexists. split; [cbn [peers]; exact (assoc_set_eq _ _ _ _ Hp)|].
    cbn. auto. }
  split; [exact Hd|]. intros b cid. destruct Hd as (q & Hq & Hbq & _).
  unfold ask, announce, send_from. rewrite Hq, Hbq, orb_true_r. split; reflexivity.
Qed.

(** ** A request sent before the listener is bound

    Nothing orders the bootstrap thread's first [sendData] (line 38) after
    the server thread's [bind] and [listen] (line 130) but the
    [time.sleep(1)] of line 30.  A node that announces itself before its
    listener is bound makes the peer's answer fail: [sendData] back to it
    raises [OSError], which ends the peer's server thread, and the peer
    never accepts a connection again. *)

(** The server thread of [y] has raised. *)
Definition server_down (y : string) (W : world) : Prop := holds_at (fun p => alive p = false) y W.

Lemma down_peer_step p p' : alive p = false -> peer_step p p' -> alive p' = false.
Proof.
  intros Ha Hs. destruct Hs as [p h a Hs | p h w b _ _ | p h _ _ | p ok _ Ha']; cbn; auto.
  - rewrite dead_not_serving in Hs by exact Ha. discriminate.
  - congruence.
Qed.

(** A server that has raised stays down: every later [connect] to it is
    refused. *)
Lemma down_steps y W W' : server_down y W -> sys_steps W W' -> listening W' y = false.
Proof.
  intros Hd Hs. destruct (holds_at_steps _ down_peer_step y W W' Hd Hs) as (p & Hp & Ha).
  unfold listening. rewrite Hp. exact (dead_not_serving p Ha).
Qed.

(** A [nodeInfoRequest] whose sender cannot be reached ends the server
    thread that handles it, whether [addNode] succeeds or raises, and no
    frame leaves. *)
Lemma deliver_info_unreachable W k y py ip cid :
  nth_error (wire W) k = Some (y, dumps (node_info_request ip cid)) -> assoc y (peers W) = Some py ->
  serving py = true -> listening W ip = false ->
  (length (dumps (node_info_request ip cid)) <= 1024)%nat ->
  exists W', deliver W k 1024 = Some W' /\ wire W' = remove_nth k (wire W) /\ server_down y W'.
Proof.
  intros Hk Hy Hs Hl Hm.
  rewrite (deliver_decoded _ _ _ _ _ _ _ Hk Hy Hs (loads_whole (node_info_request ip cid) _ eq_refl Hm)),
    info_request_handled.
  destruct (addNode _ _ _ _) as [D|e]; [rewrite Hl|]; (eexists; split; [reflexivity|]); cbn [wire peers];
    [rewrite (frames_after_none (mkHost _ (sent (host py)))) | rewrite frames_after_none];
    (split; [apply app_nil_r|]); (eexists; split; [exact (assoc_set_eq _ _ _ _ Hy) | reflexivity]).
Qed.

(** C12: nothing makes a node's bootstrap thread wait for its own server:
    when a node whose [listener] is not bound yet sends its
    [nodeInfoRequest] to a running peer, the peer's server adds it and
    answers with [sendData] to the sender's address, [connect] is
    refused, and the [OSError] ends the peer's server thread.  No frame
    is left in flight, and in every later interleaving every connection
    to the peer is refused: one early start takes a bootstrap node off
    the network. *)
Theorem early_announce_stops_server W x y px py :
  x <> y -> assoc x (peers W) = Some px -> assoc y (peers W) = Some py ->
  publicIP (self (host px)) = x -> bound px = false -> waiting px = false -> boot px = true ->
  serving py = true ->
  (length (dumps (node_info_request x (CID (self (host px))))) <= 1024)%nat ->
  exists W1 W2, announce W x y = Some W1 /\ deliver W1 (length (wire W)) 1024 = Some W2 /\
    wire W2 = wire W /\ forall W3, sys_steps W2 W3 -> listening W3 y = false.
Proof.
  intros Hxy Hx Hy Hip Hbd Hw Hb Hs Hm.
  pose proof (send_from_ok W x y (node_info_request x (CID (self (host px)))) false px Hx Hw Hb
                (listening_some _ _ _ Hy Hs)) as E1.
  set (W1 := mkWorld _ _) in E1.
  assert (Hy1 : assoc y (peers W1) = Some py) by (unfold W1; cbn [peers]; rewrite assoc_set_ne by congruence; exact Hy).
  assert (Hl1 : listening W1 x = false)
    by (unfold listening, W1; cbn [peers]; rewrite (assoc_set_eq _ _ _ _ Hx); unfold serving; cbn; rewrite Hbd;
        reflexivity).
  destruct (deliver_info_unreachable W1 (length (wire W)) y py x (CID (self (host px))) (nth_error_last _ _)
              Hy1 Hs Hl1 Hm) as (W2 & E2 & Hw2 & Hd).
  exists W1, W2. split; [unfold announce; rewrite Hx, Hip; exact E1|]. split; [exact E2|].
  split; [rewrite Hw2; apply remove_nth_last|]. intros W3 Hs3. exact (down_steps _ _ _ Hd Hs3).
Qed.

(** ** Witnesses and scenarios *)

(** X waits for Y's answer, which lists twelve contacts. *)
Definition X_waiting : peer := mkPeer host_X0 true true [] true true.

Definition world_long_reply : world :=
  mkWorld [(ip_X, X_waiting)] [(ip_X, dumps (closest_response (map contact_of twelve_contacts)))].

Lemma long_reply_hangs_witness :
  exists W', deliver world_long_reply 0 1024 = Some W' /\
    forall W'', sys_steps W' W'' ->
      take_response W'' ip_X = None /\
      exists p'', assoc ip_X (peers W'') = Some p'' /\ alive p'' = false /\ waiting p'' = true /\
                  got p'' = [].
Proof.
  apply (long_reply_hangs world_long_reply ip_X X_waiting 0 1024 twelve_contacts);
    [reflexivity | reflexivity | reflexivity | reflexivity | reflexivity | vm_compute; lia | | lia].
  vm_compute. repeat constructor; lia.
Defined.

(** A node as [Node.__init__] leaves it, both threads started, the
    [listener] not bound yet. *)
Definition fresh_peer (n : Node) : peer := mkPeer (mkHost n []) true false [] true false.

(** The same node once its server's [bind] and [listen] succeeded. *)
Definition started_peer (n : Node) : peer := mkPeer (mkHost n []) true false [] true true.

(** Scenario 4 of the description: Y with an empty table and X with
    [bootstrapNodes = [Y]], as [Node.__init__] leaves them. *)
Definition world_init : world :=
  mkWorld [(ip_X, fresh_peer (node_init ip_X cid_X [ip_Y])); (ip_Y, fresh_peer (node_init ip_Y cid_Y []))] [].

(** Y's server binds, then X's (the bootstrap thread sleeps first). *)
Definition world_half : world := default world_init (listen world_init ip_Y true).

Definition world_join : world :=
  mkWorld [(ip_X, started_peer (node_init ip_X cid_X [ip_Y])); (ip_Y, started_peer (node_init ip_Y cid_Y []))] [].

(** X announces itself to Y (line 38); Y's server adds X and answers
    (lines 138-140); X's server adds Y (lines 142-143). *)
Definition join1 : world := default world_join (announce world_join ip_X ip_Y).
Definition join2 : world := default join1 (deliver join1 0 1024).
Definition join3 : world := default join2 (deliver join2 0 1024).

Definition peer_at (W : world) (a : string) : peer := default X_waiting (assoc a (peers W)).

(** the two-node join: from the state [Node.__init__] leaves, both
    servers bind, then X's [nodeInfoRequest] and Y's [nodeInfoResponse]
    are delivered whole; no frame is then in flight and each table holds
    the other node, alone, in bucket 158, the bucket index of the two
    identifiers. *)
Example two_node_join :
  listen world_init ip_Y true = Some world_half /\ listen world_half ip_X true = Some world_join /\
  announce world_join ip_X ip_Y = Some join1 /\ deliver join1 0 1024 = Some join2 /\
  deliver join2 0 1024 = Some join3 /\ wire join3 = [] /\
  bucket_index (3 * 2 ^ 158) (2 ^ 159) = 158 /\
  tables join3 = [(ip_X, <[158%nat := [JObj [(cid_Y, JStr ip_Y)]]]> empty_DHT);
                  (ip_Y, <[158%nat := [JObj [(cid_X, JStr ip_X)]]]> empty_DHT)].
Proof. repeat split; vm_compute; reflexivity. Qed.

Lemma join_steps : sys_steps world_join join3.
Proof.
  eapply steps_trans; [apply (step_announce _ _ ip_X ip_Y); vm_compute; reflexivity|].
  eapply steps_trans; [apply (step_deliver _ _ 0 1024); [lia | vm_compute; reflexivity]|].
  eapply steps_trans; [apply (step_deliver _ _ 0 1024); [lia | vm_compute; reflexivity]|].
  apply steps_refl.
Qed.

Lemma world_join_wf a p :
  assoc a (peers world_join) = Some p -> dht_reachable (CID (self (host p))) (DHT (self (host p))).
Proof.
  cbn [assoc peers world_join]. destruct (String.eqb a ip_X); [intros [= <-]; constructor|].
  destruct (String.eqb a ip_Y); [intros [= <-]; constructor | discriminate].
Qed.

Lemma sys_tables_wf_witness :
  CID (self (host (peer_at join3 ip_X))) = cid_X /\
  table_wf (3 * 2 ^ 158) (DHT (self (host (peer_at join3 ip_X)))).
Proof.
  destruct (sys_tables_wf world_join join3 world_join_wf join_steps ip_X (peer_at join3 ip_X)
              (3 * 2 ^ 158) ltac:(vm_compute; reflexivity)) as (p0 & Hp0 & HC & Hwf).
  cbn in Hp0. injection Hp0 as <-. split; [exact HC|]. apply Hwf. vm_compute. reflexivity.
Defined.

Lemma exchange_refines_witness :
  exists W1 W2 W3 W4 r p4,
    ask join3 ip_X ip_Y cid_Z = Some W1 /\ deliver W1 0 1024 = Some W2 /\
    deliver W2 0 1024 = Some W3 /\ take_response W3 ip_X = Some W4 /\
    sys_steps join3 W4 /\
    @askForClosestNodes (peers_network (tables join3)) ip_X cid_Z (JStr ip_Y) = Ok (Some r) /\
    wire W4 = [] /\ assoc ip_X (peers W4) = Some p4 /\
    got p4 = [] ++ [r] /\ waiting p4 = false /\ pendingResponse (self (host p4)) = JNull.
Proof.
  apply (exchange_refines join3 ip_X ip_Y cid_Z (peer_at join3 ip_X) (peer_at join3 ip_Y)
           [JObj [(cid_X, JStr ip_X)]]); try (vm_compute; reflexivity).
  - vm_compute. discriminate.
  - vm_compute. lia.
  - vm_compute. lia.
Defined.

(** After the join, a late answer naming Z is still on its way to X. *)
Definition world_stale : world :=
  mkWorld (peers join3) [(ip_X, dumps (closest_response [JObj [(cid_Z, JStr ip_Z)]]))].

Lemma stale_response_answers_next_ask_witness :
  exists W1 W2 W3 p3,
    deliver world_stale 0 1024 = Some W1 /\ ask W1 ip_X ip_Y cid_W = Some W2 /\
    take_response W2 ip_X = Some W3 /\
    assoc ip_X (peers W3) = Some p3 /\
    got p3 = got (peer_at join3 ip_X) ++ [JArr [JObj [(cid_Z, JStr ip_Z)]]] /\ waiting p3 = false /\
    In (ip_Y, dumps (closest_request (publicIP (self (host (peer_at join3 ip_X)))) cid_W)) (wire W3).
Proof.
  apply (stale_response_answers_next_ask world_stale ip_X ip_Y cid_W (peer_at join3 ip_X) 0
           [JObj [(cid_Z, JStr ip_Z)]]); try (vm_compute; reflexivity).
  vm_compute. lia.
Defined.

(** X starts with [bootstrapNodes = [Y]] before Y runs. *)
Definition world_alone : world := mkWorld [(ip_X, fresh_peer (node_init ip_X cid_X [ip_Y]))] [].

Lemma refused_connect_ends_bootstrap_witness :
  exists W', announce world_alone ip_X ip_Y = Some W' /\ wire W' = [] /\
    forall W'', sys_steps W' W'' ->
      boot_dead ip_X [] W'' /\ forall b cid, ask W'' ip_X b cid = None /\ announce W'' ip_X b = None.
Proof.
  apply (refused_connect_ends_bootstrap world_alone ip_X ip_Y (fresh_peer (node_init ip_X cid_X [ip_Y])));
    vm_compute; reflexivity.
Defined.

(** X starts while Y runs; X's bootstrap thread announces itself before
    its server binds. *)
Definition world_early : world :=
  mkWorld [(ip_X, fresh_peer (node_init ip_X cid_X [ip_Y])); (ip_Y, started_peer (node_init ip_Y cid_Y []))] [].

Lemma early_announce_stops_server_witness :
  exists W1 W2, announce world_early ip_X ip_Y = Some W1 /\ deliver W1 0 1024 = Some W2 /\
    wire W2 = [] /\ forall W3, sys_steps W2 W3 -> listening W3 ip_Y = false.
Proof.
  apply (early_announce_stops_server world_early ip_X ip_Y (fresh_peer (node_init ip_X cid_X [ip_Y]))
           (started_peer (node_init ip_Y cid_Y []))); try (vm_compute; reflexivity).
  - vm_compute. discriminate.
  - vm_compute. lia.
Defined.
