(* ===== verification/LocalAddress.v ===== *)
(** [Node.get_local_ip] (lines 110-113) and its place in [Node.__init__]
    (lines 11-26), against the operating system's datagram sockets.

    [get_local_ip] opens a UDP socket, connects it to [('8.8.8.8', 80)],
    reads the address the socket got with [getsockname()[0]] and closes
    it.  Connecting a datagram socket sends nothing: the kernel binds the
    socket, if it is not bound yet, to the source address its routing
    table picks for the destination and to a fresh port, and records the
    peer.  [os] is that part of the operating system: the routing
    decision [route] ([None] when the network is unreachable, where
    [connect] raises [OSError]), the sockets created so far, by handle,
    and the next free port.  A closed socket raises [OSError] on every
    call but [close], which does nothing on it, as in CPython.  The stream
    sockets of [sendData] and [receiveData] are the ones of [System]. *)

From Stdlib Require Import ZArith Lia String List.
From stdpp Require Import base list.
From S2P Require Import Prelude Json Lookup Dispatcher Bootstrap System.

Local Open Scope Z_scope.

(** A [socket.socket(AF_INET, SOCK_DGRAM)]: its name once bound, its
    peer once connected, and whether it is closed. *)
Record udp_sock := mkSock {
  sockname : option (string * Z);
  peername : option (string * Z);
  sclosed : bool
}.

Record os := mkOS {
  route : string -> option string;
  socks : list udp_sock;
  next_port : Z
}.

Definition set_socks (o : os) (l : list udp_sock) (p : Z) : os := mkOS (route o) l p.

(** [socket.socket(socket.AF_INET, socket.SOCK_DGRAM)]. *)
Definition udp_socket : pyst os nat := fun o =>
  (set_socks o (socks o ++ [mkSock None None false]) (next_port o), Ok (length (socks o))).

(** [s.connect(addr)] on a datagram socket. *)
Definition udp_connect (fd : nat) (addr : string * Z) : pyst os unit := fun o =>
  match socks o !! fd with
  | None => (o, Raise OSError)
  | Some s =>
      if sclosed s then (o, Raise OSError) else
      match route o addr.1 with
      | None => (o, Raise OSError)
      | Some src =>
          match sockname s with
          | Some nm => (set_socks o (<[fd := mkSock (Some nm) (Some addr) false]> (socks o)) (next_port o), Ok tt)
          | None =>
              (set_socks o (<[fd := mkSock (Some (src, next_port o)) (Some addr) false]> (socks o)) (next_port o + 1),
               Ok tt)
          end
      end
  end.

(** [s.getsockname()]: [('0.0.0.0', 0)] for a socket not bound yet. *)
Definition udp_getsockname (fd : nat) : pyst os (string * Z) := fun o =>
  match socks o !! fd with
  | None => (o, Raise OSError)
  | Some s =>
      if sclosed s then (o, Raise OSError) else
      match sockname s with
      | Some nm => (o, Ok nm)
      | None => (o, Ok ("0.0.0.0"%string, 0))
      end
  end.

(** [s.close()]. *)
Definition udp_close (fd : nat) : pyst os unit := fun o =>
  match socks o !! fd with
  | None => (o, Ok tt)
  | Some s => (set_socks o (<[fd := mkSock (sockname s) (peername s) true]> (socks o)) (next_port o), Ok tt)
  end.

(** Lines 110-113. *)
Definition get_local_ip : pyst os string :=
  server <~ udp_socket ;;
  _ <~ udp_connect server ("8.8.8.8"%string, 80) ;;
  name <~ udp_getsockname server ;;
  let local_ip := fst name in
  _ <~ udp_close server ;;
  pyst_ret local_ip.

(** Lines 11-26: [self.publicIP] is what [requests.get] returned, the
    self-exclusion, then [self.localIP = self.get_local_ip()], whose
    exception ends [__init__] before any thread starts; then the
    attributes and the two threads.  The result is the started node and
    [self.localIP], the address its [listener] binds. *)
Definition node_start (publicIP CID : string) (bootstrapNodes : list string) : pyst os (peer * string) :=
  let self := node_init publicIP CID bootstrapNodes in
  localIP <~ get_local_ip ;;
  pyst_ret (fresh_peer self, localIP).

(** ** The socket table *)

Lemma lookup_snoc_length {A : Type} (l : list A) x : (l ++ [x]) !! length l = Some x.
Proof. induction l; cbn; auto. Qed.

Lemma insert_snoc_length {A : Type} (l : list A) x y : <[length l := y]> (l ++ [x]) = l ++ [y].
Proof. induction l as [|a l IH]; [reflexivity | exact (f_equal (cons a) IH)]. Qed.

(** [get_local_ip] on every branch: with a route to [8.8.8.8] it returns
    the source address the kernel picked and leaves its socket closed,
    bound to that address and a fresh port; without one, [connect]
    raises and the socket stays open. *)
Lemma get_local_ip_run o :
  get_local_ip o =
  match route o "8.8.8.8"%string with
  | Some src =>
      (set_socks o (socks o ++ [mkSock (Some (src, next_port o)) (Some ("8.8.8.8"%string, 80)) true]) (next_port o + 1),
       Ok src)
  | None => (set_socks o (socks o ++ [mkSock None None false]) (next_port o), Raise OSError)
  end.
Proof.
  unfold get_local_ip, pyst_bind, udp_socket, udp_connect, udp_getsockname, udp_close, pyst_ret.
  cbn [socks set_socks route next_port fst]. rewrite lookup_snoc_length. cbn [sclosed sockname peername].
  destruct (route o "8.8.8.8"%string); [|reflexivity].
  repeat (rewrite ?insert_snoc_length, ?lookup_snoc_length; cbn [socks set_socks sclosed sockname peername next_port fst]).
  reflexivity.
Qed.

(** Without a route to [8.8.8.8], [Node(...)] raises [OSError]: no thread
    of the node is started. *)
Lemma node_start_unreachable publicIP CID l o :
  route o "8.8.8.8"%string = None ->
  node_start publicIP CID l o = (set_socks o (socks o ++ [mkSock None None false]) (next_port o), Raise OSError).
Proof. intros H. unfold node_start, pyst_bind. rewrite get_local_ip_run, H. reflexivity. Qed.

Lemma node_start_reachable publicIP CID l o src :
  route o "8.8.8.8"%string = Some src ->
  snd (node_start publicIP CID l o) = Ok (fresh_peer (node_init publicIP CID l), src).
Proof. intros H. unfold node_start, pyst_bind. rewrite get_local_ip_run, H. reflexivity. Qed.

(** C38: [get_local_ip] on both of its outcomes: with a route to
    [8.8.8.8] it returns the source address the kernel's routing picks,
    and its socket ends closed, bound to that address and the next free
    port, connected to [('8.8.8.8', 80)]; without one, [connect] raises
    [OSError] and the socket it created is left open, since nothing
    closes it on that path.  No socket created before is touched. *)
Theorem get_local_ip_spec o :
  get_local_ip o =
  match route o "8.8.8.8"%string with
  | Some src =>
      (set_socks o (socks o ++ [mkSock (Some (src, next_port o)) (Some ("8.8.8.8"%string, 80)) true]) (next_port o + 1),
       Ok src)
  | None => (set_socks o (socks o ++ [mkSock None None false]) (next_port o), Raise OSError)
  end.
Proof. exact (get_local_ip_run o). Qed.

(** C37: a node that starts, with its local address [src] different from
    its public one, runs both threads with the node [node_init] builds
    and binds its listener to [src]; its self-exclusion compares the
    bootstrap list with the public address only, so the local address,
    if listed, is kept as often as it is listed, while one occurrence of
    the public address is removed. *)
Theorem node_start_local_address publicIP CID l o src :
  route o "8.8.8.8"%string = Some src -> src <> publicIP ->
  snd (node_start publicIP CID l o) = Ok (fresh_peer (node_init publicIP CID l), src) /\
  count_occ string_dec (bootstrapIPs (node_init publicIP CID l)) src = count_occ string_dec l src /\
  count_occ string_dec (bootstrapIPs (node_init publicIP CID l)) publicIP = (count_occ string_dec l publicIP - 1)%nat.
Proof.
  intros Hr Hne. split; [exact (node_start_reachable _ _ _ _ _ Hr)|].
  destruct (node_init_bootstrapIPs publicIP CID l) as [Hp Hy]. exact (conj (Hy src Hne) Hp).
Qed.

(** ** Witnesses *)

Local Open Scope string_scope.

(** A machine in a home network: the kernel routes to the internet from
    [192.168.1.20]; the bootstrap list names that address and the public
    one. *)
Definition os_home : os := mkOS (fun _ => Some "192.168.1.20"%string) [] 50000.

Definition home_bootstrap : list string := ["192.168.1.20"%string; "79.230.223.138"%string].

Lemma node_start_local_address_witness :
  snd (node_start "79.230.223.138" cid_X home_bootstrap os_home) =
    Ok (fresh_peer (node_init "79.230.223.138" cid_X home_bootstrap), "192.168.1.20"%string) /\
  count_occ string_dec (bootstrapIPs (node_init "79.230.223.138" cid_X home_bootstrap)) "192.168.1.20" = 1%nat /\
  count_occ string_dec (bootstrapIPs (node_init "79.230.223.138" cid_X home_bootstrap)) "79.230.223.138" = 0%nat.
Proof.
  apply (node_start_local_address "79.230.223.138" cid_X home_bootstrap os_home "192.168.1.20");
    [reflexivity | apply String.eqb_neq; reflexivity].
Defined.
