(* ===== verification/Protocol.v ===== *)
(** The four messages of the protocol and the typing invariant of the
    system.

    The nodes exchange four kinds of dict, each built in one place of
    [src/Python/DistributedStorageV1.py]: [{'nodeInfoRequest': (ip, cid)}]
    (line 38), [{'nodeInfoResponse': (ip, cid)}] (line 140),
    [{'closestNodesRequest': (ip, cid)}] (line 61) and
    [{'closestNodesResponse': [{cid: ip}, ...]}] (lines 146-147).  Here they
    are the inductive [message] with its encoding [encode_msg] into the
    JSON values of [Json] and a decoder [decode_msg] that recognises
    exactly their shapes, a left inverse of the encoding.

    The typing invariant [world_typed] (a boolean, so that a concrete
    world is checked by computation) says that every frame in flight is
    [json.dumps] of an encoded message, that every table holds only
    contacts [{cid: ip}] with a string address, and that the pending slot
    and the answers a lookup received are [None] or lists of such
    contacts.  Every step of [System] keeps it, and in a typed world a
    delivered frame is either decoded as exactly the message that was
    sent or, when [recv] cut it, rejected with [JSONDecodeError]: the
    [Unsupported] branch of [System.deliver] is never taken. *)

From Stdlib Require Import ZArith Lia Ascii String.
From stdpp Require Import base list.
From S2P Require Import Prelude PySort Hex Json Metric RoutingTable Lookup Wire Frames Dispatcher Bootstrap System.

Local Open Scope Z_scope.

(** ** Messages *)

Inductive message : Type :=
| NodeInfoRequest (ip cid : string)
| NodeInfoResponse (ip cid : string)
| ClosestNodesRequest (ip cid : string)
| ClosestNodesResponse (contacts : list (string * string)).

(** The dict each message is sent as. *)
Definition encode_msg (m : message) : json :=
  match m with
  | NodeInfoRequest ip cid => node_info_request ip cid
  | NodeInfoResponse ip cid => JObj [("nodeInfoResponse"%string, JArr [JStr ip; JStr cid])]
  | ClosestNodesRequest ip cid => closest_request ip cid
  | ClosestNodesResponse cs => closest_response (map contact_of cs)
  end.

(** A contact [{cid: ip}] with a string address. *)
Definition to_contact (j : json) : option (string * string) :=
  match j with JObj [(k, JStr ip)] => Some (k, ip) | _ => None end.

Definition is_contact (j : json) : bool := match to_contact j with Some _ => true | None => false end.

Fixpoint to_contacts (l : list json) : option (list (string * string)) :=
  match l with
  | [] => Some []
  | j :: l' =>
      match to_contact j, to_contacts l' with
      | Some kv, Some cs => Some (kv :: cs)
      | _, _ => None
      end
  end.

Definition decode_pair (j : json) : option (string * string) :=
  match j with JArr [JStr ip; JStr cid] => Some (ip, cid) | _ => None end.

(** The message a dict is, if it has one of the four shapes. *)
Definition decode_msg (j : json) : option message :=
  match j with
  | JObj [(key, v)] =>
      if String.eqb key "nodeInfoRequest" then option_map (uncurry NodeInfoRequest) (decode_pair v)
      else if String.eqb key "nodeInfoResponse" then option_map (uncurry NodeInfoResponse) (decode_pair v)
      else if String.eqb key "closestNodesRequest" then option_map (uncurry ClosestNodesRequest) (decode_pair v)
      else if String.eqb key "closestNodesResponse" then
        match v with JArr l => option_map ClosestNodesResponse (to_contacts l) | _ => None end
      else None
  | _ => None
  end.

(** ** Typing *)

(** The bytes of a frame are [json.dumps] of a message. *)
Definition frame_typed (bytes : list ascii) : bool :=
  match json_loads bytes with
  | Decoded v =>
      match decode_msg v with
      | Some m => if List.list_eq_dec ascii_dec (dumps (encode_msg m)) bytes then true else false
      | None => false
      end
  | _ => false
  end.

Definition table_typed (D : list (list json)) : bool := forallb (forallb is_contact) D.

(** [None] or a list of contacts. *)
Definition payload_typed (j : json) : bool :=
  match j with JNull => true | JArr l => forallb is_contact l | _ => false end.

Definition host_typed (h : Host) : bool :=
  table_typed (DHT (self h)) && payload_typed (pendingResponse (self h)).

Definition peer_typed (p : peer) : bool := host_typed (host p) && forallb payload_typed (got p).

Definition world_typed (W : world) : bool :=
  forallb (fun ap => peer_typed ap.2) (peers W) && forallb (fun f => frame_typed f.2) (wire W).

(** ** The encoding *)

Lemma to_contacts_map cs : to_contacts (map contact_of cs) = Some cs.
Proof. induction cs as [|[k ip] cs IH]; [reflexivity|]. cbn. rewrite IH. reflexivity. Qed.

Lemma to_contacts_Some l cs : to_contacts l = Some cs -> map contact_of cs = l.
Proof.
  revert cs. induction l as [|j l IH]; intros cs; cbn; [intros [= <-]; reflexivity|].
  destruct j as [| | | | |[|[k [| | |ip| |]] [|]]]; try discriminate; cbn.
  destruct (to_contacts l) as [cs'|]; [|discriminate]. intros [= <-]. cbn. rewrite (IH cs' eq_refl).
  reflexivity.
Qed.

Lemma to_contacts_total l : forallb is_contact l = true -> exists cs, to_contacts l = Some cs.
Proof.
  induction l as [|j l IH]; cbn; [eauto|]. intros (Hj & Hl)%andb_prop.
  destruct (IH Hl) as [cs ->]. unfold is_contact in Hj.
  destruct (to_contact j) as [kv|]; [eauto | discriminate].
Qed.

Lemma is_contact_of kv : is_contact (contact_of kv) = true.
Proof. destruct kv; reflexivity. Qed.

Lemma forallb_contacts cs : forallb is_contact (map contact_of cs) = true.
Proof. induction cs as [|[k ip] cs IH]; [reflexivity|]. exact IH. Qed.

(** Decoding is a left inverse of the encoding. *)
Lemma decode_encode m : decode_msg (encode_msg m) = Some m.
Proof. destruct m; cbn; try reflexivity. rewrite to_contacts_map. reflexivity. Qed.

Lemma encode_decode j m : decode_msg j = Some m -> encode_msg m = j.
Proof.
  destruct j as [| | | | |[|[key v] [|]]]; try discriminate. cbn.
  repeat match goal with |- context [String.eqb ?a ?b] =>
    destruct (String.eqb_spec a b) as [->|]; [|] end;
  try discriminate;
  first [ destruct v as [| | | |[|[| | |ip| |] [|[| | |cid| |] [|]]]|]; try discriminate; intros [= <-]; reflexivity
        | destruct v as [| | | |l|]; try discriminate; cbn;
          destruct (to_contacts l) as [cs|] eqn:E; [|discriminate]; intros [= <-];
          cbn; rewrite (to_contacts_Some _ _ E); reflexivity ].
Qed.

Lemma encode_wf m : json_wfb (encode_msg m) = true.
Proof.
  destruct m as [| | |cs]; try reflexivity.
  change (keys_nodup ["closestNodesResponse"%string] && (forallb json_wfb (map contact_of cs) && true) = true).
  induction cs as [|[k ip] cs IH]; [reflexivity|]. exact IH.
Qed.

Lemma encode_container m : is_container (encode_msg m) = true.
Proof. destruct m; reflexivity. Qed.

Lemma loads_encode m : json_loads (dumps (encode_msg m)) = Decoded (encode_msg m).
Proof. apply loads_dumps_decoded, encode_wf. Qed.

Lemma frame_typed_spec bytes : frame_typed bytes = true <-> exists m, bytes = dumps (encode_msg m).
Proof.
  unfold frame_typed. split.
  - destruct (json_loads bytes); try discriminate. destruct (decode_msg v) as [m|]; [|discriminate].
    destruct (List.list_eq_dec ascii_dec (dumps (encode_msg m)) bytes) as [E|]; [|discriminate]. eauto.
  - intros [m ->]. rewrite loads_encode, decode_encode.
    destruct (List.list_eq_dec ascii_dec _ _); [reflexivity | congruence].
Qed.

Lemma frame_typed_encode m : frame_typed (dumps (encode_msg m)) = true.
Proof. apply frame_typed_spec. eauto. Qed.

(** ** Tables and handlers keep their types *)

Lemma forallb_insert {A : Type} (f : A -> bool) (l : list A) i x :
  forallb f l = true -> f x = true -> forallb f (<[i := x]> l) = true.
Proof.
  revert i. induction l as [|y l IH]; intros [|i] Hl Hx; cbn in *; try reflexivity.
  - apply andb_prop in Hl as [_ Hl]. rewrite Hx. exact Hl.
  - apply andb_prop in Hl as [Hy Hl]. rewrite Hy. exact (IH i Hl Hx).
Qed.

Lemma forallb_lookup {A : Type} (f : A -> bool) (l : list A) i x :
  forallb f l = true -> l !! i = Some x -> f x = true.
Proof. intros Hl Hi. rewrite forallb_forall in Hl. apply Hl. apply list_elem_of_In. eapply list_elem_of_lookup_2, Hi. Qed.

(** [addNode] stores [{cid: ip}]: a contact when the address is a
    string. *)
Lemma addNode_typed C D ip k D' :
  addNode C D (JStr ip) (JStr k) = Ok D' -> table_typed D = true -> table_typed D' = true.
Proof.
  unfold addNode. destruct (getBucketIndex C (JStr k)) as [i|e]; [cbn|discriminate].
  intros (j & b & _ & Hb & ->)%py_modidx_Ok HD. apply forallb_insert; [exact HD|].
  rewrite forallb_app. rewrite (forallb_lookup _ _ _ _ HD Hb). reflexivity.
Qed.

Lemma table_typed_concat D : table_typed D = true -> forallb is_contact (concat D) = true.
Proof.
  induction D as [|b D IH]; [reflexivity|]. cbn. intros (Hb & HD)%andb_prop.
  rewrite forallb_app, Hb. exact (IH HD).
Qed.

(** [getClosestCIDs] returns contacts of the table. *)
Lemma getClosestCIDs_typed D t n res :
  getClosestCIDs D t n = Ok res -> table_typed D = true -> forallb is_contact res = true.
Proof.
  unfold getClosestCIDs. destruct (py_sort_key _ _) as [l|e] eqn:Hs; [cbn|discriminate].
  intros [= <-] HD. apply py_sort_key_Ok in Hs as (kf & _ & ->).
  pose proof (table_typed_concat D HD) as Hc. apply forallb_forall, List.Forall_forall.
  apply Forall_take. eapply Permutation_Forall; [symmetry; apply sort_by_perm|].
  apply List.Forall_forall, forallb_forall, Hc.
Qed.

(** [receiveData]'s dispatch on each of the four messages. *)
Lemma handle_msg r m h :
  receiveData_frame r (encode_msg m) h =
  match m with
  | NodeInfoRequest ip cid =>
      match addNode (CID (self h)) (DHT (self h)) (JStr ip) (JStr cid) with
      | Ok D =>
          if r ip
          then (mkHost (set_DHT (self h) D)
                  (sent h ++ [(ip, encode_msg (NodeInfoResponse (publicIP (self h)) (CID (self h))))]), Ok tt)
          else (mkHost (set_DHT (self h) D) (sent h), Raise OSError)
      | Raise e => (h, Raise e)
      end
  | NodeInfoResponse ip cid =>
      match addNode (CID (self h)) (DHT (self h)) (JStr ip) (JStr cid) with
      | Ok D => (mkHost (set_DHT (self h) D) (sent h), Ok tt)
      | Raise e => (h, Raise e)
      end
  | ClosestNodesRequest ip cid =>
      match getClosestCIDs (DHT (self h)) (JStr cid) 20 with
      | Ok res => if r ip then (mkHost (self h) (sent h ++ [(ip, closest_response res)]), Ok tt)
                  else (h, Raise OSError)
      | Raise e => (h, Raise e)
      end
  | ClosestNodesResponse cs =>
      (mkHost (set_pendingResponse (self h) (JArr (map contact_of cs))) (sent h), Ok tt)
  end.
Proof.
  destruct m; unfold encode_msg, receiveData_frame, addNode_st, sendData; cbv -[addNode getClosestCIDs];
    repeat match goal with
    | |- context [addNode ?a ?b ?c ?d] => destruct (addNode a b c d)
    | |- context [getClosestCIDs ?a ?b ?c] => destruct (getClosestCIDs a b c)
    end; reflexivity.
Qed.

(** Frames a handler sent are messages. *)
Definition sends_typed (l : list (string * json)) : Prop := Forall (fun ad => exists m, ad.2 = encode_msg m) l.

Lemma host_typed_DHT h D :
  host_typed h = true -> table_typed D = true -> host_typed (mkHost (set_DHT (self h) D) (sent h)) = true.
Proof. unfold host_typed. cbn [self set_DHT DHT pendingResponse]. intros (_ & Hp)%andb_prop HD. rewrite HD, Hp. reflexivity. Qed.

Lemma contacts_response res :
  forallb is_contact res = true -> exists cs, closest_response res = encode_msg (ClosestNodesResponse cs).
Proof.
  intros H. destruct (to_contacts_total _ H) as [cs Hcs]. exists cs. cbn.
  rewrite (to_contacts_Some _ _ Hcs). reflexivity.
Qed.

Lemma sends_typed_one a m : sends_typed [(a, encode_msg m)].
Proof. repeat constructor. exists m. reflexivity. Qed.

Lemma no_sends h : exists l, sent h = sent h ++ l /\ sends_typed l.
Proof. exists []. rewrite app_nil_r. split; [reflexivity | constructor]. Qed.

(** Handling a message keeps the host typed and only sends messages. *)
Lemma handle_typed r m h :
  host_typed h = true ->
  host_typed (fst (receiveData_frame r (encode_msg m) h)) = true /\
  exists l, sent (fst (receiveData_frame r (encode_msg m) h)) = sent h ++ l /\ sends_typed l.
Proof.
  intros Hh. rewrite handle_msg. pose proof Hh as (HD & Hp)%andb_prop.
  destruct m as [ip cid|ip cid|ip cid|cs].
  - destruct (addNode _ _ _ _) as [D|e] eqn:E; [destruct (r ip)|]; cbn [fst sent];
      (split; [try apply host_typed_DHT; eauto using addNode_typed|]);
      [eexists; split; [reflexivity | apply sends_typed_one] | apply no_sends | apply no_sends].
  - destruct (addNode _ _ _ _) as [D|e] eqn:E; cbn [fst sent];
      (split; [try apply host_typed_DHT; eauto using addNode_typed | apply no_sends]).
  - destruct (getClosestCIDs _ _ _) as [res|e] eqn:E; [destruct (r ip)|]; cbn [fst sent];
      (split; [exact Hh|]); [|apply no_sends | apply no_sends].
    destruct (contacts_response res (getClosestCIDs_typed _ _ _ _ E HD)) as [cs' ->].
    eexists. split; [reflexivity | apply sends_typed_one].
  - cbn [fst sent]. split; [|apply no_sends].
    unfold host_typed. cbn [self set_pendingResponse DHT pendingResponse payload_typed].
    rewrite HD. apply forallb_contacts.
Qed.

(** ** Every step keeps the world typed *)

Lemma forallb_assoc {A : Type} (f : A -> bool) a p (kvs : list (string * A)) :
  forallb (fun kv => f kv.2) kvs = true -> assoc a kvs = Some p -> f p = true.
Proof.
  induction kvs as [|[k v] kvs IH]; [discriminate|]. cbn. intros (Hv & Hr)%andb_prop.
  destruct (String.eqb a k); [intros [= <-]; exact Hv | exact (IH Hr)].
Qed.

Lemma forallb_assoc_set {A : Type} (f : A -> bool) a v (kvs : list (string * A)) :
  forallb (fun kv => f kv.2) kvs = true -> f v = true -> forallb (fun kv => f kv.2) (assoc_set a v kvs) = true.
Proof.
  induction kvs as [|[k w] kvs IH]; [reflexivity|]. cbn. intros (Hw & Hr)%andb_prop Hv.
  destruct (String.eqb a k); cbn; [rewrite Hv; exact Hr | rewrite Hw; exact (IH Hr Hv)].
Qed.

Lemma forallb_remove_nth {A : Type} (f : A -> bool) k l :
  forallb f l = true -> forallb f (remove_nth k l) = true.
Proof.
  revert k. induction l as [|x l IH]; intros [|k]; cbn; try reflexivity;
    intros (Hx & Hl)%andb_prop; [exact Hl | rewrite Hx; exact (IH k Hl)].
Qed.

Lemma forallb_nth_error {A : Type} (f : A -> bool) k l x :
  forallb f l = true -> nth_error l k = Some x -> f x = true.
Proof. intros Hl Hk. rewrite forallb_forall in Hl. exact (Hl x (nth_error_In _ _ Hk)). Qed.

(** The frames a typed handler put on the wire are typed. *)
Lemma frames_after_typed h h' l :
  sent h' = sent h ++ l -> sends_typed l ->
  forallb (fun f => frame_typed f.2) (frames_after (length (sent h)) h') = true.
Proof.
  intros Hs Hl. unfold frames_after. rewrite Hs, drop_app_length. clear Hs.
  induction Hl as [|[a d] l [m' Hm] _ IH]; [reflexivity|]. cbn in Hm |- *. subst d.
  rewrite frame_typed_encode. exact IH.
Qed.

(** What [recv] and [json.loads] make of a frame holding a message. *)
Lemma loads_frame msg m :
  json_loads (take m (dumps (encode_msg msg))) =
  if Nat.leb (length (dumps (encode_msg msg))) m then Decoded (encode_msg msg) else DecodeError.
Proof.
  destruct (Nat.leb_spec (length (dumps (encode_msg msg))) m).
  - rewrite take_ge by exact H. apply loads_encode.
  - apply prefix_decode_error; [apply encode_container | apply encode_wf | exact H].
Qed.

Lemma typed_frame_at W k dst bytes :
  world_typed W = true -> nth_error (wire W) k = Some (dst, bytes) ->
  exists msg, bytes = dumps (encode_msg msg).
Proof.
  intros (_ & Hw)%andb_prop Hk. apply frame_typed_spec.
  exact (forallb_nth_error (fun f => frame_typed f.2) _ _ _ Hw Hk).
Qed.

Lemma typed_peer_at W a p : world_typed W = true -> assoc a (peers W) = Some p -> peer_typed p = true.
Proof. intros (Hp & _)%andb_prop Ha. exact (forallb_assoc peer_typed _ _ _ Hp Ha). Qed.

Lemma world_typed_set W a v ws :
  world_typed W = true -> peer_typed v = true -> forallb (fun f => frame_typed f.2) ws = true ->
  world_typed (mkWorld (assoc_set a v (peers W)) ws) = true.
Proof.
  intros (Hp & _)%andb_prop Hv Hws. unfold world_typed. cbn [peers wire].
  rewrite (forallb_assoc_set peer_typed _ _ _ Hp Hv). exact Hws.
Qed.

Lemma deliver_typed W k m W' : world_typed W = true -> deliver W k m = Some W' -> world_typed W' = true.
Proof.
  intros HW H. unfold deliver in H.
  destruct (nth_error (wire W) k) as [[dst bytes]|] eqn:Hk; [|discriminate].
  destruct (assoc dst (peers W)) as [p|] eqn:Hp; [|discriminate].
  destruct (serving p); [|discriminate]. cbn [negb] in H.
  pose proof (typed_peer_at W dst p HW Hp) as (Hh & Hg)%andb_prop.
  pose proof (proj2 (andb_prop _ _ HW)) as Hw.
  destruct (typed_frame_at W k dst bytes HW Hk) as [msg ->].
  rewrite loads_frame in H. destruct (Nat.leb _ _).
  - destruct (handle_typed (listening W) msg (host p) Hh) as (Hh' & l & Hs & Hl).
    destruct (receiveData_frame _ _ _) as [h' r]. injection H as <-. cbn [fst] in Hh', Hs.
    apply world_typed_set; [exact HW | unfold peer_typed; cbn [host got]; rewrite Hh'; exact Hg|].
    rewrite forallb_app, (forallb_remove_nth _ _ _ Hw). exact (frames_after_typed _ _ _ Hs Hl).
  - injection H as <-. apply world_typed_set; [exact HW | unfold peer_typed; cbn [host got]; rewrite Hh; exact Hg|].
    exact (forallb_remove_nth _ _ _ Hw).
Qed.

Lemma send_from_typed W x a msg w W' :
  world_typed W = true -> send_from W x a (encode_msg msg) w = Some W' -> world_typed W' = true.
Proof.
  intros HW H. unfold send_from in H.
  destruct (assoc x (peers W)) as [p|] eqn:Hp; [|discriminate].
  destruct (waiting p); [discriminate|]. destruct (boot p); [|discriminate]. cbn [orb negb] in H.
  unfold sendData in H. pose proof (typed_peer_at W x p HW Hp) as Hpt.
  destruct (listening W a); injection H as <-; apply world_typed_set; try exact HW; try exact Hpt.
  - rewrite forallb_app, (proj2 (andb_prop _ _ HW)).
    exact (frames_after_typed (host p) (mkHost (self (host p)) (sent (host p) ++ [(a, encode_msg msg)])) _ eq_refl (sends_typed_one a msg)).
  - exact (proj2 (andb_prop _ _ HW)).
Qed.

Lemma take_typed W x W' : world_typed W = true -> take_response W x = Some W' -> world_typed W' = true.
Proof.
  intros HW H. unfold take_response in H.
  destruct (assoc x (peers W)) as [p|] eqn:Hp; [|discriminate].
  destruct (waiting p); [|discriminate]. cbn [negb] in H.
  pose proof (typed_peer_at W x p HW Hp) as ((HD & Hpend)%andb_prop & Hg)%andb_prop.
  destruct (pendingResponse (self (host p))) as [| | | |l|] eqn:E; try discriminate;
    injection H as <-; (apply world_typed_set; [exact HW | | exact (proj2 (andb_prop _ _ HW))]);
    unfold peer_typed, host_typed; cbn [host self set_pendingResponse DHT pendingResponse got];
    rewrite HD, forallb_app, Hg; cbn [forallb]; rewrite Hpend; reflexivity.
Qed.

Lemma is_contact_inv j : is_contact j = true -> exists k ip, j = JObj [(k, JStr ip)].
Proof.
  unfold is_contact, to_contact. intros H.
  destruct j as [| | | | |[|[k v] [|]]]; try discriminate; destruct v; try discriminate. eauto.
Qed.

(** The bootstrap thread adds a contact it was given as one. *)
Lemma add_if_in_bucket_typed index node h :
  is_contact node = true -> host_typed h = true -> host_typed (fst (add_if_in_bucket index node h)) = true.
Proof.
  intros Hc Hh. destruct (is_contact_inv _ Hc) as (k & ip & ->).
  unfold add_if_in_bucket. cbn -[getBucketIndex addNode_st].
  destruct (getBucketIndex (CID (self h)) (JStr k)) as [i|e]; cbn -[addNode_st]; [|exact Hh].
  destruct (Z.eqb i index); cbn -[addNode_st]; [|exact Hh].
  rewrite String.eqb_refl. unfold addNode_st. destruct (addNode _ _ _ _) as [D|e] eqn:Ha; cbn; [|exact Hh].
  apply host_typed_DHT; [exact Hh | exact (addNode_typed _ _ _ _ _ Ha (proj1 (andb_prop _ _ Hh)))].
Qed.

(** The contacts a node's lookups can return are contacts. *)
Lemma known_contact W x node : world_typed W = true -> known W x node -> is_contact node = true.
Proof.
  unfold known. destruct (assoc x (peers W)) as [p|] eqn:Hp; [|contradiction]. intros HW Hin.
  pose proof (typed_peer_at W x p HW Hp) as ((HD & _)%andb_prop & Hg)%andb_prop.
  unfold known_nodes in Hin. apply in_app_or in Hin as [Hin|Hin].
  - exact (proj1 (forallb_forall _ _) (table_typed_concat _ HD) _ Hin).
  - apply in_concat in Hin as (l & Hl & Hin). apply in_map_iff in Hl as (j & <- & Hj).
    pose proof (proj1 (forallb_forall _ _) Hg j Hj) as Ht.
    destruct j; try contradiction; cbn in Ht. exact (proj1 (forallb_forall _ _) Ht _ Hin).
Qed.

Lemma sys_step_typed W W' : world_typed W = true -> sys_step W W' -> world_typed W' = true.
Proof.
  intros HW Hs. revert HW.
  destruct Hs as [W0 W1 k m _ H | W0 W1 y a H | W0 W1 y a cid H | W0 W1 y H | W0 W1 y ok H
                 | W0 W1 y index node Hk H | W0 W1 y H];
    intros HW.
  - exact (deliver_typed _ _ _ _ HW H).
  - unfold announce in H. destruct (assoc y (peers W0)) as [p|]; [|discriminate].
    exact (send_from_typed _ _ _ (NodeInfoRequest _ _) _ _ HW H).
  - unfold ask in H. destruct (assoc y (peers W0)) as [p|]; [|discriminate].
    exact (send_from_typed _ _ _ (ClosestNodesRequest _ _) _ _ HW H).
  - exact (take_typed _ _ _ HW H).
  - destruct (listen_inv _ _ _ _ H) as (q & Hq & _ & _ & ->).
    apply world_typed_set; [exact HW | exact (typed_peer_at _ _ _ HW Hq) | exact (proj2 (andb_prop _ _ HW))].
  - pose proof (known_contact _ _ _ HW Hk) as Hc. unfold fill_one in H.
    destruct (assoc y (peers W0)) as [q|] eqn:Hq; [|discriminate].
    destruct (waiting q || negb (boot q)); [discriminate|].
    pose proof (typed_peer_at _ _ _ HW Hq) as (Hh & Hg)%andb_prop.
    pose proof (add_if_in_bucket_typed index node (host q) Hc Hh) as Ht.
    destruct (add_if_in_bucket _ _ _) as [h' [u|e]]; injection H as <-; cbn [fst] in Ht;
      (apply world_typed_set; [exact HW | unfold peer_typed; cbn [host got]; rewrite Ht; exact Hg
                              | exact (proj2 (andb_prop _ _ HW))]).
  - unfold boot_raise in H. destruct (assoc y (peers W0)) as [q|] eqn:Hq; [|discriminate].
    destruct (waiting q || negb (boot q)); [discriminate|]. injection H as <-.
    apply world_typed_set; [exact HW | exact (typed_peer_at _ _ _ HW Hq) | exact (proj2 (andb_prop _ _ HW))].
Qed.

Lemma sys_steps_typed W0 W : world_typed W0 = true -> sys_steps W0 W -> world_typed W = true.
Proof. intros H0 Hs. induction Hs; eauto using sys_step_typed. Qed.

(** C21: the typing invariant.  In every world reachable from a typed
    one, every frame in flight is [json.dumps] of one of the four
    messages, every routing table holds only contacts [{cid: ip}] with a
    string address, and the pending slots and the answers the lookups
    received are [None] or lists of such contacts. *)
Theorem sys_world_typed W0 W : world_typed W0 = true -> sys_steps W0 W -> world_typed W = true.
Proof. exact (sys_steps_typed W0 W). Qed.

(** C22: in a world reachable from a typed one, a frame accepted by a
    running server is never misread: it holds a message, [json.loads] of
    what [recv(m)] returned is that message exactly when the whole frame
    fits in [m] bytes and [JSONDecodeError] otherwise, and the delivery
    step exists (the model's [Unsupported] case never arises). *)
Theorem deliver_exact W0 W k m dst bytes p :
  world_typed W0 = true -> sys_steps W0 W ->
  nth_error (wire W) k = Some (dst, bytes) -> assoc dst (peers W) = Some p -> serving p = true ->
  exists msg, bytes = dumps (encode_msg msg) /\
    json_loads (take m bytes) =
      (if Nat.leb (length bytes) m then Decoded (encode_msg msg) else DecodeError) /\
    exists W', deliver W k m = Some W'.
Proof.
  intros H0 Hs Hk Hp Ha. pose proof (sys_steps_typed W0 W H0 Hs) as HW.
  destruct (typed_frame_at W k dst bytes HW Hk) as [msg ->].
  exists msg. split; [reflexivity|]. split; [apply loads_frame|].
  unfold deliver. rewrite Hk, Hp, Ha, loads_frame. cbn [negb].
  destruct (Nat.leb _ _); [destruct (receiveData_frame _ _ _)|]; eexists; reflexivity.
Qed.

(** ** Witnesses *)

Lemma sys_world_typed_witness : world_typed world_join = true /\ world_typed join3 = true.
Proof.
  split; [vm_compute; reflexivity|].
  apply (sys_world_typed world_join join3); [vm_compute; reflexivity | exact join_steps].
Defined.

Lemma join1_steps : sys_steps world_join join1.
Proof.
  eapply steps_trans; [apply (step_announce _ _ ip_X ip_Y); vm_compute; reflexivity | apply steps_refl].
Qed.

(** X's [nodeInfoRequest] to Y, cut after 10 bytes. *)
Lemma deliver_exact_witness :
  exists msg, dumps (node_info_request ip_X cid_X) = dumps (encode_msg msg) /\
    json_loads (take 10 (dumps (node_info_request ip_X cid_X))) =
      (if Nat.leb (length (dumps (node_info_request ip_X cid_X))) 10 then Decoded (encode_msg msg)
       else DecodeError) /\
    exists W', deliver join1 0 10 = Some W'.
Proof.
  apply (deliver_exact world_join join1 0 10 ip_Y _ (peer_at join1 ip_Y));
    [vm_compute; reflexivity | exact join1_steps | vm_compute; reflexivity | vm_compute; reflexivity
    | vm_compute; reflexivity].
Defined.
