(* ===== verification/Exchanges.v ===== *)
(** The exchanges of a lookup, run by the system.

    [deepNodeSearch] talks to other nodes only through
    [askForClosestNodes], one call at a time, each ending before the
    next starts.  [Lookup] proves its theorems against the [Network]
    [peers_network (tables W)]; [System.exchange_run] shows that one such
    call is four steps of the threads.  Here the calls are chained: for
    any sequence of nodes the lookup asks, the system performs the
    exchanges one after the other, every table and every running server
    stays as it was, and the asking node receives, call after call,
    exactly what [askForClosestNodes] returns under [peers_network] of
    the tables of the starting world.  So the network the lookup model
    assumes does not drift while a lookup runs, and every sequence of
    answers the model uses is produced by the threads. *)

From Stdlib Require Import ZArith Lia Ascii String.
From stdpp Require Import base list.
From S2P Require Import Prelude Json RoutingTable Lookup Wire Frames Dispatcher System.

Local Open Scope Z_scope.

Definition peer_table_of (p : peer) : list (list json) := DHT (self (host p)).

(** Every node has the same table in both worlds. *)
Definition same_tables (W W' : world) : Prop :=
  forall a, option_map peer_table_of (assoc a (peers W')) = option_map peer_table_of (assoc a (peers W)).

(** Every running server of [W] runs in [W'] with the same table. *)
Definition keeps_servers (W W' : world) : Prop :=
  forall a p, assoc a (peers W) = Some p -> serving p = true ->
  exists p', assoc a (peers W') = Some p' /\ serving p' = true /\ peer_table_of p' = peer_table_of p.

(** [y] runs and can answer a request for [cid] within [recv(1024)]. *)
Definition can_answer (W : world) (cid y : string) : Prop :=
  exists py res, assoc y (peers W) = Some py /\ serving py = true /\
    getClosestCIDs (peer_table_of py) (JStr cid) 20 = Ok res /\ json_wfb (JArr res) = true /\
    (length (dumps (closest_response res)) <= 1024)%nat.

Lemma sys_steps_app W1 W2 W3 : sys_steps W1 W2 -> sys_steps W2 W3 -> sys_steps W1 W3.
Proof. induction 1; eauto using steps_trans. Qed.

Lemma same_tables_trans W1 W2 W3 : same_tables W1 W2 -> same_tables W2 W3 -> same_tables W1 W3.
Proof. intros H12 H23 a. rewrite H23. apply H12. Qed.

Lemma keeps_servers_trans W1 W2 W3 : keeps_servers W1 W2 -> keeps_servers W2 W3 -> keeps_servers W1 W3.
Proof.
  intros H12 H23 a p Hp Ha. destruct (H12 a p Hp Ha) as (p2 & Hp2 & Ha2 & Ht2).
  destruct (H23 a p2 Hp2 Ha2) as (p3 & Hp3 & Ha3 & Ht3). exists p3. rewrite Ht3. auto.
Qed.

Lemma can_answer_keep W W' cid y : can_answer W cid y -> keeps_servers W W' -> can_answer W' cid y.
Proof.
  intros (py & res & Hy & Ha & Hres & Hwf & Hl) Hk. destruct (Hk y py Hy Ha) as (py' & Hy' & Ha' & Ht).
  exists py', res. rewrite Ht. auto.
Qed.

(** The lookup model's answers depend only on the tables. *)
Lemma ask_same_tables W W' x cid ip :
  same_tables W W' ->
  @askForClosestNodes (peers_network (tables W')) x cid ip = @askForClosestNodes (peers_network (tables W)) x cid ip.
Proof.
  intros H. unfold askForClosestNodes. cbn [Lookup.sendData Lookup.response_to peers_network peer_table].
  destruct ip; try reflexivity. cbn [peer_table]. rewrite !assoc_tables. specialize (H s). unfold peer_table_of in H. rewrite H.
  reflexivity.
Qed.

(** The exchange of [System.exchange_run] changes no table and stops no
    server. *)
Lemma exchange_tables W x y cid px py res W4 :
  x <> y -> assoc x (peers W) = Some px -> assoc y (peers W) = Some py ->
  assoc x (peers W4) =
    Some (mkPeer (mkHost (set_pendingResponse (set_pendingResponse (self (host px)) (JArr res)) JNull)
                         (sent (host px) ++ [(y, closest_request x cid)])) true false (got px ++ [JArr res]) true (bound px)) ->
  assoc y (peers W4) =
    Some (mkPeer (mkHost (self (host py)) (sent (host py) ++ [(x, closest_response res)])) true (waiting py) (got py) (boot py) (bound py)) ->
  (forall a, a <> x -> a <> y -> assoc a (peers W4) = assoc a (peers W)) ->
  same_tables W W4 /\ keeps_servers W W4.
Proof.
  intros Hxy Hx Hy Hx4 Hy4 Ho. split.
  - intros a. destruct (String.eqb_spec a x) as [->|Hax]; [rewrite Hx4, Hx; reflexivity|].
    destruct (String.eqb_spec a y) as [->|Hay]; [rewrite Hy4, Hy; reflexivity|].
    rewrite (Ho a Hax Hay). reflexivity.
  - intros a p Hp Ha. destruct (String.eqb_spec a x) as [->|Hax].
    { rewrite Hx in Hp. injection Hp as <-. eexists. split; [exact Hx4|]. split; [exact (serving_set _ _ _ _ _ Ha)|].
      reflexivity. }
    destruct (String.eqb_spec a y) as [->|Hay].
    { rewrite Hy in Hp. injection Hp as <-. eexists. split; [exact Hy4|]. split; [exact (serving_set _ _ _ _ _ Ha)|].
      reflexivity. }
    exists p. rewrite (Ho a Hax Hay). auto.
Qed.

Lemma exchange_steps W W1 W2 W3 W4 x y cid :
  ask W x y cid = Some W1 -> deliver W1 (length (wire W)) 1024 = Some W2 ->
  deliver W2 (length (wire W)) 1024 = Some W3 -> take_response W3 x = Some W4 -> sys_steps W W4.
Proof.
  intros E1 E2 E3 E4.
  eapply steps_trans; [eapply step_ask; exact E1|].
  eapply steps_trans; [eapply step_deliver; [|exact E2]; lia|].
  eapply steps_trans; [eapply step_deliver; [|exact E3]; lia|].
  eapply steps_trans; [eapply step_take; exact E4 | apply steps_refl].
Qed.

(** One exchange, with the facts the next one needs. *)
Lemma exchange_chain W x px cid y :
  assoc x (peers W) = Some px -> publicIP (self (host px)) = x -> serving px = true -> waiting px = false ->
  boot px = true -> y <> x -> can_answer W cid y -> (length (dumps (closest_request x cid)) <= 1024)%nat ->
  exists W' px' r,
    sys_steps W W' /\ same_tables W W' /\ keeps_servers W W' /\ wire W' = wire W /\
    assoc x (peers W') = Some px' /\ publicIP (self (host px')) = x /\ serving px' = true /\
    waiting px' = false /\ boot px' = true /\ got px' = got px ++ [r] /\
    @askForClosestNodes (peers_network (tables W)) x cid (JStr y) = Ok (Some r).
Proof.
  intros Hx Hip Hax Hwx Hbx Hyx (py & res & Hy & Hay & Hres & Hwf & Hlr) Hlq.
  destruct (exchange_run W x y cid px py res ltac:(congruence) Hx Hy Hip Hax Hay Hwx Hbx Hres Hwf Hlq Hlr)
    as (W1 & W2 & W3 & W4 & E1 & E2 & E3 & E4 & Hw4 & Hx4 & Hy4 & Ho).
  destruct (exchange_tables W x y cid px py res W4 ltac:(congruence) Hx Hy Hx4 Hy4 Ho) as [Hs Hk].
  do 3 eexists. split; [exact (exchange_steps _ _ _ _ _ _ _ _ E1 E2 E3 E4)|].
  do 3 (split; [eassumption|]). split; [exact Hx4|]. split; [cbn; auto|].
  split; [exact (serving_set _ _ _ _ _ Hax)|]. cbn. do 3 (split; [auto|]).
  refine (peers_network_ask _ _ _ _ (peer_table_of py) _ _ Hres). rewrite assoc_tables, Hy. reflexivity.
Qed.

(** C14: a sequence of [askForClosestNodes] calls by a running, idle node
    [x] to running nodes [ys] that can answer within [recv(1024)] is run
    by the system, one exchange after the other: the tables do not
    change, no server stops, the frames in flight are as before, [x] is
    idle again, and the answers [x] received are, in order, exactly what
    [askForClosestNodes] returns under [peers_network] of the starting
    world's tables. *)
Theorem lookup_exchanges_refine W x px cid ys :
  assoc x (peers W) = Some px -> publicIP (self (host px)) = x -> serving px = true -> waiting px = false ->
  boot px = true ->
  Forall (fun y => y <> x /\ can_answer W cid y) ys ->
  (length (dumps (closest_request x cid)) <= 1024)%nat ->
  exists W' px' replies,
    sys_steps W W' /\ same_tables W W' /\ wire W' = wire W /\
    assoc x (peers W') = Some px' /\ waiting px' = false /\ got px' = got px ++ replies /\
    Forall2 (fun y r => @askForClosestNodes (peers_network (tables W)) x cid (JStr y) = Ok (Some r)) ys replies.
Proof.
  intros Hx Hip Hax Hwx Hbx Hys Hlq. revert W px Hx Hip Hax Hwx Hbx Hys.
  induction ys as [|y ys IH]; intros W px Hx Hip Hax Hwx Hbx Hys.
  - exists W, px, []. rewrite app_nil_r. repeat split; auto using steps_refl.
  - apply Forall_cons in Hys as [[Hyx Hy] Hys].
    destruct (exchange_chain W x px cid y Hx Hip Hax Hwx Hbx Hyx Hy Hlq)
      as (W' & px' & r & Hst & Hs & Hk & Hw & Hx' & Hip' & Hax' & Hwx' & Hbx' & Hg & Hr).
    assert (Hys' : Forall (fun y => y <> x /\ can_answer W' cid y) ys)
      by (eapply Forall_impl; [exact Hys|]; intros z [Hz Hc]; eauto using can_answer_keep).
    destruct (IH W' px' Hx' Hip' Hax' Hwx' Hbx' Hys')
      as (W'' & px'' & rs & Hst' & Hs' & Hw' & Hx'' & Hwx'' & Hg' & Hrs).
    exists W'', px'', (r :: rs). split; [exact (sys_steps_app _ _ _ Hst Hst')|].
    split; [exact (same_tables_trans _ _ _ Hs Hs')|]. split; [congruence|].
    split; [exact Hx''|]. split; [exact Hwx''|]. split; [rewrite Hg', Hg, <- app_assoc; reflexivity|].
    constructor; [exact Hr|]. eapply Forall2_impl; [exact Hrs|]. intros z q Hq.
    rewrite <- Hq. symmetry. apply ask_same_tables, Hs.
Qed.

(** ** Witness *)

(** After the join, Y can answer X's requests: its table holds X alone. *)
Lemma join3_Y_answers : can_answer join3 cid_Z ip_Y.
Proof.
  exists (peer_at join3 ip_Y), [JObj [(cid_X, JStr ip_X)]].
  split; [vm_compute; reflexivity|]. split; [vm_compute; reflexivity|].
  split; [vm_compute; reflexivity|]. split; [vm_compute; reflexivity|]. vm_compute. lia.
Qed.

(** X asks Y twice in a row. *)
Lemma lookup_exchanges_refine_witness :
  exists W' px' replies,
    sys_steps join3 W' /\ same_tables join3 W' /\ wire W' = wire join3 /\
    assoc ip_X (peers W') = Some px' /\ waiting px' = false /\ got px' = got (peer_at join3 ip_X) ++ replies /\
    Forall2 (fun y r => @askForClosestNodes (peers_network (tables join3)) ip_X cid_Z (JStr y) = Ok (Some r))
      [ip_Y; ip_Y] replies.
Proof.
  assert (Hyx : ip_Y <> ip_X) by (unfold ip_X, ip_Y; congruence).
  apply (lookup_exchanges_refine join3 ip_X (peer_at join3 ip_X) cid_Z [ip_Y; ip_Y]).
  - vm_compute. reflexivity.
  - vm_compute. reflexivity.
  - vm_compute. reflexivity.
  - vm_compute. reflexivity.
  - vm_compute. reflexivity.
  - repeat constructor; first [exact Hyx | exact join3_Y_answers].
  - vm_compute. lia.
Defined.
