(* ===== verification/Threads.v ===== *)
(** The bootstrap thread as the code runs it.

    [System] lets a bootstrap thread send any request at any time.  Here
    each node's bootstrap thread has a program counter [bpc] over the
    statements of [Node.bootstrap] (lines 28-47) and [Node.deepNodeSearch]
    (lines 69-107): [boot_next] is the thread's next statement and the
    [System] operation it performs, and [thread_step] interleaves these
    statements with the server threads' steps.  The theorems show that
    every run of the threads is a run of [System] (so every [System]
    invariant holds of it), and that a lookup the thread runs through
    the system returns what [Lookup.deepNodeSearch] returns under
    [peers_network] of the tables. *)

From Stdlib Require Import ZArith Lia Ascii String.
From stdpp Require Import base list.
From S2P Require Import Prelude PySort Hex Json Metric RoutingTable Lookup Wire Frames Dispatcher Bootstrap System.
From S2P Require Import Exchanges.

Local Open Scope Z_scope.

(** Where the bootstrap thread is. *)
Inductive bpc :=
(** At the top of [while True] (line 29). *)
| BTop
(** Sending [nodeInfoRequest] to the bootstrap addresses in [todo]
    (lines 37-38); [targets] are the round's [bucketTargets]. *)
| BAnnounce (targets : list string) (todo : list string)
(** At the top of [deepNodeSearch]'s loop (line 78) for
    [bucketTargets[index] = target]; [rest] are the targets after it. *)
| BLookup (index : Z) (target : string) (rest : list string) (st : search_state)
(** In [askForClosestNodes]' busy wait (lines 63-64); [st] holds the
    nodes asked so far, the one being asked included. *)
| BWait (index : Z) (target : string) (rest : list string) (st : search_state)
(** Going through the contacts the lookup returned (lines 43-47). *)
| BFill (index : Z) (rest : list string) (todo : list json)
(** An exception is on its way out of the thread. *)
| BRaising
(** The thread has ended. *)
| BDone.

(** What a statement does to the rest of the system. *)
Inductive boot_op :=
| OpLocal
| OpAnnounce (a : string)
| OpAsk (a cid : string)
| OpTake
| OpFill (index : Z) (node : json)
| OpRaise.

(** [closestNodes = self.deepNodeSearch(bucket, 5)] for the next target
    begins with [getClosestCIDs(cid, 20)] of the table as it is then
    (lines 41-42 and 71-75); after the last target the round is over. *)
Definition lookup_start (index : Z) (targets : list string) (h : Host) : bpc :=
  match targets with
  | [] => BTop
  | t :: rest =>
      match getClosestCIDs (DHT (self h)) (JStr t) 20 with
      | Ok seed => BLookup index t rest (mkSearch seed [] None)
      | Raise _ => BRaising
      end
  end.

(** Where the thread goes after the merge of an answer (lines 94-107):
    the loop breaks and the lookup returns [closest_nodes[:5]], or it
    goes on ([search_merge] never returns [Hang]). *)
Definition merge_pc (index : Z) (target : string) (rest : list string) (r : py step_result) : bpc :=
  match r with
  | Ok (Stop st') => BFill index rest (take 5 (closest_nodes st'))
  | Ok (Continue st') => BLookup index target rest st'
  | Ok Hang | Raise _ => BRaising
  end.

(** The next statement of the thread of node [p] at [pc]; [None] while
    it waits for an answer that has not come, and once it has ended. *)
Definition boot_next (randint : Z -> Z -> Z) (p : peer) (pc : bpc) : option (boot_op * bpc) :=
  let h := host p in
  match pc with
  | BTop =>
      match py_mapM (generateTargetCID randint (CID (self h))) (map Z.of_nat (seq 0 160)) with
      | Ok targets => Some (OpLocal, BAnnounce targets (bootstrapIPs (self h)))
      | Raise _ => Some (OpRaise, BDone)
      end
  | BAnnounce targets (a :: todo) => Some (OpAnnounce a, BAnnounce targets todo)
  | BAnnounce targets [] => Some (OpLocal, lookup_start 0 targets h)
  | BLookup index target rest st =>
      match search_select target st with
      | Ok (SelStop st') => Some (OpLocal, BFill index rest (take 5 (closest_nodes st')))
      | Ok (SelAsk (JStr a) st') => Some (OpAsk a target, BWait index target rest st')
      | Ok (SelAsk _ _) | Raise _ => Some (OpRaise, BDone)
      end
  | BWait index target rest st =>
      match pendingResponse (self h) with
      | JNull => None
      | payload => Some (OpTake, merge_pc index target rest (search_merge target 5 st payload))
      end
  | BFill index rest (node :: todo) => Some (OpFill index node, BFill index rest todo)
  | BFill index rest [] => Some (OpLocal, lookup_start (index + 1) rest h)
  | BRaising => Some (OpRaise, BDone)
  | BDone => None
  end.

(** The [System] operation of a statement. *)
Definition run_op (W : world) (x : string) (op : boot_op) : option world :=
  match op with
  | OpLocal =>
      match assoc x (peers W) with
      | Some p => if waiting p || negb (boot p) then None else Some W
      | None => None
      end
  | OpAnnounce a => announce W x a
  | OpAsk a cid => ask W x a cid
  | OpTake => take_response W x
  | OpFill index node => fill_one W x index node
  | OpRaise => boot_raise W x
  end.

(** The program counters of the bootstrap threads. *)
Definition pcs := list (string * bpc).

(** A thread whose [sendData] or [addNode] raised has ended. *)
Definition after (W : world) (x : string) (pc : bpc) : bpc :=
  match assoc x (peers W) with Some p => if boot p then pc else BDone | None => BDone end.

(** The interleavings of the server threads' steps and the bootstrap
    threads' statements; [random.randint] draws within its bounds. *)
Inductive thread_step : world -> pcs -> world -> pcs -> Prop :=
| ts_deliver W W' B k m : (1 <= m <= 1024)%nat -> deliver W k m = Some W' -> thread_step W B W' B
| ts_listen W W' B x ok : listen W x ok = Some W' -> thread_step W B W' B
| ts_boot W W' B x p pc randint op pc' :
    assoc x B = Some pc -> assoc x (peers W) = Some p -> randint_spec randint ->
    boot_next randint p pc = Some (op, pc') -> run_op W x op = Some W' ->
    thread_step W B W' (assoc_set x (after W' x pc') B).

Inductive thread_steps : world -> pcs -> world -> pcs -> Prop :=
| tsteps_refl W B : thread_steps W B W B
| tsteps_trans W1 B1 W2 B2 W3 B3 :
    thread_step W1 B1 W2 B2 -> thread_steps W2 B2 W3 B3 -> thread_steps W1 B1 W3 B3.

(** ** What a thread knows only grows *)

Lemma in_take {A : Type} (n : A) k l : In n (take k l) -> In n l.
Proof. intros H. rewrite <- (firstn_skipn k l). apply in_or_app. left. exact H. Qed.

(** [n] is in one of the host's buckets. *)
Definition in_table (n : json) (h : Host) : Prop := In n (concat (DHT (self h))).

Lemma concat_insert_app {A : Type} (D : list (list A)) j b c n :
  D !! j = Some b -> In n (concat D) -> In n (concat (<[j := b ++ [c]]> D)).
Proof.
  revert j. induction D as [|b' D IH]; intros [|j] Hj Hn; cbn in *; try discriminate.
  - injection Hj as ->. apply in_app_or in Hn as [Hn|Hn]; apply in_or_app; [left | right]; auto using in_or_app.
  - apply in_app_or in Hn as [Hn|Hn]; apply in_or_app; [left; exact Hn | right; exact (IH j Hj Hn)].
Qed.

Lemma addNode_st_grows n ip cid : pyst_preserves (in_table n) (addNode_st ip cid).
Proof.
  intros h Hn. unfold addNode_st. destruct (addNode _ _ _ _) as [D|e] eqn:Ha; [|exact Hn].
  unfold addNode in Ha. destruct (getBucketIndex _ _) as [i|e]; [|discriminate]. cbn [py_bind] in Ha.
  destruct cid; try discriminate. apply py_modidx_Ok in Ha as (k & b & _ & Hk & ->).
  exact (concat_insert_app _ _ _ _ _ Hk Hn).
Qed.

Lemma sendData_grows r n ip data : pyst_preserves (in_table n) (sendData r ip data).
Proof. intros h Hn. unfold sendData. destruct ip; try exact Hn. destruct (r s); exact Hn. Qed.

Lemma receiveData_frame_grows r n data : pyst_preserves (in_table n) (receiveData_frame r data).
Proof.
  unfold receiveData_frame. preserves_tac; auto using sendData_grows, addNode_st_grows.
Qed.

Lemma add_if_in_bucket_grows n index node : pyst_preserves (in_table n) (add_if_in_bucket index node).
Proof. apply add_if_in_bucket_preserves. intros. apply addNode_st_grows. Qed.

Lemma known_nodes_grow q v :
  (forall n, in_table n (host q) -> in_table n (host v)) -> (exists l, got v = got q ++ l) ->
  incl (known_nodes q) (known_nodes v).
Proof.
  intros Ht [l Hg] n Hn. unfold known_nodes in *. rewrite Hg, map_app, concat_app.
  apply in_app_or in Hn as [Hn|Hn]; apply in_or_app; [left; exact (Ht n Hn) | right; apply in_or_app; left; exact Hn].
Qed.

Lemma known_set W x y q v ws n :
  assoc y (peers W) = Some q -> incl (known_nodes q) (known_nodes v) ->
  known W x n -> known (mkWorld (assoc_set y v (peers W)) ws) x n.
Proof.
  intros Hq Hv. unfold known. cbn [peers]. destruct (String.eqb_spec x y) as [->|Hne].
  - rewrite (assoc_set_eq _ _ _ _ Hq), Hq. apply Hv.
  - rewrite assoc_set_ne by exact Hne. auto.
Qed.

Lemma got_same q v : got v = got q -> exists l, got v = got q ++ l.
Proof. intros ->. exists []. symmetry. apply app_nil_r. Qed.

Lemma send_from_known W W' x y a d w n : known W x n -> send_from W y a d w = Some W' -> known W' x n.
Proof.
  intros Hn. unfold send_from. destruct (assoc y (peers W)) as [q|] eqn:Hq; [|discriminate].
  destruct (waiting q || negb (boot q)); [discriminate|].
  destruct (sendData _ _ _ _) as [h' r] eqn:Hs.
  assert (G : forall m, in_table m (host q) -> in_table m h').
  { intros m Hm. pose proof (sendData_grows (listening W) m (JStr a) d (host q) Hm) as G. rewrite Hs in G. exact G. }
  destruct r; intros [= <-]; refine (known_set _ _ _ _ _ _ _ Hq _ Hn);
    apply known_nodes_grow; [exact G | apply got_same; reflexivity | exact G | apply got_same; reflexivity].
Qed.

(** Every step keeps what every thread knows. *)
Lemma known_step W W' x n : known W x n -> sys_step W W' -> known W' x n.
Proof.
  intros Hn Hs.
  destruct Hs as [W W' k m _ H | W W' y a H | W W' y a cid H | W W' y H | W W' y ok H | W W' y index node _ H
                 | W W' y H].
  - unfold deliver in H.
    destruct (nth_error (wire W) k) as [[dst bytes]|]; [|discriminate].
    destruct (assoc dst (peers W)) as [q|] eqn:Hq; [|discriminate].
    destruct (negb (serving q)); [discriminate|].
    destruct (json_loads _) as [v| |]; [|injection H as <-|discriminate];
      [destruct (receiveData_frame _ _ _) as [h' r] eqn:Hr; injection H as <-|];
      refine (known_set _ _ _ _ _ _ _ Hq _ Hn); (apply known_nodes_grow; [|apply got_same; reflexivity]).
    + intros m' Hm. pose proof (receiveData_frame_grows (listening W) m' v (host q) Hm) as G.
      rewrite Hr in G. exact G.
    + intros m' Hm. exact Hm.
  - unfold announce in H. destruct (assoc y (peers W)); [|discriminate]. exact (send_from_known _ _ _ _ _ _ _ _ Hn H).
  - unfold ask in H. destruct (assoc y (peers W)); [|discriminate]. exact (send_from_known _ _ _ _ _ _ _ _ Hn H).
  - unfold take_response in H. destruct (assoc y (peers W)) as [q|] eqn:Hq; [|discriminate].
    destruct (negb (waiting q)); [discriminate|].
    destruct (pendingResponse (self (host q))) eqn:Hp; try discriminate; injection H as <-;
      (refine (known_set _ _ _ _ _ _ _ Hq _ Hn); apply known_nodes_grow; [intros m Hm; exact Hm | eexists; reflexivity]).
  - destruct (listen_inv _ _ _ _ H) as (q & Hq & _ & _ & ->). refine (known_set _ _ _ _ _ _ _ Hq _ Hn).
    apply known_nodes_grow; [intros m Hm; exact Hm | apply got_same; reflexivity].
  - unfold fill_one in H. destruct (assoc y (peers W)) as [q|] eqn:Hq; [|discriminate].
    destruct (waiting q || negb (boot q)); [discriminate|].
    destruct (add_if_in_bucket index node (host q)) as [h' r] eqn:Ha.
    assert (G : forall m, in_table m (host q) -> in_table m h').
    { intros m Hm. pose proof (add_if_in_bucket_grows m index node (host q) Hm) as G. rewrite Ha in G. exact G. }
    destruct r; injection H as <-; refine (known_set _ _ _ _ _ _ _ Hq _ Hn);
      (apply known_nodes_grow; [exact G | apply got_same; reflexivity]).
  - unfold boot_raise in H. destruct (assoc y (peers W)) as [q|] eqn:Hq; [|discriminate].
    destruct (waiting q || negb (boot q)); [discriminate|]. injection H as <-.
    refine (known_set _ _ _ _ _ _ _ Hq _ Hn). apply known_nodes_grow; [intros m Hm; exact Hm | apply got_same; reflexivity].
Qed.

(** ** Every run of the threads is a run of [System] *)

(** The contacts a thread holds in its program counter are known to it:
    the lookups only ever return contacts of the table and of answers. *)
Definition pc_known (W : world) (x : string) (pc : bpc) : Prop :=
  match pc with
  | BLookup _ _ _ st | BWait _ _ _ st => Forall (known W x) (closest_nodes st)
  | BFill _ _ todo => Forall (known W x) todo
  | _ => True
  end.

Definition pcs_known (W : world) (B : pcs) : Prop := forall x pc, assoc x B = Some pc -> pc_known W x pc.

Lemma known_forall_step W W' x l : Forall (known W x) l -> sys_step W W' -> Forall (known W' x) l.
Proof. intros H Hs. eapply Forall_impl; [exact H|]. intros n Hn. exact (known_step _ _ _ _ Hn Hs). Qed.

Lemma pc_known_step W W' x pc : pc_known W x pc -> sys_step W W' -> pc_known W' x pc.
Proof. destruct pc; cbn; eauto using known_forall_step. Qed.

Lemma getClosestCIDs_in D t n res : getClosestCIDs D t n = Ok res -> incl res (concat D).
Proof.
  unfold getClosestCIDs. destruct (py_sort_key _ _) as [l|e] eqn:Hs; [cbn|discriminate].
  intros [= <-] m Hm. apply py_sort_key_Ok in Hs as (kf & _ & ->).
  apply (Permutation_in _ (sort_by_perm kf (concat D))). exact (in_take _ _ _ Hm).
Qed.

Lemma lookup_start_known W x p index targets :
  assoc x (peers W) = Some p -> pc_known W x (lookup_start index targets (host p)).
Proof.
  intros Hp. destruct targets as [|t rest]; cbn; [exact I|].
  destruct (getClosestCIDs _ _ _) as [seed|e] eqn:Hg; cbn; [|exact I].
  apply List.Forall_forall. intros n Hn. unfold known. rewrite Hp. unfold known_nodes.
  apply in_or_app. left. exact (getClosestCIDs_in _ _ _ _ Hg n Hn).
Qed.

(** The selection keeps the candidates; when it asks, it appends the
    node asked, whose address is [node[next(iter(dict(node)))]]. *)
Lemma search_select_inv cid st s :
  search_select cid st = Ok s ->
  match s with
  | SelStop st' => closest_nodes st' = closest_nodes st /\ asked_nodes st' = asked_nodes st
  | SelAsk ip st' =>
      closest_nodes st' = closest_nodes st /\
      exists node key, first_key node = Ok key /\ py_getitem node key = Ok ip /\
                       asked_nodes st' = asked_nodes st ++ [node]
  end.
Proof.
  unfold search_select. destruct (select_next _ _ _ _ _) as [[[node|] cd]|e]; cbn [py_bind]; try discriminate.
  - destruct (negb (py_truthy node)); [intros [= <-]; auto|].
    destruct (first_key node) as [k|e] eqn:Hk; cbn [py_bind]; [|discriminate].
    destruct (py_getitem node k) as [ip|e] eqn:Hi; cbn [py_bind]; [|discriminate]. intros [= <-]. eauto 7.
  - intros [= <-]. auto.
Qed.

(** The merge keeps contacts of the candidates and of the answer. *)
Lemma search_merge_closest cid amount st nn r :
  search_merge cid amount st nn = Ok r ->
  match r with
  | Stop st' | Continue st' =>
      incl (closest_nodes st') (closest_nodes st ++ payload_items nn) /\ asked_nodes st' = asked_nodes st
  | Hang => False
  end.
Proof.
  unfold search_merge. destruct nn as [| | | |l|]; cbn [py_list_add py_bind]; try discriminate.
  destruct (py_sort_key _ _) as [sorted|e] eqn:Hs; cbn [py_bind]; [|discriminate].
  apply py_sort_key_Ok in Hs as (kf & _ & ->).
  assert (H : incl (take amount (sort_by kf (closest_nodes st ++ l))) (closest_nodes st ++ payload_items (JArr l))).
  { intros m Hm. cbn [payload_items]. apply (Permutation_in _ (sort_by_perm kf _)). exact (in_take _ _ _ Hm). }
  destruct (py_getidx _ _) as [first|e]; cbn [py_bind]; [|discriminate].
  destruct (node_key _ _) as [nc|e]; cbn [py_bind]; [|discriminate].
  destruct (closest_distance st) as [c|]; [destruct (Z.leb c nc)|]; intros [= <-]; (split; [exact H | reflexivity]).
Qed.

(** The answer a wait takes becomes known. *)
Lemma take_known W W' x p n :
  take_response W x = Some W' -> assoc x (peers W) = Some p ->
  In n (payload_items (pendingResponse (self (host p)))) -> known W' x n.
Proof.
  unfold take_response. intros H Hp Hn. rewrite Hp in H. destruct (negb (waiting p)); [discriminate|].
  revert Hn. destruct (pendingResponse (self (host p))) eqn:E; try discriminate; injection H as <-; intros Hn;
    unfold known; cbn [peers]; rewrite (assoc_set_eq _ _ _ _ Hp); unfold known_nodes; cbn [got host self DHT];
    apply in_or_app; right; rewrite map_app, concat_app; apply in_or_app; right; cbn [map concat];
    rewrite app_nil_r; exact Hn.
Qed.

Lemma run_local W x W' : run_op W x OpLocal = Some W' -> W' = W.
Proof.
  cbn [run_op]. destruct (assoc x (peers W)) as [p|]; [|discriminate].
  destruct (waiting p || negb (boot p)); congruence.
Qed.

Lemma boot_next_wait randint p index target rest st op pc' :
  boot_next randint p (BWait index target rest st) = Some (op, pc') ->
  op = OpTake /\ pc' = merge_pc index target rest (search_merge target 5 st (pendingResponse (self (host p)))).
Proof. cbn [boot_next]. destruct (pendingResponse _); try discriminate; intros [= <- <-]; auto. Qed.

(** The candidates after a merge are known once the answer is taken. *)
Lemma merge_known W W' x p st l :
  take_response W x = Some W' -> assoc x (peers W) = Some p -> Forall (known W x) (closest_nodes st) ->
  incl l (closest_nodes st ++ payload_items (pendingResponse (self (host p)))) -> Forall (known W' x) l.
Proof.
  intros Ht Hp Hk Hl. apply List.Forall_forall. intros n Hn. apply Hl, in_app_or in Hn as [Hn|Hn].
  - exact (known_step _ _ _ _ (proj1 (List.Forall_forall _ _) Hk n Hn) (step_take _ _ _ Ht)).
  - exact (take_known _ _ _ _ _ Ht Hp Hn).
Qed.

(** Each statement of a bootstrap thread is at most one [System] step,
    and keeps what its program counter holds known. *)
Lemma boot_next_known W W' x p pc randint op pc' :
  assoc x (peers W) = Some p -> pc_known W x pc -> boot_next randint p pc = Some (op, pc') ->
  run_op W x op = Some W' -> (W' = W \/ sys_step W W') /\ pc_known W' x pc'.
Proof.
  intros Hp Hk Hn Hr.
  destruct pc as [|targets todo|index target rest st|index target rest st|index rest todo| |]; cbn [pc_known] in Hk.
  - cbn [boot_next] in Hn. destruct (py_mapM _ _); injection Hn as <- <-.
    + rewrite (run_local _ _ _ Hr). split; [left; reflexivity | exact I].
    + split; [right; exact (step_raise _ _ _ Hr) | exact I].
  - cbn [boot_next] in Hn. destruct todo as [|a todo]; injection Hn as <- <-.
    + rewrite (run_local _ _ _ Hr). split; [left; reflexivity | exact (lookup_start_known _ _ _ _ _ Hp)].
    + split; [right; exact (step_announce _ _ _ _ Hr) | exact I].
  - cbn [boot_next] in Hn.
    destruct (search_select target st) as [s|e] eqn:Hs;
      [|injection Hn as <- <-; split; [right; exact (step_raise _ _ _ Hr) | exact I]].
    pose proof (search_select_inv _ _ _ Hs) as Hc. destruct s as [st'|ip st']; destruct Hc as [Hc _].
    + injection Hn as <- <-. rewrite (run_local _ _ _ Hr). split; [left; reflexivity|].
      cbn [pc_known]. apply Forall_take. rewrite Hc. exact Hk.
    + destruct ip; injection Hn as <- <-; try (split; [right; exact (step_raise _ _ _ Hr) | exact I]).
      split; [right; exact (step_ask _ _ _ _ _ Hr)|]. cbn [pc_known]. rewrite Hc.
      exact (known_forall_step _ _ _ _ Hk (step_ask _ _ _ _ _ Hr)).
  - destruct (boot_next_wait _ _ _ _ _ _ _ _ Hn) as [-> ->].
    split; [right; exact (step_take _ _ _ Hr)|].
    unfold merge_pc. destruct (search_merge target 5 st _) as [r|e] eqn:Hm; [|exact I].
    pose proof (search_merge_closest _ _ _ _ _ Hm) as Hc.
    destruct r as [st'|st'|]; cbn [pc_known]; [destruct Hc as [Hc _]..|exact I].
    + refine (merge_known _ _ _ _ _ _ Hr Hp Hk _). intros n Hn'. apply Hc. exact (in_take _ _ _ Hn').
    + exact (merge_known _ _ _ _ _ _ Hr Hp Hk Hc).
  - cbn [boot_next] in Hn. destruct todo as [|node todo]; injection Hn as <- <-.
    + rewrite (run_local _ _ _ Hr). split; [left; reflexivity | exact (lookup_start_known _ _ _ _ _ Hp)].
    + apply Forall_cons in Hk as [Hk1 Hk2]. split; [right; exact (step_fill _ _ _ _ _ Hk1 Hr)|].
      exact (known_forall_step _ _ _ _ Hk2 (step_fill _ _ _ _ _ Hk1 Hr)).
  - cbn [boot_next] in Hn. injection Hn as <- <-. split; [right; exact (step_raise _ _ _ Hr) | exact I].
  - discriminate.
Qed.

Lemma pcs_known_step W W' B : pcs_known W B -> sys_step W W' -> pcs_known W' B.
Proof. intros H Hs y pc Hy. exact (pc_known_step _ _ _ _ (H y pc Hy) Hs). Qed.

Lemma after_known W x pc : pc_known W x pc -> pc_known W x (after W x pc).
Proof. unfold after. destruct (assoc x (peers W)) as [p|]; [destruct (boot p)|]; cbn; auto. Qed.

Lemma sys_steps_one W W' : sys_step W W' -> sys_steps W W'.
Proof. intros H. exact (steps_trans _ _ _ H (steps_refl _)). Qed.

Lemma thread_step_sys W B W' B' :
  pcs_known W B -> thread_step W B W' B' -> sys_steps W W' /\ pcs_known W' B'.
Proof.
  intros HB Hs. destruct Hs as [W W' B k m Hm H | W W' B x ok H | W W' B x p pc randint op pc' Hx Hp _ Hn Hr].
  - pose proof (step_deliver _ _ _ _ Hm H) as Hs. split; [exact (sys_steps_one _ _ Hs) | exact (pcs_known_step _ _ _ HB Hs)].
  - pose proof (step_listen _ _ _ _ H) as Hs. split; [exact (sys_steps_one _ _ Hs) | exact (pcs_known_step _ _ _ HB Hs)].
  - destruct (boot_next_known W W' x p pc randint op pc' Hp (HB x pc Hx) Hn Hr) as [Hs Hk].
    split; [destruct Hs as [->|Hs]; [apply steps_refl | exact (sys_steps_one _ _ Hs)]|].
    intros y pcy Hy. destruct (assoc_set_inv _ _ _ _ _ Hy) as [[-> ->] | [_ Hy']]; [exact (after_known _ _ _ Hk)|].
    destruct Hs as [->|Hs]; [exact (HB y pcy Hy') | exact (pc_known_step _ _ _ _ (HB y pcy Hy') Hs)].
Qed.

(** C16: the bootstrap threads, run statement by statement as the code
    of [bootstrap] and [deepNodeSearch] has them, interleaved with the
    server threads, do nothing [System] does not allow: from a state in
    which every contact held by a thread's program counter is known to
    its node (for instance every thread at the top of its loop), every
    run of the threads is a run of [System].  Every invariant proved of
    [System] (typing, well-formed tables, a dead server stays dead)
    therefore holds of the program as written. *)
Theorem threads_refine_system W0 B0 W B : pcs_known W0 B0 -> thread_steps W0 B0 W B -> sys_steps W0 W.
Proof.
  intros H0 Hs. revert H0. induction Hs as [W B|W1 B1 W2 B2 W3 B3 H12 _ IH]; intros H0; [apply steps_refl|].
  destruct (thread_step_sys _ _ _ _ H0 H12) as [S12 K2]. exact (sys_steps_app _ _ _ S12 (IH K2)).
Qed.

(** ** A lookup run by the threads *)

(** A draw of [random.randint] within its bounds. *)
Definition randint_low (a b : Z) : Z := a.

Lemma randint_low_spec : randint_spec randint_low.
Proof. intros a b H. unfold randint_low. lia. Qed.

Lemma assoc_set_twice {A : Type} k (v v' : A) kvs : assoc_set k v (assoc_set k v' kvs) = assoc_set k v kvs.
Proof.
  induction kvs as [|[k' w] r IH]; [reflexivity|]. cbn [assoc_set].
  destruct (String.eqb k k') eqn:E; cbn [assoc_set]; rewrite E; [reflexivity | rewrite IH; reflexivity].
Qed.

Lemma thread_steps_app W1 B1 W2 B2 W3 B3 :
  thread_steps W1 B1 W2 B2 -> thread_steps W2 B2 W3 B3 -> thread_steps W1 B1 W3 B3.
Proof. induction 1; eauto using tsteps_trans. Qed.

Lemma thread_steps_one W B W' B' : thread_step W B W' B' -> thread_steps W B W' B'.
Proof. intros H. exact (tsteps_trans _ _ _ _ _ _ H (tsteps_refl _ _)). Qed.

(** One statement of [x]'s thread that leaves it running. *)
Lemma boot_move W W' B0 x p p' pc op pc' :
  assoc x B0 <> None -> assoc x (peers W) = Some p -> boot_next randint_low p pc = Some (op, pc') ->
  run_op W x op = Some W' -> assoc x (peers W') = Some p' -> boot p' = true ->
  thread_step W (assoc_set x pc B0) W' (assoc_set x pc' B0).
Proof.
  intros HB Hp Hn Hr Hp' Hb'. destruct (assoc x B0) as [pc0|] eqn:E; [|congruence].
  replace (assoc_set x pc' B0) with (assoc_set x (after W' x pc') (assoc_set x pc B0))
    by (unfold after; rewrite Hp', Hb'; apply assoc_set_twice).
  eapply ts_boot; [exact (assoc_set_eq _ _ _ _ E) | exact Hp | exact randint_low_spec | exact Hn | exact Hr].
Qed.

Lemma take_inv W x W' :
  take_response W x = Some W' ->
  exists p, assoc x (peers W) = Some p /\
    assoc x (peers W') = Some (mkPeer (mkHost (set_pendingResponse (self (host p)) JNull) (sent (host p)))
                                      (alive p) false (got p ++ [pendingResponse (self (host p))]) (boot p) (bound p)).
Proof.
  unfold take_response. destruct (assoc x (peers W)) as [p|] eqn:Hp; [|discriminate].
  destruct (negb (waiting p)); [discriminate|].
  destruct (pendingResponse (self (host p))) eqn:E; try discriminate; intros [= <-]; exists p;
    (split; [reflexivity|]); cbn [peers]; rewrite (assoc_set_eq _ _ _ _ Hp), E; reflexivity.
Qed.

(** The nodes a converged lookup reports as asked include those asked
    before. *)
Lemma search_loop_asked `{N : Network} fuel publicIP cid amount st r a :
  search_loop fuel publicIP cid amount st = Ok (Converged r a) -> incl (asked_nodes st) a.
Proof.
  revert st. induction fuel as [|fuel IH]; intros st H; [discriminate|].
  rewrite search_loop_S, search_step_split in H.
  destruct (search_select cid st) as [s|e] eqn:Hs; [|discriminate]. cbn [py_bind] in H.
  pose proof (search_select_inv _ _ _ Hs) as Hi. destruct s as [st'|ip st'].
  - destruct Hi as [_ Ha]. injection H as _ <-. rewrite Ha. apply incl_refl.
  - destruct Hi as (_ & node & key & _ & _ & Ha).
    destruct (askForClosestNodes _ _ _) as [[nn|]|e]; cbn [py_bind] in H; try discriminate.
    destruct (search_merge cid amount st' nn) as [r'|e] eqn:Hm; cbn [py_bind] in H; [|discriminate].
    pose proof (search_merge_closest _ _ _ _ _ Hm) as Hc.
    destruct r' as [st''|st''|]; [destruct Hc as [_ Ha'].. | discriminate].
    + injection H as _ <-. rewrite Ha', Ha. apply incl_appl, incl_refl.
    + intros n Hn. apply (IH st'' H). rewrite Ha', Ha. apply in_or_app. left. exact Hn.
Qed.

(** A contact the lookup asks: [{k: y}], [y] a running node other than
    [x] whose answer fits in one [recv(1024)]. *)
Definition asked_ok (W0 : world) (x target : string) (n : json) : Prop :=
  exists k y, n = JObj [(k, JStr y)] /\ y <> x /\ can_answer W0 target y.

(** [x]'s server runs and its bootstrap thread runs and is not waiting. *)
Definition ready (W : world) (x : string) : Prop :=
  exists px, assoc x (peers W) = Some px /\ publicIP (self (host px)) = x /\ serving px = true /\
             waiting px = false /\ boot px = true.

(** One iteration that asks [y]: the request, [y]'s answer, its
    delivery and the merge, as four steps of the threads. *)
Lemma thread_ask W0 W B0 x index target rest st st' y :
  assoc x B0 <> None -> ready W x -> same_tables W0 W -> keeps_servers W0 W ->
  search_select target st = Ok (SelAsk (JStr y) st') -> y <> x -> can_answer W0 target y ->
  (length (dumps (closest_request x target)) <= 1024)%nat ->
  exists W' res,
    thread_steps W (assoc_set x (BLookup index target rest st) B0) W'
                   (assoc_set x (merge_pc index target rest (search_merge target 5 st' (JArr res))) B0) /\
    ready W' x /\ same_tables W0 W' /\ keeps_servers W0 W' /\ wire W' = wire W /\
    @askForClosestNodes (peers_network (tables W0)) x target (JStr y) = Ok (Some (JArr res)).
Proof.
  intros HB (px & Hx & Hip & Hsx & Hwx & Hbx) Hs Hk Hsel Hyx Hc Hlq.
  destruct (can_answer_keep _ _ _ _ Hc Hk) as (py & res & Hy & Hsy & Hres & Hwf & Hlr).
  destruct (exchange_run W x y target px py res ltac:(congruence) Hx Hy Hip Hsx Hsy Hwx Hbx Hres Hwf Hlq Hlr)
    as (W1 & W2 & W3 & W4 & E1 & E2 & E3 & E4 & Hw4 & Hx4 & Hy4 & Ho).
  destruct (exchange_tables W x y target px py res W4 ltac:(congruence) Hx Hy Hx4 Hy4 Ho) as [Hs4 Hk4].
  pose proof (ask_sends W x y target px Hx Hwx Hbx (listening_some _ _ _ Hy Hsy)) as E1'.
  rewrite E1 in E1'. injection E1' as HW1.
  destruct (take_inv _ _ _ E4) as (p3 & Hx3 & Hx4').
  assert (Hpend : pendingResponse (self (host p3)) = JArr res).
  { rewrite Hx4 in Hx4'. apply (f_equal (option_map got)) in Hx4'. cbn in Hx4'. injection Hx4' as Hg.
    apply app_inj_tail in Hg as [_ Hg]. congruence. }
  exists W4, res. split; [|split; [|split; [exact (same_tables_trans _ _ _ Hs Hs4)|]]].
  - eapply tsteps_trans.
    { eapply (boot_move W W1 B0 x px); [exact HB | exact Hx | cbn [boot_next]; rewrite Hsel; reflexivity
                                       | exact E1 | rewrite HW1; cbn [peers]; exact (assoc_set_eq _ _ _ _ Hx)
                                       | reflexivity]. }
    eapply tsteps_trans; [eapply ts_deliver; [|exact E2]; lia|].
    eapply tsteps_trans; [eapply ts_deliver; [|exact E3]; lia|].
    apply thread_steps_one. eapply (boot_move W3 W4 B0 x p3 _ _ OpTake); [exact HB | exact Hx3 | | exact E4 | exact Hx4 | reflexivity].
    cbn [boot_next]. rewrite Hpend. reflexivity.
  - eexists. split; [exact Hx4|]. split; [exact Hip|]. split; [exact (serving_set _ _ _ _ _ Hsx)|]. auto.
  - split; [exact (keeps_servers_trans _ _ _ Hk Hk4)|]. split; [exact Hw4|].
    rewrite <- (ask_same_tables W0 W x target (JStr y) Hs).
    refine (peers_network_ask _ _ _ _ (peer_table_of py) _ _ Hres). rewrite assoc_tables, Hy. reflexivity.
Qed.

(** The lookup's loop, iteration by iteration, run by the threads. *)
Lemma thread_search fuel W0 W B0 x index target rest st result asked :
  assoc x B0 <> None -> ready W x -> same_tables W0 W -> keeps_servers W0 W ->
  @search_loop (peers_network (tables W0)) fuel x target 5 st = Ok (Converged result asked) ->
  Forall (asked_ok W0 x target) asked ->
  (length (dumps (closest_request x target)) <= 1024)%nat ->
  exists W', thread_steps W (assoc_set x (BLookup index target rest st) B0) W' (assoc_set x (BFill index rest result) B0) /\
    same_tables W0 W' /\ wire W' = wire W.
Proof.
  revert W st. induction fuel as [|fuel IH]; intros W st HB Hr Hs Hk H Ha Hlq; [discriminate|].
  rewrite search_loop_S, search_step_split in H.
  destruct (search_select target st) as [s|e] eqn:Hsel; [|discriminate]. cbn [py_bind] in H.
  pose proof (search_select_inv _ _ _ Hsel) as Hi. destruct s as [st'|ip st'].
  - injection H as <- <-. exists W. split; [|split; [exact Hs | reflexivity]].
    destruct Hr as (px & Hx & _ & _ & Hw & Hb). apply thread_steps_one.
    eapply (boot_move W W B0 x px px _ OpLocal);
      [exact HB | exact Hx | cbn [boot_next]; rewrite Hsel; reflexivity
      | cbn [run_op]; rewrite Hx, Hw, Hb; reflexivity | exact Hx | exact Hb].
  - destruct Hi as (_ & node & key & Hkey & Hip & Hasked).
    destruct (askForClosestNodes _ _ _) as [[nn|]|e] eqn:Hask; cbn [py_bind] in H; try discriminate.
    destruct (search_merge target 5 st' nn) as [r|e] eqn:Hm; cbn [py_bind] in H; [|discriminate].
    pose proof (search_merge_closest _ _ _ _ _ Hm) as Hc.
    assert (Hn : In node asked).
    { destruct r as [st''|st''|]; [destruct Hc as [_ Ha'].. | contradiction].
      - injection H as _ <-. rewrite Ha', Hasked. apply in_or_app. right. left. reflexivity.
      - apply (search_loop_asked _ _ _ _ _ _ _ H). rewrite Ha', Hasked. apply in_or_app. right. left. reflexivity. }
    destruct (proj1 (List.Forall_forall _ _) Ha node Hn) as (k & y & -> & Hyx & Hcan).
    cbn in Hkey. injection Hkey as <-. cbn in Hip. rewrite String.eqb_refl in Hip. injection Hip as <-.
    destruct (thread_ask W0 W B0 x index target rest st st' y HB Hr Hs Hk Hsel Hyx Hcan Hlq)
      as (W' & res & Hst & Hr' & Hs' & Hk' & Hw' & Hask').
    rewrite Hask' in Hask. injection Hask as <-. rewrite Hm in Hst.
    destruct r as [st''|st''|]; [| |contradiction].
    + injection H as <- <-. exists W'. auto.
    + destruct (IH W' st'' HB Hr' Hs' Hk' H Ha Hlq) as (W'' & Hst' & Hs'' & Hw'').
      exists W''. split; [exact (thread_steps_app _ _ _ _ _ _ Hst Hst')|]. split; [exact Hs''|]. congruence.
Qed.

(** C15: a lookup the bootstrap thread runs through the system computes
    what [Lookup.deepNodeSearch] computes.  When [x]'s server and
    bootstrap thread run and the thread starts [deepNodeSearch(target, 5)]
    for [bucketTargets[index]], and [deepNodeSearch] under
    [peers_network] of the tables converges to [result] after asking
    running nodes whose answers fit in one [recv(1024)], then the threads
    can bring [x]'s thread, through its requests, the peers' answers and
    its busy waits, to the loop of lines 43-47 over exactly [result];
    the tables and the frames in flight are then as before.  So the
    theorems of [Lookup] (termination, sorted and bounded results, the
    convergence test) are theorems about the running program. *)
Theorem thread_lookup_refines W B0 x px index target rest result asked :
  assoc x B0 <> None -> assoc x (peers W) = Some px -> publicIP (self (host px)) = x ->
  serving px = true -> waiting px = false -> boot px = true ->
  @deepNodeSearch (peers_network (tables W)) (DHT (self (host px))) x target 5 = Ok (Converged result asked) ->
  Forall (asked_ok W x target) asked ->
  (length (dumps (closest_request x target)) <= 1024)%nat ->
  exists W', thread_steps W (assoc_set x (lookup_start index (target :: rest) (host px)) B0) W'
                          (assoc_set x (BFill index rest result) B0) /\
    same_tables W W' /\ wire W' = wire W.
Proof.
  intros HB Hx Hip Hs Hw Hb H Ha Hlq. unfold deepNodeSearch in H. cbn [lookup_start].
  destruct (getClosestCIDs _ _ _) as [seed|e]; cbn [py_bind] in H; [|discriminate].
  refine (thread_search _ W W B0 x index target rest _ result asked HB _ _ _ H Ha Hlq).
  - exists px. auto.
  - intros a. reflexivity.
  - intros a p Hp Hsp. exists p. auto.
Qed.

(** ** A wait nobody answers *)

(** A statement of the thread of [x] waiting in [askForClosestNodes]
    cannot run while its slot is empty. *)
Lemma boot_next_stuck randint p index target rest st :
  pendingResponse (self (host p)) = JNull -> boot_next randint p (BWait index target rest st) = None.
Proof. intros H. cbn [boot_next]. rewrite H. reflexivity. Qed.

Lemma thread_step_blocked W B W' B' x g index target rest st :
  pcs_known W B -> stuck x g W -> assoc x B = Some (BWait index target rest st) ->
  thread_step W B W' B' ->
  assoc x B' = Some (BWait index target rest st) /\ stuck x g W' /\ pcs_known W' B'.
Proof.
  intros HB Hst Hx Hs. destruct (thread_step_sys _ _ _ _ HB Hs) as [Hss Hk].
  split; [|exact (conj (stuck_steps _ _ _ _ Hst Hss) Hk)].
  destruct Hs as [| |W W' B y p pc randint op pc' Hy Hp _ Hn _]; [exact Hx | exact Hx|].
  destruct (String.eqb_spec x y) as [<-|Hne]; [|rewrite (assoc_set_ne _ _ _ _ Hne); exact Hx].
  destruct Hst as (p0 & Hp0 & _ & _ & Hpend & _). rewrite Hp0 in Hp. injection Hp as <-.
  rewrite Hx in Hy. injection Hy as <-. rewrite (boot_next_stuck _ _ _ _ _ _ Hpend) in Hn. discriminate.
Qed.

Lemma thread_steps_blocked W B W' B' x g index target rest st :
  pcs_known W B -> stuck x g W -> assoc x B = Some (BWait index target rest st) ->
  thread_steps W B W' B' -> assoc x B' = Some (BWait index target rest st) /\ stuck x g W'.
Proof.
  intros HB Hst Hx Hs. revert HB Hst Hx. induction Hs as [|W1 B1 W2 B2 W3 B3 H1 _ IH]; intros HB Hst Hx; [auto|].
  destruct (thread_step_blocked _ _ _ _ _ _ _ _ _ _ HB Hst Hx H1) as (Hx2 & Hst2 & HB2). exact (IH HB2 Hst2 Hx2).
Qed.

(** C17: once the server thread of [x] has ended with its slot empty
    while the bootstrap thread of [x] waits in [askForClosestNodes], that
    thread never makes another statement: in every interleaving of all
    threads it is still at the same wait, the node is still waiting, its
    slot is still empty and it has taken no answer. *)
Theorem thread_blocked_forever W B W' B' x g index target rest st :
  pcs_known W B -> stuck x g W -> assoc x B = Some (BWait index target rest st) ->
  thread_steps W B W' B' -> assoc x B' = Some (BWait index target rest st) /\ stuck x g W'.
Proof. exact (thread_steps_blocked W B W' B' x g index target rest st). Qed.

(** ** Witnesses *)

(** Both threads of both nodes at the start. *)
Definition pcs_init : pcs := [(ip_X, BTop); (ip_Y, BTop)].

(** The targets X draws with [randint_low]. *)
Definition targets_X : list string :=
  match py_mapM (generateTargetCID randint_low cid_X) (map Z.of_nat (seq 0 160)) with
  | Ok t => t
  | Raise _ => []
  end.

Lemma pcs_init_known : pcs_known world_init pcs_init.
Proof.
  intros y pc Hy. cbn [assoc pcs_init] in Hy.
  destruct (String.eqb y ip_X); [injection Hy as <-; exact I|].
  destruct (String.eqb y ip_Y); [injection Hy as <-; exact I | discriminate].
Qed.

(** Both servers bind, X's thread draws its targets and announces
    itself to Y. *)
Lemma threads_join_run : exists B, thread_steps world_init pcs_init join1 B.
Proof.
  eexists.
  eapply tsteps_trans; [apply (ts_listen _ _ _ ip_Y true); vm_compute; reflexivity|].
  eapply tsteps_trans; [apply (ts_listen _ _ _ ip_X true); vm_compute; reflexivity|].
  eapply tsteps_trans.
  { apply (ts_boot _ _ _ ip_X (peer_at world_join ip_X) BTop randint_low OpLocal (BAnnounce targets_X [ip_Y]));
      [vm_compute; reflexivity | vm_compute; reflexivity | exact randint_low_spec
      | vm_compute; reflexivity | vm_compute; reflexivity]. }
  eapply tsteps_trans.
  { apply (ts_boot _ _ _ ip_X (peer_at world_join ip_X) (BAnnounce targets_X [ip_Y]) randint_low (OpAnnounce ip_Y)
             (BAnnounce targets_X []));
      [vm_compute; reflexivity | vm_compute; reflexivity | exact randint_low_spec
      | vm_compute; reflexivity | vm_compute; reflexivity]. }
  apply tsteps_refl.
Qed.

Lemma threads_refine_system_witness : sys_steps world_init join1.
Proof.
  destruct threads_join_run as [B HB].
  exact (threads_refine_system world_init pcs_init join1 B pcs_init_known HB).
Defined.

(** After the join, X's thread looks up [cid_Z]: it asks Y, whose
    answer lists X, and the lookup returns Y and X itself. *)
Lemma thread_lookup_refines_witness :
  exists W', thread_steps join3 (assoc_set ip_X (lookup_start 0 [cid_Z] (host (peer_at join3 ip_X))) [(ip_X, BTop)]) W'
                 (assoc_set ip_X (BFill 0 [] [JObj [(cid_Y, JStr ip_Y)]; JObj [(cid_X, JStr ip_X)]]) [(ip_X, BTop)]) /\
    same_tables join3 W' /\ wire W' = wire join3.
Proof.
  apply (thread_lookup_refines join3 [(ip_X, BTop)] ip_X (peer_at join3 ip_X) 0 cid_Z []
           _ [JObj [(cid_Y, JStr ip_Y)]]).
  - intros H. vm_compute in H. discriminate.
  - vm_compute. reflexivity.
  - vm_compute. reflexivity.
  - vm_compute. reflexivity.
  - vm_compute. reflexivity.
  - vm_compute. reflexivity.
  - vm_compute. reflexivity.
  - constructor; [|constructor]. exists cid_Y, ip_Y. split; [reflexivity|].
    split; [unfold ip_X, ip_Y; congruence | exact join3_Y_answers].
  - vm_compute. lia.
Defined.

(** X's server thread has ended while its bootstrap thread waits for
    Y's answer on its lookup of [cid_Z]; Y keeps running. *)
Definition world_hung : world :=
  mkWorld [(ip_X, mkPeer host_X0 false true [] true true);
           (ip_Y, mkPeer (mkHost (mkNode ip_Y cid_Y empty_DHT JNull []) []) true false [] true true)] [].

Definition search_hung : search_state := mkSearch [] [contact cid_Y ip_Y] None.

Definition pcs_hung : pcs := [(ip_X, BWait 0 cid_Z [] search_hung); (ip_Y, BTop)].

Lemma pcs_hung_known : pcs_known world_hung pcs_hung.
Proof.
  intros y pc Hy. cbn [assoc pcs_hung] in Hy.
  destruct (String.eqb y ip_X); [injection Hy as <-; constructor|].
  destruct (String.eqb y ip_Y); [injection Hy as <-; exact I | discriminate].
Qed.

(** Y's thread makes its first statement. *)
Lemma hung_run : exists B', thread_step world_hung pcs_hung world_hung B' /\ assoc ip_Y B' <> Some BTop.
Proof.
  eexists. split.
  - eapply (ts_boot _ _ _ ip_Y _ BTop randint_low); [reflexivity | reflexivity | exact randint_low_spec | | ].
    + vm_compute. reflexivity.
    + vm_compute. reflexivity.
  - vm_compute. discriminate.
Qed.

Lemma thread_blocked_forever_witness :
  exists W' B', thread_steps world_hung pcs_hung W' B' /\ assoc ip_Y B' <> Some BTop /\
    assoc ip_X B' = Some (BWait 0 cid_Z [] search_hung) /\ stuck ip_X [] W'.
Proof.
  destruct hung_run as (B' & H1 & HY). exists world_hung, B'.
  destruct (thread_blocked_forever world_hung pcs_hung world_hung B' ip_X [] 0 cid_Z [] search_hung pcs_hung_known
              (ex_intro _ _ (conj eq_refl (conj eq_refl (conj eq_refl (conj eq_refl eq_refl))))) eq_refl
              (thread_steps_one _ _ _ _ H1)) as [HX Hst].
  split; [exact (thread_steps_one _ _ _ _ H1)|]. auto.
Defined.
