(* ===== verification/Scheduler.v ===== *)
(** One schedule of the threads, as a function that runs.

    [Threads.thread_step] lets any thread move.  [sched_step] picks one
    move by a fixed rule: deliver the oldest frame in flight whole, else
    let a server that has not bound its listener bind it, else run the
    next statement of the first bootstrap thread that can make one, with
    [random.randint] drawing its lower bound.  [run_sched] repeats this
    with fuel until a stop condition holds, the way an interpreter runs a
    machine, and [run_sched_sound] shows that what it computes is a run
    of the threads.  A run can then be evaluated: the two-node join of
    the description, one whole bootstrap cycle of X from the state
    [Node.__init__] leaves, is computed by [vm_compute]. *)

From Stdlib Require Import ZArith Lia Ascii String.
From stdpp Require Import base list.
From S2P Require Import Prelude Json Metric RoutingTable Lookup Dispatcher Bootstrap System Threads.

Local Open Scope Z_scope.

(** The first node, in the order of [xs], whose server thread runs and
    has not bound its listener. *)
Fixpoint listen_first (W : world) (xs : list string) : option world :=
  match xs with
  | [] => None
  | x :: xs' => match listen W x true with Some W' => Some W' | None => listen_first W xs' end
  end.

(** The next statement of the first bootstrap thread, in the order of
    [xs], that can make one. *)
Fixpoint boot_first (W : world) (B : pcs) (xs : list string) : option (world * pcs) :=
  match xs with
  | [] => None
  | x :: xs' =>
      match assoc x B, assoc x (peers W) with
      | Some pc, Some p =>
          match boot_next randint_low p pc with
          | Some (op, pc') =>
              match run_op W x op with
              | Some W' => Some (W', assoc_set x (after W' x pc') B)
              | None => boot_first W B xs'
              end
          | None => boot_first W B xs'
          end
      | _, _ => boot_first W B xs'
      end
  end.

Definition sched_step (W : world) (B : pcs) : option (world * pcs) :=
  match deliver W 0 1024 with
  | Some W' => Some (W', B)
  | None =>
      match listen_first W (map fst (peers W)) with
      | Some W' => Some (W', B)
      | None => boot_first W B (map fst B)
      end
  end.

(** At most [fuel] scheduled moves, stopping after the first move that
    reaches a state [stop] accepts, or when no thread can move. *)
Fixpoint run_sched (fuel : nat) (stop : pcs -> bool) (W : world) (B : pcs) : world * pcs :=
  match fuel with
  | O => (W, B)
  | S fuel' =>
      match sched_step W B with
      | Some (W', B') => if stop B' then (W', B') else run_sched fuel' stop W' B'
      | None => (W, B)
      end
  end.

(** ** The schedule is a run of the threads *)

Lemma listen_first_step W xs W' B : listen_first W xs = Some W' -> thread_step W B W' B.
Proof.
  induction xs as [|x xs IH]; cbn; [discriminate|].
  destruct (listen W x true) eqn:E; [intros [= <-]; exact (ts_listen _ _ _ _ _ E) | exact IH].
Qed.

Lemma boot_first_step W B xs W' B' : boot_first W B xs = Some (W', B') -> thread_step W B W' B'.
Proof.
  induction xs as [|x xs IH]; cbn; [discriminate|].
  destruct (assoc x B) as [pc|] eqn:Hx; [|exact IH]. destruct (assoc x (peers W)) as [p|] eqn:Hp; [|exact IH].
  destruct (boot_next randint_low p pc) as [[op pc']|] eqn:Hn; [|exact IH].
  destruct (run_op W x op) as [W1|] eqn:Hr; [|exact IH]. intros [= <- <-].
  exact (ts_boot _ _ _ _ _ _ _ _ _ Hx Hp randint_low_spec Hn Hr).
Qed.

Lemma sched_step_sound W B W' B' : sched_step W B = Some (W', B') -> thread_step W B W' B'.
Proof.
  unfold sched_step. destruct (deliver W 0 1024) as [W1|] eqn:E.
  - intros [= <- <-]. apply (ts_deliver _ _ _ 0 1024); [lia | exact E].
  - destruct (listen_first W _) as [W1|] eqn:L; [intros [= <- <-]; exact (listen_first_step _ _ _ _ L)|].
    apply boot_first_step.
Qed.

(** Whatever the fuel and the stop condition, the scheduler computes a
    run of the threads. *)
Lemma run_sched_sound fuel stop W B : thread_steps W B (fst (run_sched fuel stop W B)) (snd (run_sched fuel stop W B)).
Proof.
  revert W B. induction fuel as [|fuel IH]; intros W B; cbn [run_sched]; [apply tsteps_refl|].
  destruct (sched_step W B) as [[W1 B1]|] eqn:E; [|apply tsteps_refl].
  pose proof (sched_step_sound _ _ _ _ E) as H.
  destruct (stop B1); [exact (thread_steps_one _ _ _ _ H) | exact (tsteps_trans _ _ _ _ _ _ H (IH W1 B1))].
Qed.

(** ** One bootstrap cycle, evaluated *)

(** Whether the bootstrap thread of [x] stands at the head of its
    [while True] loop. *)
Definition at_top (x : string) (B : pcs) : bool :=
  match assoc x B with Some BTop => true | _ => false end.

(** Run the schedule until the thread of [x] has left the head of its
    loop, then until it is back there: one pass of the loop body of
    [Node.bootstrap] with every move of the other threads in between. *)
Definition boot_cycle (x : string) (W : world) (B : pcs) : world * pcs :=
  let R1 := run_sched 10 (fun B' => negb (at_top x B')) W B in
  run_sched 3000 (at_top x) (fst R1) (snd R1).

Lemma boot_cycle_sound x W B : thread_steps W B (fst (boot_cycle x W B)) (snd (boot_cycle x W B)).
Proof. unfold boot_cycle. eapply thread_steps_app; apply run_sched_sound. Qed.

