(* ===== verification/Show.v ===== *)
(** [Node.showDHT] (lines 168-176): the text it prints.

    [showDHT] walks the 160 buckets with [enumerate], skips the empty
    ones, and prints for each of the others [f"Bucket {i}: "], then
    [f"{node} "] for every contact, then a newline.  [f"{node}"] is
    [str(node)], which for a dict is its [repr]: [{'cid': 'ip'}], the
    keys and string values written by [str.__repr__] (quotes chosen by the
    content, backslash escapes, [\xNN] for unprintable characters).  The
    printed text is modelled as the list of characters written to
    [sys.stdout].

    The theorem: whatever a table holds, [showDHT] prints exactly one line
    per non-empty bucket, because [repr] never writes a raw newline. *)

From Stdlib Require Import ZArith Lia Ascii String.
From stdpp Require Import base list.
From S2P Require Import Prelude Json Wire RoutingTable Lookup.

Local Open Scope Z_scope.

Definition nl : ascii := "010"%char.
Definition backslash : ascii := "092"%char.
Definition squote : ascii := "'"%char.

(** A lowercase hex digit, as [\xNN] writes it. *)
Definition hexdig (n : nat) : ascii := ascii_of_nat (if Nat.ltb n 10 then 48 + n else 87 + n).

(** [Py_UNICODE_ISPRINTABLE] on code points up to 255: ASCII from space
    to [~], and Latin-1 from [0xA1] on except the soft hyphen [0xAD]. *)
Definition py_printable (c : ascii) : bool :=
  let n := nat_of_ascii c in
  (Nat.leb 32 n && Nat.ltb n 127) || (Nat.leb 161 n && negb (Nat.eqb n 173)).

(** One character of [unicode_repr] with the quote [q]. *)
Definition repr_char (q c : ascii) : list ascii :=
  let n := nat_of_ascii c in
  if Ascii.eqb c q || Ascii.eqb c backslash then [backslash; c]
  else if Nat.eqb n 9 then [backslash; "t"%char]
  else if Nat.eqb n 10 then [backslash; "n"%char]
  else if Nat.eqb n 13 then [backslash; "r"%char]
  else if py_printable c then [c]
  else [backslash; "x"%char; hexdig (n / 16); hexdig (n mod 16)].

(** [str.__repr__]: single quotes, unless the string holds a single quote
    and no double quote. *)
Definition py_str_repr (s : string) : list ascii :=
  let l := list_ascii_of_string s in
  let q := if existsb (Ascii.eqb squote) l && negb (existsb (Ascii.eqb qchar) l) then qchar else squote in
  q :: concat (map (repr_char q) l) ++ [q].

(** [", ".join(parts)]. *)
Fixpoint py_join (sep : list ascii) (parts : list (list ascii)) : list ascii :=
  match parts with
  | [] => []
  | [p] => p
  | p :: ps => p ++ sep ++ py_join sep ps
  end.

Definition chars (s : string) : list ascii := list_ascii_of_string s.

(** [repr] of a value [json.loads] produced: [None], [True], [False],
    [int.__repr__], [str.__repr__], [list.__repr__] and [dict.__repr__]. *)
Fixpoint py_repr (j : json) : list ascii :=
  match j with
  | JNull => chars "None"
  | JBool true => chars "True"
  | JBool false => chars "False"
  | JInt z => enc_int z
  | JStr s => py_str_repr s
  | JArr l => "["%char :: py_join (chars ", ") (map py_repr l) ++ ["]"%char]
  | JObj kvs =>
      "{"%char :: py_join (chars ", ") (map (fun kv => py_str_repr kv.1 ++ chars ": " ++ py_repr kv.2) kvs)
      ++ ["}"%char]
  end.

(** The inner loop: [print(f"{node} ", end="")] for each contact. *)
Definition show_nodes (bucket : list json) : list ascii :=
  concat (map (fun node => py_repr node ++ [" "%char]) bucket).

(** The outer loop from index [i]. *)
Fixpoint show_buckets (i : Z) (DHT : list (list json)) : list ascii :=
  match DHT with
  | [] => []
  | bucket :: rest =>
      match bucket with
      | [] => []
      | _ :: _ => chars "Bucket " ++ enc_int i ++ chars ": " ++ show_nodes bucket ++ [nl]
      end ++ show_buckets (i + 1) rest
  end.

(** [Node.showDHT]. *)
Definition showDHT (DHT : list (list json)) : list ascii := show_buckets 0 DHT.

(** ** The output is one line per non-empty bucket *)

Definition no_nl (l : list ascii) : bool := forallb (fun c => negb (Ascii.eqb c nl)) l.

Lemma no_nl_app l1 l2 : no_nl (l1 ++ l2) = no_nl l1 && no_nl l2.
Proof. apply forallb_app. Qed.

Lemma no_nl_concat_map {A} (g : A -> list ascii) (l : list A) :
  Forall (fun y => no_nl (g y) = true) l -> no_nl (concat (map g l)) = true.
Proof.
  induction 1 as [|y l Hy _ IH]; [reflexivity|]. cbn [map concat]. rewrite no_nl_app, Hy, IH. reflexivity.
Qed.

Lemma no_nl_join sep parts :
  no_nl sep = true -> Forall (fun p => no_nl p = true) parts -> no_nl (py_join sep parts) = true.
Proof.
  intros Hs. induction 1 as [|p ps Hp Hps IH]; [reflexivity|].
  destruct ps as [|p' ps']; [exact Hp|]. change (no_nl (p ++ sep ++ py_join sep (p' :: ps')) = true). rewrite !no_nl_app, Hp, Hs, IH. reflexivity.
Qed.

Lemma repr_char_no_nl q c : q = squote \/ q = qchar -> no_nl (repr_char q c) = true.
Proof. intros [-> | ->]; destruct c as [[] [] [] [] [] [] [] []]; reflexivity. Qed.

Lemma str_repr_no_nl s : no_nl (py_str_repr s) = true.
Proof.
  unfold py_str_repr.
  set (q := if existsb (Ascii.eqb squote) (list_ascii_of_string s) &&
               negb (existsb (Ascii.eqb qchar) (list_ascii_of_string s)) then qchar else squote).
  assert (Hq : q = squote \/ q = qchar) by (unfold q; destruct (_ && _); auto).
  change (no_nl ([q] ++ concat (map (repr_char q) (list_ascii_of_string s)) ++ [q]) = true).
  rewrite !no_nl_app, no_nl_concat_map; [destruct Hq as [-> | ->]; reflexivity|].
  apply Forall_forall. intros c _. apply repr_char_no_nl, Hq.
Qed.

Lemma digits_no_nl D : Forall (fun c => is_digit c = true) D -> no_nl D = true.
Proof.
  induction 1 as [|c D Hc _ IH]; [reflexivity|].
  change (negb (Ascii.eqb c nl) && no_nl D = true). rewrite IH, andb_true_r.
  destruct (Ascii.eqb_spec c nl) as [->|]; [discriminate | reflexivity].
Qed.

Lemma enc_int_no_nl z : no_nl (enc_int z) = true.
Proof.
  unfold enc_int. destruct (Z.ltb_spec z 0).
  - destruct (dec_digits_spec (- z)) as (d & D & -> & Hd & HD & _); [lia|].
    change (true && no_nl (d :: D) = true). exact (digits_no_nl (d :: D) ltac:(constructor; assumption)).
  - destruct (dec_digits_spec z) as (d & D & -> & Hd & HD & _); [lia|].
    exact (digits_no_nl (d :: D) ltac:(constructor; assumption)).
Qed.

(** [repr] never writes a raw newline. *)
Lemma py_repr_no_nl j : no_nl (py_repr j) = true.
Proof.
  induction j as [| [] | z | s | l IH | kvs IH] using json_ind'; try reflexivity.
  - apply enc_int_no_nl.
  - apply str_repr_no_nl.
  - change (no_nl (["["%char] ++ py_join (chars ", ") (map py_repr l) ++ ["]"%char]) = true).
    rewrite !no_nl_app, no_nl_join; [reflexivity | reflexivity|].
    apply Forall_fmap. exact IH.
  - change (no_nl (["{"%char] ++ py_join (chars ", ")
              (map (fun kv => py_str_repr kv.1 ++ chars ": " ++ py_repr kv.2) kvs) ++ ["}"%char]) = true).
    rewrite !no_nl_app, no_nl_join; [reflexivity | reflexivity|].
    apply Forall_fmap. eapply Forall_impl; [exact IH|]. intros [k v] Hv. cbn [fst snd] in Hv. change (no_nl (py_str_repr k ++ chars ": " ++ py_repr v) = true).
    rewrite !no_nl_app, str_repr_no_nl, Hv. reflexivity.
Qed.

Lemma count_nl_no_nl l : no_nl l = true -> count_occ ascii_dec l nl = 0%nat.
Proof.
  induction l as [|c l IH]; [reflexivity|]. cbn. intros (Hc & Hl)%andb_prop.
  destruct (ascii_dec c nl) as [->|]; [discriminate | exact (IH Hl)].
Qed.

Lemma show_nodes_no_nl bucket : no_nl (show_nodes bucket) = true.
Proof.
  apply no_nl_concat_map, Forall_forall. intros node _. rewrite no_nl_app, py_repr_no_nl. reflexivity.
Qed.

Definition nonempty_buckets (DHT : list (list json)) : nat :=
  length (List.filter (fun bucket => match bucket with [] => false | _ :: _ => true end) DHT).

Lemma show_buckets_lines i DHT : count_occ ascii_dec (show_buckets i DHT) nl = nonempty_buckets DHT.
Proof.
  revert i. induction DHT as [|b DHT IH]; intros i; [reflexivity|]. cbn [show_buckets].
  rewrite count_occ_app, IH. unfold nonempty_buckets. cbn [List.filter].
  destruct b as [|node b]; [reflexivity|]. cbn [length].
  rewrite !count_occ_app, !count_nl_no_nl by (apply enc_int_no_nl || apply show_nodes_no_nl || reflexivity).
  cbn. destruct (ascii_dec nl nl); [reflexivity | congruence].
Qed.

(** ** Contacts with plain text print as themselves *)

(** Printable 7-bit characters other than the single quote and the
    backslash: hex digits and dotted addresses. *)
Definition plain_char (c : ascii) : bool :=
  let n := nat_of_ascii c in
  Nat.leb 32 n && Nat.ltb n 127 && negb (Ascii.eqb c squote) && negb (Ascii.eqb c backslash).

Lemma repr_char_plain c : plain_char c = true -> repr_char squote c = [c].
Proof. destruct c as [[] [] [] [] [] [] [] []]; first [discriminate | reflexivity]. Qed.

Lemma plain_no_squote l : forallb plain_char l = true -> existsb (Ascii.eqb squote) l = false.
Proof.
  induction l as [|c l IH]; [reflexivity|]. cbn [existsb forallb]. intros (Hc & Hl)%andb_prop. rewrite (IH Hl), orb_false_r.
  destruct (Ascii.eqb_spec squote c) as [<-|]; [discriminate | reflexivity].
Qed.

Lemma str_repr_plain s :
  forallb plain_char (chars s) = true -> py_str_repr s = squote :: chars s ++ [squote].
Proof.
  unfold py_str_repr, chars. intros Hp. rewrite (plain_no_squote _ Hp). cbn [andb]. f_equal. f_equal.
  induction (list_ascii_of_string s) as [|c l IH]; [reflexivity|].
  apply andb_prop in Hp as [Hc Hl]. cbn [map concat]. rewrite (repr_char_plain c Hc), (IH Hl). reflexivity.
Qed.

(** A contact [{cid: ip}] of plain strings prints as [{'cid': 'ip'}]. *)
Lemma contact_repr k ip :
  forallb plain_char (chars k) = true -> forallb plain_char (chars ip) = true ->
  py_repr (JObj [(k, JStr ip)]) =
  "{"%char :: squote :: chars k ++ squote :: chars ": " ++ squote :: chars ip ++ [squote; "}"%char].
Proof.
  intros Hk Hip. cbn [py_repr map py_join fst snd]. rewrite (str_repr_plain k Hk), (str_repr_plain ip Hip).
  cbn. rewrite <- !app_assoc. cbn. rewrite <- app_assoc. reflexivity.
Qed.

(** whatever the table holds (any JSON value that a frame carried),
    [showDHT] prints exactly one line per non-empty bucket: [repr] of a
    contact never writes a raw newline, so a contact cannot break or add
    a line. *)
Theorem showDHT_one_line_per_bucket DHT : count_occ ascii_dec (showDHT DHT) nl = nonempty_buckets DHT.
Proof. exact (show_buckets_lines 0 DHT). Qed.

(** X's table of the lookup scenarios holds Y in bucket 158. *)
Example showDHT_table_X :
  showDHT table_X = chars ("Bucket 158: {'" ++ cid_Y ++ "': '10.0.0.11'} ") ++ [nl].
Proof. vm_compute. reflexivity. Qed.

(** A contact whose address holds a newline is printed escaped, on the
    bucket's line. *)
Example showDHT_escapes_newline :
  showDHT (<[3%nat := [JObj [(cid_W, JStr (String nl "x"))]]]> empty_DHT) =
  chars ("Bucket 3: {'" ++ cid_W ++ "': '") ++ [backslash; "n"%char; "x"%char; squote; "}"%char; " "%char; nl].
Proof. vm_compute. reflexivity. Qed.
